(** * The impersonation-proxy configuration controller

    A shallow embedding of
    [internal/controller/impersonatorconfig/impersonator_config.go]:
    the desired-state predicates, the proxy server life cycle, the
    reconciliation of the exposure Services, the certificate-name resolver,
    the CA / TLS Secret reconciliation, the status composer, [Sync] and the
    constructor, followed by the properties proved about them.

    Go maps are [gmap]s (a nil map and an empty map are the same value, as
    they are for [equality.Semantic.DeepEqual]); byte slices are lists of
    [byte]; a Go function with an [error] result is a function into
    [error + A]; methods that touch the cluster or the controller's mutable
    fields are state transformers over [world]. *)

From Stdlib Require Import ZArith Lia Bool Ascii String List.
From Stdlib.Strings Require Import Byte.
From Stdlib Require Import DecimalString.
From stdpp Require Import gmap strings list fin_maps sorting.

Local Open Scope string_scope.
Local Open Scope list_scope.

Set Warnings "-register-all".

Abbreviation bytes := (list byte).

#[global] Instance byte_eq_decision : EqDecision byte := Byte.byte_eq_dec.

(** ** Go errors *)

(** The error values that flow through the controller.  [StatusError] is a
    Kubernetes API status error with its reason; [wrapError] is
    [fmt.Errorf("...: %w", err)]; [aggregate] is the value built by
    [errors.NewAggregate]; [runtimePanic] stands for a Go run-time panic
    (nil dereference), which unwinds the pass the way an error return does. *)
Inductive StatusReason := StatusReasonNotFound | StatusReasonAlreadyExists | StatusReasonConflict | StatusReasonInternalError.

Inductive error :=
| StatusError (reason : StatusReason) (name : string)
| errorString (msg : string)
| wrapError (msg : string) (err : error)
| aggregate (errs : list error)
| runtimePanic (msg : string).

#[global] Instance StatusReason_eq_dec : EqDecision StatusReason.
Proof. solve_decision. Defined.

(** [k8serrors.IsNotFound]: a type switch on the error itself. *)
Definition IsNotFound (err : option error) : bool :=
  match err with
  | Some (StatusError StatusReasonNotFound _) => true
  | _ => false
  end.

(** [errors.NewAggregate]: nil entries are dropped; an empty list is nil. *)
Definition NewAggregate (errlist : list (option error)) : option error :=
  match omap id errlist with
  | [] => None
  | errs => Some (aggregate errs)
  end.

(** [utilerrors.FilterOut(err, k8serrors.IsNotFound)] on a plain error. *)
Definition FilterOutNotFound (err : option error) : option error :=
  if IsNotFound err then None else err.

(** ** [net.IP] *)

Module net.

(** A [net.IP] is a byte slice; the nil IP is the empty list. *)
Definition IP := bytes.

Definition IPv4len : nat := 4.
Definition IPv6len : nat := 16.

Definition v4InV6Prefix : bytes :=
  [x00; x00; x00; x00; x00; x00; x00; x00; x00; x00; xff; xff].

(** [IP.To4]: the 4-byte form of an IPv4 address, [None] for nil. *)
Definition To4 (ip : IP) : option IP :=
  if bool_decide (length ip = IPv4len) then Some ip
  else if bool_decide (length ip = IPv6len) && bool_decide (take 12 ip = v4InV6Prefix)
       then Some (drop 12 ip)
       else None.

(** [IP.Equal]: an IPv4 address and its IPv6 form are the same address. *)
Definition Equal (ip x : IP) : bool :=
  if bool_decide (length ip = length x) then bool_decide (ip = x)
  else if bool_decide (length ip = IPv4len) && bool_decide (length x = IPv6len)
       then bool_decide (take 12 x = v4InV6Prefix) && bool_decide (ip = drop 12 x)
  else if bool_decide (length ip = IPv6len) && bool_decide (length x = IPv4len)
       then bool_decide (take 12 ip = v4InV6Prefix) && bool_decide (drop 12 ip = x)
  else false.

(** [net.IPv4(a, b, c, d)]: the 16-byte form. *)
Definition IPv4 (a b c d : byte) : IP := v4InV6Prefix ++ [a; b; c; d].

End net.

(** [strings.TrimSuffix]. *)
Definition TrimSuffix (s suffix : string) : string :=
  let n := String.length s in
  let m := String.length suffix in
  if (m <=? n)%nat && String.eqb (substring (n - m) m s) suffix
  then substring 0 (n - m) s
  else s.

(** ** API types *)

Module v1alpha1.

(** [ImpersonationProxyMode]; [ModeOther] is any string that is not one
    of the three known values. *)
Inductive ImpersonationProxyMode :=
| ImpersonationProxyModeDisabled
| ImpersonationProxyModeEnabled
| ImpersonationProxyModeAuto
| ImpersonationProxyModeOther (s : string).

(** [ImpersonationProxyServiceType]; [ServiceTypeUnset] is the empty
    string. *)
Inductive ImpersonationProxyServiceType :=
| ImpersonationProxyServiceTypeLoadBalancer
| ImpersonationProxyServiceTypeClusterIP
| ImpersonationProxyServiceTypeNone
| ImpersonationProxyServiceTypeUnset
| ImpersonationProxyServiceTypeOther (s : string).

Record ImpersonationProxyServiceSpec := {
  Type_ : ImpersonationProxyServiceType;
  LoadBalancerIP : string;
  Annotations : gmap string string;
}.

Record ImpersonationProxySpec := {
  Mode : ImpersonationProxyMode;
  Service : ImpersonationProxyServiceSpec;
  ExternalEndpoint : string;
}.

Inductive StrategyStatus := SuccessStrategyStatus | ErrorStrategyStatus.

(** The reason constants the controller uses. *)
Inductive StrategyReason :=
| ListeningStrategyReason
| PendingStrategyReason
| DisabledStrategyReason
| ErrorDuringSetupStrategyReason.

Record ImpersonationProxyInfo := {
  Endpoint : string;
  CertificateAuthorityData : string;
}.

(** [CredentialIssuerStrategy] of type [ImpersonationProxyStrategyType];
    [Frontend], when present, is of type
    [ImpersonationProxyFrontendType]. *)
Record CredentialIssuerStrategy := {
  Status : StrategyStatus;
  Reason : StrategyReason;
  Message : string;
  LastUpdateTime : Z;
  Frontend : option ImpersonationProxyInfo;
}.

#[global] Instance Mode_eq_dec : EqDecision ImpersonationProxyMode.
Proof. solve_decision. Defined.
#[global] Instance ServiceType_eq_dec : EqDecision ImpersonationProxyServiceType.
Proof. solve_decision. Defined.
#[global] Instance StrategyStatus_eq_dec : EqDecision StrategyStatus.
Proof. solve_decision. Defined.
#[global] Instance StrategyReason_eq_dec : EqDecision StrategyReason.
Proof. solve_decision. Defined.

End v1alpha1.

Module v1.

Inductive ServiceType :=
| ServiceTypeClusterIP
| ServiceTypeNodePort
| ServiceTypeLoadBalancer
| ServiceTypeExternalName.

Inductive Protocol := ProtocolTCP | ProtocolUDP | ProtocolSCTP.

Record ServicePort := {
  Protocol_ : Protocol;
  Port : Z;
  TargetPort : Z;
  NodePort : Z;
}.

Record LoadBalancerIngress := {
  IP : string;
  Hostname : string;
}.

Record ObjectMeta := {
  Name : string;
  Namespace : string;
  Labels : gmap string string;
  Annotations : gmap string string;
}.

Record ServiceSpec := {
  Ports : list ServicePort;
  Selector : gmap string string;
  ClusterIP : string;
  ClusterIPs : list string;
  Type_ : ServiceType;
  LoadBalancerIP : string;
}.

(** [Service]; [Ingress] is [Status.LoadBalancer.Ingress]. *)
Record Service := {
  Meta : ObjectMeta;
  Spec : ServiceSpec;
  Ingress : list LoadBalancerIngress;
}.

Inductive SecretType := SecretTypeOpaque | SecretTypeTLS.

Definition TLSCertKey : string := "tls.crt".
Definition TLSPrivateKeyKey : string := "tls.key".

Record Secret := {
  SecretMeta : ObjectMeta;
  Data : gmap string bytes;
  SecretType_ : SecretType;
}.

#[global] Instance ServiceType_eq_dec : EqDecision ServiceType.
Proof. solve_decision. Defined.
#[global] Instance Protocol_eq_dec : EqDecision Protocol.
Proof. solve_decision. Defined.
#[global] Instance ServicePort_eq_dec : EqDecision ServicePort.
Proof. solve_decision. Defined.
#[global] Instance LoadBalancerIngress_eq_dec : EqDecision LoadBalancerIngress.
Proof. solve_decision. Defined.
#[global] Instance ObjectMeta_eq_dec : EqDecision ObjectMeta.
Proof. solve_decision. Defined.
#[global] Instance ServiceSpec_eq_dec : EqDecision ServiceSpec.
Proof. solve_decision. Defined.
#[global] Instance Service_eq_dec : EqDecision Service.
Proof. solve_decision. Defined.
#[global] Instance SecretType_eq_dec : EqDecision SecretType.
Proof. solve_decision. Defined.
#[global] Instance Secret_eq_dec : EqDecision Secret.
Proof. solve_decision. Defined.

End v1.

(** ** Constants of the controller *)

Definition impersonationProxyPort : Z := 8444.
Definition defaultHTTPSPort : Z := 443.
(** [100 * 365 * 24 * time.Hour], in nanoseconds. *)
Definition approximatelyOneHundredYears : Z := 100 * 365 * 24 * 3600000000000.
Definition caCommonName : string := "Pinniped Impersonation Proxy CA".
Definition caCrtKey : string := "ca.crt".
Definition caKeyKey : string := "ca.key".
Definition appLabelKey : string := "app".
Definition annotationKeysKey : string := "credentialissuer.pinniped.dev/annotation-keys".

(** ** [certNameInfo] *)

Record certNameInfo := {
  ready : bool;
  selectedIPs : list net.IP;
  selectedHostname : string;
  clientEndpoint : string;
}.

(** [&certNameInfo{ready: false}]. *)
Definition certNameInfo_notReady : certNameInfo :=
  {| ready := false; selectedIPs := []; selectedHostname := ""; clientEndpoint := "" |}.


(** ** Collaborators outside this file

    Functions of the Go standard library, of Kubernetes and of sibling
    packages that the controller calls but that are not part of this source
    file.  The controller is parametric in them; what a property needs to
    know about them is stated as an explicit hypothesis of that property. *)

(** [endpointaddr.HostPort]. *)
Record HostPort := {
  Host : string;
  HostPort_Port : Z;
}.

Class Environment := {
  (** [net.ParseIP]; [None] is the nil result. *)
  ParseIP : string -> option net.IP;
  (** [base64.StdEncoding.EncodeToString]. *)
  base64_EncodeToString : bytes -> string;
  (** [json.Marshal] of a [[]string]. *)
  json_Marshal : list string -> string;
  (** [json.Unmarshal] into a [*[]string] that holds [[]string{}]: the
      contents of the slice after the call, its error being ignored. *)
  json_Unmarshal : string -> list string;
  (** [len(validation.IsValidIP(ip)) == 0]. *)
  IsValidIP : string -> bool;
  (** [endpointaddr.Parse] and the method [HostPort.Endpoint]. *)
  endpointaddr_Parse : string -> Z -> HostPort * option error;
  HostPort_Endpoint : HostPort -> string;
  (** [clusterhost.New(c.k8sClient).HasControlPlaneNodes(ctx)]. *)
  HasControlPlaneNodes : error + bool;
  (** [c.impersonatorFunc(port, servingCert, signingCert)]: an error, or a
      start function, represented by the value it returns once its stop
      channel has been closed. *)
  impersonatorFunc : Z -> error + option error;
  (** [certauthority.CA] and its operations. *)
  CA : Type;
  certauthority_New : string -> Z -> error + CA;
  certauthority_Load : bytes -> bytes -> error + CA;
  CA_Bundle : CA -> bytes;
  CA_PrivateKeyToPEM : CA -> error + bytes;
  (** [ca.IssueServerCert] yields a [*tls.Certificate]; [certauthority.ToPEM]
      turns it into the certificate and key PEM blobs. *)
  tls_Certificate : Type;
  CA_IssueServerCert : CA -> list string -> list net.IP -> Z -> error + tls_Certificate;
  certauthority_ToPEM : tls_Certificate -> error + (bytes * bytes);
  (** [pem.Decode]: the bytes of the first block, [None] for a nil block. *)
  pem_Decode : bytes -> option bytes;
  (** [x509.ParseCertificate] and the two fields of [x509.Certificate] the
      controller reads. *)
  x509_Certificate : Type;
  x509_ParseCertificate : bytes -> error + x509_Certificate;
  IPAddresses : x509_Certificate -> list net.IP;
  DNSNames : x509_Certificate -> list string;
  (** The error of [tls.X509KeyPair(certPEM, keyPEM)]. *)
  tls_X509KeyPair : bytes -> bytes -> option error;
  (** The error of [cert.Verify(x509.VerifyOptions{Roots: ca.Pool()})]. *)
  x509_Verify : x509_Certificate -> CA -> option error;
  (** The error of [dynamiccert] [SetCertKeyContent(certPEM, keyPEM)]. *)
  SetCertKeyContent_error : bytes -> bytes -> option error;
  (** The keys of the signing Secret, constants of package [apicerts]. *)
  apicerts_CACertificateSecretKey : string;
  apicerts_CACertificatePrivateKeySecretKey : string;
}.

(** ** Desired-state predicates

    The receiver of these methods is represented by the one field they
    read: the dereferenced [*c.hasControlPlaneNodes], which [doSync] stores
    before the first of them is called. *)

Definition enabledByAutoMode (hasControlPlaneNodes : bool) (config : v1alpha1.ImpersonationProxySpec) : bool :=
  bool_decide (v1alpha1.Mode config = v1alpha1.ImpersonationProxyModeAuto) && negb hasControlPlaneNodes.

Definition shouldHaveImpersonator (hasControlPlaneNodes : bool) (config : v1alpha1.ImpersonationProxySpec) : bool :=
  enabledByAutoMode hasControlPlaneNodes config
  || bool_decide (v1alpha1.Mode config = v1alpha1.ImpersonationProxyModeEnabled).

Definition disabledByAutoMode (hasControlPlaneNodes : bool) (config : v1alpha1.ImpersonationProxySpec) : bool :=
  bool_decide (v1alpha1.Mode config = v1alpha1.ImpersonationProxyModeAuto) && hasControlPlaneNodes.

Definition disabledExplicitly (config : v1alpha1.ImpersonationProxySpec) : bool :=
  bool_decide (v1alpha1.Mode config = v1alpha1.ImpersonationProxyModeDisabled).

Definition shouldHaveLoadBalancer (hasControlPlaneNodes : bool) (config : v1alpha1.ImpersonationProxySpec) : bool :=
  shouldHaveImpersonator hasControlPlaneNodes config
  && bool_decide (v1alpha1.Type_ (v1alpha1.Service config) = v1alpha1.ImpersonationProxyServiceTypeLoadBalancer).

Definition shouldHaveClusterIPService (hasControlPlaneNodes : bool) (config : v1alpha1.ImpersonationProxySpec) : bool :=
  shouldHaveImpersonator hasControlPlaneNodes config
  && bool_decide (v1alpha1.Type_ (v1alpha1.Service config) = v1alpha1.ImpersonationProxyServiceTypeClusterIP).

Definition shouldHaveTLSSecret (hasControlPlaneNodes : bool) (config : v1alpha1.ImpersonationProxySpec) : bool :=
  shouldHaveImpersonator hasControlPlaneNodes config.

(** ** Validation of the specification *)

Definition validateCredentialIssuerSpec `{Environment} (spec : v1alpha1.ImpersonationProxySpec) : option error :=
  match v1alpha1.Mode spec with
  | v1alpha1.ImpersonationProxyModeOther _ =>
      Some (errorString "invalid proxy mode (expected auto, disabled, or enabled)")
  | v1alpha1.ImpersonationProxyModeDisabled => None
  | _ =>
      match v1alpha1.Type_ (v1alpha1.Service spec) with
      | v1alpha1.ImpersonationProxyServiceTypeNone
      | v1alpha1.ImpersonationProxyServiceTypeLoadBalancer
      | v1alpha1.ImpersonationProxyServiceTypeClusterIP =>
          let ip := v1alpha1.LoadBalancerIP (v1alpha1.Service spec) in
          if negb (String.eqb ip "") && negb (IsValidIP ip)
          then Some (errorString "invalid LoadBalancerIP")
          else if String.eqb (v1alpha1.ExternalEndpoint spec) ""
                  && bool_decide (v1alpha1.Type_ (v1alpha1.Service spec) = v1alpha1.ImpersonationProxyServiceTypeNone)
          then Some (errorString "externalEndpoint must be set when service.type is None")
          else if negb (String.eqb (v1alpha1.ExternalEndpoint spec) "")
          then match snd (endpointaddr_Parse (v1alpha1.ExternalEndpoint spec) 443) with
               | Some err => Some (wrapError "invalid ExternalEndpoint" err)
               | None => None
               end
          else None
      | _ => Some (errorString "invalid service type (expected None, LoadBalancer, or ClusterIP)")
      end
  end.

(** [loadImpersonationProxyConfiguration]; the argument is
    [credIssuer.Spec.ImpersonationProxy], [None] when nil. *)
Definition loadImpersonationProxyConfiguration `{Environment}
    (impersonationProxy : option v1alpha1.ImpersonationProxySpec) : error + v1alpha1.ImpersonationProxySpec :=
  match impersonationProxy with
  | None => inl (errorString "could not load CredentialIssuer: spec.impersonationProxy is nil")
  | Some spec =>
      let spec :=
        if bool_decide (v1alpha1.Type_ (v1alpha1.Service spec) = v1alpha1.ImpersonationProxyServiceTypeUnset)
        then {| v1alpha1.Mode := v1alpha1.Mode spec;
                v1alpha1.Service :=
                  {| v1alpha1.Type_ := v1alpha1.ImpersonationProxyServiceTypeLoadBalancer;
                     v1alpha1.LoadBalancerIP := v1alpha1.LoadBalancerIP (v1alpha1.Service spec);
                     v1alpha1.Annotations := v1alpha1.Annotations (v1alpha1.Service spec) |};
                v1alpha1.ExternalEndpoint := v1alpha1.ExternalEndpoint spec |}
        else spec in
      match validateCredentialIssuerSpec spec with
      | Some err => inl (wrapError "could not load CredentialIssuer spec.impersonationProxy" err)
      | None => inr spec
      end
  end.

(** ** Status composer *)

(** [doSyncResult]; [now] is [c.clock.Now()], [ca] is [None] for a nil
    [*certauthority.CA], whose [Bundle] would panic. *)
Definition doSyncResult `{Environment} (hasControlPlaneNodes : bool) (now : Z)
    (nameInfo : certNameInfo) (config : v1alpha1.ImpersonationProxySpec) (ca : option CA)
    : error + v1alpha1.CredentialIssuerStrategy :=
  if disabledExplicitly config then
    inr {| v1alpha1.Status := v1alpha1.ErrorStrategyStatus;
           v1alpha1.Reason := v1alpha1.DisabledStrategyReason;
           v1alpha1.Message := "impersonation proxy was explicitly disabled by configuration";
           v1alpha1.LastUpdateTime := now;
           v1alpha1.Frontend := None |}
  else if disabledByAutoMode hasControlPlaneNodes config then
    inr {| v1alpha1.Status := v1alpha1.ErrorStrategyStatus;
           v1alpha1.Reason := v1alpha1.DisabledStrategyReason;
           v1alpha1.Message := "automatically determined that impersonation proxy should be disabled";
           v1alpha1.LastUpdateTime := now;
           v1alpha1.Frontend := None |}
  else if negb (ready nameInfo) then
    inr {| v1alpha1.Status := v1alpha1.ErrorStrategyStatus;
           v1alpha1.Reason := v1alpha1.PendingStrategyReason;
           v1alpha1.Message := "waiting for load balancer Service to be assigned IP or hostname";
           v1alpha1.LastUpdateTime := now;
           v1alpha1.Frontend := None |}
  else
    match ca with
    | None => inl (runtimePanic "invalid memory address or nil pointer dereference")
    | Some ca =>
        inr {| v1alpha1.Status := v1alpha1.SuccessStrategyStatus;
               v1alpha1.Reason := v1alpha1.ListeningStrategyReason;
               v1alpha1.Message := "impersonation proxy is ready to accept client connections";
               v1alpha1.LastUpdateTime := now;
               v1alpha1.Frontend :=
                 Some {| v1alpha1.Endpoint := "https://" ++ clientEndpoint nameInfo;
                         v1alpha1.CertificateAuthorityData := base64_EncodeToString (CA_Bundle ca) |} |}
    end.

(** ** The controller, the cluster and the calls made on it *)

(** [c.serverStopCh] and [c.errorCh], which the controller always assigns
    together.  [errorChBuf] is the single slot of the buffered error
    channel ([Some v] when the server goroutine has sent [v]),
    [errorChClosed] records [close(c.errorCh)], and [exitOnStop] is what the
    start function returns, hence sends, once the stop channel is closed. *)
Record serverHandle := {
  errorChBuf : option (option error);
  errorChClosed : bool;
  exitOnStop : option error;
}.

(** The fields of [impersonatorConfigController] that the modelled methods
    read or write; the two dynamic certificate providers are represented by
    their current content. *)
Record impersonatorConfigController := {
  namespace : string;
  credentialIssuerResourceName : string;
  generatedLoadBalancerServiceName : string;
  generatedClusterIPServiceName : string;
  tlsSecretName : string;
  caSecretName : string;
  impersonationSignerSecretName : string;
  labels : gmap string string;
  clockNow : Z;
  impersonationSigningCertProvider : option (bytes * bytes);
  hasControlPlaneNodes : option bool;
  server : option serverHandle;
  tlsServingCertDynamicCertProvider : option (bytes * bytes);
}.

(** The objects of the controller's namespace, by name. *)
Record cluster := {
  services : gmap string v1.Service;
  secrets : gmap string v1.Secret;
}.

(** What a pass does to the outside: calls on the Kubernetes client and
    operations on the server's channels. *)
Inductive event :=
| ServicesCreate (svc : v1.Service)
| ServicesUpdate (svc : v1.Service)
| ServicesDelete (name : string)
| SecretsCreate (secret : v1.Secret)
| SecretsDelete (name : string)
| closeErrorCh
| closeServerStopCh
| goStartImpersonator (port : Z).

Definition isMutatingCall (e : event) : bool :=
  match e with
  | ServicesCreate _ | ServicesUpdate _ | ServicesDelete _
  | SecretsCreate _ | SecretsDelete _ => true
  | _ => false
  end.

(** [informer] is what the listers return, [apiserver] what the client
    calls act on, [events] the calls made so far, oldest first. *)
Record world := {
  ctrl : impersonatorConfigController;
  informer : cluster;
  apiserver : cluster;
  events : list event;
}.

(** The store behind the client: a call fails with the error [apiFault]
    assigns to it, when there is one; otherwise create, update and delete
    act on the stored objects and report already-exists and not-found.  A
    Service that is created is stored, and returned, as [allocate] gives
    it: the API server fills in what the sender left to it, the
    [spec.clusterIP] that [ensureClusterIPServiceIsStarted] never sets and
    [findTLSCertificateNameFromClusterIPService] reads being the case in
    point. *)
Class APIServer := {
  apiFault : event -> option error;
  allocate : v1.Service -> v1.Service;
}.

Definition set_ctrl (f : impersonatorConfigController -> impersonatorConfigController) (w : world) : world :=
  {| ctrl := f (ctrl w); informer := informer w; apiserver := apiserver w; events := events w |}.

Definition set_apiserver (f : cluster -> cluster) (w : world) : world :=
  {| ctrl := ctrl w; informer := informer w; apiserver := f (apiserver w); events := events w |}.

Definition log (e : event) (w : world) : world :=
  {| ctrl := ctrl w; informer := informer w; apiserver := apiserver w; events := events w ++ [e] |}.

Definition set_services (f : gmap string v1.Service -> gmap string v1.Service) (cl : cluster) : cluster :=
  {| services := f (services cl); secrets := secrets cl |}.

Definition set_secrets (f : gmap string v1.Secret -> gmap string v1.Secret) (cl : cluster) : cluster :=
  {| services := services cl; secrets := f (secrets cl) |}.

Definition set_server (h : option serverHandle) (c : impersonatorConfigController) : impersonatorConfigController :=
  {| namespace := namespace c;
     credentialIssuerResourceName := credentialIssuerResourceName c;
     generatedLoadBalancerServiceName := generatedLoadBalancerServiceName c;
     generatedClusterIPServiceName := generatedClusterIPServiceName c;
     tlsSecretName := tlsSecretName c;
     caSecretName := caSecretName c;
     impersonationSignerSecretName := impersonationSignerSecretName c;
     labels := labels c;
     clockNow := clockNow c;
     impersonationSigningCertProvider := impersonationSigningCertProvider c;
     hasControlPlaneNodes := hasControlPlaneNodes c;
     server := h;
     tlsServingCertDynamicCertProvider := tlsServingCertDynamicCertProvider c |}.

Definition set_hasControlPlaneNodes (b : option bool) (c : impersonatorConfigController) : impersonatorConfigController :=
  {| namespace := namespace c;
     credentialIssuerResourceName := credentialIssuerResourceName c;
     generatedLoadBalancerServiceName := generatedLoadBalancerServiceName c;
     generatedClusterIPServiceName := generatedClusterIPServiceName c;
     tlsSecretName := tlsSecretName c;
     caSecretName := caSecretName c;
     impersonationSignerSecretName := impersonationSignerSecretName c;
     labels := labels c;
     clockNow := clockNow c;
     impersonationSigningCertProvider := impersonationSigningCertProvider c;
     hasControlPlaneNodes := b;
     server := server c;
     tlsServingCertDynamicCertProvider := tlsServingCertDynamicCertProvider c |}.

Definition set_tlsServingCert (content : option (bytes * bytes)) (c : impersonatorConfigController) : impersonatorConfigController :=
  {| namespace := namespace c;
     credentialIssuerResourceName := credentialIssuerResourceName c;
     generatedLoadBalancerServiceName := generatedLoadBalancerServiceName c;
     generatedClusterIPServiceName := generatedClusterIPServiceName c;
     tlsSecretName := tlsSecretName c;
     caSecretName := caSecretName c;
     impersonationSignerSecretName := impersonationSignerSecretName c;
     labels := labels c;
     clockNow := clockNow c;
     impersonationSigningCertProvider := impersonationSigningCertProvider c;
     hasControlPlaneNodes := hasControlPlaneNodes c;
     server := server c;
     tlsServingCertDynamicCertProvider := content |}.

Definition set_signingCert (content : option (bytes * bytes)) (c : impersonatorConfigController) : impersonatorConfigController :=
  {| namespace := namespace c;
     credentialIssuerResourceName := credentialIssuerResourceName c;
     generatedLoadBalancerServiceName := generatedLoadBalancerServiceName c;
     generatedClusterIPServiceName := generatedClusterIPServiceName c;
     tlsSecretName := tlsSecretName c;
     caSecretName := caSecretName c;
     impersonationSignerSecretName := impersonationSignerSecretName c;
     labels := labels c;
     clockNow := clockNow c;
     impersonationSigningCertProvider := content;
     hasControlPlaneNodes := hasControlPlaneNodes c;
     server := server c;
     tlsServingCertDynamicCertProvider := tlsServingCertDynamicCertProvider c |}.

(** A method with an [error] result that acts on the world. *)
Definition M (A : Type) : Type := world -> (error + A) * world.

Definition ret {A} (a : A) : M A := fun w => (inr a, w).
Definition fail {A} (err : error) : M A := fun w => (inl err, w).
Definition bind {A B} (m : M A) (k : A -> M B) : M B :=
  fun w => match m w with
           | (inr a, w') => k a w'
           | (inl err, w') => (inl err, w')
           end.
(** [return err] for an [err] that may be nil. *)
Definition returnErr (err : option error) : M unit :=
  match err with Some e => fail e | None => ret tt end.
(** Runs [m] and hands its error value to the caller instead of returning. *)
Definition catch {A} (m : M A) : M (error + A) := fun w => (inr (fst (m w)), snd (m w)).
Definition modify (f : world -> world) : M unit := fun w => (inr tt, f w).
Definition gets {A} (f : world -> A) : M A := fun w => (inr (f w), w).

Notation "'let*' x ':=' m 'in' k" := (bind m (fun x => k))
  (at level 10, x pattern, m at level 100, k at level 200).
Notation "m ';;' k" := (bind m (fun _ => k))
  (at level 100, k at level 200, right associativity).

(** *** Listers (informer cache) and client calls *)

Definition ServicesListerGet (name : string) : M v1.Service := fun w =>
  match services (informer w) !! name with
  | Some svc => (inr svc, w)
  | None => (inl (StatusError StatusReasonNotFound name), w)
  end.

Definition SecretsListerGet (name : string) : M v1.Secret := fun w =>
  match secrets (informer w) !! name with
  | Some secret => (inr secret, w)
  | None => (inl (StatusError StatusReasonNotFound name), w)
  end.

Definition ServicesClientCreate `{APIServer} (svc : v1.Service) : M v1.Service := fun w =>
  let w := log (ServicesCreate svc) w in
  match apiFault (ServicesCreate svc) with
  | Some err => (inl err, w)
  | None =>
      match services (apiserver w) !! v1.Name (v1.Meta svc) with
      | Some _ => (inl (StatusError StatusReasonAlreadyExists (v1.Name (v1.Meta svc))), w)
      | None =>
          (inr (allocate svc),
           set_apiserver (set_services (insert (v1.Name (v1.Meta svc)) (allocate svc))) w)
      end
  end.

(** An update stores the object it is sent: that object is a copy of the
    stored one, which has everything the API server allocated. *)
Definition ServicesClientUpdate `{APIServer} (svc : v1.Service) : M v1.Service := fun w =>
  let w := log (ServicesUpdate svc) w in
  match apiFault (ServicesUpdate svc) with
  | Some err => (inl err, w)
  | None =>
      match services (apiserver w) !! v1.Name (v1.Meta svc) with
      | None => (inl (StatusError StatusReasonNotFound (v1.Name (v1.Meta svc))), w)
      | Some _ => (inr svc, set_apiserver (set_services (insert (v1.Name (v1.Meta svc)) svc)) w)
      end
  end.

Definition ServicesClientDelete `{APIServer} (name : string) : M unit := fun w =>
  let w := log (ServicesDelete name) w in
  match apiFault (ServicesDelete name) with
  | Some err => (inl err, w)
  | None =>
      match services (apiserver w) !! name with
      | None => (inl (StatusError StatusReasonNotFound name), w)
      | Some _ => (inr tt, set_apiserver (set_services (delete name)) w)
      end
  end.

Definition SecretsClientCreate `{APIServer} (secret : v1.Secret) : M v1.Secret := fun w =>
  let w := log (SecretsCreate secret) w in
  match apiFault (SecretsCreate secret) with
  | Some err => (inl err, w)
  | None =>
      match secrets (apiserver w) !! v1.Name (v1.SecretMeta secret) with
      | Some _ => (inl (StatusError StatusReasonAlreadyExists (v1.Name (v1.SecretMeta secret))), w)
      | None => (inr secret, set_apiserver (set_secrets (insert (v1.Name (v1.SecretMeta secret)) secret)) w)
      end
  end.

Definition SecretsClientDelete `{APIServer} (name : string) : M unit := fun w =>
  let w := log (SecretsDelete name) w in
  match apiFault (SecretsDelete name) with
  | Some err => (inl err, w)
  | None =>
      match secrets (apiserver w) !! name with
      | None => (inl (StatusError StatusReasonNotFound name), w)
      | Some _ => (inr tt, set_apiserver (set_secrets (delete name)) w)
      end
  end.

Definition serviceExists (serviceName : string) : M bool :=
  let* r := catch (ServicesListerGet serviceName) in
  match r with
  | inl err => if IsNotFound (Some err) then ret false else fail err
  | inr _ => ret true
  end.

Definition tlsSecretExists : M (bool * option v1.Secret) :=
  let* name := gets (fun w => tlsSecretName (ctrl w)) in
  let* r := catch (SecretsListerGet name) in
  match r with
  | inl err => if IsNotFound (Some err) then ret (false, None) else fail err
  | inr secret => ret (true, Some secret)
  end.

(** ** Proxy server life cycle *)

(** [<-c.errorCh], blocking: the buffered value if there is one, the zero
    value of a closed channel, and otherwise the value the server sends
    when it returns, which it does once the stop channel is closed. *)
Definition receiveFinalError (h : serverHandle) : option error :=
  match errorChBuf h with
  | Some v => v
  | None => if errorChClosed h then None else exitOnStop h
  end.

Definition ensureImpersonatorIsStopped (shouldCloseErrChan : bool) : M unit :=
  let* h := gets (fun w => server (ctrl w)) in
  match h with
  | None => ret tt
  | Some h =>
      modify (log closeServerStopCh);;
      let stopErr := receiveFinalError h in
      (if shouldCloseErrChan
       then if errorChClosed h
            then fail (runtimePanic "close of closed channel")
            else modify (log closeErrorCh)
       else ret tt);;
      modify (set_ctrl (set_server None));;
      returnErr stopErr
  end.

Definition ensureImpersonatorIsStarted `{Environment} : M unit :=
  let* h := gets (fun w => server (ctrl w)) in
  match h with
  | Some h =>
      (* select { case runningErr := <-c.errorCh: ... default: ... } *)
      match errorChBuf h with
      | Some runningErr =>
          let runningErr :=
            match runningErr with
            | None => errorString "unexpected shutdown of proxy server"
            | Some err => err
            end in
          (if errorChClosed h
           then fail (runtimePanic "close of closed channel")
           else modify (log closeErrorCh));;
          modify (set_ctrl (set_server
            (Some {| errorChBuf := None; errorChClosed := true; exitOnStop := exitOnStop h |})));;
          let* stoppingErr := catch (ensureImpersonatorIsStopped false) in
          returnErr (NewAggregate [Some runningErr;
                                   match stoppingErr with inl err => Some err | inr _ => None end])
      | None =>
          if errorChClosed h
          then (* a closed channel yields its zero value to the select *)
               fail (runtimePanic "close of closed channel")
          else ret tt
      end
  | None =>
      match impersonatorFunc impersonationProxyPort with
      | inl err => fail err
      | inr startImpersonatorFunc =>
          modify (set_ctrl (set_server
            (Some {| errorChBuf := None; errorChClosed := false; exitOnStop := startImpersonatorFunc |})));;
          modify (log (goStartImpersonator impersonationProxyPort))
      end
  end.

(** The world after the controller has noticed a crashed server: both
    channels closed, the handle dropped, nothing else touched. *)
Definition afterCrashCleanup (w : world) : world :=
  {| ctrl := set_server None (ctrl w);
     informer := informer w;
     apiserver := apiserver w;
     events := events w ++ [closeErrorCh; closeServerStopCh] |}.

(** ** Exposure Services *)

Definition string_le (a b : string) : Prop := String.leb a b = true.

#[global] Instance string_le_dec : RelDecision string_le.
Proof. intros a b. unfold string_le. apply _. Defined.

(** [sort.Strings]. *)
Definition sort_Strings (l : list string) : list string := merge_sort string_le l.

(** The keys of a map, in the order a [range] happens to visit them. *)
Definition mapKeys (m : gmap string string) : list string := (map_to_list m).*1.

(** Lines 543-556 of [createOrUpdateService]: the desired Service with the
    bookkeeping annotation recorded, when annotations were requested. *)
Definition withBookkeepingAnnotation `{Environment} (desiredService : v1.Service) : v1.Service :=
  let desiredAnnotationKeys := mapKeys (v1.Annotations (v1.Meta desiredService)) in
  if (0 <? length desiredAnnotationKeys)%nat
  then {| v1.Meta :=
            {| v1.Name := v1.Name (v1.Meta desiredService);
               v1.Namespace := v1.Namespace (v1.Meta desiredService);
               v1.Labels := v1.Labels (v1.Meta desiredService);
               v1.Annotations :=
                 <[annotationKeysKey := json_Marshal (sort_Strings desiredAnnotationKeys)]>
                   (v1.Annotations (v1.Meta desiredService)) |};
          v1.Spec := v1.Spec desiredService;
          v1.Ingress := v1.Ingress desiredService |}
  else desiredService.

(** Lines 591-597: the bookkeeping list recorded on the existing Service,
    empty when the annotation is absent. *)
Definition oldDesiredAnnotationKeys `{Environment} (existing : gmap string string) : list string :=
  match existing !! annotationKeysKey with
  | Some oldDesiredAnnotationKeysJSON => json_Unmarshal oldDesiredAnnotationKeysJSON
  | None => []
  end.

(** Lines 582-612: the annotations of the updated Service.  The first
    range loop overlays every desired entry on the existing ones, which is
    the union that prefers the desired map; [desired] is the desired map
    after the bookkeeping annotation was written to it, and
    [desiredAnnotationKeys] the keys it had before. *)
Definition mergeAnnotations `{Environment} (existing desired : gmap string string)
    (desiredAnnotationKeys : list string) : gmap string string :=
  let updated := desired ∪ existing in
  let updated :=
    foldl (fun updated oldKey =>
             match desired !! oldKey with
             | Some _ => updated
             | None => delete oldKey updated
             end) updated (oldDesiredAnnotationKeys existing) in
  if (length desiredAnnotationKeys =? 0)%nat
  then delete annotationKeysKey updated
  else updated.

(** Lines 570-612: the deep copy of the existing Service with the managed
    fields written onto it. *)
Definition updatedServiceOf `{Environment} (existingService desiredService : v1.Service)
    (desiredAnnotationKeys : list string) : v1.Service :=
  {| v1.Meta :=
       {| v1.Name := v1.Name (v1.Meta existingService);
          v1.Namespace := v1.Namespace (v1.Meta existingService);
          v1.Labels := v1.Labels (v1.Meta desiredService);
          v1.Annotations :=
            mergeAnnotations (v1.Annotations (v1.Meta existingService))
                             (v1.Annotations (v1.Meta desiredService))
                             desiredAnnotationKeys |};
     v1.Spec :=
       {| v1.Ports := v1.Ports (v1.Spec existingService);
          v1.Selector := v1.Selector (v1.Spec desiredService);
          v1.ClusterIP := v1.ClusterIP (v1.Spec existingService);
          v1.ClusterIPs := v1.ClusterIPs (v1.Spec existingService);
          v1.Type_ := v1.Type_ (v1.Spec desiredService);
          v1.LoadBalancerIP := v1.LoadBalancerIP (v1.Spec desiredService) |};
     v1.Ingress := v1.Ingress existingService |}.

Definition createOrUpdateService `{Environment} `{APIServer} (desiredService : v1.Service) : M unit :=
  let desiredAnnotationKeys := mapKeys (v1.Annotations (v1.Meta desiredService)) in
  let desiredService := withBookkeepingAnnotation desiredService in
  let* r := catch (ServicesListerGet (v1.Name (v1.Meta desiredService))) in
  match r with
  | inl err =>
      if IsNotFound (Some err)
      then let* _ := ServicesClientCreate desiredService in ret tt
      else fail err
  | inr existingService =>
      let updatedService := updatedServiceOf existingService desiredService desiredAnnotationKeys in
      (* equality.Semantic.DeepEqual(existingService, updatedService) *)
      if bool_decide (existingService = updatedService)
      then ret tt
      else let* _ := ServicesClientUpdate updatedService in ret tt
  end.

Definition ensureLoadBalancerIsStarted `{Environment} `{APIServer}
    (config : v1alpha1.ImpersonationProxySpec) : M unit :=
  let* c := gets ctrl in
  let appNameLabel := default "" (labels c !! appLabelKey) in
  let loadBalancer :=
    {| v1.Meta :=
         {| v1.Name := generatedLoadBalancerServiceName c;
            v1.Namespace := namespace c;
            v1.Labels := labels c;
            v1.Annotations := v1alpha1.Annotations (v1alpha1.Service config) |};
       v1.Spec :=
         {| v1.Ports := [ {| v1.Protocol_ := v1.ProtocolTCP;
                             v1.Port := defaultHTTPSPort;
                             v1.TargetPort := impersonationProxyPort;
                             v1.NodePort := 0 |} ];
            v1.Selector := {[ appLabelKey := appNameLabel ]};
            v1.ClusterIP := "";
            v1.ClusterIPs := [];
            v1.Type_ := v1.ServiceTypeLoadBalancer;
            v1.LoadBalancerIP := v1alpha1.LoadBalancerIP (v1alpha1.Service config) |};
       v1.Ingress := [] |} in
  createOrUpdateService loadBalancer.

Definition ensureLoadBalancerIsStopped `{APIServer} : M unit :=
  let* name := gets (fun w => generatedLoadBalancerServiceName (ctrl w)) in
  let* running := serviceExists name in
  if negb running then ret tt
  else
    let* err := catch (ServicesClientDelete name) in
    returnErr (FilterOutNotFound (match err with inl e => Some e | inr _ => None end)).

Definition ensureClusterIPServiceIsStarted `{Environment} `{APIServer}
    (config : v1alpha1.ImpersonationProxySpec) : M unit :=
  let* c := gets ctrl in
  let appNameLabel := default "" (labels c !! appLabelKey) in
  let clusterIP :=
    {| v1.Meta :=
         {| v1.Name := generatedClusterIPServiceName c;
            v1.Namespace := namespace c;
            v1.Labels := labels c;
            v1.Annotations := v1alpha1.Annotations (v1alpha1.Service config) |};
       v1.Spec :=
         {| v1.Ports := [ {| v1.Protocol_ := v1.ProtocolTCP;
                             v1.Port := defaultHTTPSPort;
                             v1.TargetPort := impersonationProxyPort;
                             v1.NodePort := 0 |} ];
            v1.Selector := {[ appLabelKey := appNameLabel ]};
            v1.ClusterIP := "";
            v1.ClusterIPs := [];
            v1.Type_ := v1.ServiceTypeClusterIP;
            v1.LoadBalancerIP := "" |};
       v1.Ingress := [] |} in
  createOrUpdateService clusterIP.

Definition ensureClusterIPServiceIsStopped `{APIServer} : M unit :=
  let* name := gets (fun w => generatedClusterIPServiceName (ctrl w)) in
  let* running := serviceExists name in
  if negb running then ret tt
  else
    let* err := catch (ServicesClientDelete name) in
    returnErr (FilterOutNotFound (match err with inl e => Some e | inr _ => None end)).

(** ** Certificate name resolver *)

Definition findTLSCertificateNameFromEndpointConfig `{Environment}
    (config : v1alpha1.ImpersonationProxySpec) : certNameInfo :=
  let addr := fst (endpointaddr_Parse (v1alpha1.ExternalEndpoint config) 443) in
  let endpoint := TrimSuffix (HostPort_Endpoint addr) ":443" in
  match ParseIP (Host addr) with
  | Some ip => {| ready := true; selectedIPs := [ip]; selectedHostname := ""; clientEndpoint := endpoint |}
  | None => {| ready := true; selectedIPs := []; selectedHostname := Host addr; clientEndpoint := endpoint |}
  end.

(** The first loop of [findTLSCertificateNameFromLoadBalancer]. *)
Fixpoint firstIngressHostname (ingresses : list v1.LoadBalancerIngress) : option string :=
  match ingresses with
  | [] => None
  | ingress :: rest =>
      let hostname := v1.Hostname ingress in
      if negb (String.eqb hostname "") then Some hostname else firstIngressHostname rest
  end.

(** Its second loop: the IP string and its parsed form. *)
Fixpoint firstIngressIP `{Environment} (ingresses : list v1.LoadBalancerIngress) : option (string * net.IP) :=
  match ingresses with
  | [] => None
  | ingress :: rest =>
      let ip := v1.IP ingress in
      match ParseIP ip with
      | Some parsedIP => Some (ip, parsedIP)
      | None => firstIngressIP rest
      end
  end.

Definition findTLSCertificateNameFromLoadBalancer `{Environment} : M certNameInfo :=
  let* c := gets ctrl in
  let* r := catch (ServicesListerGet (generatedLoadBalancerServiceName c)) in
  match r with
  | inl err => if IsNotFound (Some err) then ret certNameInfo_notReady else fail err
  | inr lb =>
      let ingresses := v1.Ingress lb in
      if match ingresses with
         | [] => true
         | ingress0 :: _ => String.eqb (v1.Hostname ingress0) "" && String.eqb (v1.IP ingress0) ""
         end
      then ret certNameInfo_notReady
      else
        match firstIngressHostname ingresses with
        | Some hostname =>
            ret {| ready := true; selectedIPs := []; selectedHostname := hostname; clientEndpoint := hostname |}
        | None =>
            match firstIngressIP ingresses with
            | Some (ip, parsedIP) =>
                ret {| ready := true; selectedIPs := [parsedIP]; selectedHostname := ""; clientEndpoint := ip |}
            | None =>
                fail (errorString ("could not find valid IP addresses or hostnames from load balancer "
                                     ++ namespace c ++ "/" ++ v1.Name (v1.Meta lb)))
            end
        end
  end.

(** [net.ParseIP] yields the nil IP, the empty list, for bad input. *)
Definition ParseIP_orNil `{Environment} (s : string) : net.IP := default [] (ParseIP s).

Definition findTLSCertificateNameFromClusterIPService `{Environment} : M certNameInfo :=
  let* c := gets ctrl in
  let* r := catch (ServicesListerGet (generatedClusterIPServiceName c)) in
  match r with
  | inl err => if IsNotFound (Some err) then ret certNameInfo_notReady else fail err
  | inr clusterIP =>
      let ip := v1.ClusterIP (v1.Spec clusterIP) in
      let ips := v1.ClusterIPs (v1.Spec clusterIP) in
      if negb (String.eqb ip "")
      then
        let parsedIPs :=
          if (0 <? length ips)%nat then map ParseIP_orNil ips else [ParseIP_orNil ip] in
        ret {| ready := true; selectedIPs := parsedIPs; selectedHostname := ""; clientEndpoint := ip |}
      else ret certNameInfo_notReady
  end.

Definition findDesiredTLSCertificateName `{Environment}
    (config : v1alpha1.ImpersonationProxySpec) : M certNameInfo :=
  if negb (String.eqb (v1alpha1.ExternalEndpoint config) "")
  then ret (findTLSCertificateNameFromEndpointConfig config)
  else if bool_decide (v1alpha1.Type_ (v1alpha1.Service config) = v1alpha1.ImpersonationProxyServiceTypeClusterIP)
  then findTLSCertificateNameFromClusterIPService
  else findTLSCertificateNameFromLoadBalancer.

(** ** CA and TLS Secrets *)

(** [secret.Data[key]]: the nil slice when the key is absent. *)
Definition secretData (secret : v1.Secret) (key : string) : bytes :=
  default [] (v1.Data secret !! key).

Definition UnsetCertKeyContent : M unit := modify (set_ctrl (set_tlsServingCert None)).

Definition ensureTLSSecretIsRemoved `{APIServer} : M unit :=
  let* (secretExists, _) := tlsSecretExists in
  if negb secretExists then ret tt
  else
    let* name := gets (fun w => tlsSecretName (ctrl w)) in
    let* r := catch (SecretsClientDelete name) in
    match r with
    | inl err => if IsNotFound (Some err) then ret tt else fail err
    | inr _ => UnsetCertKeyContent
    end.

(** The outcome of the delete call that [ensureTLSSecretIsRemoved] makes:
    [None] when it deletes the Secret, otherwise its error. *)
Definition deleteOutcome `{APIServer} (w : world) : option error :=
  match apiFault (SecretsDelete (tlsSecretName (ctrl w))) with
  | Some err => Some err
  | None =>
      match secrets (apiserver w) !! tlsSecretName (ctrl w) with
      | None => Some (StatusError StatusReasonNotFound (tlsSecretName (ctrl w)))
      | Some _ => None
      end
  end.

(** The loop of [certHostnameAndIPMatchDesiredState], entered with slices
    of equal length. *)
Fixpoint ipsEqual (actualIPs desiredIPs : list net.IP) : bool :=
  match desiredIPs, actualIPs with
  | desired :: desiredIPs, actual :: actualIPs =>
      if negb (net.Equal actual desired) then false else ipsEqual actualIPs desiredIPs
  | _, _ => true
  end.

Definition certHostnameAndIPMatchDesiredState (desiredIPs actualIPs : list net.IP)
    (desiredHostname : string) (actualHostnames : list string) : bool :=
  if (0 <? length desiredIPs)%nat && (0 <? length actualIPs)%nat
     && (length actualIPs =? length desiredIPs)%nat && (length actualHostnames =? 0)%nat
  then ipsEqual actualIPs desiredIPs
  else if negb (String.eqb desiredHostname "") && (length actualHostnames =? 1)%nat
          && bool_decide (actualHostnames !! 0%nat = Some desiredHostname)
          && (length actualIPs =? 0)%nat
  then true
  else false.

Definition deleteTLSSecretWhenCertificateDoesNotMatchDesiredState `{Environment} `{APIServer}
    (nameInfo : certNameInfo) (ca : CA) (secret : v1.Secret) : M bool :=
  let certPEM := secretData secret v1.TLSCertKey in
  match pem_Decode certPEM with
  | None =>
      let* deleteErr := catch ensureTLSSecretIsRemoved in
      match deleteErr with
      | inl err => fail (wrapError "found missing or not PEM-encoded data in TLS Secret, but got error while deleting it" err)
      | inr _ => ret true
      end
  | Some blockBytes =>
      match x509_ParseCertificate blockBytes with
      | inl _ =>
          let* deleteErr := catch ensureTLSSecretIsRemoved in
          match deleteErr with
          | inl err => fail (wrapError "PEM data represented an invalid cert, but got error while deleting it" err)
          | inr _ => ret true
          end
      | inr actualCertFromSecret =>
          let keyPEM := secretData secret v1.TLSPrivateKeyKey in
          match tls_X509KeyPair certPEM keyPEM with
          | Some _ =>
              let* deleteErr := catch ensureTLSSecretIsRemoved in
              match deleteErr with
              | inl err => fail (wrapError "cert had an invalid private key, but got error while deleting it" err)
              | inr _ => ret true
              end
          | None =>
              match x509_Verify actualCertFromSecret ca with
              | Some _ => ensureTLSSecretIsRemoved;; ret true
              | None =>
                  if negb (ready nameInfo)
                  then ensureTLSSecretIsRemoved;; ret true
                  else
                    let actualIPs := IPAddresses actualCertFromSecret in
                    let actualHostnames := DNSNames actualCertFromSecret in
                    if certHostnameAndIPMatchDesiredState (selectedIPs nameInfo) actualIPs
                         (selectedHostname nameInfo) actualHostnames
                    then ret false
                    else ensureTLSSecretIsRemoved;; ret true
              end
          end
      end
  end.

Definition loadTLSCertFromSecret `{Environment} (tlsSecret : v1.Secret) : M unit :=
  let certPEM := secretData tlsSecret v1.TLSCertKey in
  let keyPEM := secretData tlsSecret v1.TLSPrivateKeyKey in
  match SetCertKeyContent_error certPEM keyPEM with
  | Some err =>
      UnsetCertKeyContent;;
      fail (wrapError "could not parse TLS cert PEM data from Secret" err)
  | None => modify (set_ctrl (set_tlsServingCert (Some (certPEM, keyPEM))))
  end.

Definition createNewTLSSecret `{Environment} `{APIServer}
    (ca : CA) (ips : list net.IP) (hostname : string) : M v1.Secret :=
  let hostnames := if negb (String.eqb hostname "") then [hostname] else [] in
  match CA_IssueServerCert ca hostnames ips approximatelyOneHundredYears with
  | inl err => fail (wrapError "could not create impersonation cert" err)
  | inr impersonationCert =>
      match certauthority_ToPEM impersonationCert with
      | inl err => fail err
      | inr (certPEM, keyPEM) =>
          let* c := gets ctrl in
          let newTLSSecret :=
            {| v1.SecretMeta :=
                 {| v1.Name := tlsSecretName c;
                    v1.Namespace := namespace c;
                    v1.Labels := labels c;
                    v1.Annotations := ∅ |};
               v1.Data := <[v1.TLSPrivateKeyKey := keyPEM]> {[ v1.TLSCertKey := certPEM ]};
               v1.SecretType_ := v1.SecretTypeTLS |} in
          SecretsClientCreate newTLSSecret
      end
  end.

Definition ensureTLSSecretIsCreatedAndLoaded `{Environment} `{APIServer}
    (nameInfo : certNameInfo) (secret : option v1.Secret) (ca : CA) : M unit :=
  match secret with
  | Some secret => loadTLSCertFromSecret secret
  | None =>
      if negb (ready nameInfo) then ret tt
      else
        let* newTLSSecret := createNewTLSSecret ca (selectedIPs nameInfo) (selectedHostname nameInfo) in
        loadTLSCertFromSecret newTLSSecret
  end.

Definition ensureTLSSecret `{Environment} `{APIServer} (nameInfo : certNameInfo) (ca : CA) : M unit :=
  let* name := gets (fun w => tlsSecretName (ctrl w)) in
  let* r := catch (SecretsListerGet name) in
  match r with
  | inl err =>
      if negb (IsNotFound (Some err)) then fail err
      else ensureTLSSecretIsCreatedAndLoaded nameInfo None ca
  | inr secretFromInformer =>
      let* secretWasDeleted :=
        deleteTLSSecretWhenCertificateDoesNotMatchDesiredState nameInfo ca secretFromInformer in
      ensureTLSSecretIsCreatedAndLoaded nameInfo
        (if secretWasDeleted then None else Some secretFromInformer) ca
  end.

Definition createCASecret `{Environment} `{APIServer} : M CA :=
  match certauthority_New caCommonName approximatelyOneHundredYears with
  | inl err => fail (wrapError "could not create impersonation CA" err)
  | inr impersonationCA =>
      match CA_PrivateKeyToPEM impersonationCA with
      | inl err => fail err
      | inr caPrivateKeyPEM =>
          let* c := gets ctrl in
          let secret :=
            {| v1.SecretMeta :=
                 {| v1.Name := caSecretName c;
                    v1.Namespace := namespace c;
                    v1.Labels := labels c;
                    v1.Annotations := ∅ |};
               v1.Data := <[caCrtKey := CA_Bundle impersonationCA]> {[ caKeyKey := caPrivateKeyPEM ]};
               v1.SecretType_ := v1.SecretTypeOpaque |} in
          let* _ := SecretsClientCreate secret in
          ret impersonationCA
      end
  end.

Definition ensureCASecretIsCreated `{Environment} `{APIServer} : M CA :=
  let* name := gets (fun w => caSecretName (ctrl w)) in
  let* r := catch (SecretsListerGet name) in
  match r with
  | inl err =>
      if negb (IsNotFound (Some err)) then fail err
      else createCASecret
  | inr caSecret =>
      let crtBytes := secretData caSecret caCrtKey in
      let keyBytes := secretData caSecret caKeyKey in
      match certauthority_Load crtBytes keyBytes with
      | inl err => fail err
      | inr impersonationCA => ret impersonationCA
      end
  end.

(** ** Signing credential *)

Definition clearSignerCA : M unit := modify (set_ctrl (set_signingCert None)).

Definition loadSignerCA `{Environment} (status : v1alpha1.StrategyStatus) : M unit :=
  if negb (bool_decide (status = v1alpha1.SuccessStrategyStatus))
  then clearSignerCA
  else
    let* name := gets (fun w => impersonationSignerSecretName (ctrl w)) in
    let* r := catch (SecretsListerGet name) in
    match r with
    | inl err => fail (wrapError "could not load the impersonator's credential signing secret" err)
    | inr signingCertSecret =>
        let certPEM := secretData signingCertSecret apicerts_CACertificateSecretKey in
        let keyPEM := secretData signingCertSecret apicerts_CACertificatePrivateKeySecretKey in
        match SetCertKeyContent_error certPEM keyPEM with
        | Some err => fail (wrapError "could not load the impersonator's credential signing secret" err)
        | None => modify (set_ctrl (set_signingCert (Some (certPEM, keyPEM))))
        end
    end.

(** ** One sync pass *)

(** [doSync]; the argument is [credIssuer.Spec.ImpersonationProxy].  The
    specification is a deep copy made for the pass, so the bookkeeping key
    that [createOrUpdateService] writes into its annotation map is not seen
    by any later reader. *)
Definition doSync `{Environment} `{APIServer}
    (impersonationProxy : option v1alpha1.ImpersonationProxySpec) : M v1alpha1.CredentialIssuerStrategy :=
  match loadImpersonationProxyConfiguration impersonationProxy with
  | inl err => fail err
  | inr impersonationSpec =>
      let* cached := gets (fun w => hasControlPlaneNodes (ctrl w)) in
      let* hasControlPlaneNodes :=
        match cached with
        | Some b => ret b
        | None =>
            match HasControlPlaneNodes with
            | inl err => fail err
            | inr b => modify (set_ctrl (set_hasControlPlaneNodes (Some b)));; ret b
            end
        end in
      (if shouldHaveImpersonator hasControlPlaneNodes impersonationSpec
       then ensureImpersonatorIsStarted
       else ensureImpersonatorIsStopped true);;
      (if shouldHaveLoadBalancer hasControlPlaneNodes impersonationSpec
       then ensureLoadBalancerIsStarted impersonationSpec
       else ensureLoadBalancerIsStopped);;
      (if shouldHaveClusterIPService hasControlPlaneNodes impersonationSpec
       then ensureClusterIPServiceIsStarted impersonationSpec
       else ensureClusterIPServiceIsStopped);;
      let* r := catch (findDesiredTLSCertificateName impersonationSpec) in
      match r with
      | inl err => UnsetCertKeyContent;; fail err
      | inr nameInfo =>
          let* impersonationCA :=
            if shouldHaveTLSSecret hasControlPlaneNodes impersonationSpec
            then
              let* ca := ensureCASecretIsCreated in
              ensureTLSSecret nameInfo ca;;
              ret (Some ca)
            else ensureTLSSecretIsRemoved;; ret None in
          let* now := gets (fun w => clockNow (ctrl w)) in
          match doSyncResult hasControlPlaneNodes now nameInfo impersonationSpec impersonationCA with
          | inl err => fail err
          | inr credentialIssuerStrategyResult =>
              loadSignerCA (v1alpha1.Status credentialIssuerStrategyResult);;
              ret credentialIssuerStrategyResult
          end
      end
  end.

(** ** The validation chain, in the words of the specification

    The specification describes the validation of an existing TLS Secret as
    six conditions checked in a fixed order, the Secret being deleted at the
    first that fails.  These definitions follow that description; the
    properties below compare them with
    [deleteTLSSecretWhenCertificateDoesNotMatchDesiredState]. *)

Inductive validationFailure :=
| decodeFailure
| parseFailure
| keyMismatch
| trustFailure
| staleness
| nameMismatch.

(** The certificate of a Secret, when its PEM decodes and parses. *)
Definition certificateOf `{Environment} (secret : v1.Secret) : option x509_Certificate :=
  match pem_Decode (secretData secret v1.TLSCertKey) with
  | Some der =>
      match x509_ParseCertificate der with
      | inr cert => Some cert
      | inl _ => None
      end
  | None => None
  end.

(** Exact name match.  IP case: a non-zero number of desired IPs, as many
    actual IPs, equal in the same order, and no DNS name.  Hostname case:
    exactly one DNS name, equal to the desired hostname, and no IP. *)
Definition exactNameMatch (desiredIPs actualIPs : list net.IP)
    (desiredHostname : string) (actualHostnames : list string) : Prop :=
  (desiredIPs <> []
   /\ length actualIPs = length desiredIPs
   /\ Forall2 (fun actual desired => net.Equal actual desired = true) actualIPs desiredIPs
   /\ actualHostnames = [])
  \/ (desiredHostname <> ""
      /\ actualHostnames = [desiredHostname]
      /\ actualIPs = []).

(** The six conditions, in order, each with the failure it stands for. *)
Definition validationChecks `{Environment} (nameInfo : certNameInfo) (ca : CA) (secret : v1.Secret)
    : list (validationFailure * bool) :=
  let certPEM := secretData secret v1.TLSCertKey in
  let keyPEM := secretData secret v1.TLSPrivateKeyKey in
  [ (decodeFailure, bool_decide (is_Some (pem_Decode certPEM)));
    (parseFailure, bool_decide (is_Some (certificateOf secret)));
    (keyMismatch, bool_decide (tls_X509KeyPair certPEM keyPEM = None));
    (trustFailure,
      match certificateOf secret with
      | Some cert => bool_decide (x509_Verify cert ca = None)
      | None => false
      end);
    (staleness, ready nameInfo);
    (nameMismatch,
      match certificateOf secret with
      | Some cert =>
          certHostnameAndIPMatchDesiredState (selectedIPs nameInfo) (IPAddresses cert)
            (selectedHostname nameInfo) (DNSNames cert)
      | None => false
      end) ].

(** The first condition that fails, if any. *)
Definition firstFailingCheck `{Environment} (nameInfo : certNameInfo) (ca : CA) (secret : v1.Secret)
    : option validationFailure :=
  fst <$> find (fun check => negb (snd check)) (validationChecks nameInfo ca secret).

(** The error returned when the deletion that follows a failure fails. *)
Definition deletionError (failure : validationFailure) (err : error) : error :=
  match failure with
  | decodeFailure =>
      wrapError "found missing or not PEM-encoded data in TLS Secret, but got error while deleting it" err
  | parseFailure =>
      wrapError "PEM data represented an invalid cert, but got error while deleting it" err
  | keyMismatch =>
      wrapError "cert had an invalid private key, but got error while deleting it" err
  | _ => err
  end.

(** ** What the controller relies on from the certificate libraries *)

(** How [crypto/x509] stores an IP subject alternative name: the 4-byte
    form of an IPv4 address, any other address as it is. *)
Definition x509_SANIP (ip : net.IP) : net.IP := default ip (net.To4 ip).

(** A certificate that [ca] issues for the given names and turns into PEM
    is one that decodes and parses back to those names, matches its key and
    verifies against [ca]. *)
Definition issuedCertificateContract `{Environment} (ca : CA)
    (hostnames : list string) (ips : list net.IP) : Prop :=
  forall impersonationCert certPEM keyPEM,
    CA_IssueServerCert ca hostnames ips approximatelyOneHundredYears = inr impersonationCert ->
    certauthority_ToPEM impersonationCert = inr (certPEM, keyPEM) ->
    exists der cert,
      pem_Decode certPEM = Some der
      /\ x509_ParseCertificate der = inr cert
      /\ tls_X509KeyPair certPEM keyPEM = None
      /\ x509_Verify cert ca = None
      /\ IPAddresses cert = map x509_SANIP ips
      /\ DNSNames cert = hostnames.

(** The resolver selects IPs or a hostname, never both and never
    neither. *)
Definition selectsOneKindOfName (nameInfo : certNameInfo) : Prop :=
  (selectedIPs nameInfo <> [] /\ selectedHostname nameInfo = "")
  \/ (selectedIPs nameInfo = [] /\ selectedHostname nameInfo <> "").

(** ** Two passes in succession *)

(** The mutating calls (create, update, delete) made on the store. *)
Definition mutatingCalls (w : world) : list event := List.filter isMutatingCall (events w).

(** The start of the next pass when nothing outside the controller has
    changed: the informer cache has caught up with the store, and the
    record of calls starts afresh. *)
Definition resync (w : world) : world :=
  {| ctrl := ctrl w; informer := apiserver w; apiserver := apiserver w; events := [] |}.

(** What no step of a pass changes once the control-plane flag is cached:
    the configuration of the controller and the informer cache. *)
Definition static (w : world) :=
  (namespace (ctrl w), generatedLoadBalancerServiceName (ctrl w),
   generatedClusterIPServiceName (ctrl w), tlsSecretName (ctrl w), caSecretName (ctrl w),
   impersonationSignerSecretName (ctrl w), labels (ctrl w), clockNow (ctrl w),
   hasControlPlaneNodes (ctrl w), informer w).

(** The name that [findTLSCertificateNameFromLoadBalancer] resolves from
    what the lister returns for the load balancer. *)
Definition nameFromLoadBalancer `{Environment} (ns : string) (lb : option v1.Service) : error + certNameInfo :=
  match lb with
  | None => inr certNameInfo_notReady
  | Some lb =>
      let ingresses := v1.Ingress lb in
      if match ingresses with
         | [] => true
         | ingress0 :: _ => String.eqb (v1.Hostname ingress0) "" && String.eqb (v1.IP ingress0) ""
         end
      then inr certNameInfo_notReady
      else
        match firstIngressHostname ingresses with
        | Some hostname =>
            inr {| ready := true; selectedIPs := []; selectedHostname := hostname; clientEndpoint := hostname |}
        | None =>
            match firstIngressIP ingresses with
            | Some (ip, parsedIP) =>
                inr {| ready := true; selectedIPs := [parsedIP]; selectedHostname := ""; clientEndpoint := ip |}
            | None =>
                inl (errorString ("could not find valid IP addresses or hostnames from load balancer "
                                    ++ ns ++ "/" ++ v1.Name (v1.Meta lb)))
            end
        end
  end.

(** The same for [findTLSCertificateNameFromClusterIPService]. *)
Definition nameFromClusterIPService `{Environment} (clusterIP : option v1.Service) : certNameInfo :=
  match clusterIP with
  | None => certNameInfo_notReady
  | Some clusterIP =>
      let ip := v1.ClusterIP (v1.Spec clusterIP) in
      let ips := v1.ClusterIPs (v1.Spec clusterIP) in
      if negb (String.eqb ip "")
      then {| ready := true;
              selectedIPs := if (0 <? length ips)%nat then map ParseIP_orNil ips else [ParseIP_orNil ip];
              selectedHostname := ""; clientEndpoint := ip |}
      else certNameInfo_notReady
  end.

(** The Services that [ensureLoadBalancerIsStarted] and
    [ensureClusterIPServiceIsStarted] hand to [createOrUpdateService]. *)
Definition desiredLoadBalancer (c : impersonatorConfigController)
    (config : v1alpha1.ImpersonationProxySpec) : v1.Service :=
  {| v1.Meta :=
       {| v1.Name := generatedLoadBalancerServiceName c;
          v1.Namespace := namespace c;
          v1.Labels := labels c;
          v1.Annotations := v1alpha1.Annotations (v1alpha1.Service config) |};
     v1.Spec :=
       {| v1.Ports := [ {| v1.Protocol_ := v1.ProtocolTCP;
                           v1.Port := defaultHTTPSPort;
                           v1.TargetPort := impersonationProxyPort;
                           v1.NodePort := 0 |} ];
          v1.Selector := {[ appLabelKey := default "" (labels c !! appLabelKey) ]};
          v1.ClusterIP := "";
          v1.ClusterIPs := [];
          v1.Type_ := v1.ServiceTypeLoadBalancer;
          v1.LoadBalancerIP := v1alpha1.LoadBalancerIP (v1alpha1.Service config) |};
     v1.Ingress := [] |}.

Definition desiredClusterIPService (c : impersonatorConfigController)
    (config : v1alpha1.ImpersonationProxySpec) : v1.Service :=
  {| v1.Meta :=
       {| v1.Name := generatedClusterIPServiceName c;
          v1.Namespace := namespace c;
          v1.Labels := labels c;
          v1.Annotations := v1alpha1.Annotations (v1alpha1.Service config) |};
     v1.Spec :=
       {| v1.Ports := [ {| v1.Protocol_ := v1.ProtocolTCP;
                           v1.Port := defaultHTTPSPort;
                           v1.TargetPort := impersonationProxyPort;
                           v1.NodePort := 0 |} ];
          v1.Selector := {[ appLabelKey := default "" (labels c !! appLabelKey) ]};
          v1.ClusterIP := "";
          v1.ClusterIPs := [];
          v1.Type_ := v1.ServiceTypeClusterIP;
          v1.LoadBalancerIP := "" |};
     v1.Ingress := [] |}.

(** A stored Service that an update for [desiredService] would leave as it
    is. *)
Definition settledService `{Environment} (desiredService stored : v1.Service) : Prop :=
  updatedServiceOf stored (withBookkeepingAnnotation desiredService)
    (mapKeys (v1.Annotations (v1.Meta desiredService))) = stored.

(** A TLS Secret slot that needs no work for the resolved name: a Secret
    that passes every check, or no Secret while the name is not ready. *)
Definition settledTLSSecret `{Environment} (nameInfo : certNameInfo) (ca : CA)
    (stored : option v1.Secret) : Prop :=
  match stored with
  | Some secret => firstFailingCheck nameInfo ca secret = None
  | None => ready nameInfo = false
  end.

(** The store reports not-found only for objects it does not have. *)
Definition honestNotFound `{APIServer} : Prop :=
  forall call err, apiFault call = Some err -> IsNotFound (Some err) = false.

(** On create the store fills in what the sender left open and overrules
    nothing the controller manages: the stored Service has the metadata,
    selector, type and load-balancer IP it was sent with. *)
Definition allocationKeepsWhatWasSent `{APIServer} : Prop :=
  forall svc,
    v1.Meta (allocate svc) = v1.Meta svc
    /\ v1.Selector (v1.Spec (allocate svc)) = v1.Selector (v1.Spec svc)
    /\ v1.Type_ (v1.Spec (allocate svc)) = v1.Type_ (v1.Spec svc)
    /\ v1.LoadBalancerIP (v1.Spec (allocate svc)) = v1.LoadBalancerIP (v1.Spec svc).

(** The store assigns no ingress on create: that is left to the load
    balancer controller of the cluster, which acts later and from
    outside. *)
Definition assignsNoIngress `{APIServer} : Prop :=
  forall svc, v1.Ingress (allocate svc) = v1.Ingress svc.

(** The store assigns no cluster IP on create.  An API server does assign
    one, unless the Service was sent with one. *)
Definition assignsNoClusterIP `{APIServer} : Prop :=
  forall svc,
    v1.ClusterIP (v1.Spec (allocate svc)) = v1.ClusterIP (v1.Spec svc)
    /\ v1.ClusterIPs (v1.Spec (allocate svc)) = v1.ClusterIPs (v1.Spec svc).

(** The store assigns on create no address that the name resolver would
    read under this specification: no ingress and, when the specification
    asks for a cluster-IP Service, no cluster IP. *)
Definition assignsNoAddressFor `{APIServer}
    (impersonationProxy : option v1alpha1.ImpersonationProxySpec) : Prop :=
  assignsNoIngress
  /\ (forall spec,
        impersonationProxy = Some spec ->
        v1alpha1.Type_ (v1alpha1.Service spec) = v1alpha1.ImpersonationProxyServiceTypeClusterIP ->
        assignsNoClusterIP).

(** A step that leaves configuration, cache and store alone and makes no
    mutating call. *)
Definition quiet (w w' : world) : Prop :=
  static w' = static w /\ apiserver w' = apiserver w /\ mutatingCalls w' = mutatingCalls w.

(** The name a pass resolves, as a function of the specification and of
    what the informer cache holds. *)
Definition resolvedName `{Environment} (config : v1alpha1.ImpersonationProxySpec) (w : world)
    : error + certNameInfo :=
  if negb (String.eqb (v1alpha1.ExternalEndpoint config) "")
  then inr (findTLSCertificateNameFromEndpointConfig config)
  else if bool_decide (v1alpha1.Type_ (v1alpha1.Service config) = v1alpha1.ImpersonationProxyServiceTypeClusterIP)
  then inr (nameFromClusterIPService (services (informer w) !! generatedClusterIPServiceName (ctrl w)))
  else nameFromLoadBalancer (namespace (ctrl w))
         (services (informer w) !! generatedLoadBalancerServiceName (ctrl w)).

(** The codec returns the key list it was given. *)
Definition jsonRoundTrip `{Environment} (annotations : gmap string string) : Prop :=
  json_Unmarshal (json_Marshal (sort_Strings (mapKeys annotations))) = sort_Strings (mapKeys annotations).

(** The CA that was created and stored loads back from its Secret. *)
Definition createdCALoads `{Environment} : Prop :=
  forall ca keyPEM,
    certauthority_New caCommonName approximatelyOneHundredYears = inr ca ->
    CA_PrivateKeyToPEM ca = inr keyPEM ->
    certauthority_Load (CA_Bundle ca) keyPEM = inr ca.

(** An exposure Service slot after a successful pass: when the Service is
    wanted, a settled Service, which the resolver reads like the one the
    pass found, or which is the desired Service as the store allocated it
    when the pass found none; when it is not wanted, nothing. *)
Definition exposureSettled `{Environment} `{APIServer} (should : bool) (desiredService : v1.Service)
    (old new : option v1.Service) : Prop :=
  if should
  then exists stored,
         new = Some stored
         /\ settledService desiredService stored
         /\ match old with
            | Some old =>
                v1.Ingress stored = v1.Ingress old
                /\ v1.Name (v1.Meta stored) = v1.Name (v1.Meta old)
                /\ v1.ClusterIP (v1.Spec stored) = v1.ClusterIP (v1.Spec old)
                /\ v1.ClusterIPs (v1.Spec stored) = v1.ClusterIPs (v1.Spec old)
            | None => stored = allocate (withBookkeepingAnnotation desiredService)
            end
  else new = None.

(** Every object of the cache is stored under its own name. *)
Definition wellKeyed (cl : cluster) : Prop :=
  forall k svc, services cl !! k = Some svc -> v1.Name (v1.Meta svc) = k.

(** What a successful pass leaves behind. *)
Record settled `{Environment} `{APIServer} (config : v1alpha1.ImpersonationProxySpec) (b : bool)
    (w0 w1 : world) : Prop := {
  settled_flag : hasControlPlaneNodes (ctrl w1) = Some b;
  settled_namespace : namespace (ctrl w1) = namespace (ctrl w0);
  settled_lbName : generatedLoadBalancerServiceName (ctrl w1) = generatedLoadBalancerServiceName (ctrl w0);
  settled_cipName : generatedClusterIPServiceName (ctrl w1) = generatedClusterIPServiceName (ctrl w0);
  settled_tlsName : tlsSecretName (ctrl w1) = tlsSecretName (ctrl w0);
  settled_caName : caSecretName (ctrl w1) = caSecretName (ctrl w0);
  settled_labels : labels (ctrl w1) = labels (ctrl w0);
  settled_lb :
    exposureSettled (shouldHaveLoadBalancer b config) (desiredLoadBalancer (ctrl w0) config)
      (services (informer w0) !! generatedLoadBalancerServiceName (ctrl w0))
      (services (apiserver w1) !! generatedLoadBalancerServiceName (ctrl w0));
  settled_cip :
    exposureSettled (shouldHaveClusterIPService b config) (desiredClusterIPService (ctrl w0) config)
      (services (informer w0) !! generatedClusterIPServiceName (ctrl w0))
      (services (apiserver w1) !! generatedClusterIPServiceName (ctrl w0));
  settled_secrets :
    if shouldHaveTLSSecret b config
    then exists nameInfo ca caSecret,
           resolvedName config w0 = inr nameInfo
           /\ secrets (apiserver w1) !! caSecretName (ctrl w0) = Some caSecret
           /\ certauthority_Load (secretData caSecret caCrtKey) (secretData caSecret caKeyKey) = inr ca
           /\ settledTLSSecret nameInfo ca (secrets (apiserver w1) !! tlsSecretName (ctrl w0))
    else secrets (apiserver w1) !! tlsSecretName (ctrl w0) = None;
}.

(** ** Reporting a pass *)

(** What [Sync] needs beyond [doSync]: the text of an error
    ([err.Error()]), the two Kubernetes error predicates that
    [strategyReasonForError] asks, and the outcome of [issuerconfig.Update]
    for the strategy it is handed. *)
Class Reporting := {
  errorMessage : error -> string;
  IsConflict : error -> bool;
  IsAlreadyExists : error -> bool;
  issuerconfig_Update : v1alpha1.CredentialIssuerStrategy -> option error;
}.

Definition strategyReasonForError `{Reporting} (err : error) : v1alpha1.StrategyReason :=
  if IsConflict err || IsAlreadyExists err
  then v1alpha1.PendingStrategyReason
  else v1alpha1.ErrorDuringSetupStrategyReason.

(** The strategy [Sync] publishes when [doSync] failed with [err]. *)
Definition errorStrategy `{Reporting} (err : error) (now : Z) : v1alpha1.CredentialIssuerStrategy :=
  {| v1alpha1.Status := v1alpha1.ErrorStrategyStatus;
     v1alpha1.Reason := strategyReasonForError err;
     v1alpha1.Message := errorMessage err;
     v1alpha1.LastUpdateTime := now;
     v1alpha1.Frontend := None |}.

(** Lines 177-188 of [Sync]: the error of [doSync] and the strategy that
    goes to [issuerconfig.Update], which is the one [doSync] composed or,
    when it failed, the error strategy, the signer CA being cleared. *)
Definition strategyOfPass `{Environment} `{APIServer} `{Reporting}
    (impersonationProxy : option v1alpha1.ImpersonationProxySpec)
    : M (option error * v1alpha1.CredentialIssuerStrategy) :=
  let* r := catch (doSync impersonationProxy) in
  match r with
  | inr strategy => ret (None, strategy)
  | inl err =>
      let* now := gets (fun w => clockNow (ctrl w)) in
      clearSignerCA;;
      ret (Some err, errorStrategy err now)
  end.

(** [Sync]; [credIssuer] is what the CredentialIssuer lister returns: an
    error, or the object, of which the pass reads
    [Spec.ImpersonationProxy].  [issuerconfig.Update] goes through the
    Pinniped API client and touches neither the controller nor the Services
    and Secrets. *)
Definition Sync `{Environment} `{APIServer} `{Reporting}
    (credIssuer : error + option v1alpha1.ImpersonationProxySpec) : M unit :=
  match credIssuer with
  | inl err => fail (wrapError "could not get CredentialIssuer to update" err)
  | inr impersonationProxy =>
      let* (err, strategy) := strategyOfPass impersonationProxy in
      returnErr (NewAggregate [err; issuerconfig_Update strategy])
  end.

(** ** Invariants of the controller *)

(** A handle that the controller holds has an open error channel: the
    controller drops the handle in the call that closes the channel. *)
Definition channelsOpen (w : world) : Prop :=
  forall h, server (ctrl w) = Some h -> errorChClosed h = false.

(** A call on one of the four objects the controller manages: the two
    exposure Services, the CA Secret (created only) and the TLS Secret. *)
Definition ownCall (c : impersonatorConfigController) (e : event) : Prop :=
  match e with
  | ServicesCreate svc | ServicesUpdate svc =>
      v1.Name (v1.Meta svc) = generatedLoadBalancerServiceName c
      \/ v1.Name (v1.Meta svc) = generatedClusterIPServiceName c
  | ServicesDelete name =>
      name = generatedLoadBalancerServiceName c \/ name = generatedClusterIPServiceName c
  | SecretsCreate secret =>
      v1.Name (v1.SecretMeta secret) = tlsSecretName c
      \/ v1.Name (v1.SecretMeta secret) = caSecretName c
  | SecretsDelete name => name = tlsSecretName c
  | closeErrorCh | closeServerStopCh | goStartImpersonator _ => True
  end.

(** The configuration of the controller: the fields no method assigns. *)
Definition configuration (c : impersonatorConfigController) :=
  (namespace c, credentialIssuerResourceName c, generatedLoadBalancerServiceName c,
   generatedClusterIPServiceName c, tlsSecretName c, caSecretName c,
   impersonationSignerSecretName c, labels c, clockNow c).

(** What every method of the controller respects, whatever it returns:
    the configuration and the informer cache stay as they are, a cached
    control-plane flag stays cached, open channels stay open, the record of
    calls only grows, and, when the cache keeps every Service under its own
    name, it grows by calls on the controller's own objects. *)
Definition respected (w w' : world) : Prop :=
  configuration (ctrl w') = configuration (ctrl w)
  /\ informer w' = informer w
  /\ (forall b, hasControlPlaneNodes (ctrl w) = Some b -> hasControlPlaneNodes (ctrl w') = Some b)
  /\ (channelsOpen w -> channelsOpen w')
  /\ exists calls,
       events w' = events w ++ calls
       /\ (wellKeyed (informer w) -> Forall (ownCall (ctrl w)) calls).

(** The record of calls grows by calls that satisfy [P]. *)
Definition grows (P : event -> Prop) (w w' : world) : Prop :=
  exists calls, events w' = events w ++ calls /\ Forall P calls.

(** Calls that take something away: a delete, or the closing of one of the
    server's channels. *)
Definition isRemoval (e : event) : Prop :=
  match e with
  | ServicesDelete _ | SecretsDelete _ | closeErrorCh | closeServerStopCh => True
  | _ => False
  end.

(** The server handle is the one it was. *)
Definition serverKept (w w' : world) : Prop := server (ctrl w') = server (ctrl w).

(** What a teardown of the Service [name] leaves behind: nothing has
    happened when the cache has no such Service; otherwise one delete call
    was made, a not-found answer counts as success, and unless the call
    failed for another reason the store has no such Service afterwards. *)
Definition tornDown `{APIServer} (name : string) (w : world) (result : (error + unit) * world) : Prop :=
  ctrl (snd result) = ctrl w
  /\ informer (snd result) = informer w
  /\ secrets (apiserver (snd result)) = secrets (apiserver w)
  /\ match services (informer w) !! name with
     | None => result = (inr tt, w)
     | Some _ =>
         events (snd result) = events w ++ [ServicesDelete name]
         /\ match apiFault (ServicesDelete name) with
            | Some err =>
                fst result = (if IsNotFound (Some err) then inr tt else inl err)
                /\ apiserver (snd result) = apiserver w
            | None =>
                fst result = inr tt
                /\ services (apiserver (snd result)) = delete name (services (apiserver w))
            end
     end.

(** ** The constructor and the life of a controller *)

(** [NewImpersonatorConfigController]: the Syncer that it builds from its
    arguments, with no cached control-plane decision, no server, and an
    empty serving-certificate provider.  The clients, informers and loggers
    are the collaborators of the model. *)
Definition NewImpersonatorConfigController
    (namespace credentialIssuerResourceName : string)
    (generatedLoadBalancerServiceName generatedClusterIPServiceName : string)
    (tlsSecretName caSecretName : string)
    (labels : gmap string string) (clock : Z)
    (impersonationSignerSecretName : string)
    (impersonationSigningCertProvider : option (bytes * bytes)) : impersonatorConfigController :=
  {| namespace := namespace;
     credentialIssuerResourceName := credentialIssuerResourceName;
     generatedLoadBalancerServiceName := generatedLoadBalancerServiceName;
     generatedClusterIPServiceName := generatedClusterIPServiceName;
     tlsSecretName := tlsSecretName;
     caSecretName := caSecretName;
     impersonationSignerSecretName := impersonationSignerSecretName;
     labels := labels;
     clockNow := clock;
     impersonationSigningCertProvider := impersonationSigningCertProvider;
     hasControlPlaneNodes := None;
     server := None;
     tlsServingCertDynamicCertProvider := None |}.

(** The filters that the constructor installs on the Service and the
    Secret informer: the objects whose changes make the controller run a
    pass. *)
Definition servicesFilter (c : impersonatorConfigController) (objNamespace objName : string) : bool :=
  if negb (String.eqb objNamespace (namespace c)) then false
  else String.eqb objName (generatedLoadBalancerServiceName c)
       || String.eqb objName (generatedClusterIPServiceName c).

Definition secretsFilter (c : impersonatorConfigController) (objNamespace objName : string) : bool :=
  String.eqb objNamespace (namespace c)
  && bool_decide (objName ∈ [tlsSecretName c; caSecretName c; impersonationSignerSecretName c]).

(** What has happened to the channels of the current server, as far as the
    record of calls tells: no server, a server with both channels open, or
    one of the two channels closed.  [channelStep] admits a start only when
    there is no server, and a close only of a channel that is open. *)
Inductive channelState := noServer | serverRunning | stopChClosed | errorChClosed_.

Definition channelStep (s : channelState) (e : event) : option channelState :=
  match e with
  | goStartImpersonator _ =>
      match s with noServer => Some serverRunning | _ => None end
  | closeServerStopCh =>
      match s with
      | serverRunning => Some stopChClosed
      | errorChClosed_ => Some noServer
      | _ => None
      end
  | closeErrorCh =>
      match s with
      | serverRunning => Some errorChClosed_
      | stopChClosed => Some noServer
      | _ => None
      end
  | _ => Some s
  end.

Definition channelProtocol (calls : list event) : option channelState :=
  foldl (fun s e => match s with Some s => channelStep s e | None => None end)
        (Some noServer) calls.

(** The channels were used in order, and the controller holds a handle
    exactly when the record of calls says that a server is running. *)
Definition orderly (w : world) : Prop :=
  channelsOpen w
  /\ channelProtocol (events w)
     = Some (match server (ctrl w) with Some _ => serverRunning | None => noServer end).

(** Order is kept from one world to the next. *)
Definition keepsOrder (w w' : world) : Prop := orderly w -> orderly w'.

(** The states a controller goes through: it starts as the constructor
    built it, runs passes, each with collaborators of its own, and between
    passes the cluster and the cache change on their own and a running
    server may return, which puts its result on the error channel. *)
Inductive reachable (c0 : impersonatorConfigController) : world -> Prop :=
| reachable_start (informer0 apiserver0 : cluster) :
    reachable c0 {| ctrl := c0; informer := informer0; apiserver := apiserver0; events := [] |}
| reachable_Sync (environment : Environment) (store : APIServer) (reporting : Reporting)
    (credIssuer : error + option v1alpha1.ImpersonationProxySpec) (w : world) :
    reachable c0 w -> reachable c0 (snd (Sync credIssuer w))
| reachable_cluster (informer' apiserver' : cluster) (w : world) :
    reachable c0 w ->
    reachable c0 {| ctrl := ctrl w; informer := informer'; apiserver := apiserver'; events := events w |}
| reachable_exit (h : serverHandle) (v : option error) (w : world) :
    reachable c0 w ->
    server (ctrl w) = Some h ->
    errorChBuf h = None ->
    reachable c0
      (set_ctrl (set_server (Some {| errorChBuf := Some v;
                                     errorChClosed := errorChClosed h;
                                     exitOnStop := exitOnStop h |})) w).

(** ** What a pass reads *)

(** Two caches that hold the same objects wherever the informer filters
    of the constructor let an object of the controller's namespace
    through. *)
Definition sameWatched (c : impersonatorConfigController) (cache cache' : cluster) : Prop :=
  (forall name, servicesFilter c (namespace c) name = true ->
                services cache !! name = services cache' !! name)
  /\ (forall name, secretsFilter c (namespace c) name = true ->
                   secrets cache !! name = secrets cache' !! name).

(** The world with another informer cache. *)
Definition withInformer (cache : cluster) (w : world) : world :=
  {| ctrl := ctrl w; informer := cache; apiserver := apiserver w; events := events w |}.

(** A method that, run from [w], does not tell the cache of [w] from a
    cache with the same watched objects: it returns the same and leaves
    the same controller, store and record of calls. *)
Definition blind {A} (m : M A) (w : world) : Prop :=
  forall cache',
    sameWatched (ctrl w) (informer w) cache' ->
    m (withInformer cache' w) = (fst (m w), withInformer cache' (snd (m w))).

(** ** A reference environment

    Small executable stand-ins for the collaborators, on which the
    controller can be run: IPv4 literals for [net.ParseIP], string arrays
    without escape sequences for [encoding/json], [host[:port]] for
    [endpointaddr], and a certificate authority whose certificates are their
    own subject-name record.  Every property below is proved for an
    arbitrary environment; this one provides the concrete runs. *)

Module Ref.

Fixpoint splitOn_go (sep : ascii) (s : string) (cur : string) : list string :=
  match s with
  | EmptyString => [cur]
  | String ch rest =>
      if Ascii.eqb ch sep
      then cur :: splitOn_go sep rest ""
      else splitOn_go sep rest (cur ++ String ch "")
  end.

(** [strings.Split(s, sep)] for a one-character separator. *)
Definition splitOn (sep : ascii) (s : string) : list string := splitOn_go sep s "".

Definition digitValue (ch : ascii) : option Z :=
  let n := Z.of_N (N_of_ascii ch) in
  if (48 <=? n)%Z && (n <=? 57)%Z then Some (n - 48)%Z else None.

Fixpoint parseDigits (s : string) (acc : Z) : option Z :=
  match s with
  | EmptyString => Some acc
  | String ch rest =>
      match digitValue ch with
      | Some d => parseDigits rest (10 * acc + d)%Z
      | None => None
      end
  end.

(** An unsigned decimal number without redundant leading zero. *)
Definition parseDecimal (s : string) : option Z :=
  match s with
  | EmptyString => None
  | String "0" (String _ _) => None
  | _ => parseDigits s 0
  end.

Definition parseOctet (s : string) : option byte :=
  match parseDecimal s with
  | Some n => if (n <=? 255)%Z then Byte.of_N (Z.to_N n) else None
  | None => None
  end.

(** [net.parseIPv4] on dotted-decimal IPv4 literals. *)
Definition parseIPv4 (s : string) : option net.IP :=
  match splitOn "." s with
  | [a; b; c; d] =>
      match parseOctet a, parseOctet b, parseOctet c, parseOctet d with
      | Some a, Some b, Some c, Some d => Some (net.IPv4 a b c d)
      | _, _, _, _ => None
      end
  | _ => None
  end.

(** The double-quote character. *)
Definition dquote : ascii := ascii_of_nat 34.

Definition quote (s : string) : string := String dquote (s ++ String dquote "").

(** [json.Marshal] of a string slice whose strings need no escaping. *)
Definition marshalStrings (l : list string) : string :=
  "[" ++ String.concat "," (map quote l) ++ "]".

Inductive jsonState :=
| jsonStart | jsonOpened | jsonInString | jsonAfterElement | jsonAfterComma | jsonClosed.

(** One pass over the text; [cur] is the string being read, [acc] the
    strings read so far.  [None] is a syntax error. *)
Fixpoint json_scan (s : string) (st : jsonState) (cur : string) (acc : list string) : option (list string) :=
  match s with
  | EmptyString => match st with jsonClosed => Some acc | _ => None end
  | String ch rest =>
      match st with
      | jsonStart =>
          if Ascii.eqb ch "[" then json_scan rest jsonOpened cur acc else None
      | jsonOpened =>
          if Ascii.eqb ch "]" then json_scan rest jsonClosed cur acc
          else if Ascii.eqb ch dquote then json_scan rest jsonInString "" acc
          else None
      | jsonAfterComma =>
          if Ascii.eqb ch dquote then json_scan rest jsonInString "" acc else None
      | jsonInString =>
          if Ascii.eqb ch dquote then json_scan rest jsonAfterElement "" (acc ++ [cur])
          else if Ascii.eqb ch "\" then None
          else json_scan rest jsonInString (cur ++ String ch "") acc
      | jsonAfterElement =>
          if Ascii.eqb ch "," then json_scan rest jsonAfterComma cur acc
          else if Ascii.eqb ch "]" then json_scan rest jsonClosed cur acc
          else None
      | jsonClosed => None
      end
  end.

(** [json.Unmarshal] into a slice that holds [[]string{}]: a syntax error
    leaves the slice as it was. *)
Definition unmarshalStrings (s : string) : list string :=
  default [] (json_scan s jsonStart "" []).

(** [host] or [host:port], the host being non-empty. *)
Definition parseEndpoint (endpoint : string) (defaultPort : Z) : HostPort * option error :=
  let invalid := ({| Host := ""; HostPort_Port := 0 |}, Some (errorString "invalid endpoint")) in
  match splitOn ":" endpoint with
  | [host] =>
      if String.eqb host "" then invalid
      else ({| Host := host; HostPort_Port := defaultPort |}, None)
  | [host; port] =>
      match parseDecimal port with
      | Some port =>
          if String.eqb host "" then invalid
          else ({| Host := host; HostPort_Port := port |}, None)
      | None => invalid
      end
  | _ => invalid
  end.

Definition formatEndpoint (hp : HostPort) : string :=
  Host hp ++ ":" ++ DecimalString.NilZero.string_of_int (Z.to_int (HostPort_Port hp)).

(** The armour of a PEM block is one marker byte. *)
Definition pemEncode (der : bytes) : bytes := x2d :: der.

Definition decodePEM (pem : bytes) : option bytes :=
  match pem with
  | x2d :: der => Some der
  | _ => None
  end.

(** A certificate is encoded as a tag byte followed by its one subject
    name: tag 4 and the 4 bytes of an IPv4 address, or tag 2 and a DNS
    name. *)
Definition encodeCertificate (hostnames : list string) (ips : list net.IP) : option bytes :=
  match hostnames, ips with
  | [], [ip] =>
      match net.To4 ip with
      | Some v4 => Some (x04 :: v4)
      | None => None
      end
  | [hostname], [] => Some (x02 :: list_byte_of_string hostname)
  | _, _ => None
  end.

Definition parseCertificate (der : bytes) : error + (list net.IP * list string) :=
  match der with
  | x04 :: v4 =>
      if bool_decide (length v4 = net.IPv4len) then inr ([v4], [])
      else inl (errorString "x509: malformed certificate")
  | x02 :: name => inr ([], [string_of_list_byte name])
  | _ => inl (errorString "x509: malformed certificate")
  end.

(** A CA is the pair of its PEM blobs. *)
Definition theCA : bytes * bytes := (pemEncode [x43; x41], pemEncode [x4b]).

Definition loadCA (crt key : bytes) : error + (bytes * bytes) :=
  match decodePEM crt, decodePEM key with
  | Some _, Some _ => inr (crt, key)
  | _, _ => inl (errorString "could not load CA")
  end.

Definition issueServerCert (ca : bytes * bytes) (hostnames : list string) (ips : list net.IP) (ttl : Z)
    : error + bytes :=
  match encodeCertificate hostnames ips with
  | Some der => inr der
  | None => inl (errorString "could not issue certificate")
  end.

(** The private key of a certificate is the certificate. *)
Definition keyPairError (certPEM keyPEM : bytes) : option error :=
  if bool_decide (certPEM = keyPEM) then None
  else Some (errorString "tls: private key does not match public key").

Definition environment : Environment := {|
  ParseIP := parseIPv4;
  base64_EncodeToString := string_of_list_byte;
  json_Marshal := marshalStrings;
  json_Unmarshal := unmarshalStrings;
  IsValidIP := fun ip => bool_decide (is_Some (parseIPv4 ip));
  endpointaddr_Parse := parseEndpoint;
  HostPort_Endpoint := formatEndpoint;
  HasControlPlaneNodes := inr false;
  impersonatorFunc := fun _ => inr None;
  CA := bytes * bytes;
  certauthority_New := fun _ _ => inr theCA;
  certauthority_Load := loadCA;
  CA_Bundle := fst;
  CA_PrivateKeyToPEM := fun ca => inr (snd ca);
  tls_Certificate := bytes;
  CA_IssueServerCert := issueServerCert;
  certauthority_ToPEM := fun der => inr (pemEncode der, pemEncode der);
  pem_Decode := decodePEM;
  x509_Certificate := list net.IP * list string;
  x509_ParseCertificate := parseCertificate;
  IPAddresses := fst;
  DNSNames := snd;
  tls_X509KeyPair := keyPairError;
  x509_Verify := fun _ _ => None;
  SetCertKeyContent_error := keyPairError;
  apicerts_CACertificateSecretKey := "caCertificate";
  apicerts_CACertificatePrivateKeySecretKey := "caCertificateKey";
|}.

(** On create the store assigns the cluster IP that the sender left
    open, as an API server does for a Service of type ClusterIP or
    LoadBalancer. *)
Definition assignClusterIP (svc : v1.Service) : v1.Service :=
  if String.eqb (v1.ClusterIP (v1.Spec svc)) ""
  then {| v1.Meta := v1.Meta svc;
          v1.Spec :=
            {| v1.Ports := v1.Ports (v1.Spec svc);
               v1.Selector := v1.Selector (v1.Spec svc);
               v1.ClusterIP := "10.96.0.10";
               v1.ClusterIPs := ["10.96.0.10"];
               v1.Type_ := v1.Type_ (v1.Spec svc);
               v1.LoadBalancerIP := v1.LoadBalancerIP (v1.Spec svc) |};
          v1.Ingress := v1.Ingress svc |}
  else svc.

(** A store in which no call fails for a reason of its own. *)
Definition store : APIServer := {| apiFault := fun _ => None; allocate := assignClusterIP |}.

(** A controller with nothing cached and no server running. *)
Definition controller : impersonatorConfigController :=
  {| namespace := "concierge";
     credentialIssuerResourceName := "credential-issuer";
     generatedLoadBalancerServiceName := "impersonation-proxy-load-balancer";
     generatedClusterIPServiceName := "impersonation-proxy-cluster-ip";
     tlsSecretName := "impersonation-proxy-tls";
     caSecretName := "impersonation-proxy-ca";
     impersonationSignerSecretName := "impersonation-proxy-signer";
     labels := {[ "app" := "concierge" ]};
     clockNow := 0;
     impersonationSigningCertProvider := None;
     hasControlPlaneNodes := None;
     server := None;
     tlsServingCertDynamicCertProvider := None |}.

Definition emptyCluster : cluster := {| services := ∅; secrets := ∅ |}.

(** The world in which the informer cache agrees with the store. *)
Definition worldOf (c : impersonatorConfigController) (cl : cluster) : world :=
  {| ctrl := c; informer := cl; apiserver := cl; events := [] |}.

(** A load-balancer Service as the controller creates it, with the given
    annotations and with the given ingress entries assigned. *)
Definition loadBalancerService (annotations : gmap string string)
    (ingress : list v1.LoadBalancerIngress) : v1.Service :=
  {| v1.Meta :=
       {| v1.Name := "impersonation-proxy-load-balancer";
          v1.Namespace := "concierge";
          v1.Labels := {[ "app" := "concierge" ]};
          v1.Annotations := annotations |};
     v1.Spec :=
       {| v1.Ports := [ {| v1.Protocol_ := v1.ProtocolTCP; v1.Port := 443;
                           v1.TargetPort := 8444; v1.NodePort := 0 |} ];
          v1.Selector := {[ "app" := "concierge" ]};
          v1.ClusterIP := "";
          v1.ClusterIPs := [];
          v1.Type_ := v1.ServiceTypeLoadBalancer;
          v1.LoadBalancerIP := "" |};
     v1.Ingress := ingress |}.

Definition loadBalancerWith (ingress : list v1.LoadBalancerIngress) : v1.Service :=
  loadBalancerService ∅ ingress.

Definition withLoadBalancer (ingress : list v1.LoadBalancerIngress) : world :=
  worldOf controller
    {| services := {[ "impersonation-proxy-load-balancer" := loadBalancerWith ingress ]};
       secrets := ∅ |}.


(** A specification with the given mode and service type and nothing else
    set. *)
Definition specOf (mode : v1alpha1.ImpersonationProxyMode)
    (serviceType : v1alpha1.ImpersonationProxyServiceType) : v1alpha1.ImpersonationProxySpec :=
  {| v1alpha1.Mode := mode;
     v1alpha1.Service :=
       {| v1alpha1.Type_ := serviceType;
          v1alpha1.LoadBalancerIP := "";
          v1alpha1.Annotations := ∅ |};
     v1alpha1.ExternalEndpoint := "" |}.


(** Two ingress lists: the first entry blank and a hostname behind it; and
    a single entry with an IPv4 address. *)
Definition blankThenHostname : list v1.LoadBalancerIngress :=
  [ {| v1.IP := ""; v1.Hostname := "" |};
    {| v1.IP := ""; v1.Hostname := "lb.example.com" |} ].

Definition singleIP : list v1.LoadBalancerIngress :=
  [ {| v1.IP := "10.0.0.5"; v1.Hostname := "" |} ].


(** The annotation scenario: a load balancer on which this controller
    wrote the annotations a and b, and a specification that now asks for b
    and c. *)
Definition annotatedAB : gmap string string :=
  <[annotationKeysKey := marshalStrings ["a"; "b"]]> (<["a" := "1"]> {[ "b" := "2" ]}).

Definition annotatedBC : gmap string string :=
  <[annotationKeysKey := marshalStrings ["b"; "c"]]> (<["b" := "2"]> {[ "c" := "3" ]}).

Definition specBC : v1alpha1.ImpersonationProxySpec :=
  {| v1alpha1.Mode := v1alpha1.ImpersonationProxyModeEnabled;
     v1alpha1.Service :=
       {| v1alpha1.Type_ := v1alpha1.ImpersonationProxyServiceTypeLoadBalancer;
          v1alpha1.LoadBalancerIP := "";
          v1alpha1.Annotations := <["b" := "2"]> {[ "c" := "3" ]} |};
     v1alpha1.ExternalEndpoint := "" |}.

Definition withAnnotatedLoadBalancer : world :=
  worldOf controller
    {| services := {[ "impersonation-proxy-load-balancer" := loadBalancerService annotatedAB [] ]};
       secrets := ∅ |}.

(** The Service that [ensureLoadBalancerIsStarted] asks for under
    [specBC]. *)
Definition desiredBC : v1.Service := loadBalancerService (<["b" := "2"]> {[ "c" := "3" ]}) [].


(** A stored load balancer whose port has drifted from the one the
    controller asks for. *)
Definition driftedPorts : v1.Service :=
  {| v1.Meta := v1.Meta (loadBalancerWith []);
     v1.Spec :=
       {| v1.Ports := [ {| v1.Protocol_ := v1.ProtocolTCP; v1.Port := 8443;
                           v1.TargetPort := 8444; v1.NodePort := 0 |} ];
          v1.Selector := {[ "app" := "concierge" ]};
          v1.ClusterIP := "";
          v1.ClusterIPs := [];
          v1.Type_ := v1.ServiceTypeLoadBalancer;
          v1.LoadBalancerIP := "" |};
     v1.Ingress := [] |}.

Definition withDriftedPorts : world :=
  worldOf controller
    {| services := {[ "impersonation-proxy-load-balancer" := driftedPorts ]}; secrets := ∅ |}.


(** A controller whose server has been started and has since sent the nil
    error: it shut down without reporting why. *)
Definition crashedServer : world :=
  worldOf
    (set_server (Some {| errorChBuf := Some None; errorChClosed := false; exitOnStop := None |})
       (set_hasControlPlaneNodes (Some false) controller))
    emptyCluster.


(** The TLS Secret that [createNewTLSSecret] makes for the given names. *)
Definition tlsSecretFor (hostnames : list string) (ips : list net.IP) : v1.Secret :=
  let pem := pemEncode (default [] (encodeCertificate hostnames ips)) in
  {| v1.SecretMeta :=
       {| v1.Name := "impersonation-proxy-tls";
          v1.Namespace := "concierge";
          v1.Labels := {[ "app" := "concierge" ]};
          v1.Annotations := ∅ |};
     v1.Data := <[v1.TLSPrivateKeyKey := pem]> {[ v1.TLSCertKey := pem ]};
     v1.SecretType_ := v1.SecretTypeTLS |}.

Definition secretFor_10_0_0_5 : v1.Secret := tlsSecretFor [] [net.IPv4 x0a x00 x00 x05].

Definition servingCertOf (secret : v1.Secret) : option (bytes * bytes) :=
  Some (secretData secret v1.TLSCertKey, secretData secret v1.TLSPrivateKeyKey).

(** Another replica has deleted the TLS Secret: the informer cache still
    has it, the store does not, and the serving certificate is loaded. *)
Definition deletedBehindTheCache : world :=
  {| ctrl := set_tlsServingCert (servingCertOf secretFor_10_0_0_5) controller;
     informer := {| services := ∅; secrets := {[ "impersonation-proxy-tls" := secretFor_10_0_0_5 ]} |};
     apiserver := emptyCluster;
     events := [] |}.

(** The TLS Secret is in the cache and in the store, and loaded. *)
Definition withTLSSecret : world :=
  worldOf (set_tlsServingCert (servingCertOf secretFor_10_0_0_5) controller)
    {| services := ∅; secrets := {[ "impersonation-proxy-tls" := secretFor_10_0_0_5 ]} |}.


(** A specification that exposes the proxy at an external endpoint, and a
    world that has the signing Secret and nothing else. *)
Definition specEndpoint : v1alpha1.ImpersonationProxySpec :=
  {| v1alpha1.Mode := v1alpha1.ImpersonationProxyModeEnabled;
     v1alpha1.Service :=
       {| v1alpha1.Type_ := v1alpha1.ImpersonationProxyServiceTypeNone;
          v1alpha1.LoadBalancerIP := "";
          v1alpha1.Annotations := ∅ |};
     v1alpha1.ExternalEndpoint := "10.0.0.5" |}.

(** The same with a cluster-IP Service behind the endpoint. *)
Definition specEndpointClusterIP : v1alpha1.ImpersonationProxySpec :=
  {| v1alpha1.Mode := v1alpha1.ImpersonationProxyModeEnabled;
     v1alpha1.Service :=
       {| v1alpha1.Type_ := v1alpha1.ImpersonationProxyServiceTypeClusterIP;
          v1alpha1.LoadBalancerIP := "";
          v1alpha1.Annotations := ∅ |};
     v1alpha1.ExternalEndpoint := "10.0.0.5" |}.

Definition signerSecret : v1.Secret :=
  {| v1.SecretMeta :=
       {| v1.Name := "impersonation-proxy-signer";
          v1.Namespace := "concierge";
          v1.Labels := ∅;
          v1.Annotations := ∅ |};
     v1.Data := <["caCertificate" := pemEncode [x53]]> {[ "caCertificateKey" := pemEncode [x53] ]};
     v1.SecretType_ := v1.SecretTypeOpaque |}.

Definition withSigner : world :=
  worldOf controller
    {| services := ∅; secrets := {[ "impersonation-proxy-signer" := signerSecret ]} |}.

(** Error texts, and the two predicates on status errors. *)
Fixpoint errorText (err : error) : string :=
  match err with
  | StatusError _ name => name
  | errorString msg => msg
  | wrapError msg err => msg ++ ": " ++ errorText err
  | aggregate errs => "[" ++ String.concat ", " (map errorText errs) ++ "]"
  | runtimePanic msg => msg
  end.

Definition reporting : Reporting := {|
  errorMessage := errorText;
  IsConflict := fun err =>
    match err with StatusError StatusReasonConflict _ => true | _ => false end;
  IsAlreadyExists := fun err =>
    match err with StatusError StatusReasonAlreadyExists _ => true | _ => false end;
  issuerconfig_Update := fun _ => None;
|}.

End Ref.

(** * Properties *)

Example Ref_ParseIP_10_0_0_5 : Ref.parseIPv4 "10.0.0.5" = Some (net.IPv4 x0a x00 x00 x05).
Proof. reflexivity. Qed.

Example Ref_ParseIP_rejects : Ref.parseIPv4 "10.0.0.256" = None /\ Ref.parseIPv4 "10.0.05" = None.
Proof. split; reflexivity. Qed.

Example TrimSuffix_default_port : TrimSuffix "198.51.100.9:443" ":443" = "198.51.100.9".
Proof. reflexivity. Qed.

Example TrimSuffix_other_port : TrimSuffix "198.51.100.9:8443" ":443" = "198.51.100.9:8443".
Proof. reflexivity. Qed.

Example Equal_across_forms :
  net.Equal [x0a; x00; x00; x05] (net.IPv4 x0a x00 x00 x05) = true
  /\ net.Equal (net.IPv4 x0a x00 x00 x05) [x0a; x00; x00; x05] = true
  /\ net.Equal [x0a; x00; x00; x05] [x0a; x00; x00; x06] = false.
Proof. repeat split; vm_compute; reflexivity. Qed.

Example sort_Strings_keys : sort_Strings ["c"; "a"; "b"] = ["a"; "b"; "c"].
Proof. vm_compute. reflexivity. Qed.

Example endpoint_override_resolves :
  @findTLSCertificateNameFromEndpointConfig Ref.environment
    {| v1alpha1.Mode := v1alpha1.ImpersonationProxyModeEnabled;
       v1alpha1.Service := v1alpha1.Service Ref.specEndpoint;
       v1alpha1.ExternalEndpoint := "198.51.100.9:443" |}
  = {| ready := true; selectedIPs := [net.IPv4 xc6 x33 x64 x09];
       selectedHostname := ""; clientEndpoint := "198.51.100.9" |}.
Proof. vm_compute. reflexivity. Qed.

Example Ref_json_roundtrip : Ref.unmarshalStrings (Ref.marshalStrings ["b"; "c"]) = ["b"; "c"].
Proof. reflexivity. Qed.

Example Ref_json_text :
  list_ascii_of_string (Ref.marshalStrings ["b"; "c"])
  = ["["; Ref.dquote; "b"; Ref.dquote; ","; Ref.dquote; "c"; Ref.dquote; "]"]%char.
Proof. reflexivity. Qed.

(** ** Desired-state resolver *)

(** C4: the four desired-state booleans.  The impersonator is wanted
    exactly when the mode is enabled, or the mode is auto and the cluster
    has no visible control plane; the load balancer and the cluster-IP
    Service are wanted exactly when the impersonator is and the service type
    is theirs; the TLS Secret is wanted exactly when the impersonator is. *)
Theorem desired_state_booleans (hasControlPlaneNodes : bool) (config : v1alpha1.ImpersonationProxySpec) :
  (shouldHaveImpersonator hasControlPlaneNodes config = true <->
     v1alpha1.Mode config = v1alpha1.ImpersonationProxyModeEnabled
     \/ (v1alpha1.Mode config = v1alpha1.ImpersonationProxyModeAuto /\ hasControlPlaneNodes = false))
  /\ (shouldHaveLoadBalancer hasControlPlaneNodes config = true <->
        shouldHaveImpersonator hasControlPlaneNodes config = true
        /\ v1alpha1.Type_ (v1alpha1.Service config) = v1alpha1.ImpersonationProxyServiceTypeLoadBalancer)
  /\ (shouldHaveClusterIPService hasControlPlaneNodes config = true <->
        shouldHaveImpersonator hasControlPlaneNodes config = true
        /\ v1alpha1.Type_ (v1alpha1.Service config) = v1alpha1.ImpersonationProxyServiceTypeClusterIP)
  /\ shouldHaveTLSSecret hasControlPlaneNodes config = shouldHaveImpersonator hasControlPlaneNodes config.
Proof.
  unfold shouldHaveLoadBalancer, shouldHaveClusterIPService, shouldHaveTLSSecret,
    shouldHaveImpersonator, enabledByAutoMode.
  rewrite !andb_true_iff, !orb_true_iff, !andb_true_iff, !bool_decide_eq_true, negb_true_iff.
  tauto.
Qed.

(** A loaded specification has one of the three known modes and one of the
    three known service types unless it is disabled. *)
Lemma loadImpersonationProxyConfiguration_valid `{Environment} impersonationProxy spec :
  loadImpersonationProxyConfiguration impersonationProxy = inr spec ->
  (v1alpha1.Mode spec = v1alpha1.ImpersonationProxyModeDisabled
   \/ v1alpha1.Mode spec = v1alpha1.ImpersonationProxyModeEnabled
   \/ v1alpha1.Mode spec = v1alpha1.ImpersonationProxyModeAuto)
  /\ (v1alpha1.Mode spec <> v1alpha1.ImpersonationProxyModeDisabled ->
      (v1alpha1.Type_ (v1alpha1.Service spec) = v1alpha1.ImpersonationProxyServiceTypeLoadBalancer
       \/ v1alpha1.Type_ (v1alpha1.Service spec) = v1alpha1.ImpersonationProxyServiceTypeClusterIP
       \/ v1alpha1.Type_ (v1alpha1.Service spec) = v1alpha1.ImpersonationProxyServiceTypeNone)
      /\ (v1alpha1.ExternalEndpoint spec <> "" ->
          snd (endpointaddr_Parse (v1alpha1.ExternalEndpoint spec) 443) = None)
      /\ (v1alpha1.Type_ (v1alpha1.Service spec) = v1alpha1.ImpersonationProxyServiceTypeNone ->
          v1alpha1.ExternalEndpoint spec <> "")).
Proof.
  unfold loadImpersonationProxyConfiguration.
  destruct impersonationProxy as [spec0|]; [|discriminate].
  set (spec1 := if bool_decide _ then _ else spec0).
  destruct (validateCredentialIssuerSpec spec1) as [err|] eqn:Hv; [discriminate|].
  intros [= <-]. revert Hv. unfold validateCredentialIssuerSpec.
  destruct (v1alpha1.Mode spec1) eqn:Hm; try discriminate.
  - intros _. split; [by left|]. congruence.
  - destruct (v1alpha1.Type_ (v1alpha1.Service spec1)) eqn:Ht; try discriminate.
    all: destruct (negb _ && negb _); try discriminate.
    all: destruct (String.eqb_spec (v1alpha1.ExternalEndpoint spec1) "") as [He|He]; simpl; try discriminate.
    all: intros Hp; (split; [by right; left|]); intros _; (split; [auto|]).
    all: split; [intros Hne; try congruence | try congruence].
    all: by destruct (snd (endpointaddr_Parse _ _)).
  - destruct (v1alpha1.Type_ (v1alpha1.Service spec1)) eqn:Ht; try discriminate.
    all: destruct (negb _ && negb _); try discriminate.
    all: destruct (String.eqb_spec (v1alpha1.ExternalEndpoint spec1) "") as [He|He]; simpl; try discriminate.
    all: intros Hp; (split; [by right; right|]); intros _; (split; [auto|]).
    all: split; [intros Hne; try congruence | try congruence].
    all: by destruct (snd (endpointaddr_Parse _ _)).
Qed.

(** ** Status composer *)

(** C2, as the code has it: the status is composed in priority order,
    for whatever CA the pass hands over, nil ([None]) included, which is
    what [doSync] passes when the impersonator is not wanted.  Explicitly
    disabled and disabled by the automatic policy both give an error status
    with the one reason [DisabledStrategyReason] and are told apart by
    their message only; a certificate name that is not ready gives an error
    status with reason [PendingStrategyReason]; none of the three reads the
    CA.  Otherwise the status is a success with reason
    [ListeningStrategyReason], the endpoint "https://" followed by the
    client endpoint, and the base64-encoded bundle of the CA; with a nil CA
    this last case is the nil dereference of [Bundle]. *)
Theorem doSyncResult_priority `{Environment} (hasControlPlaneNodes : bool) (now : Z)
    (nameInfo : certNameInfo) (config : v1alpha1.ImpersonationProxySpec) (ca : option CA) :
  let result := doSyncResult hasControlPlaneNodes now nameInfo config ca in
  (disabledExplicitly config = true ->
     result = inr {| v1alpha1.Status := v1alpha1.ErrorStrategyStatus;
                     v1alpha1.Reason := v1alpha1.DisabledStrategyReason;
                     v1alpha1.Message := "impersonation proxy was explicitly disabled by configuration";
                     v1alpha1.LastUpdateTime := now;
                     v1alpha1.Frontend := None |})
  /\ (disabledExplicitly config = false ->
      disabledByAutoMode hasControlPlaneNodes config = true ->
      result = inr {| v1alpha1.Status := v1alpha1.ErrorStrategyStatus;
                      v1alpha1.Reason := v1alpha1.DisabledStrategyReason;
                      v1alpha1.Message := "automatically determined that impersonation proxy should be disabled";
                      v1alpha1.LastUpdateTime := now;
                      v1alpha1.Frontend := None |})
  /\ (disabledExplicitly config = false ->
      disabledByAutoMode hasControlPlaneNodes config = false ->
      ready nameInfo = false ->
      result = inr {| v1alpha1.Status := v1alpha1.ErrorStrategyStatus;
                      v1alpha1.Reason := v1alpha1.PendingStrategyReason;
                      v1alpha1.Message := "waiting for load balancer Service to be assigned IP or hostname";
                      v1alpha1.LastUpdateTime := now;
                      v1alpha1.Frontend := None |})
  /\ (disabledExplicitly config = false ->
      disabledByAutoMode hasControlPlaneNodes config = false ->
      ready nameInfo = true ->
      result = match ca with
               | Some ca =>
                   inr {| v1alpha1.Status := v1alpha1.SuccessStrategyStatus;
                          v1alpha1.Reason := v1alpha1.ListeningStrategyReason;
                          v1alpha1.Message := "impersonation proxy is ready to accept client connections";
                          v1alpha1.LastUpdateTime := now;
                          v1alpha1.Frontend :=
                            Some {| v1alpha1.Endpoint := "https://" ++ clientEndpoint nameInfo;
                                    v1alpha1.CertificateAuthorityData :=
                                      base64_EncodeToString (CA_Bundle ca) |} |}
               | None => inl (runtimePanic "invalid memory address or nil pointer dereference")
               end).
Proof.
  unfold doSyncResult. cbv zeta.
  split_and!; intros; repeat match goal with Hx : _ = _ |- _ => rewrite Hx end; reflexivity.
Qed.

(** C2 as stated does not hold: no naming of the reason constants makes
    the explicitly disabled status read "disabled-explicitly" and the
    automatically disabled one "disabled-automatically", because both carry
    the same reason. *)
Lemma doSyncResult_disabled_reasons_coincide :
  ~ exists token : v1alpha1.StrategyReason -> string,
      (forall s,
         @doSyncResult Ref.environment true 0 certNameInfo_notReady
           (Ref.specOf v1alpha1.ImpersonationProxyModeDisabled
                       v1alpha1.ImpersonationProxyServiceTypeLoadBalancer) None = inr s ->
         token (v1alpha1.Reason s) = "disabled-explicitly")
      /\ (forall s,
            @doSyncResult Ref.environment true 0 certNameInfo_notReady
              (Ref.specOf v1alpha1.ImpersonationProxyModeAuto
                          v1alpha1.ImpersonationProxyServiceTypeLoadBalancer) None = inr s ->
            token (v1alpha1.Reason s) = "disabled-automatically").
Proof.
  intros (token & Hexplicit & Hauto).
  specialize (Hexplicit _ eq_refl). specialize (Hauto _ eq_refl).
  simpl in Hexplicit, Hauto. rewrite Hexplicit in Hauto. discriminate.
Qed.

(** ** Certificate name resolver *)

Lemma firstIngressHostname_list_find (ingresses : list v1.LoadBalancerIngress) :
  firstIngressHostname ingresses
  = (fun found => v1.Hostname (snd found))
      <$> list_find (fun ingress => v1.Hostname ingress <> "") ingresses.
Proof.
  induction ingresses as [|ingress rest IH]; [reflexivity|].
  cbn [firstIngressHostname list_find].
  destruct (String.eqb_spec (v1.Hostname ingress) "") as [Heq|Hne]; simpl.
  - rewrite decide_False by (intros Hx; by apply Hx).
    rewrite IH. by destruct (list_find _ rest) as [[? ?]|].
  - by rewrite decide_True.
Qed.

Lemma firstIngressIP_list_find `{Environment} (ingresses : list v1.LoadBalancerIngress) :
  match list_find (fun ingress => is_Some (ParseIP (v1.IP ingress))) ingresses with
  | Some (_, ingress) =>
      exists parsedIP, ParseIP (v1.IP ingress) = Some parsedIP
                       /\ firstIngressIP ingresses = Some (v1.IP ingress, parsedIP)
  | None => firstIngressIP ingresses = None
  end.
Proof.
  induction ingresses as [|ingress rest IH]; [reflexivity|].
  cbn [firstIngressIP list_find].
  destruct (decide _) as [[parsedIP Hparse]|Hnone]; cbv beta in *.
  - rewrite Hparse. eauto.
  - destruct (ParseIP (v1.IP ingress)) as [parsedIP|] eqn:Hparse.
    { exfalso. apply Hnone. eauto. }
    destruct (list_find _ rest) as [[? ?]|]; simpl; exact IH.
Qed.

(** C1, as the code has it: when the load-balancer Service exists and has
    ingress entries, the resolver first looks at the first entry.  If that
    entry has neither a hostname nor an IP string, the result is not ready.
    Otherwise the first entry of the list with a hostname is selected; if
    there is none, the first entry with a parseable IP is selected, as the
    only selected IP; and if there is none either, the resolver fails with
    an error.  The world is left as it was. *)
Theorem findTLSCertificateNameFromLoadBalancer_selects `{Environment} (w : world) (lb : v1.Service)
    (ingress0 : v1.LoadBalancerIngress) (rest : list v1.LoadBalancerIngress) :
  services (informer w) !! generatedLoadBalancerServiceName (ctrl w) = Some lb ->
  v1.Ingress lb = ingress0 :: rest ->
  let result := findTLSCertificateNameFromLoadBalancer w in
  snd result = w
  /\ (v1.Hostname ingress0 = "" -> v1.IP ingress0 = "" -> fst result = inr certNameInfo_notReady)
  /\ (v1.Hostname ingress0 <> "" \/ v1.IP ingress0 <> "" ->
      match list_find (fun ingress => v1.Hostname ingress <> "") (v1.Ingress lb) with
      | Some (_, ingress) =>
          fst result = inr {| ready := true; selectedIPs := [];
                              selectedHostname := v1.Hostname ingress;
                              clientEndpoint := v1.Hostname ingress |}
      | None =>
          match list_find (fun ingress => is_Some (ParseIP (v1.IP ingress))) (v1.Ingress lb) with
          | Some (_, ingress) =>
              exists parsedIP,
                ParseIP (v1.IP ingress) = Some parsedIP
                /\ fst result = inr {| ready := true; selectedIPs := [parsedIP];
                                       selectedHostname := "";
                                       clientEndpoint := v1.IP ingress |}
          | None => exists err, fst result = inl err
          end
      end).
Proof.
  intros Hlb Hingress result. subst result.
  unfold findTLSCertificateNameFromLoadBalancer, bind, gets, catch, ServicesListerGet.
  cbn [fst snd]. rewrite Hlb. cbn [fst snd].
  pose proof (firstIngressHostname_list_find (v1.Ingress lb)) as Hhost.
  pose proof (firstIngressIP_list_find (v1.Ingress lb)) as Hip.
  rewrite Hingress in *.
  destruct (String.eqb_spec (v1.Hostname ingress0) "") as [Hh|Hh];
    destruct (String.eqb_spec (v1.IP ingress0) "") as [Hi|Hi]; cbn [andb].
  - split; [reflexivity|]. split; [reflexivity|]. intros [?|?]; contradiction.
  - rewrite Hhost.
    destruct (list_find (fun ingress => v1.Hostname ingress <> "") _) as [[? ingress]|]; cbn [fmap option_fmap option_map].
    + repeat split; try reflexivity; intros; congruence.
    + destruct (list_find (fun ingress => is_Some _) _) as [[? ingress]|].
      * destruct Hip as (parsedIP & Hparse & ->).
        split; [reflexivity|]. split; [congruence|]. intros _. by exists parsedIP.
      * rewrite Hip. split; [reflexivity|]. split; [congruence|]. intros _. eauto.
  - rewrite Hhost.
    destruct (list_find (fun ingress => v1.Hostname ingress <> "") _) as [[? ingress]|]; cbn [fmap option_fmap option_map].
    + repeat split; try reflexivity; intros; congruence.
    + destruct (list_find (fun ingress => is_Some _) _) as [[? ingress]|].
      * destruct Hip as (parsedIP & Hparse & ->).
        split; [reflexivity|]. split; [congruence|]. intros _. by exists parsedIP.
      * rewrite Hip. split; [reflexivity|]. split; [congruence|]. intros _. eauto.
  - rewrite Hhost.
    destruct (list_find (fun ingress => v1.Hostname ingress <> "") _) as [[? ingress]|]; cbn [fmap option_fmap option_map].
    + repeat split; try reflexivity; intros; congruence.
    + destruct (list_find (fun ingress => is_Some _) _) as [[? ingress]|].
      * destruct Hip as (parsedIP & Hparse & ->).
        split; [reflexivity|]. split; [congruence|]. intros _. by exists parsedIP.
      * rewrite Hip. split; [reflexivity|]. split; [congruence|]. intros _. eauto.
Qed.

Lemma findTLSCertificateNameFromLoadBalancer_selects_witness :
  let w := Ref.withLoadBalancer Ref.singleIP in
  services (informer w) !! generatedLoadBalancerServiceName (ctrl w)
    = Some (Ref.loadBalancerWith Ref.singleIP)
  /\ fst (@findTLSCertificateNameFromLoadBalancer Ref.environment w)
     = inr {| ready := true; selectedIPs := [net.IPv4 x0a x00 x00 x05];
              selectedHostname := ""; clientEndpoint := "10.0.0.5" |}.
Proof.
  intros w.
  assert (Hlb : services (informer w) !! generatedLoadBalancerServiceName (ctrl w)
                = Some (Ref.loadBalancerWith Ref.singleIP)) by (vm_compute; reflexivity).
  split; [exact Hlb|].
  assert (Hfirst : v1.Hostname {| v1.IP := "10.0.0.5"; v1.Hostname := "" |} <> ""
                   \/ v1.IP {| v1.IP := "10.0.0.5"; v1.Hostname := "" |} <> "")
    by (right; discriminate).
  destruct (@findTLSCertificateNameFromLoadBalancer_selects Ref.environment w
              (Ref.loadBalancerWith Ref.singleIP)
              {| v1.IP := "10.0.0.5"; v1.Hostname := "" |} [] Hlb eq_refl)
    as (_ & _ & Hsel).
  specialize (Hsel Hfirst).
  vm_compute in Hsel. destruct Hsel as (parsedIP & Hparse & Hresult).
  injection Hparse as <-. vm_compute. exact Hresult.
Defined.

(** C1 as stated does not hold: the load balancer exists, its ingress list
    is not empty and its second entry carries a hostname, yet the resolver
    reports not ready instead of selecting that hostname, because the first
    entry is blank. *)
Lemma findTLSCertificateNameFromLoadBalancer_blank_first_entry :
  let w := Ref.withLoadBalancer Ref.blankThenHostname in
  services (informer w) !! generatedLoadBalancerServiceName (ctrl w)
    = Some (Ref.loadBalancerWith Ref.blankThenHostname)
  /\ list_find (fun ingress => v1.Hostname ingress <> "") Ref.blankThenHostname
     = Some (1%nat, {| v1.IP := ""; v1.Hostname := "lb.example.com" |})
  /\ fst (@findTLSCertificateNameFromLoadBalancer Ref.environment w) = inr certNameInfo_notReady
  /\ ~ exists info,
         fst (@findTLSCertificateNameFromLoadBalancer Ref.environment w) = inr info
         /\ ready info = true /\ selectedHostname info = "lb.example.com".
Proof.
  intros w.
  assert (Hrun : fst (@findTLSCertificateNameFromLoadBalancer Ref.environment w)
                 = inr certNameInfo_notReady) by (vm_compute; reflexivity).
  split; [vm_compute; reflexivity|].
  split; [vm_compute; reflexivity|].
  split; [exact Hrun|].
  intros (info & Hinfo & Hready & _). rewrite Hrun in Hinfo.
  assert (info = certNameInfo_notReady) as -> by congruence.
  discriminate Hready.
Qed.

(** ** Exposure Services *)

Lemma mapKeys_empty_iff (m : gmap string string) : mapKeys m = [] <-> m = ∅.
Proof.
  unfold mapKeys. split.
  - intros Hk. apply map_to_list_empty_iff. by apply fmap_nil_inv in Hk.
  - intros ->. by rewrite map_to_list_empty.
Qed.

Lemma elem_of_mapKeys (m : gmap string string) (k : string) :
  k ∈ mapKeys m <-> is_Some (m !! k).
Proof.
  unfold mapKeys. rewrite list_elem_of_fmap. split.
  - intros ([k' v] & -> & Hin). apply elem_of_map_to_list in Hin. eauto.
  - intros [v Hv]. exists (k, v). split; [reflexivity|]. by apply elem_of_map_to_list.
Qed.

Lemma elem_of_sort_Strings (l : list string) (k : string) : k ∈ sort_Strings l <-> k ∈ l.
Proof. unfold sort_Strings. by rewrite merge_sort_Permutation. Qed.

(** The second range loop of the merge removes exactly the old keys that
    are not desired any more. *)
Lemma lookup_foldl_delete_undesired (desired updated : gmap string string)
    (oldKeys : list string) (k : string) :
  foldl (fun updated oldKey =>
           match desired !! oldKey with
           | Some _ => updated
           | None => delete oldKey updated
           end) updated oldKeys !! k
  = if decide (k ∈ oldKeys /\ desired !! k = None) then None else updated !! k.
Proof.
  revert updated. induction oldKeys as [|oldKey oldKeys IH]; intros updated; cbn [foldl].
  - rewrite decide_False; [reflexivity|]. intros [Hin _]. by apply elem_of_nil in Hin.
  - rewrite IH. destruct (decide (k ∈ oldKeys /\ desired !! k = None)) as [[Hin Hd]|Hn].
    + rewrite decide_True; [reflexivity|]. split; [by right|done].
    + destruct (decide (k = oldKey)) as [->|Hne].
      * destruct (desired !! oldKey) eqn:Hd.
        -- rewrite decide_False; [reflexivity|]. intros [_ ?]; congruence.
        -- rewrite lookup_delete_eq. rewrite decide_True; [reflexivity|]. split; [by left|done].
      * rewrite decide_False.
        -- destruct (desired !! oldKey); [reflexivity|]. by rewrite lookup_delete_ne.
        -- intros [Hin Hd]. apply Hn. split; [|done].
           apply elem_of_cons in Hin as [?|?]; [contradiction|done].
Qed.

Lemma lookup_mergeAnnotations `{Environment} (existing desired : gmap string string)
    (desiredAnnotationKeys : list string) (k : string) :
  mergeAnnotations existing desired desiredAnnotationKeys !! k
  = if decide (desiredAnnotationKeys = [] /\ k = annotationKeysKey) then None
    else match desired !! k with
         | Some v => Some v
         | None => if decide (k ∈ oldDesiredAnnotationKeys existing) then None else existing !! k
         end.
Proof.
  unfold mergeAnnotations.
  destruct desiredAnnotationKeys as [|key keys]; cbn [length Nat.eqb].
  - destruct (decide (k = annotationKeysKey)) as [->|Hne].
    + rewrite lookup_delete_eq. by rewrite decide_True.
    + rewrite lookup_delete_ne by done. rewrite decide_False by (intros [_ ?]; done).
      rewrite lookup_foldl_delete_undesired, lookup_union.
      destruct (desired !! k) eqn:Hd.
      * rewrite decide_False by (intros [_ ?]; done). by destruct (existing !! k).
      * destruct (decide (k ∈ oldDesiredAnnotationKeys existing)).
        -- by rewrite decide_True.
        -- rewrite decide_False by (intros [? _]; done). by destruct (existing !! k).
  - rewrite decide_False by (intros [? _]; done).
    rewrite lookup_foldl_delete_undesired, lookup_union.
    destruct (desired !! k) eqn:Hd.
    * rewrite decide_False by (intros [_ ?]; done). by destruct (existing !! k).
    * destruct (decide (k ∈ oldDesiredAnnotationKeys existing)).
      -- by rewrite decide_True.
      -- rewrite decide_False by (intros [? _]; done). by destruct (existing !! k).
Qed.

Lemma withBookkeepingAnnotation_frame `{Environment} (desiredService : v1.Service) :
  v1.Name (v1.Meta (withBookkeepingAnnotation desiredService)) = v1.Name (v1.Meta desiredService)
  /\ v1.Labels (v1.Meta (withBookkeepingAnnotation desiredService)) = v1.Labels (v1.Meta desiredService)
  /\ v1.Spec (withBookkeepingAnnotation desiredService) = v1.Spec desiredService.
Proof. unfold withBookkeepingAnnotation. by destruct (0 <? _)%nat. Qed.

Lemma lookup_withBookkeepingAnnotation `{Environment} (desiredService : v1.Service) (k : string) :
  v1.Annotations (v1.Meta (withBookkeepingAnnotation desiredService)) !! k
  = if decide (k = annotationKeysKey /\ v1.Annotations (v1.Meta desiredService) <> ∅)
    then Some (json_Marshal (sort_Strings (mapKeys (v1.Annotations (v1.Meta desiredService)))))
    else v1.Annotations (v1.Meta desiredService) !! k.
Proof.
  unfold withBookkeepingAnnotation.
  destruct (mapKeys (v1.Annotations (v1.Meta desiredService))) as [|key keys] eqn:Hkeys;
    cbn [length Nat.ltb Nat.leb].
  - apply mapKeys_empty_iff in Hkeys. rewrite decide_False; [reflexivity|]. intros [_ ?]; done.
  - assert (v1.Annotations (v1.Meta desiredService) <> ∅) as Hne.
    { intros He. apply mapKeys_empty_iff in He. congruence. }
    cbn [v1.Meta v1.Annotations].
    destruct (decide (k = annotationKeysKey)) as [->|Hk].
    + rewrite lookup_insert_eq. by rewrite decide_True.
    + rewrite lookup_insert_ne by done. rewrite decide_False; [reflexivity|]. intros [? _]; done.
Qed.

Lemma events_ServicesClientUpdate `{APIServer} (svc : v1.Service) (w : world) :
  events (snd (ServicesClientUpdate svc w)) = events w ++ [ServicesUpdate svc].
Proof.
  unfold ServicesClientUpdate. cbv zeta.
  destruct (apiFault _); [reflexivity|].
  cbn [log apiserver]. by destruct (services (apiserver w) !! _).
Qed.

(** What [createOrUpdateService] does when the informer has the Service:
    nothing when the updated copy equals the stored object, and otherwise
    one update call that carries the updated copy. *)
Lemma createOrUpdateService_found `{Environment} `{APIServer} (w : world)
    (desiredService existingService : v1.Service) :
  services (informer w) !! v1.Name (v1.Meta desiredService) = Some existingService ->
  let updatedService :=
    updatedServiceOf existingService (withBookkeepingAnnotation desiredService)
      (mapKeys (v1.Annotations (v1.Meta desiredService))) in
  (existingService = updatedService -> createOrUpdateService desiredService w = (inr tt, w))
  /\ (existingService <> updatedService ->
      events (snd (createOrUpdateService desiredService w)) = events w ++ [ServicesUpdate updatedService]).
Proof.
  intros Hget updatedService. subst updatedService.
  unfold createOrUpdateService, bind, catch, ServicesListerGet. cbn [fst snd].
  destruct (withBookkeepingAnnotation_frame desiredService) as (-> & _ & _).
  rewrite Hget. cbn [fst snd].
  split; intros Heq.
  - by rewrite bool_decide_eq_true_2.
  - rewrite bool_decide_eq_false_2 by done.
    pose proof (events_ServicesClientUpdate
      (updatedServiceOf existingService (withBookkeepingAnnotation desiredService)
         (mapKeys (v1.Annotations (v1.Meta desiredService)))) w) as Hev.
    destruct (ServicesClientUpdate _ w) as [[err|svc] w']; exact Hev.
Qed.

(** C5: on an update the annotations are merged, not replaced.  The updated
    Service has every desired annotation; a key that the previous
    bookkeeping list records and that is not desired any more is gone; every
    other key keeps the value it had on the stored Service; and the
    bookkeeping annotation holds the sorted desired keys, or is absent when
    no annotation is desired.  On a Service annotated a=1, b=2 with
    bookkeeping list a, b, a specification that asks for b=2, c=3 makes
    the controller write one update with the annotations b=2, c=3 and the
    bookkeeping list b, c. *)
Theorem createOrUpdateService_merges_annotations `{Environment} `{APIServer} (w : world)
    (desiredService existingService : v1.Service) :
  services (informer w) !! v1.Name (v1.Meta desiredService) = Some existingService ->
  let desired := v1.Annotations (v1.Meta desiredService) in
  let existing := v1.Annotations (v1.Meta existingService) in
  let updatedService :=
    updatedServiceOf existingService (withBookkeepingAnnotation desiredService) (mapKeys desired) in
  (existingService = updatedService -> createOrUpdateService desiredService w = (inr tt, w))
  /\ (existingService <> updatedService ->
      events (snd (createOrUpdateService desiredService w)) = events w ++ [ServicesUpdate updatedService])
  /\ (forall k,
        v1.Annotations (v1.Meta updatedService) !! k
        = if decide (k = annotationKeysKey)
          then if decide (desired = ∅) then None
               else Some (json_Marshal (sort_Strings (mapKeys desired)))
          else match desired !! k with
               | Some v => Some v
               | None => if decide (k ∈ oldDesiredAnnotationKeys existing) then None else existing !! k
               end)
  /\ events (snd (@ensureLoadBalancerIsStarted Ref.environment Ref.store Ref.specBC
                    Ref.withAnnotatedLoadBalancer))
     = [ServicesUpdate (Ref.loadBalancerService Ref.annotatedBC [])].
Proof.
  intros Hget desired existing updatedService.
  destruct (createOrUpdateService_found w desiredService existingService Hget) as [Hsame Hdiff].
  split; [exact Hsame|]. split; [exact Hdiff|]. split.
  - intros k. subst updatedService. cbn [updatedServiceOf v1.Meta v1.Annotations].
    rewrite lookup_mergeAnnotations, lookup_withBookkeepingAnnotation.
    fold desired existing.
    destruct (decide (k = annotationKeysKey)) as [->|Hk].
    + destruct (decide (desired = ∅)) as [He|He].
      * rewrite decide_True; [reflexivity|]. split; [by apply mapKeys_empty_iff|done].
      * rewrite decide_False by (intros [Hx _]; by apply mapKeys_empty_iff in Hx).
        by rewrite decide_True.
    + rewrite decide_False by (intros [_ ?]; done).
      rewrite decide_False by (intros [? _]; done). reflexivity.
  - vm_compute. reflexivity.
Qed.

Lemma createOrUpdateService_merges_annotations_witness :
  let w := Ref.withAnnotatedLoadBalancer in
  services (informer w) !! v1.Name (v1.Meta Ref.desiredBC)
    = Some (Ref.loadBalancerService Ref.annotatedAB [])
  /\ events (snd (@createOrUpdateService Ref.environment Ref.store Ref.desiredBC w))
     = [ServicesUpdate (Ref.loadBalancerService Ref.annotatedBC [])].
Proof.
  intros w.
  assert (Hget : services (informer w) !! v1.Name (v1.Meta Ref.desiredBC)
                 = Some (Ref.loadBalancerService Ref.annotatedAB []))
    by (vm_compute; reflexivity).
  split; [exact Hget|].
  destruct (@createOrUpdateService_merges_annotations Ref.environment Ref.store w
              Ref.desiredBC (Ref.loadBalancerService Ref.annotatedAB []) Hget)
    as (_ & Hdiff & _ & _).
  rewrite Hdiff.
  - vm_compute. reflexivity.
  - vm_compute. discriminate.
Defined.

(** C10: an update is the stored Service with only the labels, the
    selector, the type, the load-balancer IP and the annotations written
    onto it: name, namespace, ports, cluster IPs and status of the updated
    copy are those of the stored object, whatever the desired Service says,
    and the copy is the only thing the call can write.  So a stored Service
    that differs from the desired one in its ports alone is left as it is,
    without any call. *)
Theorem createOrUpdateService_frame `{Environment} `{APIServer} (w : world)
    (desiredService existingService : v1.Service) :
  services (informer w) !! v1.Name (v1.Meta desiredService) = Some existingService ->
  let updatedService :=
    updatedServiceOf existingService (withBookkeepingAnnotation desiredService)
      (mapKeys (v1.Annotations (v1.Meta desiredService))) in
  (createOrUpdateService desiredService w = (inr tt, w)
   \/ events (snd (createOrUpdateService desiredService w)) = events w ++ [ServicesUpdate updatedService])
  /\ v1.Labels (v1.Meta updatedService) = v1.Labels (v1.Meta desiredService)
  /\ v1.Selector (v1.Spec updatedService) = v1.Selector (v1.Spec desiredService)
  /\ v1.Type_ (v1.Spec updatedService) = v1.Type_ (v1.Spec desiredService)
  /\ v1.LoadBalancerIP (v1.Spec updatedService) = v1.LoadBalancerIP (v1.Spec desiredService)
  /\ v1.Ports (v1.Spec updatedService) = v1.Ports (v1.Spec existingService)
  /\ v1.ClusterIP (v1.Spec updatedService) = v1.ClusterIP (v1.Spec existingService)
  /\ v1.ClusterIPs (v1.Spec updatedService) = v1.ClusterIPs (v1.Spec existingService)
  /\ v1.Ingress updatedService = v1.Ingress existingService
  /\ v1.Name (v1.Meta updatedService) = v1.Name (v1.Meta existingService)
  /\ v1.Namespace (v1.Meta updatedService) = v1.Namespace (v1.Meta existingService)
  /\ (v1.Labels (v1.Meta existingService) = v1.Labels (v1.Meta desiredService) ->
      v1.Selector (v1.Spec existingService) = v1.Selector (v1.Spec desiredService) ->
      v1.Type_ (v1.Spec existingService) = v1.Type_ (v1.Spec desiredService) ->
      v1.LoadBalancerIP (v1.Spec existingService) = v1.LoadBalancerIP (v1.Spec desiredService) ->
      v1.Annotations (v1.Meta existingService) = v1.Annotations (v1.Meta updatedService) ->
      createOrUpdateService desiredService w = (inr tt, w)).
Proof.
  intros Hget updatedService.
  destruct (createOrUpdateService_found w desiredService existingService Hget) as [Hsame Hdiff].
  destruct (withBookkeepingAnnotation_frame desiredService) as (_ & Hlabels & Hspec).
  fold updatedService in Hsame, Hdiff.
  split; [destruct (decide (existingService = updatedService)); auto|].
  subst updatedService. cbn [updatedServiceOf v1.Meta v1.Spec v1.Labels v1.Selector v1.Type_
    v1.LoadBalancerIP v1.Ports v1.ClusterIP v1.ClusterIPs v1.Ingress v1.Name v1.Namespace].
  rewrite Hlabels, Hspec. repeat (split; [reflexivity|]).
  intros Hl Hs Ht Hi Ha. apply Hsame.
  destruct existingService as [[name ns lbls anns] [ports sel cip cips ty lbip] ingress].
  cbn in *. unfold updatedServiceOf. cbn. rewrite Hlabels, Hspec. cbn in *.
  rewrite <- Ha. by subst.
Qed.

Lemma createOrUpdateService_frame_witness :
  let w := Ref.withDriftedPorts in
  services (informer w) !! v1.Name (v1.Meta (Ref.loadBalancerWith [])) = Some Ref.driftedPorts
  /\ v1.Ports (v1.Spec Ref.driftedPorts) <> v1.Ports (v1.Spec (Ref.loadBalancerWith []))
  /\ @createOrUpdateService Ref.environment Ref.store (Ref.loadBalancerWith []) w = (inr tt, w).
Proof.
  intros w.
  assert (Hget : services (informer w) !! v1.Name (v1.Meta (Ref.loadBalancerWith []))
                 = Some Ref.driftedPorts) by (vm_compute; reflexivity).
  split; [exact Hget|]. split; [vm_compute; discriminate|].
  destruct (@createOrUpdateService_frame Ref.environment Ref.store w
              (Ref.loadBalancerWith []) Ref.driftedPorts Hget)
    as (_ & _ & _ & _ & _ & _ & _ & _ & _ & _ & _ & Hdrift).
  apply Hdrift; vm_compute; reflexivity.
Defined.

(** ** Proxy server life cycle *)

(** C6: Start while the server is recorded as running.  With an empty
    error channel it does nothing and returns no error.  With a value [v]
    in the channel it closes the error channel, runs Stop (which closes the
    stop channel, reads the closed error channel and drops the handle) and
    returns the aggregate of the crash error and the stop error, the crash
    error being "unexpected shutdown of proxy server" when [v] is nil; the
    sync pass fails with that error, and the next Start launches the server
    again. *)
Theorem ensureImpersonatorIsStarted_while_running `{Environment} `{APIServer} (w : world) (h : serverHandle) :
  server (ctrl w) = Some h ->
  errorChClosed h = false ->
  (errorChBuf h = None -> ensureImpersonatorIsStarted w = (inr tt, w))
  /\ (forall v, errorChBuf h = Some v ->
        let runningErr := default (errorString "unexpected shutdown of proxy server") v in
        let stoppingErr :=
          receiveFinalError {| errorChBuf := None; errorChClosed := true; exitOnStop := exitOnStop h |} in
        NewAggregate [Some runningErr; stoppingErr] = Some (aggregate [runningErr])
        /\ ensureImpersonatorIsStarted w = (inl (aggregate [runningErr]), afterCrashCleanup w)
        /\ (forall impersonationProxy spec b,
              loadImpersonationProxyConfiguration impersonationProxy = inr spec ->
              hasControlPlaneNodes (ctrl w) = Some b ->
              shouldHaveImpersonator b spec = true ->
              doSync impersonationProxy w = (inl (aggregate [runningErr]), afterCrashCleanup w))
        /\ (forall startImpersonatorFunc,
              impersonatorFunc impersonationProxyPort = inr startImpersonatorFunc ->
              exists w',
                ensureImpersonatorIsStarted (afterCrashCleanup w) = (inr tt, w')
                /\ server (ctrl w')
                   = Some {| errorChBuf := None; errorChClosed := false;
                             exitOnStop := startImpersonatorFunc |})).
Proof.
  intros Hserver Hopen. split.
  - intros Hempty. unfold ensureImpersonatorIsStarted, bind, gets. cbn [fst snd].
    by rewrite Hserver, Hempty, Hopen.
  - intros v Hv runningErr stoppingErr.
    assert (Hstart : ensureImpersonatorIsStarted w = (inl (aggregate [runningErr]), afterCrashCleanup w)).
    { unfold ensureImpersonatorIsStarted, bind, gets. cbn [fst snd].
      rewrite Hserver, Hv, Hopen.
      unfold modify, catch, ensureImpersonatorIsStopped, bind, gets, modify, returnErr, ret, fail.
      cbn. subst runningErr. unfold afterCrashCleanup, set_ctrl, log, set_server. cbn.
      rewrite <- app_assoc. by destruct v. }
    split; [by subst runningErr stoppingErr; destruct v|].
    split; [exact Hstart|]. split.
    + intros impersonationProxy spec b Hload Hcp Hshould.
      unfold doSync. rewrite Hload. unfold bind at 1. unfold gets at 1. cbn [fst snd].
      rewrite Hcp. unfold bind at 1. unfold ret at 1. unfold bind at 1.
      rewrite Hshould, Hstart. reflexivity.
    + intros startImpersonatorFunc Hfactory. eexists. split.
      * unfold ensureImpersonatorIsStarted, bind, gets. cbn [fst snd afterCrashCleanup ctrl set_server server].
        rewrite Hfactory. unfold modify. cbn. reflexivity.
      * reflexivity.
Qed.

Lemma ensureImpersonatorIsStarted_while_running_witness :
  let w := Ref.crashedServer in
  let h := {| errorChBuf := Some None; errorChClosed := false; exitOnStop := None |} in
  server (ctrl w) = Some h
  /\ errorChClosed h = false
  /\ @ensureImpersonatorIsStarted Ref.environment w
     = (inl (aggregate [errorString "unexpected shutdown of proxy server"]), afterCrashCleanup w).
Proof.
  intros w h.
  destruct (@ensureImpersonatorIsStarted_while_running Ref.environment Ref.store w h eq_refl eq_refl)
    as [_ Hcrash].
  destruct (Hcrash None eq_refl) as (_ & Hstart & _).
  split; [reflexivity|]. split; [reflexivity|]. exact Hstart.
Defined.

(** ** TLS Secret *)

Lemma SecretsClientDelete_spec `{APIServer} (name : string) (w : world) :
  let w1 := log (SecretsDelete name) w in
  SecretsClientDelete name w
  = match apiFault (SecretsDelete name) with
    | Some err => (inl err, w1)
    | None =>
        match secrets (apiserver w) !! name with
        | None => (inl (StatusError StatusReasonNotFound name), w1)
        | Some _ => (inr tt, set_apiserver (set_secrets (delete name)) w1)
        end
    end.
Proof. reflexivity. Qed.

(** What [ensureTLSSecretIsRemoved] does when the informer has the Secret. *)
Lemma ensureTLSSecretIsRemoved_found `{APIServer} (w : world) (secret : v1.Secret) :
  secrets (informer w) !! tlsSecretName (ctrl w) = Some secret ->
  ensureTLSSecretIsRemoved w
  = match deleteOutcome w with
    | None =>
        (inr tt, set_ctrl (set_tlsServingCert None)
                   (set_apiserver (set_secrets (delete (tlsSecretName (ctrl w))))
                      (log (SecretsDelete (tlsSecretName (ctrl w))) w)))
    | Some err =>
        (if IsNotFound (Some err) then inr tt else inl err,
         log (SecretsDelete (tlsSecretName (ctrl w))) w)
    end.
Proof.
  intros Hget.
  unfold ensureTLSSecretIsRemoved, tlsSecretExists, bind, gets, catch, SecretsListerGet.
  cbn [fst snd]. rewrite Hget. cbn [fst snd ret negb].
  rewrite SecretsClientDelete_spec. cbv zeta. unfold deleteOutcome.
  destruct (apiFault _) as [err|].
  - cbn [fst snd]. by destruct (IsNotFound (Some err)).
  - destruct (secrets (apiserver w) !! _); reflexivity.
Qed.

(** C9, as the code has it: when the TLS Secret exists (in the informer
    cache), removal makes exactly one delete call.  If the call succeeds,
    removal returns no error, the Secret is gone from the store and the
    serving-certificate provider is cleared.  If the call reports not-found,
    removal returns no error as well, but leaves the provider as it was.
    Any other error of the call is returned, the provider left as it was. *)
Theorem ensureTLSSecretIsRemoved_tolerates_not_found `{APIServer} (w : world) (secret : v1.Secret) :
  secrets (informer w) !! tlsSecretName (ctrl w) = Some secret ->
  let result := ensureTLSSecretIsRemoved w in
  events (snd result) = events w ++ [SecretsDelete (tlsSecretName (ctrl w))]
  /\ (deleteOutcome w = None ->
      fst result = inr tt
      /\ tlsServingCertDynamicCertProvider (ctrl (snd result)) = None
      /\ secrets (apiserver (snd result)) !! tlsSecretName (ctrl w) = None)
  /\ (forall err, deleteOutcome w = Some err -> IsNotFound (Some err) = true ->
      fst result = inr tt
      /\ ctrl (snd result) = ctrl w
      /\ apiserver (snd result) = apiserver w)
  /\ (forall err, deleteOutcome w = Some err -> IsNotFound (Some err) = false ->
      fst result = inl err
      /\ ctrl (snd result) = ctrl w
      /\ apiserver (snd result) = apiserver w).
Proof.
  intros Hget result. subst result. rewrite (ensureTLSSecretIsRemoved_found w secret Hget).
  destruct (deleteOutcome w) as [err|].
  - split; [reflexivity|]. split; [discriminate|].
    split; intros err' [= <-] Hnf; cbn [fst snd]; by rewrite Hnf.
  - split; [reflexivity|]. split; [|split; discriminate].
    intros _. split; [reflexivity|]. split; [reflexivity|].
    cbn. apply lookup_delete_eq.
Qed.

Lemma ensureTLSSecretIsRemoved_tolerates_not_found_witness :
  let w := Ref.withTLSSecret in
  secrets (informer w) !! tlsSecretName (ctrl w) = Some Ref.secretFor_10_0_0_5
  /\ tlsServingCertDynamicCertProvider (ctrl w) <> None
  /\ fst (@ensureTLSSecretIsRemoved Ref.store w) = inr tt
  /\ tlsServingCertDynamicCertProvider (ctrl (snd (@ensureTLSSecretIsRemoved Ref.store w))) = None.
Proof.
  intros w.
  assert (Hget : secrets (informer w) !! tlsSecretName (ctrl w) = Some Ref.secretFor_10_0_0_5)
    by (vm_compute; reflexivity).
  destruct (@ensureTLSSecretIsRemoved_tolerates_not_found Ref.store w _ Hget)
    as (_ & Hdeleted & _).
  destruct Hdeleted as (Hok & Hcleared & _); [vm_compute; reflexivity|].
  split; [exact Hget|]. split; [vm_compute; discriminate|]. split; [exact Hok|exact Hcleared].
Defined.

(** C9 as stated does not hold: the Secret exists in the cache, the delete
    call reports not-found because the Secret is already gone from the
    store, removal completes without error, and the serving certificate is
    still loaded afterwards. *)
Lemma ensureTLSSecretIsRemoved_not_found_keeps_provider :
  let w := Ref.deletedBehindTheCache in
  secrets (informer w) !! tlsSecretName (ctrl w) = Some Ref.secretFor_10_0_0_5
  /\ @deleteOutcome Ref.store w = Some (StatusError StatusReasonNotFound (tlsSecretName (ctrl w)))
  /\ fst (@ensureTLSSecretIsRemoved Ref.store w) = inr tt
  /\ tlsServingCertDynamicCertProvider (ctrl (snd (@ensureTLSSecretIsRemoved Ref.store w)))
     = Ref.servingCertOf Ref.secretFor_10_0_0_5
  /\ tlsServingCertDynamicCertProvider (ctrl (snd (@ensureTLSSecretIsRemoved Ref.store w))) <> None.
Proof.
  intros w.
  assert (Hrun : tlsServingCertDynamicCertProvider (ctrl (snd (@ensureTLSSecretIsRemoved Ref.store w)))
                 = Ref.servingCertOf Ref.secretFor_10_0_0_5) by (vm_compute; reflexivity).
  split; [vm_compute; reflexivity|]. split; [vm_compute; reflexivity|].
  split; [vm_compute; reflexivity|]. split; [exact Hrun|].
  rewrite Hrun. discriminate.
Qed.

(** ** Validation of the TLS Secret *)

Lemma ipsEqual_Forall2 (actualIPs desiredIPs : list net.IP) :
  length actualIPs = length desiredIPs ->
  ipsEqual actualIPs desiredIPs = true
  <-> Forall2 (fun actual desired => net.Equal actual desired = true) actualIPs desiredIPs.
Proof.
  revert actualIPs. induction desiredIPs as [|desired desiredIPs IH]; intros [|actual actualIPs] Hlen;
    try discriminate; cbn [ipsEqual].
  - split; [constructor|reflexivity].
  - injection Hlen as Hlen. destruct (net.Equal actual desired) eqn:Heq; cbn [negb].
    + rewrite (IH _ Hlen). split.
      * by constructor.
      * by intros [_ ?]%Forall2_cons.
    + split; [discriminate|]. intros [? _]%Forall2_cons. congruence.
Qed.

(** The name comparison of the code is the exact match of the
    specification. *)
Lemma certHostnameAndIPMatchDesiredState_exact (desiredIPs actualIPs : list net.IP)
    (desiredHostname : string) (actualHostnames : list string) :
  certHostnameAndIPMatchDesiredState desiredIPs actualIPs desiredHostname actualHostnames = true
  <-> exactNameMatch desiredIPs actualIPs desiredHostname actualHostnames.
Proof.
  unfold certHostnameAndIPMatchDesiredState, exactNameMatch.
  destruct ((0 <? length desiredIPs)%nat && (0 <? length actualIPs)%nat
            && (length actualIPs =? length desiredIPs)%nat
            && (length actualHostnames =? 0)%nat) eqn:Hguard.
  - apply andb_true_iff in Hguard as [[[Hd Ha]%andb_true_iff Hlen]%andb_true_iff Hh].
    apply Nat.ltb_lt in Hd. apply Nat.eqb_eq in Hlen. apply Nat.eqb_eq in Hh.
    apply length_zero_iff_nil in Hh. subst actualHostnames.
    rewrite (ipsEqual_Forall2 _ _ Hlen). split.
    + intros HF. left. repeat split; try done. intros ->. simpl in Hd. lia.
    + intros [(_ & _ & HF & _)|(_ & ? & _)]; [done|discriminate].
  - split.
    + destruct (String.eqb_spec desiredHostname "") as [->|Hne]; cbn [negb andb]; [discriminate|].
      destruct actualHostnames as [|hostname [|? ?]]; cbn; try discriminate.
      destruct (bool_decide_reflect (Some hostname = Some desiredHostname)) as [[= ->]|?];
        cbn; [|discriminate].
      destruct actualIPs; cbn; [|discriminate]. intros _. by right.
    + intros [(Hd & Hlen & HF & ->)|(Hne & -> & ->)].
      * exfalso. rewrite Hlen, Nat.eqb_refl in Hguard. cbn in Hguard.
        destruct desiredIPs; [done|]. cbn in Hguard. discriminate.
      * destruct (String.eqb_spec desiredHostname ""); [done|]. cbn.
        by rewrite bool_decide_eq_true_2.
Qed.

(** The deletion step shared by every failing branch. *)
Lemma ensureTLSSecretIsRemoved_step `{APIServer} (w : world) (secret : v1.Secret) :
  secrets (informer w) !! tlsSecretName (ctrl w) = Some secret ->
  events (snd (ensureTLSSecretIsRemoved w)) = events w ++ [SecretsDelete (tlsSecretName (ctrl w))].
Proof.
  intros Hget. rewrite (ensureTLSSecretIsRemoved_found w secret Hget).
  by destruct (deleteOutcome w).
Qed.

Lemma deleteTLSSecret_by_first_failure `{Environment} `{APIServer} (w : world)
    (nameInfo : certNameInfo) (ca : CA) (secret : v1.Secret) :
  deleteTLSSecretWhenCertificateDoesNotMatchDesiredState nameInfo ca secret w
  = match firstFailingCheck nameInfo ca secret with
    | None => (inr false, w)
    | Some failure =>
        (match fst (ensureTLSSecretIsRemoved w) with
         | inr _ => inr true
         | inl err => inl (deletionError failure err)
         end, snd (ensureTLSSecretIsRemoved w))
    end.
Proof.
  unfold firstFailingCheck, validationChecks, certificateOf. cbn [find snd fst negb].
  unfold deleteTLSSecretWhenCertificateDoesNotMatchDesiredState.
  destruct (pem_Decode (secretData secret v1.TLSCertKey)) as [der|] eqn:Hpem.
  2:{ rewrite bool_decide_eq_false_2 by (by intros [? ?]). cbn [negb fmap option_fmap option_map].
      unfold bind, catch, ret, fail. cbn [fst snd].
      by destruct (ensureTLSSecretIsRemoved w) as [[err|[]] w']. }
  rewrite bool_decide_eq_true_2 by eauto. cbn [negb].
  destruct (x509_ParseCertificate der) as [perr|cert] eqn:Hparse.
  { rewrite bool_decide_eq_false_2 by (by intros [? ?]). cbn [negb fmap option_fmap option_map].
    unfold bind, catch, ret, fail. cbn [fst snd].
    by destruct (ensureTLSSecretIsRemoved w) as [[err|[]] w']. }
  rewrite bool_decide_eq_true_2 by eauto. cbn [negb].
  destruct (tls_X509KeyPair _ _) as [kerr|] eqn:Hkey.
  { rewrite bool_decide_eq_false_2 by done. cbn [negb fmap option_fmap option_map].
    unfold bind, catch, ret, fail. cbn [fst snd].
    by destruct (ensureTLSSecretIsRemoved w) as [[err|[]] w']. }
  rewrite bool_decide_eq_true_2 by done. cbn [negb].
  destruct (x509_Verify cert ca) as [verr|] eqn:Hverify.
  { rewrite bool_decide_eq_false_2 by done. cbn [negb fmap option_fmap option_map].
    unfold bind, ret. cbn [fst snd].
    by destruct (ensureTLSSecretIsRemoved w) as [[err|[]] w']. }
  rewrite bool_decide_eq_true_2 by done. cbn [negb].
  destruct (ready nameInfo) eqn:Hready; cbn [negb].
  2:{ cbn [fmap option_fmap option_map].
      unfold bind, ret. cbn [fst snd].
      by destruct (ensureTLSSecretIsRemoved w) as [[err|[]] w']. }
  destruct (certHostnameAndIPMatchDesiredState _ _ _ _) eqn:Hnames; cbn [negb].
  - reflexivity.
  - cbn [fmap option_fmap option_map].
    unfold bind, ret. cbn [fst snd].
    by destruct (ensureTLSSecretIsRemoved w) as [[err|[]] w'].
Qed.

(** What [ensureTLSSecret] does with the Secret the informer has, by the
    first check that fails. *)
Lemma ensureTLSSecret_by_first_failure `{Environment} `{APIServer} (w : world)
    (nameInfo : certNameInfo) (ca : CA) (secret : v1.Secret) :
  secrets (informer w) !! tlsSecretName (ctrl w) = Some secret ->
  match firstFailingCheck nameInfo ca secret with
  | None =>
      deleteTLSSecretWhenCertificateDoesNotMatchDesiredState nameInfo ca secret w = (inr false, w)
      /\ ensureTLSSecret nameInfo ca w = loadTLSCertFromSecret secret w
  | Some failure =>
      let removed := ensureTLSSecretIsRemoved w in
      events (snd removed) = events w ++ [SecretsDelete (tlsSecretName (ctrl w))]
      /\ deleteTLSSecretWhenCertificateDoesNotMatchDesiredState nameInfo ca secret w
         = (match fst removed with
            | inr _ => inr true
            | inl err => inl (deletionError failure err)
            end, snd removed)
      /\ ensureTLSSecret nameInfo ca w
         = match fst removed with
           | inr _ => ensureTLSSecretIsCreatedAndLoaded nameInfo None ca (snd removed)
           | inl err => (inl (deletionError failure err), snd removed)
           end
  end.
Proof.
  intros Hget.
  pose proof (ensureTLSSecretIsRemoved_step w secret Hget) as Hev.
  pose proof (deleteTLSSecret_by_first_failure w nameInfo ca secret) as Hdel.
  assert (Hens :
    ensureTLSSecret nameInfo ca w
    = match deleteTLSSecretWhenCertificateDoesNotMatchDesiredState nameInfo ca secret w with
      | (inr secretWasDeleted, w') =>
          ensureTLSSecretIsCreatedAndLoaded nameInfo
            (if secretWasDeleted then None else Some secret) ca w'
      | (inl err, w') => (inl err, w')
      end).
  { unfold ensureTLSSecret, bind at 1, gets, catch, SecretsListerGet. cbn [fst snd].
    unfold bind at 1. cbn [fst snd]. by rewrite Hget. }
  rewrite Hens, Hdel.
  destruct (firstFailingCheck nameInfo ca secret) as [failure|].
  - cbv zeta. split; [exact Hev|]. split; [reflexivity|].
    by destruct (fst (ensureTLSSecretIsRemoved w)).
  - split; reflexivity.
Qed.

(** C3: an existing TLS Secret is checked by six conditions in order:
    the certificate PEM decodes, the bytes parse as a certificate, the
    certificate and the key form a key pair, the certificate verifies
    against the CA, the name resolver is ready, and the names match exactly
    (IP case or hostname case).  When all six hold the Secret is kept: no
    call is made and it is the Secret that gets loaded.  Otherwise one
    delete call is made at the first condition that fails, and, unless that
    call fails, the pass goes on as if the Secret had been absent. *)
Theorem deleteTLSSecret_validation_chain `{Environment} `{APIServer} (w : world)
    (nameInfo : certNameInfo) (ca : CA) (secret : v1.Secret) :
  secrets (informer w) !! tlsSecretName (ctrl w) = Some secret ->
  (forall desiredIPs actualIPs desiredHostname actualHostnames,
     certHostnameAndIPMatchDesiredState desiredIPs actualIPs desiredHostname actualHostnames = true
     <-> exactNameMatch desiredIPs actualIPs desiredHostname actualHostnames)
  /\ match firstFailingCheck nameInfo ca secret with
     | None =>
         deleteTLSSecretWhenCertificateDoesNotMatchDesiredState nameInfo ca secret w = (inr false, w)
         /\ ensureTLSSecret nameInfo ca w = loadTLSCertFromSecret secret w
     | Some failure =>
         let removed := ensureTLSSecretIsRemoved w in
         events (snd removed) = events w ++ [SecretsDelete (tlsSecretName (ctrl w))]
         /\ deleteTLSSecretWhenCertificateDoesNotMatchDesiredState nameInfo ca secret w
            = (match fst removed with
               | inr _ => inr true
               | inl err => inl (deletionError failure err)
               end, snd removed)
         /\ ensureTLSSecret nameInfo ca w
            = match fst removed with
              | inr _ => ensureTLSSecretIsCreatedAndLoaded nameInfo None ca (snd removed)
              | inl err => (inl (deletionError failure err), snd removed)
              end
     end.
Proof.
  intros Hget. split.
  - apply certHostnameAndIPMatchDesiredState_exact.
  - by apply ensureTLSSecret_by_first_failure.
Qed.

Lemma deleteTLSSecret_validation_chain_witness :
  let w := Ref.withTLSSecret in
  let nameInfo := {| ready := true; selectedIPs := [net.IPv4 x0a x00 x00 x05];
                     selectedHostname := ""; clientEndpoint := "10.0.0.5" |} in
  secrets (informer w) !! tlsSecretName (ctrl w) = Some Ref.secretFor_10_0_0_5
  /\ @firstFailingCheck Ref.environment nameInfo Ref.theCA Ref.secretFor_10_0_0_5 = None
  /\ @deleteTLSSecretWhenCertificateDoesNotMatchDesiredState Ref.environment Ref.store
       nameInfo Ref.theCA Ref.secretFor_10_0_0_5 w = (inr false, w).
Proof.
  intros w nameInfo.
  assert (Hget : secrets (informer w) !! tlsSecretName (ctrl w) = Some Ref.secretFor_10_0_0_5)
    by (vm_compute; reflexivity).
  assert (Hchecks : @firstFailingCheck Ref.environment nameInfo Ref.theCA Ref.secretFor_10_0_0_5 = None)
    by (vm_compute; reflexivity).
  destruct (@deleteTLSSecret_validation_chain Ref.environment Ref.store w nameInfo Ref.theCA
              Ref.secretFor_10_0_0_5 Hget) as [_ Hchain].
  rewrite Hchecks in Hchain. destruct Hchain as [Hkept _].
  split; [exact Hget|]. split; [exact Hchecks|exact Hkept].
Defined.

(** ** Round trip of a created TLS Secret *)

Lemma Equal_refl (ip : net.IP) : net.Equal ip ip = true.
Proof.
  unfold net.Equal. rewrite bool_decide_eq_true_2 by done. by apply bool_decide_eq_true_2.
Qed.

(** The form in which a certificate stores an address is equal, as an IP,
    to the address. *)
Lemma Equal_x509_SANIP (ip : net.IP) : net.Equal (x509_SANIP ip) ip = true.
Proof.
  unfold x509_SANIP. destruct (net.To4 ip) as [v4|] eqn:Hto4; simpl; [|apply Equal_refl].
  unfold net.To4 in Hto4.
  destruct (decide (length ip = net.IPv4len)) as [H4|H4].
  { rewrite bool_decide_eq_true_2 in Hto4 by done. injection Hto4 as <-. apply Equal_refl. }
  rewrite bool_decide_eq_false_2 in Hto4 by done.
  destruct (decide (length ip = net.IPv6len)) as [H6|H6].
  2:{ rewrite bool_decide_eq_false_2 in Hto4 by done. discriminate. }
  rewrite bool_decide_eq_true_2 in Hto4 by done.
  destruct (decide (take 12 ip = net.v4InV6Prefix)) as [Hp|Hp].
  2:{ rewrite bool_decide_eq_false_2 in Hto4 by done. discriminate. }
  rewrite bool_decide_eq_true_2 in Hto4 by done. injection Hto4 as <-.
  assert (length (drop 12 ip) = net.IPv4len) as Hd.
  { rewrite length_drop, H6. reflexivity. }
  unfold net.Equal.
  rewrite bool_decide_eq_false_2 by (rewrite Hd, H6; discriminate).
  rewrite (bool_decide_eq_true_2 _ Hd), (bool_decide_eq_true_2 _ H6). cbn [andb].
  rewrite (bool_decide_eq_true_2 _ Hp). by rewrite bool_decide_eq_true_2.
Qed.

Lemma exactNameMatch_issued (nameInfo : certNameInfo) :
  selectsOneKindOfName nameInfo ->
  certHostnameAndIPMatchDesiredState (selectedIPs nameInfo) (map x509_SANIP (selectedIPs nameInfo))
    (selectedHostname nameInfo)
    (if negb (String.eqb (selectedHostname nameInfo) "") then [selectedHostname nameInfo] else [])
  = true.
Proof.
  intros Hone. apply certHostnameAndIPMatchDesiredState_exact.
  destruct Hone as [[Hips Hhost]|[Hips Hhost]].
  - left. rewrite Hhost. cbn. split; [done|]. split; [by rewrite length_map|].
    split; [|done]. apply Forall2_fmap_l, Forall_Forall2_diag, Forall_forall.
    intros ip _. apply Equal_x509_SANIP.
  - right. rewrite Hips. destruct (String.eqb_spec (selectedHostname nameInfo) ""); done.
Qed.

(** What [createNewTLSSecret] stores, when it succeeds. *)
Lemma createNewTLSSecret_inv `{Environment} `{APIServer} (ca : CA) (ips : list net.IP)
    (hostname : string) (w w1 : world) (secret : v1.Secret) :
  createNewTLSSecret ca ips hostname w = (inr secret, w1) ->
  exists impersonationCert certPEM keyPEM,
    CA_IssueServerCert ca (if negb (String.eqb hostname "") then [hostname] else []) ips
      approximatelyOneHundredYears = inr impersonationCert
    /\ certauthority_ToPEM impersonationCert = inr (certPEM, keyPEM)
    /\ secretData secret v1.TLSCertKey = certPEM
    /\ secretData secret v1.TLSPrivateKeyKey = keyPEM
    /\ v1.Name (v1.SecretMeta secret) = tlsSecretName (ctrl w)
    /\ ctrl w1 = ctrl w
    /\ informer w1 = informer w
    /\ services (apiserver w1) = services (apiserver w)
    /\ secrets (apiserver w1) = <[tlsSecretName (ctrl w) := secret]> (secrets (apiserver w))
    /\ events w1 = events w ++ [SecretsCreate secret].
Proof.
  unfold createNewTLSSecret.
  destruct (CA_IssueServerCert _ _ _ _) as [?|impersonationCert] eqn:Hissue; [discriminate|].
  destruct (certauthority_ToPEM _) as [?|[certPEM keyPEM]] eqn:Hpem; [discriminate|].
  unfold bind, gets, SecretsClientCreate. cbn [fst snd]. cbv zeta.
  destruct (apiFault _); [discriminate|].
  cbn [log apiserver v1.SecretMeta v1.Name].
  destruct (secrets (apiserver w) !! tlsSecretName (ctrl w)); [discriminate|].
  intros [= <- <-]. exists impersonationCert, certPEM, keyPEM.
  repeat split; try done.
Qed.

(** C7: a TLS Secret that the controller created from a CA for the
    resolved name [ready, selectedIPs = [10.0.0.5]] passes all six checks
    when a later pass finds it, for the same CA and the same name: the pass
    makes no call on the store and loads that very Secret. *)
Theorem created_secret_round_trip `{Environment} `{APIServer} (ca : CA) (nameInfo : certNameInfo)
    (w w1 w2 : world) (secret : v1.Secret) :
  ready nameInfo = true ->
  selectedIPs nameInfo = [net.IPv4 x0a x00 x00 x05] ->
  selectedHostname nameInfo = "" ->
  issuedCertificateContract ca [] (selectedIPs nameInfo) ->
  createNewTLSSecret ca (selectedIPs nameInfo) (selectedHostname nameInfo) w = (inr secret, w1) ->
  secrets (informer w2) !! tlsSecretName (ctrl w2) = Some secret ->
  firstFailingCheck nameInfo ca secret = None
  /\ deleteTLSSecretWhenCertificateDoesNotMatchDesiredState nameInfo ca secret w2 = (inr false, w2)
  /\ ensureTLSSecret nameInfo ca w2 = loadTLSCertFromSecret secret w2
  /\ events (snd (ensureTLSSecret nameInfo ca w2)) = events w2
  /\ apiserver (snd (ensureTLSSecret nameInfo ca w2)) = apiserver w2.
Proof.
  intros Hready Hips Hhost Hcontract Hcreate Hget.
  assert (Hone : selectsOneKindOfName nameInfo) by (left; by rewrite Hips, Hhost).
  pose proof (exactNameMatch_issued nameInfo Hone) as Hmatch.
  destruct (createNewTLSSecret_inv _ _ _ _ _ _ Hcreate)
    as (impersonationCert & certPEM & keyPEM & Hissue & Hpem & Hcrt & Hkey & _).
  rewrite Hhost in Hissue, Hmatch. cbn [String.eqb negb] in Hissue, Hmatch.
  destruct (Hcontract _ _ _ Hissue Hpem)
    as (der & cert & Hdecode & Hparse & Hpair & Hverify & HIPs & HDNS).
  assert (Hnone : firstFailingCheck nameInfo ca secret = None).
  { unfold firstFailingCheck, validationChecks, certificateOf.
    rewrite Hcrt, Hkey, Hdecode, Hparse, Hpair, Hverify, Hready, HIPs, HDNS, Hhost, Hmatch.
    cbn [find snd fst negb].
    rewrite !bool_decide_eq_true_2 by eauto. reflexivity. }
  pose proof (ensureTLSSecret_by_first_failure w2 nameInfo ca secret Hget) as Hchain.
  rewrite Hnone in Hchain. destruct Hchain as [Hkept Hens].
  split; [exact Hnone|]. split; [exact Hkept|]. split; [exact Hens|].
  rewrite Hens. unfold loadTLSCertFromSecret.
  destruct (SetCertKeyContent_error _ _); split; reflexivity.
Qed.

Lemma To4_length (ip v4 : net.IP) : net.To4 ip = Some v4 -> length v4 = net.IPv4len.
Proof.
  unfold net.To4. destruct (decide (length ip = net.IPv4len)) as [H4|H4].
  { rewrite bool_decide_eq_true_2 by done. by intros [= <-]. }
  rewrite bool_decide_eq_false_2 by done.
  destruct (decide (length ip = net.IPv6len)) as [H6|H6].
  2:{ rewrite bool_decide_eq_false_2 by done. discriminate. }
  rewrite bool_decide_eq_true_2 by done.
  destruct (bool_decide _); [|discriminate]. intros [= <-].
  rewrite length_drop, H6. reflexivity.
Qed.

(** The reference environment honours the contract. *)
Lemma Ref_issuedCertificateContract (ca : bytes * bytes) (hostnames : list string) (ips : list net.IP) :
  @issuedCertificateContract Ref.environment ca hostnames ips.
Proof.
  intros impersonationCert certPEM keyPEM Hissue Hpem. cbn in Hissue, Hpem.
  injection Hpem as <- <-. unfold Ref.issueServerCert in Hissue.
  destruct (Ref.encodeCertificate hostnames ips) as [der|] eqn:Henc; [|discriminate].
  injection Hissue as <-. cbn. unfold Ref.keyPairError. rewrite bool_decide_eq_true_2 by done.
  unfold Ref.encodeCertificate in Henc.
  destruct hostnames as [|hostname [|? ?]], ips as [|ip [|? ?]]; try discriminate.
  - destruct (net.To4 ip) as [v4|] eqn:Hto4; [|discriminate]. injection Henc as <-.
    exists (x04 :: v4), ([v4], []). cbn.
    rewrite bool_decide_eq_true_2 by (by eapply To4_length).
    unfold x509_SANIP. rewrite Hto4. by repeat split.
  - injection Henc as <-.
    exists (x02 :: list_byte_of_string hostname), ([], [hostname]). cbn.
    rewrite string_of_list_byte_of_string. by repeat split.
Qed.

Lemma created_secret_round_trip_witness :
  let nameInfo := {| ready := true; selectedIPs := [net.IPv4 x0a x00 x00 x05];
                     selectedHostname := ""; clientEndpoint := "10.0.0.5" |} in
  let w := Ref.worldOf Ref.controller Ref.emptyCluster in
  let created := @createNewTLSSecret Ref.environment Ref.store Ref.theCA
                   (selectedIPs nameInfo) (selectedHostname nameInfo) w in
  let w2 := Ref.withTLSSecret in
  created = (inr Ref.secretFor_10_0_0_5, snd created)
  /\ secrets (informer w2) !! tlsSecretName (ctrl w2) = Some Ref.secretFor_10_0_0_5
  /\ @firstFailingCheck Ref.environment nameInfo Ref.theCA Ref.secretFor_10_0_0_5 = None
  /\ events (snd (@ensureTLSSecret Ref.environment Ref.store nameInfo Ref.theCA w2)) = events w2.
Proof.
  intros nameInfo w created w2.
  assert (Hcreate : created = (inr Ref.secretFor_10_0_0_5, snd created)) by (vm_compute; reflexivity).
  assert (Hget : secrets (informer w2) !! tlsSecretName (ctrl w2) = Some Ref.secretFor_10_0_0_5)
    by (vm_compute; reflexivity).
  destruct (@created_secret_round_trip Ref.environment Ref.store Ref.theCA nameInfo w (snd created) w2
              Ref.secretFor_10_0_0_5 eq_refl eq_refl eq_refl
              (Ref_issuedCertificateContract Ref.theCA [] (selectedIPs nameInfo)) Hcreate Hget)
    as (Hnone & _ & _ & Hevents & _).
  split; [exact Hcreate|]. split; [exact Hget|]. split; [exact Hnone|exact Hevents].
Defined.

(** ** Two passes in succession *)

Lemma bind_inr {A B} (m : M A) (k : A -> M B) (w w' : world) (b : B) :
  bind m k w = (inr b, w') -> exists a wm, m w = (inr a, wm) /\ k a wm = (inr b, w').
Proof.
  unfold bind. destruct (m w) as [[err|a] wm]; [discriminate|]. eauto.
Qed.

Lemma mutatingCalls_log (e : event) (w : world) :
  mutatingCalls (log e w) = mutatingCalls w ++ (if isMutatingCall e then [e] else []).
Proof.
  unfold mutatingCalls, log. cbn [events]. rewrite List.filter_app. cbn.
  by destruct (isMutatingCall e).
Qed.

Lemma quiet_refl (w : world) : quiet w w.
Proof. by repeat split. Qed.

Lemma quiet_trans (w1 w2 w3 : world) : quiet w1 w2 -> quiet w2 w3 -> quiet w1 w3.
Proof. intros (? & ? & ?) (? & ? & ?). repeat split; congruence. Qed.

Ltac quiet_tac :=
  unfold quiet, static, mutatingCalls; cbn -[List.filter];
  rewrite ?List.filter_app; cbn; rewrite ?app_nil_r; repeat split.

Lemma ensureImpersonatorIsStopped_quiet (shouldCloseErrChan : bool) (w : world) :
  quiet w (snd (ensureImpersonatorIsStopped shouldCloseErrChan w)).
Proof.
  unfold ensureImpersonatorIsStopped, bind, gets, modify, returnErr, ret, fail. cbn [fst snd].
  destruct (server (ctrl w)) as [h|]; [|apply quiet_refl].
  destruct shouldCloseErrChan, (errorChClosed h), (receiveFinalError h); quiet_tac.
Qed.

Lemma ensureImpersonatorIsStarted_quiet `{Environment} (w : world) :
  quiet w (snd (ensureImpersonatorIsStarted w)).
Proof.
  unfold ensureImpersonatorIsStarted, bind, gets. cbn [fst snd].
  destruct (server (ctrl w)) as [h|].
  - destruct (errorChBuf h) as [v|], (errorChClosed h); try apply quiet_refl.
    unfold modify, catch, ensureImpersonatorIsStopped, bind, gets, modify, returnErr, ret, fail.
    cbn. destruct v; quiet_tac.
  - destruct (impersonatorFunc _); [apply quiet_refl|]. quiet_tac.
Qed.

Lemma loadTLSCertFromSecret_quiet `{Environment} (secret : v1.Secret) (w : world) :
  quiet w (snd (loadTLSCertFromSecret secret w)).
Proof. unfold loadTLSCertFromSecret. destruct (SetCertKeyContent_error _ _); quiet_tac. Qed.

Lemma loadSignerCA_quiet `{Environment} (status : v1alpha1.StrategyStatus) (w : world) :
  quiet w (snd (loadSignerCA status w)).
Proof.
  unfold loadSignerCA. destruct (negb _); [quiet_tac|].
  unfold bind, gets, catch, SecretsListerGet. cbn [fst snd].
  destruct (secrets (informer w) !! _); [|apply quiet_refl]. cbn [fst snd].
  destruct (SetCertKeyContent_error _ _); quiet_tac.
Qed.

(** The resolver reads the informer cache and changes nothing. *)
Lemma findTLSCertificateNameFromLoadBalancer_run `{Environment} (w : world) :
  findTLSCertificateNameFromLoadBalancer w
  = (nameFromLoadBalancer (namespace (ctrl w))
       (services (informer w) !! generatedLoadBalancerServiceName (ctrl w)), w).
Proof.
  unfold findTLSCertificateNameFromLoadBalancer, bind, gets, catch, ServicesListerGet. cbn [fst snd].
  destruct (services (informer w) !! _) as [lb|]; cbn [fst snd nameFromLoadBalancer IsNotFound]; [|reflexivity].
  destruct (match v1.Ingress lb with [] => true | _ => _ end); [reflexivity|].
  destruct (firstIngressHostname _); [reflexivity|].
  by destruct (firstIngressIP _) as [[? ?]|].
Qed.

Lemma findTLSCertificateNameFromClusterIPService_run `{Environment} (w : world) :
  findTLSCertificateNameFromClusterIPService w
  = (inr (nameFromClusterIPService
            (services (informer w) !! generatedClusterIPServiceName (ctrl w))), w).
Proof.
  unfold findTLSCertificateNameFromClusterIPService, bind, gets, catch, ServicesListerGet. cbn [fst snd].
  destruct (services (informer w) !! _) as [svc|]; cbn [fst snd nameFromClusterIPService IsNotFound]; [|reflexivity].
  by destruct (negb _).
Qed.

Lemma findDesiredTLSCertificateName_run `{Environment} (config : v1alpha1.ImpersonationProxySpec) (w : world) :
  findDesiredTLSCertificateName config w = (resolvedName config w, w).
Proof.
  unfold findDesiredTLSCertificateName, resolvedName.
  destruct (negb _); [reflexivity|].
  destruct (bool_decide _).
  - apply findTLSCertificateNameFromClusterIPService_run.
  - apply findTLSCertificateNameFromLoadBalancer_run.
Qed.

(** *** Exposure Services across two passes *)

Lemma lookup_desired_annotations `{Environment} (desiredService : v1.Service) (k : string) :
  k ∈ mapKeys (v1.Annotations (v1.Meta desiredService)) ->
  is_Some (v1.Annotations (v1.Meta (withBookkeepingAnnotation desiredService)) !! k).
Proof.
  intros Hin. rewrite lookup_withBookkeepingAnnotation.
  destruct (decide _); [eauto|]. by apply elem_of_mapKeys.
Qed.

(** Merging the desired annotations into annotations that already are the
    result of such a merge changes nothing. *)
Lemma mergeAnnotations_settled `{Environment} (desiredService : v1.Service)
    (annotations : gmap string string) :
  jsonRoundTrip (v1.Annotations (v1.Meta desiredService)) ->
  let desired := v1.Annotations (v1.Meta (withBookkeepingAnnotation desiredService)) in
  let keys := mapKeys (v1.Annotations (v1.Meta desiredService)) in
  (forall k, annotations !! k
             = if decide (keys = [] /\ k = annotationKeysKey) then None
               else match desired !! k with
                    | Some v => Some v
                    | None => annotations !! k
                    end) ->
  mergeAnnotations annotations desired keys = annotations.
Proof.
  intros Hjson desired keys Hshape. apply map_eq. intros k.
  rewrite lookup_mergeAnnotations. etrans; [|symmetry; apply Hshape].
  destruct (decide (keys = [] /\ k = annotationKeysKey)) as [?|Hnot]; [reflexivity|].
  destruct (desired !! k) eqn:Hd; [reflexivity|].
  destruct (decide (k ∈ oldDesiredAnnotationKeys annotations)) as [Hold|?]; [|reflexivity].
  exfalso. unfold oldDesiredAnnotationKeys in Hold.
  destruct (decide (v1.Annotations (v1.Meta desiredService) = ∅)) as [Hempty|Hne].
  - assert (keys = []) as Hk by (by apply mapKeys_empty_iff).
    rewrite (Hshape annotationKeysKey) in Hold.
    rewrite decide_True in Hold by done. by apply elem_of_nil in Hold.
  - assert (keys <> []) as Hk by (intros Hk; by apply mapKeys_empty_iff in Hk).
    rewrite (Hshape annotationKeysKey) in Hold.
    rewrite decide_False in Hold by (intros [? _]; done).
    subst desired. rewrite lookup_withBookkeepingAnnotation in Hold.
    rewrite decide_True in Hold by done.
    rewrite Hjson in Hold. apply (proj1 (elem_of_sort_Strings _ _)) in Hold.
    apply lookup_desired_annotations in Hold as [v Hv]. congruence.
Qed.

Lemma settledService_created `{Environment} (desiredService : v1.Service) :
  jsonRoundTrip (v1.Annotations (v1.Meta desiredService)) ->
  settledService desiredService (withBookkeepingAnnotation desiredService).
Proof.
  intros Hjson. unfold settledService, updatedServiceOf.
  rewrite (mergeAnnotations_settled desiredService _ Hjson).
  - by destruct (withBookkeepingAnnotation desiredService) as [[] [] ?].
  - intros k. cbv zeta. destruct (decide (_ /\ _)) as [[Hk ->]|?].
    + rewrite lookup_withBookkeepingAnnotation. apply mapKeys_empty_iff in Hk.
      rewrite decide_False by (intros [_ ?]; done). by rewrite Hk.
    + by destruct (_ !! k).
Qed.

(** The desired Service as the store allocated it on create is settled,
    when the store kept what the controller manages. *)
Lemma settledService_allocated `{Environment} `{APIServer} (desiredService : v1.Service) :
  jsonRoundTrip (v1.Annotations (v1.Meta desiredService)) ->
  allocationKeepsWhatWasSent ->
  settledService desiredService (allocate (withBookkeepingAnnotation desiredService)).
Proof.
  intros Hjson Hkeeps.
  pose proof (settledService_created desiredService Hjson) as Hcreated.
  apply (f_equal (fun svc => v1.Annotations (v1.Meta svc))) in Hcreated.
  unfold settledService, updatedServiceOf in *.
  cbn [v1.Meta v1.Annotations] in Hcreated.
  set (sent := withBookkeepingAnnotation desiredService) in *.
  destruct (Hkeeps sent) as (Hmeta & Hselector & Htype & Hip).
  rewrite Hmeta, Hcreated. rewrite <- Hselector, <- Htype, <- Hip, <- Hmeta.
  by destruct (allocate sent) as [[] [] ?].
Qed.

Lemma settledService_updated `{Environment} (desiredService existingService : v1.Service) :
  jsonRoundTrip (v1.Annotations (v1.Meta desiredService)) ->
  settledService desiredService
    (updatedServiceOf existingService (withBookkeepingAnnotation desiredService)
       (mapKeys (v1.Annotations (v1.Meta desiredService)))).
Proof.
  intros Hjson. unfold settledService.
  unfold updatedServiceOf at 1. cbn [updatedServiceOf v1.Meta v1.Spec v1.Name v1.Namespace v1.Labels
    v1.Annotations v1.Ports v1.Selector v1.ClusterIP v1.ClusterIPs v1.Type_ v1.LoadBalancerIP v1.Ingress].
  rewrite (mergeAnnotations_settled desiredService _ Hjson); [reflexivity|].
  intros k. cbv zeta. rewrite lookup_mergeAnnotations.
  destruct (decide (_ /\ _)); [reflexivity|]. by destruct (_ !! k).
Qed.

Lemma ensureLoadBalancerIsStarted_run `{Environment} `{APIServer}
    (config : v1alpha1.ImpersonationProxySpec) (w : world) :
  ensureLoadBalancerIsStarted config w = createOrUpdateService (desiredLoadBalancer (ctrl w) config) w.
Proof. reflexivity. Qed.

Lemma ensureClusterIPServiceIsStarted_run `{Environment} `{APIServer}
    (config : v1alpha1.ImpersonationProxySpec) (w : world) :
  ensureClusterIPServiceIsStarted config w = createOrUpdateService (desiredClusterIPService (ctrl w) config) w.
Proof. reflexivity. Qed.

(** A successful [createOrUpdateService] leaves in the store a Service
    that is settled, and that has the ingress, name and cluster IPs of the
    Service that was there before, if there was one, and that is otherwise
    the desired Service as the store allocated it. *)
Lemma createOrUpdateService_settles `{Environment} `{APIServer} (desiredService : v1.Service)
    (w w' : world) :
  jsonRoundTrip (v1.Annotations (v1.Meta desiredService)) ->
  allocationKeepsWhatWasSent ->
  createOrUpdateService desiredService w = (inr tt, w') ->
  services (apiserver w) !! v1.Name (v1.Meta desiredService)
    = services (informer w) !! v1.Name (v1.Meta desiredService) ->
  (forall old, services (informer w) !! v1.Name (v1.Meta desiredService) = Some old ->
               v1.Name (v1.Meta old) = v1.Name (v1.Meta desiredService)) ->
  static w' = static w
  /\ secrets (apiserver w') = secrets (apiserver w)
  /\ (forall k, k <> v1.Name (v1.Meta desiredService) ->
        services (apiserver w') !! k = services (apiserver w) !! k)
  /\ exists stored,
       services (apiserver w') !! v1.Name (v1.Meta desiredService) = Some stored
       /\ settledService desiredService stored
       /\ v1.Name (v1.Meta stored) = v1.Name (v1.Meta desiredService)
       /\ match services (informer w) !! v1.Name (v1.Meta desiredService) with
          | Some old =>
              v1.Ingress stored = v1.Ingress old
              /\ v1.ClusterIP (v1.Spec stored) = v1.ClusterIP (v1.Spec old)
              /\ v1.ClusterIPs (v1.Spec stored) = v1.ClusterIPs (v1.Spec old)
          | None => stored = allocate (withBookkeepingAnnotation desiredService)
          end.
Proof.
  intros Hjson Hkeeps Hrun Hsync Hkeyed.
  unfold createOrUpdateService, bind, catch, ServicesListerGet in Hrun. cbn [fst snd] in Hrun.
  destruct (withBookkeepingAnnotation_frame desiredService) as (Hname & _ & Hspec).
  rewrite Hname in Hrun.
  destruct (services (informer w) !! v1.Name (v1.Meta desiredService)) as [existingService|] eqn:Hget;
    cbn [fst snd IsNotFound] in Hrun.
  - specialize (Hkeyed _ eq_refl).
    set (updated := updatedServiceOf existingService (withBookkeepingAnnotation desiredService)
                      (mapKeys (v1.Annotations (v1.Meta desiredService)))) in *.
    assert (Hsettled : settledService desiredService updated) by (by apply settledService_updated).
    destruct (bool_decide_reflect (existingService = updated)) as [Heq|Hne].
    + injection Hrun as <-. repeat split; try done.
      exists existingService. rewrite Hsync. split; [done|]. rewrite Heq at 1. by repeat split.
    + unfold ServicesClientUpdate, ret in Hrun. cbv zeta in Hrun.
      destruct (apiFault _); [discriminate|]. cbn [log apiserver] in Hrun.
      assert (v1.Name (v1.Meta updated) = v1.Name (v1.Meta desiredService)) as Hn by done.
      rewrite Hn in Hrun.
      destruct (services (apiserver w) !! v1.Name (v1.Meta desiredService)) eqn:Hstore; [|discriminate].
      injection Hrun as <-. cbn.
      split; [reflexivity|]. split; [reflexivity|]. split.
      * intros k Hk. by rewrite lookup_insert_ne.
      * exists updated. rewrite lookup_insert_eq. by repeat split.
  - unfold ServicesClientCreate, ret in Hrun. cbv zeta in Hrun.
    destruct (apiFault _); [discriminate|]. cbn [log apiserver] in Hrun.
    rewrite Hname in Hrun.
    destruct (services (apiserver w) !! v1.Name (v1.Meta desiredService)) eqn:Hstore; [discriminate|].
    injection Hrun as <-. cbn.
    split; [reflexivity|]. split; [reflexivity|]. split.
    * intros k Hk. by rewrite lookup_insert_ne.
    * exists (allocate (withBookkeepingAnnotation desiredService)). rewrite lookup_insert_eq.
      split; [done|]. split; [by apply settledService_allocated|]. split; [|done].
      destruct (Hkeeps (withBookkeepingAnnotation desiredService)) as (Hmeta & _).
      by rewrite Hmeta.
Qed.

(** On a settled Service [createOrUpdateService] does nothing. *)
Lemma createOrUpdateService_quiet `{Environment} `{APIServer} (desiredService stored : v1.Service)
    (w : world) :
  services (informer w) !! v1.Name (v1.Meta desiredService) = Some stored ->
  settledService desiredService stored ->
  createOrUpdateService desiredService w = (inr tt, w).
Proof.
  intros Hget Hsettled.
  destruct (createOrUpdateService_found w desiredService stored Hget) as [Hsame _].
  apply Hsame. by symmetry.
Qed.

(** Teardown of an exposure Service, when it succeeds, leaves none in the
    store. *)
Lemma ensureLoadBalancerIsStopped_settles `{APIServer} (w w' : world) :
  honestNotFound ->
  ensureLoadBalancerIsStopped w = (inr tt, w') ->
  services (apiserver w) !! generatedLoadBalancerServiceName (ctrl w)
    = services (informer w) !! generatedLoadBalancerServiceName (ctrl w) ->
  static w' = static w
  /\ secrets (apiserver w') = secrets (apiserver w)
  /\ (forall k, k <> generatedLoadBalancerServiceName (ctrl w) ->
        services (apiserver w') !! k = services (apiserver w) !! k)
  /\ services (apiserver w') !! generatedLoadBalancerServiceName (ctrl w) = None.
Proof.
  intros Hhonest Hrun Hsync.
  unfold ensureLoadBalancerIsStopped, serviceExists, bind, gets, catch, ServicesListerGet in Hrun.
  cbn [fst snd] in Hrun.
  destruct (services (informer w) !! _) as [svc|] eqn:Hget; cbn [fst snd IsNotFound ret negb] in Hrun.
  - unfold ServicesClientDelete in Hrun. cbv zeta in Hrun.
    destruct (apiFault _) as [err|] eqn:Hfault; cbn [fst snd] in Hrun.
    + unfold FilterOutNotFound, returnErr in Hrun. rewrite (Hhonest _ _ Hfault) in Hrun. discriminate.
    + cbn [log apiserver] in Hrun. rewrite Hsync in Hrun. cbn [fst snd] in Hrun.
      injection Hrun as <-. cbn.
      split; [reflexivity|]. split; [reflexivity|]. split.
      * intros k Hk. by rewrite lookup_delete_ne.
      * apply lookup_delete_eq.
  - injection Hrun as <-. by rewrite Hsync.
Qed.

Lemma ensureLoadBalancerIsStopped_quiet `{APIServer} (w : world) :
  services (informer w) !! generatedLoadBalancerServiceName (ctrl w) = None ->
  ensureLoadBalancerIsStopped w = (inr tt, w).
Proof.
  intros Hget.
  unfold ensureLoadBalancerIsStopped, serviceExists, bind, gets, catch, ServicesListerGet.
  cbn [fst snd]. by rewrite Hget.
Qed.

Lemma ensureClusterIPServiceIsStopped_settles `{APIServer} (w w' : world) :
  honestNotFound ->
  ensureClusterIPServiceIsStopped w = (inr tt, w') ->
  services (apiserver w) !! generatedClusterIPServiceName (ctrl w)
    = services (informer w) !! generatedClusterIPServiceName (ctrl w) ->
  static w' = static w
  /\ secrets (apiserver w') = secrets (apiserver w)
  /\ (forall k, k <> generatedClusterIPServiceName (ctrl w) ->
        services (apiserver w') !! k = services (apiserver w) !! k)
  /\ services (apiserver w') !! generatedClusterIPServiceName (ctrl w) = None.
Proof.
  intros Hhonest Hrun Hsync.
  unfold ensureClusterIPServiceIsStopped, serviceExists, bind, gets, catch, ServicesListerGet in Hrun.
  cbn [fst snd] in Hrun.
  destruct (services (informer w) !! _) as [svc|] eqn:Hget; cbn [fst snd IsNotFound ret negb] in Hrun.
  - unfold ServicesClientDelete in Hrun. cbv zeta in Hrun.
    destruct (apiFault _) as [err|] eqn:Hfault; cbn [fst snd] in Hrun.
    + unfold FilterOutNotFound, returnErr in Hrun. rewrite (Hhonest _ _ Hfault) in Hrun. discriminate.
    + cbn [log apiserver] in Hrun. rewrite Hsync in Hrun. cbn [fst snd] in Hrun.
      injection Hrun as <-. cbn.
      split; [reflexivity|]. split; [reflexivity|]. split.
      * intros k Hk. by rewrite lookup_delete_ne.
      * apply lookup_delete_eq.
  - injection Hrun as <-. by rewrite Hsync.
Qed.

Lemma ensureClusterIPServiceIsStopped_quiet `{APIServer} (w : world) :
  services (informer w) !! generatedClusterIPServiceName (ctrl w) = None ->
  ensureClusterIPServiceIsStopped w = (inr tt, w).
Proof.
  intros Hget.
  unfold ensureClusterIPServiceIsStopped, serviceExists, bind, gets, catch, ServicesListerGet.
  cbn [fst snd]. by rewrite Hget.
Qed.

(** *** CA and TLS Secrets across two passes *)

Lemma ensureCASecretIsCreated_settles `{Environment} `{APIServer} (w w' : world) (ca : CA) :
  createdCALoads ->
  ensureCASecretIsCreated w = (inr ca, w') ->
  secrets (apiserver w) !! caSecretName (ctrl w) = secrets (informer w) !! caSecretName (ctrl w) ->
  static w' = static w
  /\ services (apiserver w') = services (apiserver w)
  /\ (forall k, k <> caSecretName (ctrl w) -> secrets (apiserver w') !! k = secrets (apiserver w) !! k)
  /\ exists caSecret,
       secrets (apiserver w') !! caSecretName (ctrl w) = Some caSecret
       /\ certauthority_Load (secretData caSecret caCrtKey) (secretData caSecret caKeyKey) = inr ca.
Proof.
  intros Hloads Hrun Hsync.
  unfold ensureCASecretIsCreated, bind, gets, catch, SecretsListerGet in Hrun. cbn [fst snd] in Hrun.
  destruct (secrets (informer w) !! caSecretName (ctrl w)) as [caSecret|] eqn:Hget;
    cbn [fst snd IsNotFound negb] in Hrun.
  - destruct (certauthority_Load _ _) as [?|ca'] eqn:Hload; [discriminate|].
    injection Hrun as <- <-. repeat split; try done. exists caSecret. by rewrite Hsync.
  - unfold createCASecret in Hrun.
    destruct (certauthority_New _ _) as [?|newCA] eqn:Hnew; [discriminate|].
    destruct (CA_PrivateKeyToPEM newCA) as [?|keyPEM] eqn:Hkey; [discriminate|].
    unfold bind, gets, SecretsClientCreate, ret in Hrun. cbn [fst snd] in Hrun. cbv zeta in Hrun.
    destruct (apiFault _); [discriminate|].
    cbn [log apiserver v1.SecretMeta v1.Name] in Hrun.
    destruct (secrets (apiserver w) !! caSecretName (ctrl w)); [discriminate|].
    injection Hrun as <- <-. cbn.
    split; [reflexivity|]. split; [reflexivity|]. split.
    + intros k Hk. by rewrite lookup_insert_ne.
    + eexists. rewrite lookup_insert_eq. split; [reflexivity|].
      unfold secretData. cbn [v1.Data]. rewrite lookup_insert_eq.
      rewrite lookup_insert_ne by done. unfold caKeyKey. rewrite lookup_insert_eq. cbn [default].
      by apply Hloads.
Qed.

(** A CA that was created, the cache holding none, found none in the
    store either: the create would have reported already-exists. *)
Lemma ensureCASecretIsCreated_absent `{Environment} `{APIServer} (w w' : world) (ca : CA) :
  secrets (informer w) !! caSecretName (ctrl w) = None ->
  ensureCASecretIsCreated w = (inr ca, w') ->
  secrets (apiserver w) !! caSecretName (ctrl w) = None.
Proof.
  intros Hget Hrun.
  unfold ensureCASecretIsCreated, bind, gets, catch, SecretsListerGet in Hrun. cbn [fst snd] in Hrun.
  rewrite Hget in Hrun. cbn [fst snd IsNotFound negb] in Hrun.
  unfold createCASecret in Hrun.
  destruct (certauthority_New _ _) as [?|newCA]; [discriminate|].
  destruct (CA_PrivateKeyToPEM newCA) as [?|keyPEM]; [discriminate|].
  unfold bind, gets, SecretsClientCreate, ret in Hrun. cbn [fst snd] in Hrun. cbv zeta in Hrun.
  destruct (apiFault _); [discriminate|].
  cbn [log apiserver v1.SecretMeta v1.Name] in Hrun.
  by destruct (secrets (apiserver w) !! caSecretName (ctrl w)).
Qed.

Lemma ensureCASecretIsCreated_quiet `{Environment} `{APIServer} (w : world) (caSecret : v1.Secret) :
  secrets (informer w) !! caSecretName (ctrl w) = Some caSecret ->
  ensureCASecretIsCreated w
  = (certauthority_Load (secretData caSecret caCrtKey) (secretData caSecret caKeyKey), w).
Proof.
  intros Hget.
  unfold ensureCASecretIsCreated, bind, gets, catch, SecretsListerGet. cbn [fst snd].
  rewrite Hget. cbn [fst snd]. by destruct (certauthority_Load _ _).
Qed.

(** A Secret that [createNewTLSSecret] made for a resolved name passes
    every check against the same CA and name. *)
Lemma created_secret_passes `{Environment} `{APIServer} (ca : CA) (nameInfo : certNameInfo)
    (w w1 : world) (secret : v1.Secret) :
  ready nameInfo = true ->
  selectsOneKindOfName nameInfo ->
  (forall hostnames, issuedCertificateContract ca hostnames (selectedIPs nameInfo)) ->
  createNewTLSSecret ca (selectedIPs nameInfo) (selectedHostname nameInfo) w = (inr secret, w1) ->
  firstFailingCheck nameInfo ca secret = None.
Proof.
  intros Hready Hone Hcontract Hcreate.
  pose proof (exactNameMatch_issued nameInfo Hone) as Hmatch.
  destruct (createNewTLSSecret_inv _ _ _ _ _ _ Hcreate)
    as (impersonationCert & certPEM & keyPEM & Hissue & Hpem & Hcrt & Hkey & _).
  destruct (Hcontract _ _ _ _ Hissue Hpem)
    as (der & cert & Hdecode & Hparse & Hpair & Hverify & HIPs & HDNS).
  unfold firstFailingCheck, validationChecks, certificateOf.
  rewrite Hcrt, Hkey, Hdecode, Hparse, Hpair, Hverify, Hready, HIPs, HDNS, Hmatch.
  cbn [find snd fst negb].
  rewrite !bool_decide_eq_true_2 by eauto. reflexivity.
Qed.

Lemma ensureTLSSecretIsCreatedAndLoaded_settles `{Environment} `{APIServer} (nameInfo : certNameInfo)
    (ca : CA) (w w' : world) :
  (ready nameInfo = true -> selectsOneKindOfName nameInfo) ->
  (forall hostnames, issuedCertificateContract ca hostnames (selectedIPs nameInfo)) ->
  ensureTLSSecretIsCreatedAndLoaded nameInfo None ca w = (inr tt, w') ->
  secrets (apiserver w) !! tlsSecretName (ctrl w) = None ->
  static w' = static w
  /\ services (apiserver w') = services (apiserver w)
  /\ (forall k, k <> tlsSecretName (ctrl w) -> secrets (apiserver w') !! k = secrets (apiserver w) !! k)
  /\ settledTLSSecret nameInfo ca (secrets (apiserver w') !! tlsSecretName (ctrl w)).
Proof.
  intros Hone Hcontract Hrun Habsent.
  unfold ensureTLSSecretIsCreatedAndLoaded in Hrun.
  destruct (ready nameInfo) eqn:Hready; cbn [negb] in Hrun.
  2:{ injection Hrun as <-. repeat split; try done. by rewrite Habsent. }
  apply bind_inr in Hrun as (newTLSSecret & w1 & Hcreate & Hload).
  pose proof (created_secret_passes ca nameInfo w w1 newTLSSecret Hready (Hone eq_refl)
                Hcontract Hcreate) as Hpasses.
  destruct (createNewTLSSecret_inv _ _ _ _ _ _ Hcreate)
    as (_ & _ & _ & _ & _ & _ & _ & _ & Hctrl & Hinf & Hsvc & Hsec & _).
  pose proof (loadTLSCertFromSecret_quiet newTLSSecret w1) as (Hst & Hapi & _).
  rewrite Hload in Hst, Hapi. cbn [snd] in Hst, Hapi.
  rewrite Hapi. split.
  { rewrite Hst. unfold static. by rewrite Hctrl, Hinf. }
  split; [done|]. rewrite Hsec. split.
  - intros k Hk. by rewrite lookup_insert_ne.
  - by rewrite lookup_insert_eq.
Qed.

Lemma ensureTLSSecretIsRemoved_settles `{APIServer} (w w' : world) :
  honestNotFound ->
  ensureTLSSecretIsRemoved w = (inr tt, w') ->
  secrets (apiserver w) !! tlsSecretName (ctrl w) = secrets (informer w) !! tlsSecretName (ctrl w) ->
  static w' = static w
  /\ services (apiserver w') = services (apiserver w)
  /\ (forall k, k <> tlsSecretName (ctrl w) -> secrets (apiserver w') !! k = secrets (apiserver w) !! k)
  /\ secrets (apiserver w') !! tlsSecretName (ctrl w) = None.
Proof.
  intros Hhonest Hrun Hsync.
  destruct (secrets (informer w) !! tlsSecretName (ctrl w)) as [secret|] eqn:Hget.
  - rewrite (ensureTLSSecretIsRemoved_found w secret Hget) in Hrun.
    unfold deleteOutcome in Hrun. rewrite Hsync in Hrun.
    destruct (apiFault _) as [err|] eqn:Hfault.
    + rewrite (Hhonest _ _ Hfault) in Hrun. discriminate.
    + injection Hrun as <-. cbn.
      split; [reflexivity|]. split; [reflexivity|]. split.
      * intros k Hk. by rewrite lookup_delete_ne.
      * apply lookup_delete_eq.
  - unfold ensureTLSSecretIsRemoved, tlsSecretExists, bind, gets, catch, SecretsListerGet in Hrun.
    cbn [fst snd] in Hrun. rewrite Hget in Hrun. cbn in Hrun.
    injection Hrun as <-. by rewrite Hsync.
Qed.

Lemma ensureTLSSecretIsRemoved_quiet `{APIServer} (w : world) :
  secrets (informer w) !! tlsSecretName (ctrl w) = None ->
  ensureTLSSecretIsRemoved w = (inr tt, w).
Proof.
  intros Hget.
  unfold ensureTLSSecretIsRemoved, tlsSecretExists, bind, gets, catch, SecretsListerGet.
  cbn [fst snd]. by rewrite Hget.
Qed.

(** A successful [ensureTLSSecret] leaves the TLS Secret slot settled. *)
Lemma ensureTLSSecret_settles `{Environment} `{APIServer} (nameInfo : certNameInfo)
    (ca : CA) (w w' : world) :
  honestNotFound ->
  (ready nameInfo = true -> selectsOneKindOfName nameInfo) ->
  (forall hostnames, issuedCertificateContract ca hostnames (selectedIPs nameInfo)) ->
  ensureTLSSecret nameInfo ca w = (inr tt, w') ->
  secrets (apiserver w) !! tlsSecretName (ctrl w) = secrets (informer w) !! tlsSecretName (ctrl w) ->
  static w' = static w
  /\ services (apiserver w') = services (apiserver w)
  /\ (forall k, k <> tlsSecretName (ctrl w) -> secrets (apiserver w') !! k = secrets (apiserver w) !! k)
  /\ settledTLSSecret nameInfo ca (secrets (apiserver w') !! tlsSecretName (ctrl w)).
Proof.
  intros Hhonest Hone Hcontract Hrun Hsync.
  destruct (secrets (informer w) !! tlsSecretName (ctrl w)) as [secret|] eqn:Hget.
  - pose proof (ensureTLSSecret_by_first_failure w nameInfo ca secret Hget) as Hchain.
    destruct (firstFailingCheck nameInfo ca secret) as [failure|] eqn:Hfirst.
    + cbv zeta in Hchain. destruct Hchain as (_ & _ & Hens). rewrite Hens in Hrun.
      destruct (ensureTLSSecretIsRemoved w) as [[err|[]] wr] eqn:Hrm; cbn [fst snd] in Hrun;
        [discriminate|].
      destruct (ensureTLSSecretIsRemoved_settles w wr Hhonest Hrm) as (Hst & Hsvc & Hother & Hgone).
      { by rewrite Hsync. }
      assert (tlsSecretName (ctrl wr) = tlsSecretName (ctrl w)) as Hname.
      { unfold static in Hst. congruence. }
      destruct (ensureTLSSecretIsCreatedAndLoaded_settles nameInfo ca wr w' Hone Hcontract Hrun)
        as (Hst' & Hsvc' & Hother' & Hsettled).
      { by rewrite Hname. }
      rewrite Hname in *. repeat split; try congruence.
      intros k Hk. rewrite Hother' by done. by apply Hother.
    + destruct Hchain as [_ Hens]. rewrite Hens in Hrun.
      pose proof (loadTLSCertFromSecret_quiet secret w) as (Hst & Hapi & _).
      rewrite Hrun in Hst, Hapi. cbn [snd] in Hst, Hapi.
      rewrite Hapi. repeat split; try done. by rewrite Hsync.
  - unfold ensureTLSSecret, bind at 1, gets, catch, SecretsListerGet in Hrun. cbn [fst snd] in Hrun.
    unfold bind at 1 in Hrun. cbn [fst snd] in Hrun. rewrite Hget in Hrun.
    cbn [fst snd IsNotFound negb] in Hrun.
    apply (ensureTLSSecretIsCreatedAndLoaded_settles nameInfo ca w w' Hone Hcontract Hrun).
    by rewrite Hsync.
Qed.

(** On a settled TLS Secret slot [ensureTLSSecret] makes no call. *)
Lemma ensureTLSSecret_quiet `{Environment} `{APIServer} (nameInfo : certNameInfo) (ca : CA) (w : world) :
  settledTLSSecret nameInfo ca (secrets (informer w) !! tlsSecretName (ctrl w)) ->
  quiet w (snd (ensureTLSSecret nameInfo ca w)).
Proof.
  intros Hsettled.
  destruct (secrets (informer w) !! tlsSecretName (ctrl w)) as [secret|] eqn:Hget;
    cbn [settledTLSSecret] in Hsettled.
  - pose proof (ensureTLSSecret_by_first_failure w nameInfo ca secret Hget) as Hchain.
    rewrite Hsettled in Hchain. destruct Hchain as [_ ->]. apply loadTLSCertFromSecret_quiet.
  - unfold ensureTLSSecret, bind at 1, gets, catch, SecretsListerGet. cbn [fst snd].
    unfold bind at 1. cbn [fst snd]. rewrite Hget. cbn [fst snd IsNotFound negb].
    unfold ensureTLSSecretIsCreatedAndLoaded. rewrite Hsettled. apply quiet_refl.
Qed.

(** *** The resolved name across two passes *)

Lemma static_inv (w w' : world) :
  static w' = static w ->
  namespace (ctrl w') = namespace (ctrl w)
  /\ generatedLoadBalancerServiceName (ctrl w') = generatedLoadBalancerServiceName (ctrl w)
  /\ generatedClusterIPServiceName (ctrl w') = generatedClusterIPServiceName (ctrl w)
  /\ tlsSecretName (ctrl w') = tlsSecretName (ctrl w)
  /\ caSecretName (ctrl w') = caSecretName (ctrl w)
  /\ impersonationSignerSecretName (ctrl w') = impersonationSignerSecretName (ctrl w)
  /\ labels (ctrl w') = labels (ctrl w)
  /\ clockNow (ctrl w') = clockNow (ctrl w)
  /\ hasControlPlaneNodes (ctrl w') = hasControlPlaneNodes (ctrl w)
  /\ informer w' = informer w.
Proof. unfold static. intros [= ? ? ? ? ? ? ? ? ? ?]. by repeat split. Qed.

Lemma desiredLoadBalancer_static (w w' : world) (config : v1alpha1.ImpersonationProxySpec) :
  namespace (ctrl w') = namespace (ctrl w) ->
  generatedLoadBalancerServiceName (ctrl w') = generatedLoadBalancerServiceName (ctrl w) ->
  labels (ctrl w') = labels (ctrl w) ->
  desiredLoadBalancer (ctrl w') config = desiredLoadBalancer (ctrl w) config.
Proof. unfold desiredLoadBalancer. by intros -> -> ->. Qed.

Lemma desiredClusterIPService_static (w w' : world) (config : v1alpha1.ImpersonationProxySpec) :
  namespace (ctrl w') = namespace (ctrl w) ->
  generatedClusterIPServiceName (ctrl w') = generatedClusterIPServiceName (ctrl w) ->
  labels (ctrl w') = labels (ctrl w) ->
  desiredClusterIPService (ctrl w') config = desiredClusterIPService (ctrl w) config.
Proof. unfold desiredClusterIPService. by intros -> -> ->. Qed.

Lemma loadBalancer_step_settles `{Environment} `{APIServer} (should : bool)
    (config : v1alpha1.ImpersonationProxySpec) (w w' : world) :
  honestNotFound ->
  jsonRoundTrip (v1alpha1.Annotations (v1alpha1.Service config)) ->
  allocationKeepsWhatWasSent ->
  wellKeyed (informer w) ->
  (if should then ensureLoadBalancerIsStarted config else ensureLoadBalancerIsStopped) w = (inr tt, w') ->
  services (apiserver w) !! generatedLoadBalancerServiceName (ctrl w)
    = services (informer w) !! generatedLoadBalancerServiceName (ctrl w) ->
  static w' = static w
  /\ secrets (apiserver w') = secrets (apiserver w)
  /\ (forall k, k <> generatedLoadBalancerServiceName (ctrl w) ->
        services (apiserver w') !! k = services (apiserver w) !! k)
  /\ exposureSettled should (desiredLoadBalancer (ctrl w) config)
       (services (informer w) !! generatedLoadBalancerServiceName (ctrl w))
       (services (apiserver w') !! generatedLoadBalancerServiceName (ctrl w)).
Proof.
  intros Hhonest Hjson Hkeeps Hkeyed Hrun Hsync. destruct should; cbn [exposureSettled].
  - rewrite ensureLoadBalancerIsStarted_run in Hrun.
    destruct (createOrUpdateService_settles (desiredLoadBalancer (ctrl w) config) w w' Hjson Hkeeps
                Hrun Hsync)
      as (Hst & Hsec & Hother & stored & Hstored & Hsettled & Hname & Hview).
    { intros old Hold. by apply Hkeyed in Hold. }
    repeat split; try done. exists stored. split; [done|]. split; [done|].
    cbn [desiredLoadBalancer v1.Meta v1.Name] in Hview |- *.
    destruct (services (informer w) !! generatedLoadBalancerServiceName (ctrl w)) as [old|] eqn:Hold;
      [|done].
    apply Hkeyed in Hold. destruct Hview as (? & ? & ?). repeat split; try done.
    by rewrite Hold.
  - by apply ensureLoadBalancerIsStopped_settles.
Qed.

Lemma clusterIP_step_settles `{Environment} `{APIServer} (should : bool)
    (config : v1alpha1.ImpersonationProxySpec) (w w' : world) :
  honestNotFound ->
  jsonRoundTrip (v1alpha1.Annotations (v1alpha1.Service config)) ->
  allocationKeepsWhatWasSent ->
  wellKeyed (informer w) ->
  (if should then ensureClusterIPServiceIsStarted config else ensureClusterIPServiceIsStopped) w
    = (inr tt, w') ->
  services (apiserver w) !! generatedClusterIPServiceName (ctrl w)
    = services (informer w) !! generatedClusterIPServiceName (ctrl w) ->
  static w' = static w
  /\ secrets (apiserver w') = secrets (apiserver w)
  /\ (forall k, k <> generatedClusterIPServiceName (ctrl w) ->
        services (apiserver w') !! k = services (apiserver w) !! k)
  /\ exposureSettled should (desiredClusterIPService (ctrl w) config)
       (services (informer w) !! generatedClusterIPServiceName (ctrl w))
       (services (apiserver w') !! generatedClusterIPServiceName (ctrl w)).
Proof.
  intros Hhonest Hjson Hkeeps Hkeyed Hrun Hsync. destruct should; cbn [exposureSettled].
  - rewrite ensureClusterIPServiceIsStarted_run in Hrun.
    destruct (createOrUpdateService_settles (desiredClusterIPService (ctrl w) config) w w' Hjson Hkeeps
                Hrun Hsync)
      as (Hst & Hsec & Hother & stored & Hstored & Hsettled & Hname & Hview).
    { intros old Hold. by apply Hkeyed in Hold. }
    repeat split; try done. exists stored. split; [done|]. split; [done|].
    cbn [desiredClusterIPService v1.Meta v1.Name] in Hview |- *.
    destruct (services (informer w) !! generatedClusterIPServiceName (ctrl w)) as [old|] eqn:Hold;
      [|done].
    apply Hkeyed in Hold. destruct Hview as (? & ? & ?). repeat split; try done.
    by rewrite Hold.
  - by apply ensureClusterIPServiceIsStopped_settles.
Qed.

Lemma loadBalancer_step_quiet `{Environment} `{APIServer} (should : bool)
    (config : v1alpha1.ImpersonationProxySpec) (old : option v1.Service) (w : world) :
  exposureSettled should (desiredLoadBalancer (ctrl w) config) old
    (services (informer w) !! generatedLoadBalancerServiceName (ctrl w)) ->
  (if should then ensureLoadBalancerIsStarted config else ensureLoadBalancerIsStopped) w = (inr tt, w).
Proof.
  destruct should; cbn [exposureSettled].
  - intros (stored & Hstored & Hsettled & _). rewrite ensureLoadBalancerIsStarted_run.
    by apply (createOrUpdateService_quiet _ stored).
  - apply ensureLoadBalancerIsStopped_quiet.
Qed.

Lemma clusterIP_step_quiet `{Environment} `{APIServer} (should : bool)
    (config : v1alpha1.ImpersonationProxySpec) (old : option v1.Service) (w : world) :
  exposureSettled should (desiredClusterIPService (ctrl w) config) old
    (services (informer w) !! generatedClusterIPServiceName (ctrl w)) ->
  (if should then ensureClusterIPServiceIsStarted config else ensureClusterIPServiceIsStopped) w
  = (inr tt, w).
Proof.
  destruct should; cbn [exposureSettled].
  - intros (stored & Hstored & Hsettled & _). rewrite ensureClusterIPServiceIsStarted_run.
    by apply (createOrUpdateService_quiet _ stored).
  - apply ensureClusterIPServiceIsStopped_quiet.
Qed.

Lemma withBookkeepingAnnotation_ingress `{Environment} (desiredService : v1.Service) :
  v1.Ingress (withBookkeepingAnnotation desiredService) = v1.Ingress desiredService.
Proof. unfold withBookkeepingAnnotation. by destruct (0 <? _)%nat. Qed.

(** The resolver reads a settled exposure Service like the one the pass
    found.  Where the pass found none and created it, this needs a store
    that assigns no address on create. *)
Lemma nameFromLoadBalancer_settled `{Environment} `{APIServer} (ns : string)
    (desiredService : v1.Service) (old new : option v1.Service) :
  v1.Ingress desiredService = [] ->
  exposureSettled true desiredService old new ->
  (forall nameInfo, nameFromLoadBalancer ns old = inr nameInfo -> ready nameInfo = true)
  \/ assignsNoIngress ->
  nameFromLoadBalancer ns new = nameFromLoadBalancer ns old.
Proof.
  intros Hdesired (stored & -> & _ & Hview) Hready. destruct old as [old|].
  - destruct Hview as (Hingress & Hname & _). unfold nameFromLoadBalancer.
    by rewrite Hingress, Hname.
  - destruct Hready as [Hready|Hno].
    + by specialize (Hready _ eq_refl).
    + subst stored. unfold nameFromLoadBalancer.
      by rewrite Hno, withBookkeepingAnnotation_ingress, Hdesired.
Qed.

Lemma nameFromClusterIPService_settled `{Environment} `{APIServer} (desiredService : v1.Service)
    (old new : option v1.Service) :
  v1.ClusterIP (v1.Spec desiredService) = "" ->
  exposureSettled true desiredService old new ->
  ready (nameFromClusterIPService old) = true \/ assignsNoClusterIP ->
  nameFromClusterIPService new = nameFromClusterIPService old.
Proof.
  intros Hdesired (stored & -> & _ & Hview) Hready. destruct old as [old|].
  - destruct Hview as (_ & _ & Hip & Hips). unfold nameFromClusterIPService.
    by rewrite Hip, Hips.
  - destruct Hready as [Hready|Hno]; [done|].
    destruct (Hno (withBookkeepingAnnotation desiredService)) as (Hip & _).
    destruct (withBookkeepingAnnotation_frame desiredService) as (_ & _ & Hspec).
    subst stored. unfold nameFromClusterIPService. by rewrite Hip, Hspec, Hdesired.
Qed.

Lemma shouldHaveImpersonator_not_disabled (b : bool) (config : v1alpha1.ImpersonationProxySpec) :
  shouldHaveImpersonator b config = true ->
  disabledExplicitly config = false /\ disabledByAutoMode b config = false.
Proof.
  unfold shouldHaveImpersonator, enabledByAutoMode, disabledExplicitly, disabledByAutoMode.
  destruct (bool_decide_reflect (v1alpha1.Mode config = v1alpha1.ImpersonationProxyModeAuto)) as [Ha|Ha],
    (bool_decide_reflect (v1alpha1.Mode config = v1alpha1.ImpersonationProxyModeEnabled)) as [He|He],
    (bool_decide_reflect (v1alpha1.Mode config = v1alpha1.ImpersonationProxyModeDisabled)) as [Hd|Hd],
    b; cbn; try done; congruence.
Qed.

Lemma firstIngressHostname_nonempty (ingresses : list v1.LoadBalancerIngress) (hostname : string) :
  firstIngressHostname ingresses = Some hostname -> hostname <> "".
Proof.
  induction ingresses as [|ingress rest IH]; [discriminate|]. cbn [firstIngressHostname].
  destruct (String.eqb_spec (v1.Hostname ingress) "") as [?|Hne]; cbn [negb]; [exact IH|].
  by intros [= <-].
Qed.

(** A ready resolved name selects IPs or a hostname, not both and not
    neither, provided a valid external endpoint has a host. *)
Lemma resolvedName_selectsOneKind `{Environment} (config : v1alpha1.ImpersonationProxySpec)
    (w : world) (nameInfo : certNameInfo) :
  (v1alpha1.ExternalEndpoint config <> "" ->
   Host (fst (endpointaddr_Parse (v1alpha1.ExternalEndpoint config) 443)) <> "") ->
  resolvedName config w = inr nameInfo ->
  ready nameInfo = true ->
  selectsOneKindOfName nameInfo.
Proof.
  intros Hhost. unfold resolvedName.
  destruct (String.eqb_spec (v1alpha1.ExternalEndpoint config) "") as [He|He]; cbn [negb].
  - destruct (bool_decide _).
    + unfold nameFromClusterIPService.
      destruct (services (informer w) !! _) as [svc|]; [|by intros [= <-]].
      destruct (negb _); [|by intros [= <-]].
      intros [= <-] _. left. cbn. split; [|done].
      destruct (v1.ClusterIPs (v1.Spec svc)); cbn; done.
    + unfold nameFromLoadBalancer.
      destruct (services (informer w) !! _) as [lb|]; [|by intros [= <-]].
      destruct (match v1.Ingress lb with [] => true | _ => _ end); [by intros [= <-]|].
      destruct (firstIngressHostname _) as [hostname|] eqn:Hfirst.
      * intros [= <-] _. right. cbn. split; [done|]. by eapply firstIngressHostname_nonempty.
      * destruct (firstIngressIP _) as [[ip parsedIP]|]; [|discriminate].
        intros [= <-] _. left. by cbn.
  - intros [= <-] _. unfold findTLSCertificateNameFromEndpointConfig.
    destruct (ParseIP _); [left|right]; cbn; split; auto; done.
Qed.

(** *** The first pass *)

Lemma loadImpersonationProxyConfiguration_clusterIP `{Environment}
    (impersonationProxy : option v1alpha1.ImpersonationProxySpec)
    (config : v1alpha1.ImpersonationProxySpec) :
  loadImpersonationProxyConfiguration impersonationProxy = inr config ->
  v1alpha1.Type_ (v1alpha1.Service config) = v1alpha1.ImpersonationProxyServiceTypeClusterIP ->
  exists spec,
    impersonationProxy = Some spec
    /\ v1alpha1.Type_ (v1alpha1.Service spec) = v1alpha1.ImpersonationProxyServiceTypeClusterIP.
Proof.
  unfold loadImpersonationProxyConfiguration.
  destruct impersonationProxy as [spec|]; [|discriminate].
  destruct (bool_decide _); destruct (validateCredentialIssuerSpec _); try discriminate.
  - by intros [= <-].
  - intros [= <-] Htype. by exists spec.
Qed.

Lemma loadImpersonationProxyConfiguration_annotations `{Environment}
    (spec0 spec : v1alpha1.ImpersonationProxySpec) :
  loadImpersonationProxyConfiguration (Some spec0) = inr spec ->
  v1alpha1.Annotations (v1alpha1.Service spec) = v1alpha1.Annotations (v1alpha1.Service spec0).
Proof.
  unfold loadImpersonationProxyConfiguration.
  destruct (bool_decide _); destruct (validateCredentialIssuerSpec _); try discriminate;
    by intros [= <-].
Qed.

Lemma resolvedName_static `{Environment} (config : v1alpha1.ImpersonationProxySpec) (w w' : world) :
  namespace (ctrl w') = namespace (ctrl w) ->
  generatedLoadBalancerServiceName (ctrl w') = generatedLoadBalancerServiceName (ctrl w) ->
  generatedClusterIPServiceName (ctrl w') = generatedClusterIPServiceName (ctrl w) ->
  informer w' = informer w ->
  resolvedName config w' = resolvedName config w.
Proof. unfold resolvedName. by intros -> -> -> ->. Qed.

Lemma doSync_settles `{Environment} `{APIServer}
    (impersonationProxy : option v1alpha1.ImpersonationProxySpec) (w0 w1 : world)
    (strategy : v1alpha1.CredentialIssuerStrategy) :
  honestNotFound ->
  (forall spec, impersonationProxy = Some spec ->
                jsonRoundTrip (v1alpha1.Annotations (v1alpha1.Service spec))) ->
  (forall ca hostnames ips, issuedCertificateContract ca hostnames ips) ->
  createdCALoads ->
  (forall endpoint, snd (endpointaddr_Parse endpoint 443) = None ->
                    Host (fst (endpointaddr_Parse endpoint 443)) <> "") ->
  generatedLoadBalancerServiceName (ctrl w0) <> generatedClusterIPServiceName (ctrl w0) ->
  tlsSecretName (ctrl w0) <> caSecretName (ctrl w0) ->
  allocationKeepsWhatWasSent ->
  informer w0 = apiserver w0 ->
  wellKeyed (informer w0) ->
  doSync impersonationProxy w0 = (inr strategy, w1) ->
  exists config b,
    loadImpersonationProxyConfiguration impersonationProxy = inr config
    /\ settled config b w0 w1
    /\ (forall nameInfo,
          shouldHaveImpersonator b config = true ->
          resolvedName config w0 = inr nameInfo ->
          ready nameInfo = false ->
          v1alpha1.Reason strategy = v1alpha1.PendingStrategyReason).
Proof.
  intros Hhonest Hjson Hcontract Hloads Hhost Hsvcnames Hsecnames Hkeeps Hsync Hkeyed Hrun.
  unfold doSync in Hrun.
  destruct (loadImpersonationProxyConfiguration impersonationProxy) as [?|config] eqn:Hload;
    [discriminate|].
  exists config.
  assert (Hjson' : jsonRoundTrip (v1alpha1.Annotations (v1alpha1.Service config))).
  { destruct impersonationProxy as [spec0|]; [|discriminate].
    rewrite (loadImpersonationProxyConfiguration_annotations _ _ Hload). by apply Hjson. }
  destruct (loadImpersonationProxyConfiguration_valid _ _ Hload) as [Hmode Hvalid].
  (* the cached control-plane flag *)
  apply bind_inr in Hrun as (cached & wx & Hgets & Hrun). injection Hgets as <- <-.
  apply bind_inr in Hrun as (b & wa & Hflag & Hrun). exists b.
  assert (Hwa : hasControlPlaneNodes (ctrl wa) = Some b
                /\ static wa = static (set_ctrl (set_hasControlPlaneNodes (Some b)) w0)
                /\ apiserver wa = apiserver w0).
  { destruct (hasControlPlaneNodes (ctrl w0)) as [b0|] eqn:Hcached.
    - injection Hflag as <- <-. split; [done|]. split; [|done].
      unfold static. cbn. by rewrite Hcached.
    - destruct HasControlPlaneNodes as [?|b']; [discriminate|].
      injection Hflag as <- <-. by repeat split. }
  destruct Hwa as (Hflagged & Hsta & Hapia). clear Hflag.
  apply static_inv in Hsta. cbn in Hsta.
  destruct Hsta as (Hns & Hlbn & Hcipn & Htlsn & Hcan & Hsignn & Hlabels & Hclock & _ & Hinfa).
  (* the proxy server *)
  apply bind_inr in Hrun as ([] & wb & Hserver & Hrun).
  assert (Hwb : quiet wa wb).
  { destruct (shouldHaveImpersonator b config).
    - pose proof (ensureImpersonatorIsStarted_quiet wa) as Hq. by rewrite Hserver in Hq.
    - pose proof (ensureImpersonatorIsStopped_quiet true wa) as Hq. by rewrite Hserver in Hq. }
  clear Hserver. destruct Hwb as (Hstb & Hapib & _). apply static_inv in Hstb.
  destruct Hstb as (Hnsb & Hlbnb & Hcipnb & Htlsnb & Hcanb & _ & Hlabelsb & Hclockb & Hflagb & Hinfb).
  (* the load balancer *)
  apply bind_inr in Hrun as ([] & wc & Hlb & Hrun).
  apply (loadBalancer_step_settles _ _ _ _ Hhonest Hjson' Hkeeps) in Hlb
    as (Hstc & Hsecc & Hotherc & Hlbsettled).
  2:{ rewrite Hinfb, Hinfa. exact Hkeyed. }
  2:{ rewrite Hapib, Hapia, Hinfb, Hinfa, Hsync. reflexivity. }
  apply static_inv in Hstc.
  destruct Hstc as (Hnsc & Hlbnc & Hcipnc & Htlsnc & Hcanc & _ & Hlabelsc & Hclockc & Hflagc & Hinfc).
  (* the cluster-IP Service *)
  apply bind_inr in Hrun as ([] & wd & Hcip & Hrun).
  apply (clusterIP_step_settles _ _ _ _ Hhonest Hjson' Hkeeps) in Hcip
    as (Hstd & Hsecd & Hotherd & Hcipsettled).
  2:{ rewrite Hinfc, Hinfb, Hinfa. exact Hkeyed. }
  2:{ rewrite Hotherc by congruence.
      rewrite Hapib, Hapia, Hinfc, Hinfb, Hinfa, Hsync. reflexivity. }
  apply static_inv in Hstd.
  destruct Hstd as (Hnsd & Hlbnd & Hcipnd & Htlsnd & Hcand & _ & Hlabelsd & Hclockd & Hflagd & Hinfd).
  (* the resolved name *)
  apply bind_inr in Hrun as (r & wd' & Hresolve & Hrun).
  unfold catch in Hresolve. rewrite findDesiredTLSCertificateName_run in Hresolve.
  cbn [fst snd] in Hresolve. injection Hresolve as <- <-.
  assert (Hname : resolvedName config wd = resolvedName config w0).
  { apply resolvedName_static; congruence. }
  rewrite Hname in Hrun.
  destruct (resolvedName config w0) as [?|nameInfo] eqn:Hresolved.
  { unfold bind, UnsetCertKeyContent, modify, fail in Hrun. discriminate. }
  (* CA and TLS Secrets *)
  apply bind_inr in Hrun as (impersonationCA & we & Hsecrets & Hrun).
  apply bind_inr in Hrun as (now & we' & Hnow & Hrun). injection Hnow as <- <-.
  destruct (doSyncResult _ _ _ _ _) as [?|result] eqn:Hresult; [discriminate|].
  apply bind_inr in Hrun as ([] & w1' & Hsigner & Hrun). injection Hrun as <- <-.
  pose proof (loadSignerCA_quiet (v1alpha1.Status result) we) as Hq.
  rewrite Hsigner in Hq. destruct Hq as (Hst1 & Hapi1 & _). cbn [snd] in Hst1, Hapi1.
  apply static_inv in Hst1.
  destruct Hst1 as (Hns1 & Hlbn1 & Hcipn1 & Htlsn1 & Hcan1 & _ & Hlabels1 & Hclock1 & Hflag1 & Hinf1).
  assert (Hsecretsettled :
    static we = static wd
    /\ services (apiserver we) = services (apiserver wd)
    /\ if shouldHaveTLSSecret b config
       then exists ca caSecret,
              secrets (apiserver we) !! caSecretName (ctrl w0) = Some caSecret
              /\ certauthority_Load (secretData caSecret caCrtKey) (secretData caSecret caKeyKey) = inr ca
              /\ settledTLSSecret nameInfo ca (secrets (apiserver we) !! tlsSecretName (ctrl w0))
       else secrets (apiserver we) !! tlsSecretName (ctrl w0) = None).
  { assert (Hsecsync : secrets (apiserver wd) = secrets (informer wd)).
    { rewrite Hsecd, Hsecc, Hapib, Hapia, Hinfd, Hinfc, Hinfb, Hinfa, Hsync. reflexivity. }
    assert (Htls0 : tlsSecretName (ctrl wd) = tlsSecretName (ctrl w0)) by congruence.
    assert (Hca0 : caSecretName (ctrl wd) = caSecretName (ctrl w0)) by congruence.
    destruct (shouldHaveTLSSecret b config) eqn:Hshould.
    - apply bind_inr in Hsecrets as (ca & we1 & Hca & Hsecrets).
      apply bind_inr in Hsecrets as ([] & we2 & Htls & Hsecrets). injection Hsecrets as <- <-.
      apply (ensureCASecretIsCreated_settles _ _ _ Hloads) in Hca
        as (Hst1' & Hsvc1' & Hother1' & caSecret & Hcasecret & Hcaload).
      2:{ by rewrite Hsecsync. }
      pose proof Hst1' as Hst1full. apply static_inv in Hst1'.
      destruct Hst1' as (_ & _ & _ & Htlsn1' & Hcan1' & _ & _ & _ & _ & Hinf1').
      apply (ensureTLSSecret_settles _ _ _ _ Hhonest) in Htls
        as (Hst2' & Hsvc2' & Hother2' & Htlssettled).
      2:{ intros Hready. apply (resolvedName_selectsOneKind config w0 nameInfo); try done.
          intros Hne. apply Hhost.
          destruct Hmode as [Hm|Hm].
          { unfold shouldHaveTLSSecret, shouldHaveImpersonator, enabledByAutoMode in Hshould.
            rewrite Hm in Hshould. discriminate. }
          destruct Hvalid as (_ & Hparse & _).
          { destruct Hm as [-> | ->]; discriminate. }
          by apply Hparse. }
      2:{ intros hostnames. apply Hcontract. }
      2:{ rewrite Htlsn1', Hinf1', Hother1' by congruence. by rewrite Hsecsync. }
      split.
      { by rewrite Hst2'. }
      split; [congruence|].
      exists ca, caSecret. rewrite <- Htls0, <- Hca0.
      split; [|split; [done|]].
      + rewrite <- Hcan1' at 1. rewrite <- Hcan1' in Hcasecret.
        rewrite Hother2'; [done|]. congruence.
      + by rewrite <- Htlsn1'.
    - apply bind_inr in Hsecrets as ([] & we2 & Hrm & Hsecrets). injection Hsecrets as <- <-.
      apply (ensureTLSSecretIsRemoved_settles _ _ Hhonest) in Hrm as (Hst' & Hsvc' & _ & Hgone).
      2:{ by rewrite Hsecsync. }
      split; [done|]. split; [done|]. by rewrite <- Htls0. }
  destruct Hsecretsettled as (Hste & Hsvce & Hsecsettled).
  apply static_inv in Hste.
  destruct Hste as (Hnse & Hlbne & Hcipne & Htlsne & Hcane & _ & Hlabelse & Hclocke & Hflage & Hinfe).
  assert (Hlb0 : generatedLoadBalancerServiceName (ctrl wb) = generatedLoadBalancerServiceName (ctrl w0))
    by congruence.
  assert (Hcip0 : generatedClusterIPServiceName (ctrl wc) = generatedClusterIPServiceName (ctrl w0))
    by congruence.
  split; [done|]. split.
  2:{ intros nameInfo' Hshould [= <-] Hready.
      apply shouldHaveImpersonator_not_disabled in Hshould as [Hexplicit Hauto].
      unfold doSyncResult in Hresult. rewrite Hexplicit, Hauto, Hready in Hresult.
      cbn [negb] in Hresult. by injection Hresult as <-. }
  constructor; try congruence.
  - rewrite Hapi1, Hsvce. rewrite Hotherd by congruence.
    rewrite Hlb0 in Hlbsettled.
    rewrite (desiredLoadBalancer_static w0 wb) in Hlbsettled by congruence.
    by rewrite Hinfb, Hinfa in Hlbsettled.
  - rewrite Hapi1, Hsvce. rewrite Hcip0 in Hcipsettled.
    rewrite (desiredClusterIPService_static w0 wc) in Hcipsettled by congruence.
    by rewrite Hinfc, Hinfb, Hinfa in Hcipsettled.
  - rewrite Hapi1. destruct (shouldHaveTLSSecret b config); [|done].
    destruct Hsecsettled as (ca & caSecret & ? & ? & ?). by exists nameInfo, ca, caSecret.
Qed.

(** *** The second pass *)

Lemma quiet_bind {A B} (m : M A) (k : A -> M B) (w : world) :
  quiet w (snd (m w)) ->
  (forall a w', m w = (inr a, w') -> quiet w' (snd (k a w'))) ->
  quiet w (snd (bind m k w)).
Proof.
  intros Hm Hk. unfold bind. destruct (m w) as [[err|a] w'] eqn:Hrun; [exact Hm|].
  eapply quiet_trans; [exact Hm|]. by apply Hk.
Qed.

(** After a successful pass that wanted the impersonator, the next pass
    resolves the same name, provided that name was ready or the store
    assigns no address on create. *)
Lemma resolvedName_settled `{Environment} `{APIServer} (config : v1alpha1.ImpersonationProxySpec)
    (b : bool) (w0 w1 w : world) :
  settled config b w0 w1 ->
  shouldHaveImpersonator b config = true ->
  (forall nameInfo, resolvedName config w0 = inr nameInfo -> ready nameInfo = true)
  \/ (assignsNoIngress
      /\ (v1alpha1.Type_ (v1alpha1.Service config) = v1alpha1.ImpersonationProxyServiceTypeClusterIP ->
          assignsNoClusterIP)) ->
  (v1alpha1.Type_ (v1alpha1.Service config) = v1alpha1.ImpersonationProxyServiceTypeLoadBalancer
   \/ v1alpha1.Type_ (v1alpha1.Service config) = v1alpha1.ImpersonationProxyServiceTypeClusterIP
   \/ v1alpha1.Type_ (v1alpha1.Service config) = v1alpha1.ImpersonationProxyServiceTypeNone) ->
  (v1alpha1.Type_ (v1alpha1.Service config) = v1alpha1.ImpersonationProxyServiceTypeNone ->
   v1alpha1.ExternalEndpoint config <> "") ->
  informer w = apiserver w1 ->
  namespace (ctrl w) = namespace (ctrl w0) ->
  generatedLoadBalancerServiceName (ctrl w) = generatedLoadBalancerServiceName (ctrl w0) ->
  generatedClusterIPServiceName (ctrl w) = generatedClusterIPServiceName (ctrl w0) ->
  resolvedName config w = resolvedName config w0.
Proof.
  intros Hsettled Hshould Hready Htype Hnone Hinf Hns Hlbn Hcipn. unfold resolvedName in Hready |- *.
  destruct (String.eqb_spec (v1alpha1.ExternalEndpoint config) "") as [He|He];
    cbn [negb] in Hready |- *; [|reflexivity].
  rewrite Hinf, Hns, Hlbn, Hcipn.
  destruct (bool_decide_reflect (v1alpha1.Type_ (v1alpha1.Service config)
                                 = v1alpha1.ImpersonationProxyServiceTypeClusterIP)) as [Hcip|Hcip].
  - f_equal. pose proof (settled_cip _ _ _ _ Hsettled) as Hs.
    unfold shouldHaveClusterIPService in Hs. rewrite Hshould, Hcip in Hs.
    rewrite bool_decide_eq_true_2 in Hs by done. cbn [andb] in Hs.
    eapply nameFromClusterIPService_settled; [|exact Hs|]; [reflexivity|].
    destruct Hready as [Hready|[_ Hno]]; [left; by apply Hready|right; by apply Hno].
  - pose proof (settled_lb _ _ _ _ Hsettled) as Hs.
    unfold shouldHaveLoadBalancer in Hs. rewrite Hshould in Hs.
    destruct Htype as [Hlb|[?|Hn]]; [|done|by apply Hnone in Hn].
    rewrite Hlb in Hs. rewrite bool_decide_eq_true_2 in Hs by done. cbn [andb] in Hs.
    eapply nameFromLoadBalancer_settled; [|exact Hs|]; [reflexivity|].
    destruct Hready as [Hready|[Hno _]]; [by left|by right].
Qed.

(** The end of a pass, from the status composer on, makes no call. *)
Lemma doSync_tail_quiet `{Environment} (b : bool) (nameInfo : certNameInfo)
    (config : v1alpha1.ImpersonationProxySpec) (impersonationCA : option CA) (w : world) :
  quiet w
    (snd ((let* now := gets (fun w => clockNow (ctrl w)) in
           match doSyncResult b now nameInfo config impersonationCA with
           | inl err => fail err
           | inr credentialIssuerStrategyResult =>
               loadSignerCA (v1alpha1.Status credentialIssuerStrategyResult);;
               ret credentialIssuerStrategyResult
           end) w)).
Proof.
  unfold bind at 1. unfold gets. cbn [fst snd].
  destruct (doSyncResult _ _ _ _ _) as [err|result]; [apply quiet_refl|].
  apply quiet_bind; [apply loadSignerCA_quiet|]. intros. apply quiet_refl.
Qed.

(** C8, as the code has it: when a sync pass completes without error and
    does not report that it is still waiting for an address, and nothing
    outside the controller changes before the next pass (the informer
    cache has caught up with the store), the next pass makes no create,
    update or delete call.  A pass that ends pending is covered when the
    store assigns on create no address that the resolver would read: no
    ingress and, when the specification asks for a cluster-IP Service, no
    cluster IP.  An API server does assign the cluster IP of a Service
    while it creates it, so the pass that creates the cluster-IP Service
    ends pending, without error, and the next pass finds the address and
    creates the TLS Secret.  This holds for a store that reports not-found only for absent objects,
    keeps every object under its own name and, on create, keeps what the
    controller manages (metadata, selector, type and load-balancer IP);
    for distinct names of the two exposure Services and of the two
    Secrets; and for collaborators that return the bookkeeping list they
    were given, issue certificates that validate, load the CA they stored
    and give every valid external endpoint a host. *)
Theorem doSync_second_pass_makes_no_mutating_call `{Environment} `{APIServer}
    (impersonationProxy : option v1alpha1.ImpersonationProxySpec) (w0 w1 : world)
    (strategy : v1alpha1.CredentialIssuerStrategy) :
  honestNotFound ->
  allocationKeepsWhatWasSent ->
  (forall spec, impersonationProxy = Some spec ->
                jsonRoundTrip (v1alpha1.Annotations (v1alpha1.Service spec))) ->
  (forall ca hostnames ips, issuedCertificateContract ca hostnames ips) ->
  createdCALoads ->
  (forall endpoint, snd (endpointaddr_Parse endpoint 443) = None ->
                    Host (fst (endpointaddr_Parse endpoint 443)) <> "") ->
  generatedLoadBalancerServiceName (ctrl w0) <> generatedClusterIPServiceName (ctrl w0) ->
  tlsSecretName (ctrl w0) <> caSecretName (ctrl w0) ->
  informer w0 = apiserver w0 ->
  wellKeyed (informer w0) ->
  doSync impersonationProxy w0 = (inr strategy, w1) ->
  v1alpha1.Reason strategy <> v1alpha1.PendingStrategyReason
  \/ assignsNoAddressFor impersonationProxy ->
  mutatingCalls (snd (doSync impersonationProxy (resync w1))) = [].
Proof.
  intros Hhonest Hkeeps Hjson Hcontract Hloads Hhost Hsvcnames Hsecnames Hsync Hkeyed Hrun Hdone.
  destruct (doSync_settles impersonationProxy w0 w1 strategy Hhonest Hjson Hcontract Hloads
              Hhost Hsvcnames Hsecnames Hkeeps Hsync Hkeyed Hrun)
    as (config & b & Hload & Hsettled & Hpending).
  destruct (loadImpersonationProxyConfiguration_valid _ _ Hload) as [Hmode Hvalid].
  enough (Hquiet : quiet (resync w1) (snd (doSync impersonationProxy (resync w1)))).
  { destruct Hquiet as (_ & _ & ->). reflexivity. }
  pose proof Hsettled as Hsettled'.
  destruct Hsettled as [Hflag Hns Hlbn Hcipn Htlsn Hcan Hlabels Hlb Hcip Hsecrets].
  pose proof Hlb as Hlb'. pose proof Hcip as Hcip'.
  unfold doSync. rewrite Hload.
  unfold bind at 1. unfold gets at 1. cbn [fst snd resync ctrl]. rewrite Hflag.
  unfold bind at 1. unfold ret at 1.
  apply quiet_bind.
  { destruct (shouldHaveImpersonator b config);
      [apply ensureImpersonatorIsStarted_quiet|apply ensureImpersonatorIsStopped_quiet]. }
  intros [] wb Hserver.
  assert (Hwb : quiet (resync w1) wb).
  { destruct (shouldHaveImpersonator b config).
    - pose proof (ensureImpersonatorIsStarted_quiet (resync w1)) as Hq. by rewrite Hserver in Hq.
    - pose proof (ensureImpersonatorIsStopped_quiet true (resync w1)) as Hq. by rewrite Hserver in Hq. }
  clear Hserver. destruct Hwb as (Hstb & _ & _). apply static_inv in Hstb. cbn in Hstb.
  destruct Hstb as (Hnsb & Hlbnb & Hcipnb & Htlsnb & Hcanb & _ & Hlabelsb & _ & _ & Hinfb).
  (* the exposure Services are settled *)
  unfold bind at 1.
  rewrite (loadBalancer_step_quiet _ config
             (services (informer w0) !! generatedLoadBalancerServiceName (ctrl w0)) wb).
  2:{ rewrite (desiredLoadBalancer_static w0 wb) by congruence.
      rewrite Hinfb. by replace (generatedLoadBalancerServiceName (ctrl wb))
        with (generatedLoadBalancerServiceName (ctrl w0)) by congruence. }
  unfold bind at 1.
  rewrite (clusterIP_step_quiet _ config
             (services (informer w0) !! generatedClusterIPServiceName (ctrl w0)) wb).
  2:{ rewrite (desiredClusterIPService_static w0 wb) by congruence.
      rewrite Hinfb. by replace (generatedClusterIPServiceName (ctrl wb))
        with (generatedClusterIPServiceName (ctrl w0)) by congruence. }
  (* the resolved name *)
  unfold bind at 1. unfold catch. rewrite findDesiredTLSCertificateName_run. cbn [fst snd].
  assert (Htls0 : tlsSecretName (ctrl wb) = tlsSecretName (ctrl w0)) by congruence.
  assert (Hca0 : caSecretName (ctrl wb) = caSecretName (ctrl w0)) by congruence.
  destruct (shouldHaveTLSSecret b config) eqn:Hshould.
  - destruct Hsecrets as (nameInfo & ca & caSecret & Hresolved & Hcasecret & Hcaload & Htlssettled).
    assert (Hm : v1alpha1.Mode config <> v1alpha1.ImpersonationProxyModeDisabled).
    { intros Hm. unfold shouldHaveTLSSecret, shouldHaveImpersonator, enabledByAutoMode in Hshould.
      rewrite Hm in Hshould. discriminate. }
    destruct (Hvalid Hm) as (Htype & _ & Hnone).
    (* the first pass found the name ready, or the store assigned no address *)
    assert (Hready : (forall nameInfo, resolvedName config w0 = inr nameInfo -> ready nameInfo = true)
                     \/ (assignsNoIngress
                         /\ (v1alpha1.Type_ (v1alpha1.Service config)
                               = v1alpha1.ImpersonationProxyServiceTypeClusterIP ->
                             assignsNoClusterIP))).
    { destruct Hdone as [Hdone|[Hingress Hip]]; [left|right].
      - intros nameInfo' Hresolved'. destruct (ready nameInfo') eqn:Hr; [reflexivity|].
        exfalso. apply Hdone. exact (Hpending nameInfo' Hshould Hresolved' Hr).
      - split; [exact Hingress|]. intros Hcluster.
        destruct (loadImpersonationProxyConfiguration_clusterIP _ _ Hload Hcluster)
          as (spec & Hspec & Hspectype).
        by apply (Hip spec). }
    rewrite (resolvedName_settled config b w0 w1 wb Hsettled' Hshould Hready); try done;
      try congruence.
    rewrite Hresolved.
    apply quiet_bind; [|intros; apply doSync_tail_quiet].
    apply quiet_bind.
    { rewrite (ensureCASecretIsCreated_quiet wb caSecret) by (by rewrite Hinfb, Hca0).
      apply quiet_refl. }
    intros ca' wb'. rewrite (ensureCASecretIsCreated_quiet wb caSecret) by (by rewrite Hinfb, Hca0).
    rewrite Hcaload. intros [= <- <-].
    apply quiet_bind; [|intros; apply quiet_refl].
    apply ensureTLSSecret_quiet. by rewrite Hinfb, Htls0.
  - destruct (resolvedName config wb) as [err|nameInfo].
    + unfold bind, UnsetCertKeyContent, modify, fail. cbn [fst snd]. quiet_tac.
    + apply quiet_bind; [|intros; apply doSync_tail_quiet].
      apply quiet_bind; [|intros; apply quiet_refl].
      rewrite ensureTLSSecretIsRemoved_quiet by (by rewrite Hinfb, Htls0).
      apply quiet_refl.
Qed.

Lemma Ref_endpoint_host (endpoint : string) :
  snd (Ref.parseEndpoint endpoint 443) = None ->
  Host (fst (Ref.parseEndpoint endpoint 443)) <> "".
Proof.
  unfold Ref.parseEndpoint.
  destruct (Ref.splitOn ":" endpoint) as [|host [|port [|? ?]]]; try discriminate.
  - destruct (String.eqb_spec host ""); [discriminate|]. by intros _.
  - destruct (Ref.parseDecimal port); [|discriminate].
    destruct (String.eqb_spec host ""); [discriminate|]. by intros _.
Qed.

Lemma Ref_allocationKeepsWhatWasSent : @allocationKeepsWhatWasSent Ref.store.
Proof.
  intros svc. cbn [allocate Ref.store]. unfold Ref.assignClusterIP.
  by destruct (String.eqb _ _).
Qed.

Lemma doSync_second_pass_makes_no_mutating_call_witness :
  let w0 := Ref.withSigner in
  let firstPass := @doSync Ref.environment Ref.store (Some Ref.specEndpointClusterIP) w0 in
  informer w0 = apiserver w0
  /\ v1alpha1.Status <$> (match fst firstPass with inr s => Some s | inl _ => None end)
     = Some v1alpha1.SuccessStrategyStatus
  /\ length (mutatingCalls (snd firstPass)) = 3%nat
  /\ (fun svc => v1.ClusterIP (v1.Spec svc))
       <$> services (apiserver (snd firstPass)) !! "impersonation-proxy-cluster-ip"
     = Some "10.96.0.10"
  /\ mutatingCalls (snd (@doSync Ref.environment Ref.store (Some Ref.specEndpointClusterIP)
                           (resync (snd firstPass)))) = [].
Proof.
  intros w0 firstPass.
  split; [reflexivity|]. split; [vm_compute; reflexivity|]. split; [vm_compute; reflexivity|].
  split; [vm_compute; reflexivity|].
  destruct firstPass as [[err|strategy] w1] eqn:Hrun.
  { exfalso. assert (Hfst : fst firstPass = inl err) by (by rewrite Hrun).
    vm_compute in Hfst. discriminate. }
  cbn [snd].
  apply (@doSync_second_pass_makes_no_mutating_call Ref.environment Ref.store
           (Some Ref.specEndpointClusterIP) w0 w1 strategy).
  - intros call err Hfault. discriminate.
  - apply Ref_allocationKeepsWhatWasSent.
  - intros spec [= <-]. vm_compute. reflexivity.
  - apply Ref_issuedCertificateContract.
  - intros ca keyPEM [= <-] [= <-]. reflexivity.
  - apply Ref_endpoint_host.
  - vm_compute. discriminate.
  - vm_compute. discriminate.
  - reflexivity.
  - intros k svc Hget. vm_compute in Hget. discriminate.
  - exact Hrun.
  - left. assert (Hfst : fst firstPass = inr strategy) by (by rewrite Hrun).
    vm_compute in Hfst. injection Hfst as <-. discriminate.
Defined.

(** C8 as stated does not hold for every starting state: from a state in
    which the proxy server has crashed, the first pass only notices the
    crash and fails before it reaches the store, and the second pass, with
    nothing changed in between, creates the load balancer and the CA
    Secret. *)
Lemma doSync_second_pass_after_crash_mutates :
  let w0 := Ref.crashedServer in
  let config := Some (Ref.specOf v1alpha1.ImpersonationProxyModeEnabled
                                 v1alpha1.ImpersonationProxyServiceTypeLoadBalancer) in
  let firstPass := @doSync Ref.environment Ref.store config w0 in
  let secondPass := @doSync Ref.environment Ref.store config (resync (snd firstPass)) in
  informer w0 = apiserver w0
  /\ mutatingCalls (snd firstPass) = []
  /\ apiserver (snd firstPass) = apiserver w0
  /\ length (mutatingCalls (snd secondPass)) = 2%nat
  /\ mutatingCalls (snd secondPass) <> [].
Proof.
  intros w0 config firstPass secondPass.
  assert (Hcalls : length (mutatingCalls (snd secondPass)) = 2%nat) by (vm_compute; reflexivity).
  split; [reflexivity|]. split; [vm_compute; reflexivity|]. split; [vm_compute; reflexivity|].
  split; [exact Hcalls|].
  intros Hnone. rewrite Hnone in Hcalls. discriminate.
Qed.

(** Why a pass that ends pending is set apart in C8: with a store that
    assigns the cluster IP on create, the first pass creates the
    cluster-IP Service and the CA Secret, finds no address in its cache
    and ends pending, without error; the second pass, with nothing changed
    in between, reads the assigned address and creates the TLS Secret. *)
Lemma doSync_second_pass_after_allocation_mutates :
  let w0 := Ref.withSigner in
  let config := Some (Ref.specOf v1alpha1.ImpersonationProxyModeEnabled
                                 v1alpha1.ImpersonationProxyServiceTypeClusterIP) in
  let firstPass := @doSync Ref.environment Ref.store config w0 in
  let secondPass := @doSync Ref.environment Ref.store config (resync (snd firstPass)) in
  informer w0 = apiserver w0
  /\ v1alpha1.Reason <$> (match fst firstPass with inr s => Some s | inl _ => None end)
     = Some v1alpha1.PendingStrategyReason
  /\ length (mutatingCalls (snd firstPass)) = 2%nat
  /\ mutatingCalls (snd secondPass)
     = [SecretsCreate (Ref.tlsSecretFor [] [net.IPv4 x0a x60 x00 x0a])]
  /\ v1alpha1.Status <$> (match fst secondPass with inr s => Some s | inl _ => None end)
     = Some v1alpha1.SuccessStrategyStatus.
Proof.
  intros w0 config firstPass secondPass.
  split; [reflexivity|]. split; [vm_compute; reflexivity|]. split; [vm_compute; reflexivity|].
  split; vm_compute; reflexivity.
Qed.

(** The reference store assigns cluster IPs and no ingress.  Under a
    specification that asks for a load balancer it therefore assigns no
    address that the resolver would read, and the pass that creates the
    load balancer and ends pending is followed by a pass that makes no
    call. *)
Lemma Ref_pending_load_balancer_is_stable :
  let w0 := Ref.withSigner in
  let config := Some (Ref.specOf v1alpha1.ImpersonationProxyModeEnabled
                                 v1alpha1.ImpersonationProxyServiceTypeLoadBalancer) in
  let firstPass := @doSync Ref.environment Ref.store config w0 in
  let secondPass := @doSync Ref.environment Ref.store config (resync (snd firstPass)) in
  @assignsNoAddressFor Ref.store config
  /\ v1alpha1.Reason <$> (match fst firstPass with inr s => Some s | inl _ => None end)
     = Some v1alpha1.PendingStrategyReason
  /\ length (mutatingCalls (snd firstPass)) = 2%nat
  /\ mutatingCalls (snd secondPass) = [].
Proof.
  intros w0 config firstPass secondPass. split.
  - split.
    + intros svc. cbn [allocate Ref.store]. unfold Ref.assignClusterIP.
      by destruct (String.eqb _ _).
    + intros spec [= <-] Htype. discriminate.
  - split; [vm_compute; reflexivity|]. split; vm_compute; reflexivity.
Qed.

(** * Further properties *)

(** ** Loading the specification *)

(** X1: a specification that loads is well formed.  Its mode is one of
    disabled, enabled and auto; and unless it is disabled, its service type
    is one of LoadBalancer, ClusterIP and None, a load-balancer IP, when
    given, is a valid IP, an external endpoint, when given, parses, and the
    service type None comes with an external endpoint. *)
Theorem loaded_specification_is_well_formed `{Environment}
    (impersonationProxy : option v1alpha1.ImpersonationProxySpec)
    (spec : v1alpha1.ImpersonationProxySpec) :
  loadImpersonationProxyConfiguration impersonationProxy = inr spec ->
  (v1alpha1.Mode spec = v1alpha1.ImpersonationProxyModeDisabled
   \/ v1alpha1.Mode spec = v1alpha1.ImpersonationProxyModeEnabled
   \/ v1alpha1.Mode spec = v1alpha1.ImpersonationProxyModeAuto)
  /\ (v1alpha1.Mode spec <> v1alpha1.ImpersonationProxyModeDisabled ->
      (v1alpha1.Type_ (v1alpha1.Service spec) = v1alpha1.ImpersonationProxyServiceTypeLoadBalancer
       \/ v1alpha1.Type_ (v1alpha1.Service spec) = v1alpha1.ImpersonationProxyServiceTypeClusterIP
       \/ v1alpha1.Type_ (v1alpha1.Service spec) = v1alpha1.ImpersonationProxyServiceTypeNone)
      /\ (v1alpha1.LoadBalancerIP (v1alpha1.Service spec) <> "" ->
          IsValidIP (v1alpha1.LoadBalancerIP (v1alpha1.Service spec)) = true)
      /\ (v1alpha1.ExternalEndpoint spec <> "" ->
          snd (endpointaddr_Parse (v1alpha1.ExternalEndpoint spec) 443) = None)
      /\ (v1alpha1.Type_ (v1alpha1.Service spec) = v1alpha1.ImpersonationProxyServiceTypeNone ->
          v1alpha1.ExternalEndpoint spec <> "")).
Proof.
  intros Hload.
  destruct (loadImpersonationProxyConfiguration_valid _ _ Hload) as [Hmode Hrest].
  split; [exact Hmode|]. intros Hm. destruct (Hrest Hm) as (Htype & Hparse & Hnone).
  split; [exact Htype|]. split; [|by split].
  intros Hip. revert Hload. unfold loadImpersonationProxyConfiguration.
  destruct impersonationProxy as [spec0|]; [|discriminate].
  set (spec1 := if bool_decide _ then _ else spec0).
  destruct (validateCredentialIssuerSpec spec1) as [err|] eqn:Hv; [discriminate|].
  intros [= <-]. revert Hv. unfold validateCredentialIssuerSpec.
  destruct (v1alpha1.Mode spec1); try done;
    destruct (v1alpha1.Type_ (v1alpha1.Service spec1)); try done;
    destruct (String.eqb_spec (v1alpha1.LoadBalancerIP (v1alpha1.Service spec1)) ""); try done;
    destruct (IsValidIP _); done.
Qed.

Lemma loaded_specification_is_well_formed_witness :
  @loadImpersonationProxyConfiguration Ref.environment (Some Ref.specEndpoint) = inr Ref.specEndpoint
  /\ snd (@endpointaddr_Parse Ref.environment (v1alpha1.ExternalEndpoint Ref.specEndpoint) 443) = None.
Proof.
  assert (Hload : @loadImpersonationProxyConfiguration Ref.environment (Some Ref.specEndpoint)
                  = inr Ref.specEndpoint) by (vm_compute; reflexivity).
  split; [exact Hload|].
  destruct (@loaded_specification_is_well_formed Ref.environment _ _ Hload) as (_ & Hrest).
  destruct Hrest as (_ & _ & Hparse & _); [discriminate|].
  apply Hparse. discriminate.
Defined.

(** X2: loading changes nothing but an empty service type, which becomes
    LoadBalancer; a nil specification does not load; and a disabled
    specification loads whatever its other fields hold. *)
Theorem loading_defaults_the_service_type `{Environment} (spec0 : v1alpha1.ImpersonationProxySpec) :
  loadImpersonationProxyConfiguration None
    = inl (errorString "could not load CredentialIssuer: spec.impersonationProxy is nil")
  /\ (forall spec,
        loadImpersonationProxyConfiguration (Some spec0) = inr spec ->
        v1alpha1.Mode spec = v1alpha1.Mode spec0
        /\ v1alpha1.ExternalEndpoint spec = v1alpha1.ExternalEndpoint spec0
        /\ v1alpha1.LoadBalancerIP (v1alpha1.Service spec) = v1alpha1.LoadBalancerIP (v1alpha1.Service spec0)
        /\ v1alpha1.Annotations (v1alpha1.Service spec) = v1alpha1.Annotations (v1alpha1.Service spec0)
        /\ v1alpha1.Type_ (v1alpha1.Service spec)
           = (if bool_decide (v1alpha1.Type_ (v1alpha1.Service spec0)
                              = v1alpha1.ImpersonationProxyServiceTypeUnset)
              then v1alpha1.ImpersonationProxyServiceTypeLoadBalancer
              else v1alpha1.Type_ (v1alpha1.Service spec0)))
  /\ (v1alpha1.Mode spec0 = v1alpha1.ImpersonationProxyModeDisabled ->
      exists spec, loadImpersonationProxyConfiguration (Some spec0) = inr spec).
Proof.
  split; [reflexivity|]. unfold loadImpersonationProxyConfiguration. split.
  - intros spec.
    destruct (bool_decide _) eqn:Hunset;
      destruct (validateCredentialIssuerSpec _); try discriminate; by intros [= <-].
  - intros Hdisabled. unfold validateCredentialIssuerSpec.
    destruct (bool_decide _); cbn [v1alpha1.Mode]; rewrite Hdisabled; eauto.
Qed.

(** ** Status composer, continued *)

(** X3: the status composer agrees with the desired state.  For a
    specification that loaded, called with a CA exactly when the pass wants
    a TLS Secret (which is how [doSync] calls it), [doSyncResult] returns a
    strategy and never dereferences a nil CA; the reason is Disabled exactly
    when the pass did not want the impersonator, the status is Success
    exactly when the impersonator is wanted and the name is ready, a
    frontend is present exactly for Success, and the time is the one
    given. *)
Theorem doSyncResult_agrees_with_desired_state `{Environment}
    (impersonationProxy : option v1alpha1.ImpersonationProxySpec)
    (config : v1alpha1.ImpersonationProxySpec) (b : bool) (now : Z) (nameInfo : certNameInfo)
    (ca : CA) :
  loadImpersonationProxyConfiguration impersonationProxy = inr config ->
  exists strategy,
    doSyncResult b now nameInfo config (if shouldHaveTLSSecret b config then Some ca else None)
    = inr strategy
    /\ (v1alpha1.Reason strategy = v1alpha1.DisabledStrategyReason
        <-> shouldHaveImpersonator b config = false)
    /\ (v1alpha1.Status strategy = v1alpha1.SuccessStrategyStatus
        <-> shouldHaveImpersonator b config = true /\ ready nameInfo = true)
    /\ (is_Some (v1alpha1.Frontend strategy)
        <-> v1alpha1.Status strategy = v1alpha1.SuccessStrategyStatus)
    /\ v1alpha1.LastUpdateTime strategy = now.
Proof.
  intros Hload.
  destruct (loadImpersonationProxyConfiguration_valid _ _ Hload) as [Hmode _].
  unfold doSyncResult, disabledExplicitly, disabledByAutoMode, shouldHaveTLSSecret,
    shouldHaveImpersonator, enabledByAutoMode.
  destruct Hmode as [Hm|[Hm|Hm]]; rewrite Hm; clear Hm;
    destruct b, (ready nameInfo); cbn; eexists; (split; [reflexivity|]); cbn;
    split_and!; try done; try (split; [done|by intros [? ?]]);
    try (split; [by intros [? ?]|done]); try (split; [by intros [_ ?]|done]).
Qed.

Lemma doSyncResult_agrees_with_desired_state_witness :
  let config := Ref.specOf v1alpha1.ImpersonationProxyModeAuto
                           v1alpha1.ImpersonationProxyServiceTypeLoadBalancer in
  @loadImpersonationProxyConfiguration Ref.environment (Some config) = inr config
  /\ exists strategy,
       @doSyncResult Ref.environment true 0 certNameInfo_notReady config None = inr strategy
       /\ v1alpha1.Reason strategy = v1alpha1.DisabledStrategyReason.
Proof.
  intros config.
  assert (Hload : @loadImpersonationProxyConfiguration Ref.environment (Some config) = inr config)
    by (vm_compute; reflexivity).
  split; [exact Hload|].
  destruct (@doSyncResult_agrees_with_desired_state Ref.environment (Some config) config true 0
              certNameInfo_notReady Ref.theCA Hload) as (strategy & Hrun & Hreason & _).
  exists strategy. split; [exact Hrun|]. by apply Hreason.
Defined.

(** ** Running a method step by step *)

Lemma bind_gets {A B} (f : world -> A) (k : A -> M B) (w : world) :
  bind (gets f) k w = k (f w) w.
Proof. reflexivity. Qed.

Lemma bind_modify {B} (f : world -> world) (k : unit -> M B) (w : world) :
  bind (modify f) k w = k tt (f w).
Proof. reflexivity. Qed.

Lemma bind_ret {A B} (a : A) (k : A -> M B) (w : world) : bind (ret a) k w = k a w.
Proof. reflexivity. Qed.

Lemma bind_fail {A B} (err : error) (k : A -> M B) (w : world) :
  bind (fail err) k w = (inl err, w).
Proof. reflexivity. Qed.

Lemma bind_catch {A B} (m : M A) (k : error + A -> M B) (w : world) :
  bind (catch m) k w = k (fst (m w)) (snd (m w)).
Proof. reflexivity. Qed.

Lemma bind_assoc {A B C} (m : M A) (k : A -> M B) (k' : B -> M C) (w : world) :
  bind (bind m k) k' w = bind m (fun a => bind (k a) k') w.
Proof. unfold bind. by destruct (m w) as [[err|a] w1]. Qed.

(** A relation between worlds that is reflexive and transitive holds
    across a sequence when it holds across its parts. *)
Lemma bind_respects (R : relation world) `{!PreOrder R} {A B} (m : M A) (k : A -> M B) (w : world) :
  R w (snd (m w)) ->
  (forall a w1, m w = (inr a, w1) -> R w1 (snd (k a w1))) ->
  R w (snd (bind m k w)).
Proof.
  intros Hm Hk. unfold bind. destruct (m w) as [[err|a] w1] eqn:Hrun; cbn in *; [exact Hm|].
  etrans; [exact Hm|]. by apply Hk.
Qed.

Lemma ServicesListerGet_snd (name : string) (w : world) : snd (ServicesListerGet name w) = w.
Proof. unfold ServicesListerGet. by destruct (_ !! _). Qed.

Lemma SecretsListerGet_snd (name : string) (w : world) : snd (SecretsListerGet name w) = w.
Proof. unfold SecretsListerGet. by destruct (_ !! _). Qed.

Lemma serviceExists_run (name : string) (w : world) :
  serviceExists name w = (inr (bool_decide (is_Some (services (informer w) !! name))), w).
Proof.
  unfold serviceExists. rewrite bind_catch. unfold ServicesListerGet.
  by destruct (services (informer w) !! name) as [svc|].
Qed.

Lemma tlsSecretExists_run (w : world) :
  tlsSecretExists w
  = (inr (bool_decide (is_Some (secrets (informer w) !! tlsSecretName (ctrl w))),
          secrets (informer w) !! tlsSecretName (ctrl w)), w).
Proof.
  unfold tlsSecretExists. rewrite bind_gets, bind_catch. unfold SecretsListerGet.
  by destruct (secrets (informer w) !! tlsSecretName (ctrl w)) as [secret|].
Qed.

(** ** What every method respects *)

Lemma ownCall_configuration (c c' : impersonatorConfigController) (e : event) :
  configuration c' = configuration c -> ownCall c e -> ownCall c' e.
Proof.
  unfold configuration. intros Hc. simplify_eq.
  destruct e; cbn; intros; intuition congruence.
Qed.

#[local] Instance respected_preorder : PreOrder respected.
Proof.
  split.
  - intros w. repeat split; auto. exists []. split; [by rewrite app_nil_r|]. by constructor.
  - intros w1 w2 w3 (Hc1 & Hi1 & Hf1 & Ho1 & calls1 & He1 & Hown1)
                    (Hc2 & Hi2 & Hf2 & Ho2 & calls2 & He2 & Hown2).
    split; [congruence|]. split; [congruence|]. split; [auto|]. split; [auto|].
    exists (calls1 ++ calls2). split; [by rewrite He2, He1, app_assoc|].
    intros Hkeyed. apply Forall_app. split; [auto|].
    assert (Hkeyed2 : wellKeyed (informer w2)) by (by rewrite Hi1).
    eapply Forall_impl; [exact (Hown2 Hkeyed2)|].
    intros e. by apply ownCall_configuration.
Qed.

Lemma respected_log (e : event) (w : world) :
  (wellKeyed (informer w) -> ownCall (ctrl w) e) -> respected w (log e w).
Proof.
  intros Hown. repeat split; auto. exists [e]. split; [done|].
  intros Hkeyed. constructor; [auto|constructor].
Qed.

Lemma respected_set_apiserver (f : cluster -> cluster) (w : world) :
  respected w (set_apiserver f w).
Proof.
  repeat split; auto. exists []. split; [by rewrite app_nil_r|]. by constructor.
Qed.

Lemma respected_set_tlsServingCert (content : option (bytes * bytes)) (w : world) :
  respected w (set_ctrl (set_tlsServingCert content) w).
Proof.
  repeat split; auto. exists []. split; [cbn; by rewrite app_nil_r|]. by constructor.
Qed.

Lemma respected_set_signingCert (content : option (bytes * bytes)) (w : world) :
  respected w (set_ctrl (set_signingCert content) w).
Proof.
  repeat split; auto. exists []. split; [cbn; by rewrite app_nil_r|]. by constructor.
Qed.

Lemma respected_set_hasControlPlaneNodes (b : bool) (w : world) :
  hasControlPlaneNodes (ctrl w) = None ->
  respected w (set_ctrl (set_hasControlPlaneNodes (Some b)) w).
Proof.
  intros Hnone. repeat split; auto.
  - intros b'. rewrite Hnone. discriminate.
  - exists []. split; [cbn; by rewrite app_nil_r|]. by constructor.
Qed.

Lemma respected_ServicesClientCreate `{APIServer} (svc : v1.Service) (w : world) :
  (wellKeyed (informer w) -> ownCall (ctrl w) (ServicesCreate svc)) ->
  respected w (snd (ServicesClientCreate svc w)).
Proof.
  intros Hown. unfold ServicesClientCreate.
  destruct (apiFault _); [by apply respected_log|].
  destruct (_ !! _); cbn [snd]; [by apply respected_log|].
  etrans; [by apply respected_log|]. apply respected_set_apiserver.
Qed.

Lemma respected_ServicesClientUpdate `{APIServer} (svc : v1.Service) (w : world) :
  (wellKeyed (informer w) -> ownCall (ctrl w) (ServicesUpdate svc)) ->
  respected w (snd (ServicesClientUpdate svc w)).
Proof.
  intros Hown. unfold ServicesClientUpdate.
  destruct (apiFault _); [by apply respected_log|].
  destruct (_ !! _); cbn [snd]; [|by apply respected_log].
  etrans; [by apply respected_log|]. apply respected_set_apiserver.
Qed.

Lemma respected_ServicesClientDelete `{APIServer} (name : string) (w : world) :
  (wellKeyed (informer w) -> ownCall (ctrl w) (ServicesDelete name)) ->
  respected w (snd (ServicesClientDelete name w)).
Proof.
  intros Hown. unfold ServicesClientDelete.
  destruct (apiFault _); [by apply respected_log|].
  destruct (_ !! _); cbn [snd]; [|by apply respected_log].
  etrans; [by apply respected_log|]. apply respected_set_apiserver.
Qed.

Lemma respected_SecretsClientCreate `{APIServer} (secret : v1.Secret) (w : world) :
  (wellKeyed (informer w) -> ownCall (ctrl w) (SecretsCreate secret)) ->
  respected w (snd (SecretsClientCreate secret w)).
Proof.
  intros Hown. unfold SecretsClientCreate.
  destruct (apiFault _); [by apply respected_log|].
  destruct (_ !! _); cbn [snd]; [by apply respected_log|].
  etrans; [by apply respected_log|]. apply respected_set_apiserver.
Qed.

Lemma respected_SecretsClientDelete `{APIServer} (name : string) (w : world) :
  (wellKeyed (informer w) -> ownCall (ctrl w) (SecretsDelete name)) ->
  respected w (snd (SecretsClientDelete name w)).
Proof.
  intros Hown. unfold SecretsClientDelete.
  destruct (apiFault _); [by apply respected_log|].
  destruct (_ !! _); cbn [snd]; [|by apply respected_log].
  etrans; [by apply respected_log|]. apply respected_set_apiserver.
Qed.

Lemma returnErr_snd (err : option error) (w : world) : snd (returnErr err w) = w.
Proof. by destruct err. Qed.

Lemma respected_set_server (h : option serverHandle) (w : world) :
  (forall h', h = Some h' -> errorChClosed h' = false) ->
  respected w (set_ctrl (set_server h) w).
Proof.
  intros Hopen. unfold respected. split_and!.
  - done.
  - done.
  - auto.
  - intros _ h' Hh'. cbn in Hh'. auto.
  - exists []. split; [cbn; by rewrite app_nil_r|]. by constructor.
Qed.

(** A world that differs from [w] in the server handle, which is dropped
    or open, and in channel operations added to the record of calls. *)
Lemma respected_server_step (w w' : world) (ops : list event) :
  ctrl w' = set_server (server (ctrl w')) (ctrl w) ->
  informer w' = informer w ->
  (forall h, server (ctrl w') = Some h -> errorChClosed h = false) ->
  events w' = events w ++ ops ->
  Forall (fun e => isMutatingCall e = false) ops ->
  respected w w'.
Proof.
  intros Hctrl Hinformer Hopen Hevents Hops. unfold respected.
  split_and!.
  - by rewrite Hctrl.
  - done.
  - rewrite Hctrl. cbn. auto.
  - intros _ h Hh. auto.
  - exists ops. split; [done|].
    intros _. eapply Forall_impl; [exact Hops|]. by intros [].
Qed.

Ltac server_step ops :=
  apply (respected_server_step _ _ ops);
  [ done | done | cbn; by (intros ? [=]; subst) | cbn; by rewrite <- ?app_assoc | by repeat constructor ].

Lemma respected_ensureImpersonatorIsStopped (shouldCloseErrChan : bool) (w : world) :
  respected w (snd (ensureImpersonatorIsStopped shouldCloseErrChan w)).
Proof.
  unfold ensureImpersonatorIsStopped. rewrite bind_gets.
  destruct (server (ctrl w)) as [h|] eqn:Hserver; [|reflexivity].
  rewrite bind_modify.
  destruct shouldCloseErrChan; [destruct (errorChClosed h) eqn:Hclosed|].
  - rewrite bind_fail. by apply respected_log.
  - rewrite !bind_modify, returnErr_snd.
    server_step [closeServerStopCh; closeErrorCh].
  - rewrite bind_ret, bind_modify, returnErr_snd.
    server_step [closeServerStopCh].
Qed.

Lemma respected_ensureImpersonatorIsStarted `{Environment} (w : world) :
  respected w (snd (ensureImpersonatorIsStarted w)).
Proof.
  unfold ensureImpersonatorIsStarted. rewrite bind_gets.
  destruct (server (ctrl w)) as [[buf closed exit]|] eqn:Hserver; cbn [errorChBuf errorChClosed exitOnStop].
  - destruct buf as [runningErr|]; [|destruct closed; reflexivity].
    destruct closed.
    + rewrite bind_fail. reflexivity.
    + rewrite !bind_modify, bind_catch, returnErr_snd.
      server_step [closeErrorCh; closeServerStopCh].
  - destruct (impersonatorFunc impersonationProxyPort) as [err|startImpersonatorFunc]; [reflexivity|].
    rewrite bind_modify.
    server_step [goStartImpersonator impersonationProxyPort].
Qed.

Lemma bind_run {A B} (m : M A) (k : A -> M B) (w w1 : world) (a : A) :
  m w = (inr a, w1) -> bind m k w = k a w1.
Proof. intros Hrun. unfold bind. by rewrite Hrun. Qed.

Lemma catch_snd {A} (m : M A) (w : world) : snd (catch m w) = snd (m w).
Proof. reflexivity. Qed.

Ltac respected_bind := apply (bind_respects respected); [|intros ? ? _].

Lemma respected_createOrUpdateService `{Environment} `{APIServer} (desiredService : v1.Service)
    (w : world) :
  v1.Name (v1.Meta desiredService) = generatedLoadBalancerServiceName (ctrl w)
  \/ v1.Name (v1.Meta desiredService) = generatedClusterIPServiceName (ctrl w) ->
  respected w (snd (createOrUpdateService desiredService w)).
Proof.
  intros Hname. unfold createOrUpdateService. cbv zeta. rewrite bind_catch.
  destruct (withBookkeepingAnnotation_frame desiredService) as (Hbook & _ & _). rewrite Hbook.
  unfold ServicesListerGet.
  destruct (services (informer w) !! v1.Name (v1.Meta desiredService)) as [existingService|] eqn:Hget;
    cbn [fst snd IsNotFound].
  - destruct (bool_decide _); [reflexivity|]. respected_bind; [|reflexivity].
    apply respected_ServicesClientUpdate. intros Hkeyed. cbn. by rewrite (Hkeyed _ _ Hget).
  - respected_bind; [|reflexivity].
    apply respected_ServicesClientCreate. intros _. cbn. by rewrite Hbook.
Qed.

Lemma respected_ensureLoadBalancerIsStarted `{Environment} `{APIServer}
    (config : v1alpha1.ImpersonationProxySpec) (w : world) :
  respected w (snd (ensureLoadBalancerIsStarted config w)).
Proof. rewrite ensureLoadBalancerIsStarted_run. apply respected_createOrUpdateService. by left. Qed.

Lemma respected_ensureClusterIPServiceIsStarted `{Environment} `{APIServer}
    (config : v1alpha1.ImpersonationProxySpec) (w : world) :
  respected w (snd (ensureClusterIPServiceIsStarted config w)).
Proof. rewrite ensureClusterIPServiceIsStarted_run. apply respected_createOrUpdateService. by right. Qed.

Lemma respected_ensureLoadBalancerIsStopped `{APIServer} (w : world) :
  respected w (snd (ensureLoadBalancerIsStopped w)).
Proof.
  unfold ensureLoadBalancerIsStopped. rewrite bind_gets, (bind_run _ _ _ _ _ (serviceExists_run _ _)).
  destruct (bool_decide _); [|reflexivity]. cbn [negb].
  rewrite bind_catch, returnErr_snd. apply respected_ServicesClientDelete. intros _. by left.
Qed.

Lemma respected_ensureClusterIPServiceIsStopped `{APIServer} (w : world) :
  respected w (snd (ensureClusterIPServiceIsStopped w)).
Proof.
  unfold ensureClusterIPServiceIsStopped. rewrite bind_gets, (bind_run _ _ _ _ _ (serviceExists_run _ _)).
  destruct (bool_decide _); [|reflexivity]. cbn [negb].
  rewrite bind_catch, returnErr_snd. apply respected_ServicesClientDelete. intros _. by right.
Qed.

Lemma respected_UnsetCertKeyContent (w : world) : respected w (snd (UnsetCertKeyContent w)).
Proof. apply respected_set_tlsServingCert. Qed.

Lemma respected_ensureTLSSecretIsRemoved `{APIServer} (w : world) :
  respected w (snd (ensureTLSSecretIsRemoved w)).
Proof.
  unfold ensureTLSSecretIsRemoved. rewrite (bind_run _ _ _ _ _ (tlsSecretExists_run _)).
  destruct (bool_decide _); [|reflexivity]. cbn [negb]. rewrite bind_gets.
  respected_bind.
  - rewrite catch_snd. by apply respected_SecretsClientDelete.
  - destruct a as [err|[]]; [by destruct (IsNotFound _)|]. apply respected_UnsetCertKeyContent.
Qed.

Lemma respected_deleteTLSSecret `{Environment} `{APIServer} (nameInfo : certNameInfo) (ca : CA)
    (secret : v1.Secret) (w : world) :
  respected w (snd (deleteTLSSecretWhenCertificateDoesNotMatchDesiredState nameInfo ca secret w)).
Proof.
  rewrite deleteTLSSecret_by_first_failure.
  destruct (firstFailingCheck nameInfo ca secret); [|reflexivity].
  apply respected_ensureTLSSecretIsRemoved.
Qed.

Lemma respected_loadTLSCertFromSecret `{Environment} (tlsSecret : v1.Secret) (w : world) :
  respected w (snd (loadTLSCertFromSecret tlsSecret w)).
Proof.
  unfold loadTLSCertFromSecret.
  destruct (SetCertKeyContent_error _ _); apply respected_set_tlsServingCert.
Qed.

Lemma respected_createNewTLSSecret `{Environment} `{APIServer} (ca : CA) (ips : list net.IP)
    (hostname : string) (w : world) :
  respected w (snd (createNewTLSSecret ca ips hostname w)).
Proof.
  unfold createNewTLSSecret.
  destruct (CA_IssueServerCert _ _ _ _) as [err|impersonationCert]; [reflexivity|].
  destruct (certauthority_ToPEM _) as [err|[certPEM keyPEM]]; [reflexivity|].
  rewrite bind_gets. apply respected_SecretsClientCreate. intros _. by left.
Qed.

Lemma respected_ensureTLSSecretIsCreatedAndLoaded `{Environment} `{APIServer}
    (nameInfo : certNameInfo) (secret : option v1.Secret) (ca : CA) (w : world) :
  respected w (snd (ensureTLSSecretIsCreatedAndLoaded nameInfo secret ca w)).
Proof.
  unfold ensureTLSSecretIsCreatedAndLoaded.
  destruct secret as [secret|]; [apply respected_loadTLSCertFromSecret|].
  destruct (ready nameInfo); [|reflexivity]. cbn [negb].
  respected_bind; [apply respected_createNewTLSSecret|apply respected_loadTLSCertFromSecret].
Qed.

Lemma respected_ensureTLSSecret `{Environment} `{APIServer} (nameInfo : certNameInfo) (ca : CA)
    (w : world) :
  respected w (snd (ensureTLSSecret nameInfo ca w)).
Proof.
  unfold ensureTLSSecret. rewrite bind_gets, bind_catch. unfold SecretsListerGet.
  destruct (secrets (informer w) !! tlsSecretName (ctrl w)) as [secretFromInformer|];
    cbn [fst snd IsNotFound negb].
  - respected_bind; [apply respected_deleteTLSSecret|].
    apply respected_ensureTLSSecretIsCreatedAndLoaded.
  - apply respected_ensureTLSSecretIsCreatedAndLoaded.
Qed.

Lemma respected_createCASecret `{Environment} `{APIServer} (w : world) :
  respected w (snd (createCASecret w)).
Proof.
  unfold createCASecret.
  destruct (certauthority_New _ _) as [err|impersonationCA]; [reflexivity|].
  destruct (CA_PrivateKeyToPEM _) as [err|caPrivateKeyPEM]; [reflexivity|].
  rewrite bind_gets. respected_bind; [|reflexivity].
  apply respected_SecretsClientCreate. intros _. by right.
Qed.

Lemma respected_ensureCASecretIsCreated `{Environment} `{APIServer} (w : world) :
  respected w (snd (ensureCASecretIsCreated w)).
Proof.
  unfold ensureCASecretIsCreated. rewrite bind_gets, bind_catch. unfold SecretsListerGet.
  destruct (secrets (informer w) !! caSecretName (ctrl w)) as [caSecret|];
    cbn [fst snd IsNotFound negb].
  - by destruct (certauthority_Load _ _).
  - apply respected_createCASecret.
Qed.

Lemma respected_loadSignerCA `{Environment} (status : v1alpha1.StrategyStatus) (w : world) :
  respected w (snd (loadSignerCA status w)).
Proof.
  unfold loadSignerCA. destruct (bool_decide _); cbn [negb]; [|apply respected_set_signingCert].
  rewrite bind_gets, bind_catch. unfold SecretsListerGet.
  destruct (secrets (informer w) !! _) as [signingCertSecret|]; cbn [fst snd]; [|reflexivity].
  destruct (SetCertKeyContent_error _ _); [reflexivity|apply respected_set_signingCert].
Qed.

Lemma respected_findDesiredTLSCertificateName `{Environment}
    (config : v1alpha1.ImpersonationProxySpec) (w : world) :
  snd (findDesiredTLSCertificateName config w) = w.
Proof. by rewrite findDesiredTLSCertificateName_run. Qed.

Lemma respected_doSync `{Environment} `{APIServer}
    (impersonationProxy : option v1alpha1.ImpersonationProxySpec) (w : world) :
  respected w (snd (doSync impersonationProxy w)).
Proof.
  unfold doSync.
  destruct (loadImpersonationProxyConfiguration impersonationProxy) as [err|impersonationSpec];
    [reflexivity|].
  rewrite bind_gets. respected_bind.
  { destruct (hasControlPlaneNodes (ctrl w)) eqn:Hcached; [reflexivity|].
    destruct HasControlPlaneNodes as [err|b]; [reflexivity|].
    exact (respected_set_hasControlPlaneNodes b w Hcached). }
  respected_bind.
  { destruct (shouldHaveImpersonator _ _);
      [apply respected_ensureImpersonatorIsStarted|apply respected_ensureImpersonatorIsStopped]. }
  respected_bind.
  { destruct (shouldHaveLoadBalancer _ _);
      [apply respected_ensureLoadBalancerIsStarted|apply respected_ensureLoadBalancerIsStopped]. }
  respected_bind.
  { destruct (shouldHaveClusterIPService _ _);
      [apply respected_ensureClusterIPServiceIsStarted|apply respected_ensureClusterIPServiceIsStopped]. }
  rewrite bind_catch, respected_findDesiredTLSCertificateName.
  destruct (fst (findDesiredTLSCertificateName impersonationSpec w3)) as [err|nameInfo].
  { exact (respected_set_tlsServingCert None _). }
  respected_bind.
  { destruct (shouldHaveTLSSecret _ _).
    - respected_bind; [apply respected_ensureCASecretIsCreated|].
      respected_bind; [apply respected_ensureTLSSecret|reflexivity].
    - respected_bind; [apply respected_ensureTLSSecretIsRemoved|reflexivity]. }
  rewrite bind_gets.
  destruct (doSyncResult _ _ _ _ _) as [err|credentialIssuerStrategyResult]; [reflexivity|].
  respected_bind; [apply respected_loadSignerCA|reflexivity].
Qed.

Lemma respected_strategyOfPass `{Environment} `{APIServer} `{Reporting}
    (impersonationProxy : option v1alpha1.ImpersonationProxySpec) (w : world) :
  respected w (snd (strategyOfPass impersonationProxy w)).
Proof.
  unfold strategyOfPass. rewrite bind_catch.
  destruct (fst (doSync impersonationProxy w)) as [err|strategy]; cbn [snd ret].
  - etrans; [apply respected_doSync|]. exact (respected_set_signingCert None _).
  - apply respected_doSync.
Qed.

Lemma respected_Sync `{Environment} `{APIServer} `{Reporting}
    (credIssuer : error + option v1alpha1.ImpersonationProxySpec) (w : world) :
  respected w (snd (Sync credIssuer w)).
Proof.
  unfold Sync. destruct credIssuer as [err|impersonationProxy]; [reflexivity|].
  respected_bind; [apply respected_strategyOfPass|].
  destruct a as [err strategy]. by rewrite returnErr_snd.
Qed.

(** ** A frame rule for the steps that follow the server step

    The Service and Secret steps of a pass act on the world only by
    recording a call, changing the store, and setting one of the two
    certificate providers.  A reflexive and transitive relation that holds
    across these four holds across every such step; [P] says which calls
    the relation admits. *)
Section Frame.

Context `{Environment} `{APIServer}.
Variable R : relation world.
Variable P : event -> Prop.
Context `{!PreOrder R}.
Hypothesis R_log : forall e w, P e -> R w (log e w).
Hypothesis R_apiserver : forall f w, R w (set_apiserver f w).
Hypothesis R_tlsServingCert : forall content w, R w (set_ctrl (set_tlsServingCert content) w).
Hypothesis R_signingCert : forall content w, R w (set_ctrl (set_signingCert content) w).

Ltac frame_bind := apply (bind_respects R); [|intros ? ? _].

Lemma frame_ServicesClientCreate (svc : v1.Service) (w : world) :
  P (ServicesCreate svc) -> R w (snd (ServicesClientCreate svc w)).
Proof.
  intros HP. unfold ServicesClientCreate.
  destruct (apiFault _); [by apply R_log|].
  destruct (_ !! _); cbn [snd]; [by apply R_log|].
  etrans; [by apply R_log|]. apply R_apiserver.
Qed.

Lemma frame_ServicesClientUpdate (svc : v1.Service) (w : world) :
  P (ServicesUpdate svc) -> R w (snd (ServicesClientUpdate svc w)).
Proof.
  intros HP. unfold ServicesClientUpdate.
  destruct (apiFault _); [by apply R_log|].
  destruct (_ !! _); cbn [snd]; [|by apply R_log].
  etrans; [by apply R_log|]. apply R_apiserver.
Qed.

Lemma frame_ServicesClientDelete (name : string) (w : world) :
  P (ServicesDelete name) -> R w (snd (ServicesClientDelete name w)).
Proof.
  intros HP. unfold ServicesClientDelete.
  destruct (apiFault _); [by apply R_log|].
  destruct (_ !! _); cbn [snd]; [|by apply R_log].
  etrans; [by apply R_log|]. apply R_apiserver.
Qed.

Lemma frame_SecretsClientCreate (secret : v1.Secret) (w : world) :
  P (SecretsCreate secret) -> R w (snd (SecretsClientCreate secret w)).
Proof.
  intros HP. unfold SecretsClientCreate.
  destruct (apiFault _); [by apply R_log|].
  destruct (_ !! _); cbn [snd]; [by apply R_log|].
  etrans; [by apply R_log|]. apply R_apiserver.
Qed.

Lemma frame_SecretsClientDelete (name : string) (w : world) :
  P (SecretsDelete name) -> R w (snd (SecretsClientDelete name w)).
Proof.
  intros HP. unfold SecretsClientDelete.
  destruct (apiFault _); [by apply R_log|].
  destruct (_ !! _); cbn [snd]; [|by apply R_log].
  etrans; [by apply R_log|]. apply R_apiserver.
Qed.

Lemma frame_createOrUpdateService (desiredService : v1.Service) (w : world) :
  (forall svc, P (ServicesCreate svc)) -> (forall svc, P (ServicesUpdate svc)) ->
  R w (snd (createOrUpdateService desiredService w)).
Proof.
  intros Hcreate Hupdate. unfold createOrUpdateService. cbv zeta. rewrite bind_catch.
  unfold ServicesListerGet.
  destruct (services (informer w) !! _) as [existingService|]; cbn [fst snd IsNotFound].
  - destruct (bool_decide _); [reflexivity|]. frame_bind; [|reflexivity].
    by apply frame_ServicesClientUpdate.
  - frame_bind; [|reflexivity]. by apply frame_ServicesClientCreate.
Qed.

Lemma frame_ensureLoadBalancerIsStopped (w : world) :
  (forall name, P (ServicesDelete name)) -> R w (snd (ensureLoadBalancerIsStopped w)).
Proof.
  intros Hdelete. unfold ensureLoadBalancerIsStopped.
  rewrite bind_gets, (bind_run _ _ _ _ _ (serviceExists_run _ _)).
  destruct (bool_decide _); [|reflexivity]. cbn [negb].
  rewrite bind_catch, returnErr_snd. by apply frame_ServicesClientDelete.
Qed.

Lemma frame_ensureClusterIPServiceIsStopped (w : world) :
  (forall name, P (ServicesDelete name)) -> R w (snd (ensureClusterIPServiceIsStopped w)).
Proof.
  intros Hdelete. unfold ensureClusterIPServiceIsStopped.
  rewrite bind_gets, (bind_run _ _ _ _ _ (serviceExists_run _ _)).
  destruct (bool_decide _); [|reflexivity]. cbn [negb].
  rewrite bind_catch, returnErr_snd. by apply frame_ServicesClientDelete.
Qed.

Lemma frame_ensureTLSSecretIsRemoved (w : world) :
  (forall name, P (SecretsDelete name)) -> R w (snd (ensureTLSSecretIsRemoved w)).
Proof.
  intros Hdelete. unfold ensureTLSSecretIsRemoved.
  rewrite (bind_run _ _ _ _ _ (tlsSecretExists_run _)).
  destruct (bool_decide _); [|reflexivity]. cbn [negb]. rewrite bind_gets.
  frame_bind.
  - rewrite catch_snd. by apply frame_SecretsClientDelete.
  - destruct a as [err|[]]; [by destruct (IsNotFound _)|]. apply R_tlsServingCert.
Qed.

Lemma frame_loadTLSCertFromSecret (tlsSecret : v1.Secret) (w : world) :
  R w (snd (loadTLSCertFromSecret tlsSecret w)).
Proof.
  unfold loadTLSCertFromSecret. destruct (SetCertKeyContent_error _ _); apply R_tlsServingCert.
Qed.

Lemma frame_ensureTLSSecret (nameInfo : certNameInfo) (ca : CA) (w : world) :
  (forall name, P (SecretsDelete name)) -> (forall secret, P (SecretsCreate secret)) ->
  R w (snd (ensureTLSSecret nameInfo ca w)).
Proof.
  intros Hdelete Hcreate.
  assert (Hloaded : forall secret w,
            R w (snd (ensureTLSSecretIsCreatedAndLoaded nameInfo secret ca w))).
  { intros secret w0. unfold ensureTLSSecretIsCreatedAndLoaded.
    destruct secret as [secret|]; [apply frame_loadTLSCertFromSecret|].
    destruct (ready nameInfo); [|reflexivity]. cbn [negb].
    frame_bind; [|apply frame_loadTLSCertFromSecret].
    unfold createNewTLSSecret.
    destruct (CA_IssueServerCert _ _ _ _) as [err|impersonationCert]; [reflexivity|].
    destruct (certauthority_ToPEM _) as [err|[certPEM keyPEM]]; [reflexivity|].
    rewrite bind_gets. by apply frame_SecretsClientCreate. }
  unfold ensureTLSSecret. rewrite bind_gets, bind_catch. unfold SecretsListerGet.
  destruct (secrets (informer w) !! tlsSecretName (ctrl w)) as [secretFromInformer|];
    cbn [fst snd IsNotFound negb]; [|apply Hloaded].
  frame_bind; [|apply Hloaded].
  rewrite deleteTLSSecret_by_first_failure.
  destruct (firstFailingCheck nameInfo ca secretFromInformer); [|reflexivity].
  by apply frame_ensureTLSSecretIsRemoved.
Qed.

Lemma frame_ensureCASecretIsCreated (w : world) :
  (forall secret, P (SecretsCreate secret)) -> R w (snd (ensureCASecretIsCreated w)).
Proof.
  intros Hcreate. unfold ensureCASecretIsCreated. rewrite bind_gets, bind_catch.
  unfold SecretsListerGet.
  destruct (secrets (informer w) !! caSecretName (ctrl w)) as [caSecret|];
    cbn [fst snd IsNotFound negb].
  - by destruct (certauthority_Load _ _).
  - unfold createCASecret.
    destruct (certauthority_New _ _) as [err|impersonationCA]; [reflexivity|].
    destruct (CA_PrivateKeyToPEM _) as [err|caPrivateKeyPEM]; [reflexivity|].
    rewrite bind_gets. frame_bind; [|reflexivity]. by apply frame_SecretsClientCreate.
Qed.

Lemma frame_loadSignerCA (status : v1alpha1.StrategyStatus) (w : world) :
  R w (snd (loadSignerCA status w)).
Proof.
  unfold loadSignerCA. destruct (bool_decide _); cbn [negb]; [|apply R_signingCert].
  rewrite bind_gets, bind_catch. unfold SecretsListerGet.
  destruct (secrets (informer w) !! _) as [signingCertSecret|]; cbn [fst snd]; [|reflexivity].
  destruct (SetCertKeyContent_error _ _); [reflexivity|apply R_signingCert].
Qed.

(** A whole pass, given what the relation admits of the steps that touch
    the handle and the control-plane decision. *)
Hypothesis R_hasControlPlaneNodes :
  forall b w, R w (set_ctrl (set_hasControlPlaneNodes (Some b)) w).
Hypothesis R_started : forall w, R w (snd (ensureImpersonatorIsStarted w)).
Hypothesis R_stopped : forall w, R w (snd (ensureImpersonatorIsStopped true w)).
Hypothesis P_calls : forall e, isMutatingCall e = true -> P e.

Lemma frame_doSync (impersonationProxy : option v1alpha1.ImpersonationProxySpec) (w : world) :
  R w (snd (doSync impersonationProxy w)).
Proof.
  unfold doSync.
  destruct (loadImpersonationProxyConfiguration impersonationProxy) as [err|impersonationSpec];
    [reflexivity|].
  rewrite bind_gets. frame_bind.
  { destruct (hasControlPlaneNodes (ctrl w)); [reflexivity|].
    destruct HasControlPlaneNodes as [err|b]; [reflexivity|].
    exact (R_hasControlPlaneNodes b w). }
  frame_bind.
  { destruct (shouldHaveImpersonator _ _); [apply R_started|apply R_stopped]. }
  frame_bind.
  { destruct (shouldHaveLoadBalancer _ _).
    - rewrite ensureLoadBalancerIsStarted_run. apply frame_createOrUpdateService; auto.
    - apply frame_ensureLoadBalancerIsStopped; auto. }
  frame_bind.
  { destruct (shouldHaveClusterIPService _ _).
    - rewrite ensureClusterIPServiceIsStarted_run. apply frame_createOrUpdateService; auto.
    - apply frame_ensureClusterIPServiceIsStopped; auto. }
  rewrite bind_catch, respected_findDesiredTLSCertificateName.
  destruct (fst (findDesiredTLSCertificateName impersonationSpec w3)) as [err|nameInfo].
  { exact (R_tlsServingCert None _). }
  frame_bind.
  { destruct (shouldHaveTLSSecret _ _).
    - frame_bind; [apply frame_ensureCASecretIsCreated; auto|].
      frame_bind; [apply frame_ensureTLSSecret; auto|reflexivity].
    - frame_bind; [apply frame_ensureTLSSecretIsRemoved; auto|reflexivity]. }
  rewrite bind_gets.
  destruct (doSyncResult _ _ _ _ _) as [err|credentialIssuerStrategyResult]; [reflexivity|].
  frame_bind; [apply frame_loadSignerCA|reflexivity].
Qed.

Lemma frame_Sync `{Reporting} (credIssuer : error + option v1alpha1.ImpersonationProxySpec)
    (w : world) :
  R w (snd (Sync credIssuer w)).
Proof.
  unfold Sync. destruct credIssuer as [err|impersonationProxy]; [reflexivity|].
  frame_bind; [|destruct a as [err strategy]; by rewrite returnErr_snd].
  unfold strategyOfPass. rewrite bind_catch.
  destruct (fst (doSync impersonationProxy w)) as [err|strategy]; cbn [snd ret].
  - etrans; [apply frame_doSync|]. exact (R_signingCert None _).
  - apply frame_doSync.
Qed.

End Frame.

(** *** Instances of the frame rule *)

#[local] Instance serverKept_preorder : PreOrder serverKept.
Proof. split; [by intros w|]. intros w1 w2 w3. unfold serverKept. congruence. Qed.

#[local] Instance grows_preorder (P : event -> Prop) : PreOrder (grows P).
Proof.
  split.
  - intros w. exists []. split; [by rewrite app_nil_r|by constructor].
  - intros w1 w2 w3 (calls1 & He1 & HP1) (calls2 & He2 & HP2).
    exists (calls1 ++ calls2). split; [by rewrite He2, He1, app_assoc|].
    by apply Forall_app.
Qed.

Lemma grows_log (P : event -> Prop) (e : event) (w : world) : P e -> grows P w (log e w).
Proof. intros HP. exists [e]. split; [done|]. by repeat constructor. Qed.

Lemma grows_same (P : event -> Prop) (w w' : world) : events w' = events w -> grows P w w'.
Proof. intros He. exists []. split; [by rewrite app_nil_r|by constructor]. Qed.

Lemma grows_ensureImpersonatorIsStopped (shouldCloseErrChan : bool) (w : world) :
  grows isRemoval w (snd (ensureImpersonatorIsStopped shouldCloseErrChan w)).
Proof.
  unfold ensureImpersonatorIsStopped. rewrite bind_gets.
  destruct (server (ctrl w)) as [h|]; [|reflexivity].
  rewrite bind_modify.
  destruct shouldCloseErrChan; [destruct (errorChClosed h)|].
  - rewrite bind_fail. by apply grows_log.
  - rewrite !bind_modify, returnErr_snd.
    exists [closeServerStopCh; closeErrorCh]. split; [cbn; by rewrite <- app_assoc|].
    by repeat constructor.
  - rewrite bind_ret, bind_modify, returnErr_snd.
    exists [closeServerStopCh]. split; [done|]. by repeat constructor.
Qed.

(** ** The steps of a pass that succeeds *)

Lemma doSync_inv `{Environment} `{APIServer}
    (impersonationProxy : option v1alpha1.ImpersonationProxySpec) (w w' : world)
    (strategy : v1alpha1.CredentialIssuerStrategy) :
  doSync impersonationProxy w = (inr strategy, w') ->
  exists config b w0 w1 w2 w3 nameInfo impersonationCA w4,
    loadImpersonationProxyConfiguration impersonationProxy = inr config
    /\ hasControlPlaneNodes (ctrl w0) = Some b
    /\ (w0 = w
        \/ (hasControlPlaneNodes (ctrl w) = None /\ HasControlPlaneNodes = inr b
            /\ w0 = set_ctrl (set_hasControlPlaneNodes (Some b)) w))
    /\ (if shouldHaveImpersonator b config
        then ensureImpersonatorIsStarted else ensureImpersonatorIsStopped true) w0 = (inr tt, w1)
    /\ (if shouldHaveLoadBalancer b config
        then ensureLoadBalancerIsStarted config else ensureLoadBalancerIsStopped) w1 = (inr tt, w2)
    /\ (if shouldHaveClusterIPService b config
        then ensureClusterIPServiceIsStarted config else ensureClusterIPServiceIsStopped) w2
       = (inr tt, w3)
    /\ resolvedName config w3 = inr nameInfo
    /\ (if shouldHaveTLSSecret b config
        then (let* ca := ensureCASecretIsCreated in ensureTLSSecret nameInfo ca;; ret (Some ca))
        else (ensureTLSSecretIsRemoved;; ret None)) w3 = (inr impersonationCA, w4)
    /\ doSyncResult b (clockNow (ctrl w4)) nameInfo config impersonationCA = inr strategy
    /\ loadSignerCA (v1alpha1.Status strategy) w4 = (inr tt, w').
Proof.
  intros Hrun. unfold doSync in Hrun.
  destruct (loadImpersonationProxyConfiguration impersonationProxy) as [?|config] eqn:Hload;
    [discriminate|].
  rewrite bind_gets in Hrun.
  apply bind_inr in Hrun as (b & w0 & Hflag & Hrun).
  apply bind_inr in Hrun as ([] & w1 & Hserver & Hrun).
  apply bind_inr in Hrun as ([] & w2 & Hlb & Hrun).
  apply bind_inr in Hrun as ([] & w3 & Hcip & Hrun).
  rewrite bind_catch, findDesiredTLSCertificateName_run in Hrun. cbn [fst snd] in Hrun.
  destruct (resolvedName config w3) as [?|nameInfo] eqn:Hname; [discriminate|].
  apply bind_inr in Hrun as (impersonationCA & w4 & Hsecrets & Hrun).
  rewrite bind_gets in Hrun.
  destruct (doSyncResult _ _ _ _ _) as [?|result] eqn:Hresult; [discriminate|].
  apply bind_inr in Hrun as ([] & w5 & Hsigner & Hrun). injection Hrun as <- <-.
  exists config, b, w0, w1, w2, w3, nameInfo, impersonationCA, w4.
  split_and!; try done.
  - destruct (hasControlPlaneNodes (ctrl w)) as [b0|] eqn:Hcached.
    + by injection Hflag as <- <-.
    + destruct HasControlPlaneNodes as [?|b']; [discriminate|]. by injection Hflag as <- <-.
  - destruct (hasControlPlaneNodes (ctrl w)) as [b0|] eqn:Hcached.
    + injection Hflag as <- <-. by left.
    + destruct HasControlPlaneNodes as [?|b']; [discriminate|]. injection Hflag as <- <-. by right.
Qed.

(** How a Success status comes about: the impersonator is wanted, the
    name is ready and there is a CA. *)
Lemma doSyncResult_success `{Environment} (b : bool) (now : Z) (nameInfo : certNameInfo)
    (config : v1alpha1.ImpersonationProxySpec) (impersonationCA : option CA)
    (strategy : v1alpha1.CredentialIssuerStrategy) :
  (v1alpha1.Mode config = v1alpha1.ImpersonationProxyModeDisabled
   \/ v1alpha1.Mode config = v1alpha1.ImpersonationProxyModeEnabled
   \/ v1alpha1.Mode config = v1alpha1.ImpersonationProxyModeAuto) ->
  doSyncResult b now nameInfo config impersonationCA = inr strategy ->
  (shouldHaveImpersonator b config = false ->
   v1alpha1.Status strategy = v1alpha1.ErrorStrategyStatus
   /\ v1alpha1.Reason strategy = v1alpha1.DisabledStrategyReason
   /\ v1alpha1.Frontend strategy = None)
  /\ (shouldHaveImpersonator b config = true -> ready nameInfo = false ->
      v1alpha1.Status strategy = v1alpha1.ErrorStrategyStatus
      /\ v1alpha1.Reason strategy = v1alpha1.PendingStrategyReason
      /\ v1alpha1.Frontend strategy = None)
  /\ (shouldHaveImpersonator b config = true -> ready nameInfo = true ->
      exists ca,
        impersonationCA = Some ca
        /\ v1alpha1.Status strategy = v1alpha1.SuccessStrategyStatus
        /\ v1alpha1.Reason strategy = v1alpha1.ListeningStrategyReason
        /\ v1alpha1.Frontend strategy
           = Some {| v1alpha1.Endpoint := "https://" ++ clientEndpoint nameInfo;
                     v1alpha1.CertificateAuthorityData := base64_EncodeToString (CA_Bundle ca) |}).
Proof.
  intros Hmode. unfold doSyncResult, disabledExplicitly, disabledByAutoMode,
    shouldHaveImpersonator, enabledByAutoMode.
  destruct Hmode as [Hm|[Hm|Hm]]; rewrite Hm; clear Hm;
    destruct b, (ready nameInfo), impersonationCA as [ca|]; cbn;
    intros Hresult; try discriminate; injection Hresult as <-; cbn;
    split_and!; intros; try discriminate; eauto.
Qed.

Lemma ensureImpersonatorIsStopped_inr (shouldCloseErrChan : bool) (w w' : world) :
  ensureImpersonatorIsStopped shouldCloseErrChan w = (inr tt, w') -> server (ctrl w') = None.
Proof.
  unfold ensureImpersonatorIsStopped. rewrite bind_gets.
  destruct (server (ctrl w)) as [h|] eqn:Hserver.
  - rewrite bind_modify.
    destruct shouldCloseErrChan; [destruct (errorChClosed h)|];
      cbn; destruct (receiveFinalError h); cbn; intros [= <-]; done.
  - by intros [= <-].
Qed.

Lemma ensureImpersonatorIsStarted_inr `{Environment} (w w' : world) :
  ensureImpersonatorIsStarted w = (inr tt, w') ->
  exists h, server (ctrl w') = Some h /\ errorChBuf h = None /\ errorChClosed h = false.
Proof.
  unfold ensureImpersonatorIsStarted. rewrite bind_gets.
  destruct (server (ctrl w)) as [[buf closed exit]|] eqn:Hserver; cbn [errorChBuf errorChClosed exitOnStop].
  - destruct buf as [runningErr|].
    + destruct closed; [discriminate|]. cbn. by destruct runningErr.
    + destruct closed; [discriminate|]. intros [= <-]. eauto.
  - destruct (impersonatorFunc impersonationProxyPort) as [err|startImpersonatorFunc]; [discriminate|].
    cbn. intros [= <-]. cbn. eauto.
Qed.

Lemma serverKept_log (e : event) (w : world) : serverKept w (log e w).
Proof. done. Qed.

(** The steps after the server step keep the handle. *)
Lemma serverKept_service_steps `{Environment} `{APIServer} (config : v1alpha1.ImpersonationProxySpec)
    (b : bool) (w1 w2 w3 : world) :
  (if shouldHaveLoadBalancer b config
   then ensureLoadBalancerIsStarted config else ensureLoadBalancerIsStopped) w1 = (inr tt, w2) ->
  (if shouldHaveClusterIPService b config
   then ensureClusterIPServiceIsStarted config else ensureClusterIPServiceIsStopped) w2
  = (inr tt, w3) ->
  server (ctrl w3) = server (ctrl w1).
Proof.
  intros Hlb Hcip.
  pose (P := fun _ : event => True).
  assert (Hlog : forall e w, P e -> serverKept w (log e w)) by done.
  assert (Hapi : forall f w, serverKept w (set_apiserver f w)) by done.
  assert (H12 : serverKept w1 w2).
  { replace w2 with (snd ((if shouldHaveLoadBalancer b config
                           then ensureLoadBalancerIsStarted config
                           else ensureLoadBalancerIsStopped) w1)) by (by rewrite Hlb).
    destruct (shouldHaveLoadBalancer b config).
    - rewrite ensureLoadBalancerIsStarted_run.
      by apply (frame_createOrUpdateService serverKept P).
    - by apply (frame_ensureLoadBalancerIsStopped serverKept P). }
  assert (H23 : serverKept w2 w3).
  { replace w3 with (snd ((if shouldHaveClusterIPService b config
                           then ensureClusterIPServiceIsStarted config
                           else ensureClusterIPServiceIsStopped) w2)) by (by rewrite Hcip).
    destruct (shouldHaveClusterIPService b config).
    - rewrite ensureClusterIPServiceIsStarted_run.
      by apply (frame_createOrUpdateService serverKept P).
    - by apply (frame_ensureClusterIPServiceIsStopped serverKept P). }
  unfold serverKept in *. congruence.
Qed.

Lemma serverKept_after_server_step `{Environment} `{APIServer} (config : v1alpha1.ImpersonationProxySpec)
    (b : bool) (nameInfo : certNameInfo) (impersonationCA : option CA)
    (status : v1alpha1.StrategyStatus) (w1 w2 w3 w4 w' : world) :
  (if shouldHaveLoadBalancer b config
   then ensureLoadBalancerIsStarted config else ensureLoadBalancerIsStopped) w1 = (inr tt, w2) ->
  (if shouldHaveClusterIPService b config
   then ensureClusterIPServiceIsStarted config else ensureClusterIPServiceIsStopped) w2
  = (inr tt, w3) ->
  (if shouldHaveTLSSecret b config
   then (let* ca := ensureCASecretIsCreated in ensureTLSSecret nameInfo ca;; ret (Some ca))
   else (ensureTLSSecretIsRemoved;; ret None)) w3 = (inr impersonationCA, w4) ->
  loadSignerCA status w4 = (inr tt, w') ->
  server (ctrl w') = server (ctrl w1).
Proof.
  intros Hlb Hcip Hsecrets Hsigner.
  pose proof (serverKept_service_steps _ _ _ _ _ Hlb Hcip) as H13.
  pose (P := fun _ : event => True).
  assert (Hlog : forall e w, P e -> serverKept w (log e w)) by done.
  assert (Hapi : forall f w, serverKept w (set_apiserver f w)) by done.
  assert (Htls : forall content w, serverKept w (set_ctrl (set_tlsServingCert content) w)) by done.
  assert (Hsign : forall content w, serverKept w (set_ctrl (set_signingCert content) w)) by done.
  assert (H34 : serverKept w3 w4).
  { destruct (shouldHaveTLSSecret b config).
    - apply bind_inr in Hsecrets as (ca & wa & Hca & Hsecrets).
      apply bind_inr in Hsecrets as ([] & wb & Htlssecret & Hsecrets). injection Hsecrets as _ <-.
      trans wa.
      + replace wa with (snd (ensureCASecretIsCreated w3)) by (by rewrite Hca).
        by apply (frame_ensureCASecretIsCreated serverKept P).
      + replace wb with (snd (ensureTLSSecret nameInfo ca wa)) by (by rewrite Htlssecret).
        by apply (frame_ensureTLSSecret serverKept P).
    - apply bind_inr in Hsecrets as ([] & wa & Hremoved & Hsecrets). injection Hsecrets as _ <-.
      replace wa with (snd (ensureTLSSecretIsRemoved w3)) by (by rewrite Hremoved).
      by apply (frame_ensureTLSSecretIsRemoved serverKept P). }
  assert (H45 : serverKept w4 w').
  { replace w' with (snd (loadSignerCA status w4)) by (by rewrite Hsigner).
    by apply (frame_loadSignerCA serverKept). }
  unfold serverKept in *. congruence.
Qed.

Lemma loadSignerCA_inr `{Environment} (status : v1alpha1.StrategyStatus) (w w' : world) :
  loadSignerCA status w = (inr tt, w') ->
  tlsServingCertDynamicCertProvider (ctrl w') = tlsServingCertDynamicCertProvider (ctrl w)
  /\ (status <> v1alpha1.SuccessStrategyStatus -> impersonationSigningCertProvider (ctrl w') = None)
  /\ (status = v1alpha1.SuccessStrategyStatus ->
      exists signingCertSecret,
        secrets (informer w) !! impersonationSignerSecretName (ctrl w) = Some signingCertSecret
        /\ SetCertKeyContent_error
             (secretData signingCertSecret apicerts_CACertificateSecretKey)
             (secretData signingCertSecret apicerts_CACertificatePrivateKeySecretKey) = None
        /\ impersonationSigningCertProvider (ctrl w')
           = Some (secretData signingCertSecret apicerts_CACertificateSecretKey,
                   secretData signingCertSecret apicerts_CACertificatePrivateKeySecretKey)).
Proof.
  unfold loadSignerCA. destruct (bool_decide_reflect (status = v1alpha1.SuccessStrategyStatus));
    cbn [negb].
  - rewrite bind_gets, bind_catch. unfold SecretsListerGet.
    destruct (secrets (informer w) !! _) as [signingCertSecret|]; cbn [fst snd]; [|discriminate].
    destruct (SetCertKeyContent_error _ _) eqn:Hset; [discriminate|]. intros [= <-].
    split; [done|]. split; [done|]. intros _. by exists signingCertSecret.
  - intros [= <-]. by split_and!.
Qed.

Lemma loadTLSCertFromSecret_inr `{Environment} (tlsSecret : v1.Secret) (w w' : world) :
  loadTLSCertFromSecret tlsSecret w = (inr tt, w') ->
  SetCertKeyContent_error (secretData tlsSecret v1.TLSCertKey)
                          (secretData tlsSecret v1.TLSPrivateKeyKey) = None
  /\ w' = set_ctrl (set_tlsServingCert (Some (secretData tlsSecret v1.TLSCertKey,
                                              secretData tlsSecret v1.TLSPrivateKeyKey))) w.
Proof.
  unfold loadTLSCertFromSecret. destruct (SetCertKeyContent_error _ _); [discriminate|].
  by intros [= <-].
Qed.

(** A Secret reaches the serving provider in one of two ways. *)
Lemma ensureTLSSecret_inr_ready `{Environment} `{APIServer} (nameInfo : certNameInfo) (ca : CA)
    (w w' : world) :
  ensureTLSSecret nameInfo ca w = (inr tt, w') ->
  ready nameInfo = true ->
  exists secret,
    tlsServingCertDynamicCertProvider (ctrl w')
    = Some (secretData secret v1.TLSCertKey, secretData secret v1.TLSPrivateKeyKey)
    /\ SetCertKeyContent_error (secretData secret v1.TLSCertKey)
                               (secretData secret v1.TLSPrivateKeyKey) = None
    /\ ((secrets (informer w) !! tlsSecretName (ctrl w) = Some secret
         /\ deleteTLSSecretWhenCertificateDoesNotMatchDesiredState nameInfo ca secret w
            = (inr false, w)
         /\ events w' = events w)
        \/ exists w1 w2,
             respected w w1
             /\ createNewTLSSecret ca (selectedIPs nameInfo) (selectedHostname nameInfo) w1
                = (inr secret, w2)
             /\ events w' = events w2).
Proof.
  intros Hrun Hready.
  assert (Hcreated : forall w1,
            ensureTLSSecretIsCreatedAndLoaded nameInfo None ca w1 = (inr tt, w') ->
            exists secret w2,
              createNewTLSSecret ca (selectedIPs nameInfo) (selectedHostname nameInfo) w1
              = (inr secret, w2)
              /\ loadTLSCertFromSecret secret w2 = (inr tt, w')).
  { intros w1. unfold ensureTLSSecretIsCreatedAndLoaded. rewrite Hready. cbn [negb].
    intros Hcreate. apply bind_inr in Hcreate as (secret & w2 & Hcreate & Hloaded). eauto. }
  unfold ensureTLSSecret in Hrun. rewrite bind_gets, bind_catch in Hrun.
  unfold SecretsListerGet in Hrun.
  destruct (secrets (informer w) !! tlsSecretName (ctrl w)) as [secretFromInformer|] eqn:Hget;
    cbn [fst snd IsNotFound negb] in Hrun.
  - apply bind_inr in Hrun as (secretWasDeleted & w1 & Hdelete & Hrun).
    destruct secretWasDeleted.
    + apply Hcreated in Hrun as (secret & w2 & Hcreate & Hloaded).
      apply loadTLSCertFromSecret_inr in Hloaded as [Hset ->].
      exists secret. split; [done|]. split; [done|]. right. exists w1, w2.
      split; [|done].
      pose proof (respected_deleteTLSSecret nameInfo ca secretFromInformer w) as Hrespected.
      by rewrite Hdelete in Hrespected.
    + cbn in Hrun. apply loadTLSCertFromSecret_inr in Hrun as [Hset ->].
      exists secretFromInformer. split; [done|]. split; [done|]. left.
      rewrite deleteTLSSecret_by_first_failure in Hdelete.
      rewrite deleteTLSSecret_by_first_failure.
      destruct (firstFailingCheck nameInfo ca secretFromInformer).
      * by destruct (fst (ensureTLSSecretIsRemoved w)).
      * by injection Hdelete as <-.
  - apply Hcreated in Hrun as (secret & w2 & Hcreate & Hloaded).
    apply loadTLSCertFromSecret_inr in Hloaded as [Hset ->].
    exists secret. split; [done|]. split; [done|]. right. by exists w, w2.
Qed.

(** ** What a pass reads *)

Lemma sameWatched_inv (c : impersonatorConfigController) (cache cache' : cluster) :
  sameWatched c cache cache' ->
  services cache !! generatedLoadBalancerServiceName c
  = services cache' !! generatedLoadBalancerServiceName c
  /\ services cache !! generatedClusterIPServiceName c
     = services cache' !! generatedClusterIPServiceName c
  /\ secrets cache !! tlsSecretName c = secrets cache' !! tlsSecretName c
  /\ secrets cache !! caSecretName c = secrets cache' !! caSecretName c
  /\ secrets cache !! impersonationSignerSecretName c
     = secrets cache' !! impersonationSignerSecretName c.
Proof.
  intros [Hservices Hsecrets].
  assert (Hsvc : forall name,
            name = generatedLoadBalancerServiceName c \/ name = generatedClusterIPServiceName c ->
            servicesFilter c (namespace c) name = true).
  { intros name Hname. unfold servicesFilter. rewrite String.eqb_refl. cbn.
    destruct Hname as [-> | ->]; rewrite String.eqb_refl; by rewrite ?orb_true_r. }
  assert (Hsec : forall name,
            name ∈ [tlsSecretName c; caSecretName c; impersonationSignerSecretName c] ->
            secretsFilter c (namespace c) name = true).
  { intros name Hname. unfold secretsFilter. rewrite String.eqb_refl. cbn.
    by apply bool_decide_eq_true_2. }
  split_and!; [apply Hservices, Hsvc| apply Hservices, Hsvc | apply Hsecrets, Hsec
              | apply Hsecrets, Hsec | apply Hsecrets, Hsec]; auto; set_solver.
Qed.

Lemma sameWatched_respected (w w1 : world) (cache' : cluster) :
  respected w w1 ->
  sameWatched (ctrl w) (informer w) cache' ->
  sameWatched (ctrl w1) (informer w1) cache'.
Proof.
  intros (Hconf & Hinformer & _). unfold configuration in Hconf. simplify_eq.
  unfold sameWatched, servicesFilter, secretsFilter.
  repeat match goal with Heq : _ (ctrl w1) = _ (ctrl w) |- _ => rewrite Heq; clear Heq end.
  by rewrite Hinformer.
Qed.

Lemma blind_bind {A B} (m : M A) (k : A -> M B) (w : world) :
  blind m w ->
  respected w (snd (m w)) ->
  (forall a w1, m w = (inr a, w1) -> blind (k a) w1) ->
  blind (bind m k) w.
Proof.
  intros Hm Hrespected Hk cache' Hsame. unfold bind. rewrite (Hm cache' Hsame).
  destruct (m w) as [[err|a] w1] eqn:Hrun; cbn [fst snd] in *; [done|].
  apply (Hk a w1 eq_refl). by apply (sameWatched_respected w).
Qed.

(** A method that does not look at the cache at all. *)
Lemma blind_oblivious {A} (m : M A) (w : world) :
  (forall cache', m (withInformer cache' w) = (fst (m w), withInformer cache' (snd (m w)))) ->
  blind m w.
Proof. intros Hm cache' _. apply Hm. Qed.

Lemma ServicesClientCreate_withInformer `{APIServer} (svc : v1.Service) (cache' : cluster) (w : world) :
  ServicesClientCreate svc (withInformer cache' w)
  = (fst (ServicesClientCreate svc w), withInformer cache' (snd (ServicesClientCreate svc w))).
Proof.
  unfold ServicesClientCreate. destruct (apiFault _); [done|]. cbn. by destruct (_ !! _).
Qed.

Lemma ServicesClientUpdate_withInformer `{APIServer} (svc : v1.Service) (cache' : cluster) (w : world) :
  ServicesClientUpdate svc (withInformer cache' w)
  = (fst (ServicesClientUpdate svc w), withInformer cache' (snd (ServicesClientUpdate svc w))).
Proof.
  unfold ServicesClientUpdate. destruct (apiFault _); [done|]. cbn. by destruct (_ !! _).
Qed.

Lemma ServicesClientDelete_withInformer `{APIServer} (name : string) (cache' : cluster) (w : world) :
  ServicesClientDelete name (withInformer cache' w)
  = (fst (ServicesClientDelete name w), withInformer cache' (snd (ServicesClientDelete name w))).
Proof.
  unfold ServicesClientDelete. destruct (apiFault _); [done|]. cbn. by destruct (_ !! _).
Qed.

Lemma SecretsClientCreate_withInformer `{APIServer} (secret : v1.Secret) (cache' : cluster) (w : world) :
  SecretsClientCreate secret (withInformer cache' w)
  = (fst (SecretsClientCreate secret w), withInformer cache' (snd (SecretsClientCreate secret w))).
Proof.
  unfold SecretsClientCreate. destruct (apiFault _); [done|]. cbn. by destruct (_ !! _).
Qed.

Lemma SecretsClientDelete_withInformer `{APIServer} (name : string) (cache' : cluster) (w : world) :
  SecretsClientDelete name (withInformer cache' w)
  = (fst (SecretsClientDelete name w), withInformer cache' (snd (SecretsClientDelete name w))).
Proof.
  unfold SecretsClientDelete. destruct (apiFault _); [done|]. cbn. by destruct (_ !! _).
Qed.

Lemma blind_ensureImpersonatorIsStopped (shouldCloseErrChan : bool) (w : world) :
  blind (ensureImpersonatorIsStopped shouldCloseErrChan) w.
Proof.
  apply blind_oblivious. intros cache'. unfold ensureImpersonatorIsStopped. rewrite !bind_gets.
  cbn [withInformer ctrl].
  destruct (server (ctrl w)) as [h|]; [|done].
  destruct shouldCloseErrChan; [destruct (errorChClosed h)|]; cbn;
    by destruct (receiveFinalError h).
Qed.

Lemma blind_ensureImpersonatorIsStarted `{Environment} (w : world) :
  blind ensureImpersonatorIsStarted w.
Proof.
  apply blind_oblivious. intros cache'. unfold ensureImpersonatorIsStarted. rewrite !bind_gets.
  cbn [withInformer ctrl].
  destruct (server (ctrl w)) as [[buf closed exit]|]; cbn [errorChBuf errorChClosed exitOnStop].
  - destruct buf as [[runningErr|]|], closed; done.
  - by destruct (impersonatorFunc impersonationProxyPort).
Qed.

Lemma blind_createOrUpdateService `{Environment} `{APIServer} (desiredService : v1.Service)
    (w : world) :
  v1.Name (v1.Meta desiredService) = generatedLoadBalancerServiceName (ctrl w)
  \/ v1.Name (v1.Meta desiredService) = generatedClusterIPServiceName (ctrl w) ->
  blind (createOrUpdateService desiredService) w.
Proof.
  intros Hname cache' Hsame. apply sameWatched_inv in Hsame as (Hlb & Hcip & _).
  unfold createOrUpdateService. cbv zeta. rewrite !bind_catch.
  destruct (withBookkeepingAnnotation_frame desiredService) as (Hbook & _ & _). rewrite Hbook.
  unfold ServicesListerGet. cbn [withInformer informer].
  assert (Hget : services cache' !! v1.Name (v1.Meta desiredService)
                 = services (informer w) !! v1.Name (v1.Meta desiredService)).
  { by destruct Hname as [-> | ->]. }
  rewrite Hget.
  destruct (services (informer w) !! v1.Name (v1.Meta desiredService)) as [existingService|];
    cbn [fst snd IsNotFound].
  - destruct (bool_decide _); [done|].
    unfold bind. rewrite ServicesClientUpdate_withInformer.
    by destruct (ServicesClientUpdate _ w) as [[?|?] ?].
  - unfold bind. rewrite ServicesClientCreate_withInformer.
    by destruct (ServicesClientCreate _ w) as [[?|?] ?].
Qed.

Lemma returnErr_withInformer (err : option error) (cache' : cluster) (w : world) :
  returnErr err (withInformer cache' w)
  = (fst (returnErr err w), withInformer cache' (snd (returnErr err w))).
Proof. by destruct err. Qed.

Lemma blind_ensureLoadBalancerIsStarted `{Environment} `{APIServer}
    (config : v1alpha1.ImpersonationProxySpec) (w : world) :
  blind (ensureLoadBalancerIsStarted config) w.
Proof.
  intros cache' Hsame. rewrite !ensureLoadBalancerIsStarted_run.
  apply (blind_createOrUpdateService (desiredLoadBalancer (ctrl w) config) w); [by left|done].
Qed.

Lemma blind_ensureClusterIPServiceIsStarted `{Environment} `{APIServer}
    (config : v1alpha1.ImpersonationProxySpec) (w : world) :
  blind (ensureClusterIPServiceIsStarted config) w.
Proof.
  intros cache' Hsame. rewrite !ensureClusterIPServiceIsStarted_run.
  apply (blind_createOrUpdateService (desiredClusterIPService (ctrl w) config) w); [by right|done].
Qed.

Lemma blind_ensureLoadBalancerIsStopped `{APIServer} (w : world) :
  blind ensureLoadBalancerIsStopped w.
Proof.
  intros cache' Hsame. pose proof (sameWatched_inv _ _ _ Hsame) as (Hlb & _).
  unfold ensureLoadBalancerIsStopped.
  rewrite !bind_gets, !(bind_run _ _ _ _ _ (serviceExists_run _ _)).
  cbn [withInformer informer ctrl]. rewrite <- Hlb.
  destruct (bool_decide _); [|done]. cbn [negb].
  rewrite !bind_catch, ServicesClientDelete_withInformer. cbn [fst snd].
  apply returnErr_withInformer.
Qed.

Lemma blind_ensureClusterIPServiceIsStopped `{APIServer} (w : world) :
  blind ensureClusterIPServiceIsStopped w.
Proof.
  intros cache' Hsame. pose proof (sameWatched_inv _ _ _ Hsame) as (_ & Hcip & _).
  unfold ensureClusterIPServiceIsStopped.
  rewrite !bind_gets, !(bind_run _ _ _ _ _ (serviceExists_run _ _)).
  cbn [withInformer informer ctrl]. rewrite <- Hcip.
  destruct (bool_decide _); [|done]. cbn [negb].
  rewrite !bind_catch, ServicesClientDelete_withInformer. cbn [fst snd].
  apply returnErr_withInformer.
Qed.

Lemma blind_findDesiredTLSCertificateName `{Environment}
    (config : v1alpha1.ImpersonationProxySpec) (w : world) :
  blind (findDesiredTLSCertificateName config) w.
Proof.
  intros cache' Hsame. pose proof (sameWatched_inv _ _ _ Hsame) as (Hlb & Hcip & _).
  rewrite !findDesiredTLSCertificateName_run. cbn [fst snd]. f_equal.
  unfold resolvedName. cbn [withInformer informer ctrl]. by rewrite <- Hlb, <- Hcip.
Qed.

Lemma blind_ensureTLSSecretIsRemoved `{APIServer} (w : world) :
  blind ensureTLSSecretIsRemoved w.
Proof.
  intros cache' Hsame. pose proof (sameWatched_inv _ _ _ Hsame) as (_ & _ & Htls & _).
  unfold ensureTLSSecretIsRemoved. rewrite !(bind_run _ _ _ _ _ (tlsSecretExists_run _)).
  cbn [withInformer informer ctrl]. rewrite <- Htls.
  destruct (bool_decide _); [|done]. cbn [negb].
  rewrite !bind_gets, !bind_catch, SecretsClientDelete_withInformer. cbn [fst snd withInformer ctrl].
  destruct (fst (SecretsClientDelete (tlsSecretName (ctrl w)) w)) as [err|[]]; [|done].
  by destruct (IsNotFound _).
Qed.

Lemma blind_deleteTLSSecret `{Environment} `{APIServer} (nameInfo : certNameInfo) (ca : CA)
    (secret : v1.Secret) (w : world) :
  blind (deleteTLSSecretWhenCertificateDoesNotMatchDesiredState nameInfo ca secret) w.
Proof.
  intros cache' Hsame. rewrite !deleteTLSSecret_by_first_failure.
  destruct (firstFailingCheck nameInfo ca secret); [|done].
  by rewrite (blind_ensureTLSSecretIsRemoved w cache' Hsame).
Qed.

Lemma loadTLSCertFromSecret_withInformer `{Environment} (tlsSecret : v1.Secret)
    (cache' : cluster) (w : world) :
  loadTLSCertFromSecret tlsSecret (withInformer cache' w)
  = (fst (loadTLSCertFromSecret tlsSecret w),
     withInformer cache' (snd (loadTLSCertFromSecret tlsSecret w))).
Proof. unfold loadTLSCertFromSecret. by destruct (SetCertKeyContent_error _ _). Qed.

Lemma blind_ensureTLSSecretIsCreatedAndLoaded `{Environment} `{APIServer}
    (nameInfo : certNameInfo) (secret : option v1.Secret) (ca : CA) (w : world) :
  blind (ensureTLSSecretIsCreatedAndLoaded nameInfo secret ca) w.
Proof.
  apply blind_oblivious. intros cache'. unfold ensureTLSSecretIsCreatedAndLoaded.
  destruct secret as [secret|]; [apply loadTLSCertFromSecret_withInformer|].
  destruct (ready nameInfo); [|done]. cbn [negb].
  unfold bind, createNewTLSSecret.
  destruct (CA_IssueServerCert _ _ _ _) as [err|impersonationCert]; [done|].
  destruct (certauthority_ToPEM _) as [err|[certPEM keyPEM]]; [done|].
  rewrite !bind_gets. cbn [withInformer ctrl]. rewrite SecretsClientCreate_withInformer.
  destruct (SecretsClientCreate _ w) as [[err|newTLSSecret] w1]; [done|]. cbn [fst snd].
  apply loadTLSCertFromSecret_withInformer.
Qed.

Lemma blind_ensureTLSSecret `{Environment} `{APIServer} (nameInfo : certNameInfo) (ca : CA)
    (w : world) :
  blind (ensureTLSSecret nameInfo ca) w.
Proof.
  intros cache' Hsame. pose proof (sameWatched_inv _ _ _ Hsame) as (_ & _ & Htls & _).
  unfold ensureTLSSecret. rewrite !bind_gets, !bind_catch. unfold SecretsListerGet.
  cbn [withInformer informer ctrl]. rewrite <- Htls.
  destruct (secrets (informer w) !! tlsSecretName (ctrl w)) as [secretFromInformer|];
    cbn [fst snd IsNotFound negb].
  - refine (blind_bind _ _ w _ _ _ cache' Hsame).
    + apply blind_deleteTLSSecret.
    + apply respected_deleteTLSSecret.
    + intros secretWasDeleted w1 _. apply blind_ensureTLSSecretIsCreatedAndLoaded.
  - by apply blind_ensureTLSSecretIsCreatedAndLoaded.
Qed.

Lemma blind_ensureCASecretIsCreated `{Environment} `{APIServer} (w : world) :
  blind ensureCASecretIsCreated w.
Proof.
  intros cache' Hsame. pose proof (sameWatched_inv _ _ _ Hsame) as (_ & _ & _ & Hca & _).
  unfold ensureCASecretIsCreated. rewrite !bind_gets, !bind_catch. unfold SecretsListerGet.
  cbn [withInformer informer ctrl]. rewrite <- Hca.
  destruct (secrets (informer w) !! caSecretName (ctrl w)) as [caSecret|];
    cbn [fst snd IsNotFound negb].
  - by destruct (certauthority_Load _ _).
  - unfold createCASecret.
    destruct (certauthority_New _ _) as [err|impersonationCA]; [done|].
    destruct (CA_PrivateKeyToPEM _) as [err|caPrivateKeyPEM]; [done|].
    rewrite !bind_gets. cbn [withInformer ctrl]. unfold bind.
    rewrite SecretsClientCreate_withInformer.
    by destruct (SecretsClientCreate _ w) as [[err|stored] w1].
Qed.

Lemma blind_loadSignerCA `{Environment} (status : v1alpha1.StrategyStatus) (w : world) :
  blind (loadSignerCA status) w.
Proof.
  intros cache' Hsame. pose proof (sameWatched_inv _ _ _ Hsame) as (_ & _ & _ & _ & Hsigner).
  unfold loadSignerCA. destruct (bool_decide _); cbn [negb]; [|done].
  rewrite !bind_gets, !bind_catch. unfold SecretsListerGet.
  cbn [withInformer informer ctrl]. rewrite <- Hsigner.
  destruct (secrets (informer w) !! _) as [signingCertSecret|]; cbn [fst snd]; [|done].
  by destruct (SetCertKeyContent_error _ _).
Qed.

Lemma blind_bind_gets {A B} (f : world -> A) (k : A -> M B) (w : world) :
  (forall cache', f (withInformer cache' w) = f w) ->
  blind (k (f w)) w ->
  blind (bind (gets f) k) w.
Proof. intros Hf Hk cache' Hsame. rewrite !bind_gets, Hf. by apply Hk. Qed.

Ltac blind_step := apply blind_bind; [| |intros ? ? _].

Lemma blind_doSync `{Environment} `{APIServer}
    (impersonationProxy : option v1alpha1.ImpersonationProxySpec) (w : world) :
  blind (doSync impersonationProxy) w.
Proof.
  unfold doSync.
  destruct (loadImpersonationProxyConfiguration impersonationProxy) as [err|impersonationSpec];
    [by apply blind_oblivious|].
  apply blind_bind_gets; [done|].
  blind_step.
  { apply blind_oblivious. intros cache'.
    destruct (hasControlPlaneNodes (ctrl w)) as [b|]; [done|]. by destruct HasControlPlaneNodes. }
  { destruct (hasControlPlaneNodes (ctrl w)) as [b|] eqn:Hcached; [reflexivity|].
    destruct HasControlPlaneNodes as [err|b]; [reflexivity|].
    exact (respected_set_hasControlPlaneNodes b w Hcached). }
  blind_step.
  { destruct (shouldHaveImpersonator _ _);
      [apply blind_ensureImpersonatorIsStarted|apply blind_ensureImpersonatorIsStopped]. }
  { destruct (shouldHaveImpersonator _ _);
      [apply respected_ensureImpersonatorIsStarted|apply respected_ensureImpersonatorIsStopped]. }
  blind_step.
  { destruct (shouldHaveLoadBalancer _ _);
      [apply blind_ensureLoadBalancerIsStarted|apply blind_ensureLoadBalancerIsStopped]. }
  { destruct (shouldHaveLoadBalancer _ _);
      [apply respected_ensureLoadBalancerIsStarted|apply respected_ensureLoadBalancerIsStopped]. }
  blind_step.
  { destruct (shouldHaveClusterIPService _ _);
      [apply blind_ensureClusterIPServiceIsStarted|apply blind_ensureClusterIPServiceIsStopped]. }
  { destruct (shouldHaveClusterIPService _ _);
      [apply respected_ensureClusterIPServiceIsStarted|apply respected_ensureClusterIPServiceIsStopped]. }
  apply blind_bind; [| |intros r w' _].
  { intros cache' Hsame. unfold catch.
    by rewrite (blind_findDesiredTLSCertificateName impersonationSpec _ cache' Hsame). }
  { rewrite catch_snd, respected_findDesiredTLSCertificateName. reflexivity. }
  destruct r as [err|nameInfo]; [by apply blind_oblivious|].
  blind_step.
  { destruct (shouldHaveTLSSecret _ _).
    - blind_step; [apply blind_ensureCASecretIsCreated|apply respected_ensureCASecretIsCreated|].
      blind_step; [apply blind_ensureTLSSecret|apply respected_ensureTLSSecret|].
      by apply blind_oblivious.
    - blind_step; [apply blind_ensureTLSSecretIsRemoved|apply respected_ensureTLSSecretIsRemoved|].
      by apply blind_oblivious. }
  { destruct (shouldHaveTLSSecret _ _).
    - respected_bind; [apply respected_ensureCASecretIsCreated|].
      respected_bind; [apply respected_ensureTLSSecret|reflexivity].
    - respected_bind; [apply respected_ensureTLSSecretIsRemoved|reflexivity]. }
  apply blind_bind_gets; [done|].
  destruct (doSyncResult _ _ _ _ _) as [err|credentialIssuerStrategyResult];
    [by apply blind_oblivious|].
  blind_step; [apply blind_loadSignerCA|apply respected_loadSignerCA|by apply blind_oblivious].
Qed.

Lemma blind_Sync `{Environment} `{APIServer} `{Reporting}
    (credIssuer : error + option v1alpha1.ImpersonationProxySpec) (w : world) :
  blind (Sync credIssuer) w.
Proof.
  unfold Sync. destruct credIssuer as [err|impersonationProxy]; [by apply blind_oblivious|].
  blind_step.
  - intros cache' Hsame. unfold strategyOfPass. rewrite !bind_catch.
    rewrite (blind_doSync impersonationProxy w cache' Hsame). cbn [fst snd].
    by destruct (fst (doSync impersonationProxy w)).
  - apply respected_strategyOfPass.
  - destruct a as [err strategy]. apply blind_oblivious. intros cache'.
    apply returnErr_withInformer.
Qed.

(** ** Proxy server life cycle, continued *)

(** X4: stopping drops the handle.  From a world whose handle, if any, has
    an open error channel, [ensureImpersonatorIsStopped] closes the stop
    channel first and the error channel second (the latter only when asked
    to), leaves the controller without a handle whatever the server
    reported, returns exactly what the server reported, and is a no-op when
    called again. *)
Theorem ensureImpersonatorIsStopped_drops_the_handle (shouldCloseErrChan : bool) (w : world) :
  channelsOpen w ->
  let result := ensureImpersonatorIsStopped shouldCloseErrChan w in
  server (ctrl (snd result)) = None
  /\ fst result
     = match server (ctrl w) with
       | Some h => match receiveFinalError h with Some err => inl err | None => inr tt end
       | None => inr tt
       end
  /\ events (snd result)
     = events w ++ match server (ctrl w) with
                   | Some _ => closeServerStopCh :: (if shouldCloseErrChan then [closeErrorCh] else [])
                   | None => []
                   end
  /\ ensureImpersonatorIsStopped shouldCloseErrChan (snd result) = (inr tt, snd result).
Proof.
  intros Hopen. unfold ensureImpersonatorIsStopped. rewrite bind_gets.
  destruct (server (ctrl w)) as [h|] eqn:Hserver.
  - rewrite (Hopen h Hserver).
    destruct (receiveFinalError h) as [err|], shouldCloseErrChan; cbn; by rewrite <- ?app_assoc.
  - cbn. rewrite Hserver, app_nil_r. done.
Qed.

Lemma ensureImpersonatorIsStopped_drops_the_handle_witness :
  channelsOpen Ref.crashedServer
  /\ server (ctrl (snd (ensureImpersonatorIsStopped true Ref.crashedServer))) = None
  /\ events (snd (ensureImpersonatorIsStopped true Ref.crashedServer))
     = [closeServerStopCh; closeErrorCh].
Proof.
  assert (Hopen : channelsOpen Ref.crashedServer) by (intros h [= <-]; reflexivity).
  split; [exact Hopen|].
  destruct (ensureImpersonatorIsStopped_drops_the_handle true Ref.crashedServer Hopen)
    as (Hserver & _ & Hevents & _).
  split; [exact Hserver|exact Hevents].
Defined.

(** X5: starting and then stopping brings the controller back.  Without a
    handle, [ensureImpersonatorIsStarted] asks the impersonator function for
    a server on port 8444.  When that fails, the error is returned and
    nothing has changed.  Otherwise the controller holds a fresh handle with
    an open, empty error channel, and one server goroutine was started; a
    stop from there returns what the server returns on shutdown and leaves
    the controller and the store exactly as they were before the start. *)
Theorem start_then_stop_restores_the_controller `{Environment} (w : world) :
  server (ctrl w) = None ->
  match impersonatorFunc impersonationProxyPort with
  | inl err => ensureImpersonatorIsStarted w = (inl err, w)
  | inr startImpersonatorFunc =>
      exists w1 w2,
        ensureImpersonatorIsStarted w = (inr tt, w1)
        /\ server (ctrl w1)
           = Some {| errorChBuf := None; errorChClosed := false; exitOnStop := startImpersonatorFunc |}
        /\ events w1 = events w ++ [goStartImpersonator impersonationProxyPort]
        /\ ensureImpersonatorIsStopped true w1
           = (match startImpersonatorFunc with Some err => inl err | None => inr tt end, w2)
        /\ ctrl w2 = ctrl w
        /\ informer w2 = informer w
        /\ apiserver w2 = apiserver w
        /\ events w2 = events w ++ [goStartImpersonator impersonationProxyPort;
                                    closeServerStopCh; closeErrorCh]
  end.
Proof.
  intros Hserver. unfold ensureImpersonatorIsStarted. rewrite bind_gets, Hserver.
  destruct (impersonatorFunc impersonationProxyPort) as [err|startImpersonatorFunc]; [done|].
  eexists _, _. split; [reflexivity|]. split; [reflexivity|]. split; [reflexivity|].
  split; [|split_and!].
  - unfold ensureImpersonatorIsStopped. cbn. by destruct startImpersonatorFunc.
  - destruct w as [c ? ? ?], c. cbn in *. by subst.
  - done.
  - done.
  - cbn. by rewrite <- !app_assoc.
Qed.

Lemma start_then_stop_restores_the_controller_witness :
  let w := Ref.worldOf Ref.controller Ref.emptyCluster in
  server (ctrl w) = None
  /\ exists w1 w2,
       @ensureImpersonatorIsStarted Ref.environment w = (inr tt, w1)
       /\ ensureImpersonatorIsStopped true w1 = (inr tt, w2)
       /\ ctrl w2 = ctrl w.
Proof.
  intros w. split; [reflexivity|].
  pose proof (@start_then_stop_restores_the_controller Ref.environment w eq_refl) as Hround.
  cbn in Hround. destruct Hround as (w1 & w2 & Hstart & _ & _ & Hstop & Hctrl & _).
  exists w1, w2. split; [exact Hstart|]. split; [exact Hstop|exact Hctrl].
Defined.

(** ** The control-plane decision *)

(** X6: the control-plane decision is taken once.  A pass that finds a
    cached decision keeps it, whatever else happens.  A pass that finds
    none asks the cluster: when the query fails the pass fails with that
    error before it has touched anything, and otherwise the answer is
    cached, also when a later step of the pass fails, and the pass goes on
    exactly like a pass that found this answer cached. *)
Theorem doSync_decides_control_plane_once `{Environment} `{APIServer}
    (impersonationProxy : option v1alpha1.ImpersonationProxySpec)
    (impersonationSpec : v1alpha1.ImpersonationProxySpec) (w : world) :
  loadImpersonationProxyConfiguration impersonationProxy = inr impersonationSpec ->
  match hasControlPlaneNodes (ctrl w) with
  | Some b => hasControlPlaneNodes (ctrl (snd (doSync impersonationProxy w))) = Some b
  | None =>
      match HasControlPlaneNodes with
      | inl err => doSync impersonationProxy w = (inl err, w)
      | inr b =>
          hasControlPlaneNodes (ctrl (snd (doSync impersonationProxy w))) = Some b
          /\ doSync impersonationProxy w
             = doSync impersonationProxy (set_ctrl (set_hasControlPlaneNodes (Some b)) w)
      end
  end.
Proof.
  intros Hload.
  destruct (hasControlPlaneNodes (ctrl w)) as [b|] eqn:Hcached.
  - by apply (respected_doSync impersonationProxy w).
  - assert (Hstep : forall b, HasControlPlaneNodes = inr b ->
              doSync impersonationProxy w
              = doSync impersonationProxy (set_ctrl (set_hasControlPlaneNodes (Some b)) w)).
    { intros b Hquery. unfold doSync. rewrite Hload, !bind_gets, Hcached, Hquery. reflexivity. }
    destruct HasControlPlaneNodes as [err|b] eqn:Hquery.
    + unfold doSync. by rewrite Hload, bind_gets, Hcached, Hquery.
    + split; [|by apply Hstep]. rewrite (Hstep b eq_refl).
      by apply (respected_doSync impersonationProxy (set_ctrl (set_hasControlPlaneNodes (Some b)) w)).
Qed.

Lemma doSync_decides_control_plane_once_witness :
  let w := Ref.worldOf Ref.controller Ref.emptyCluster in
  @loadImpersonationProxyConfiguration Ref.environment (Some Ref.specEndpoint) = inr Ref.specEndpoint
  /\ hasControlPlaneNodes (ctrl w) = None
  /\ hasControlPlaneNodes (ctrl (snd (@doSync Ref.environment Ref.store (Some Ref.specEndpoint) w)))
     = Some false.
Proof.
  intros w.
  assert (Hload : @loadImpersonationProxyConfiguration Ref.environment (Some Ref.specEndpoint)
                  = inr Ref.specEndpoint) by (vm_compute; reflexivity).
  split; [exact Hload|]. split; [reflexivity|].
  pose proof (@doSync_decides_control_plane_once Ref.environment Ref.store _ _ w Hload) as Honce.
  cbn in Honce. exact (proj1 Honce).
Defined.

(** ** What a pass may touch *)

(** X7: a pass calls the cluster only about its own objects.  When the
    informer cache keeps every Service under its own name, every call that
    [Sync] makes is a create or update of one of the two generated
    Services, a create of the TLS or of the CA Secret, a delete of one of
    the two Services or of the TLS Secret, or an operation on the server's
    channels.  In particular the CA Secret is never deleted. *)
Theorem Sync_calls_only_its_own_objects `{Environment} `{APIServer} `{Reporting}
    (credIssuer : error + option v1alpha1.ImpersonationProxySpec) (w : world) :
  wellKeyed (informer w) ->
  exists calls,
    events (snd (Sync credIssuer w)) = events w ++ calls
    /\ Forall (ownCall (ctrl w)) calls
    /\ (tlsSecretName (ctrl w) <> caSecretName (ctrl w) ->
        SecretsDelete (caSecretName (ctrl w)) ∉ calls).
Proof.
  intros Hkeyed.
  destruct (respected_Sync credIssuer w) as (_ & _ & _ & _ & calls & Hevents & Hown).
  exists calls. split; [exact Hevents|]. split; [by apply Hown|].
  intros Hdistinct Hdelete.
  apply (proj1 (Forall_forall _ _) (Hown Hkeyed)) in Hdelete. cbn in Hdelete. congruence.
Qed.

Lemma Sync_calls_only_its_own_objects_witness :
  let w := Ref.withSigner in
  wellKeyed (informer w)
  /\ exists calls,
       events (snd (@Sync Ref.environment Ref.store Ref.reporting (inr (Some Ref.specEndpoint)) w))
       = events w ++ calls
       /\ Forall (ownCall (ctrl w)) calls.
Proof.
  intros w.
  assert (Hkeyed : wellKeyed (informer w)) by (intros k svc Hget; vm_compute in Hget; discriminate).
  split; [exact Hkeyed|].
  destruct (@Sync_calls_only_its_own_objects Ref.environment Ref.store Ref.reporting
              (inr (Some Ref.specEndpoint)) w Hkeyed) as (calls & Hevents & Hown & _).
  exists calls. split; [exact Hevents|exact Hown].
Defined.

(** X8: a pass keeps the controller consistent.  Whatever [Sync] returns,
    the configuration of the controller (namespace, resource names, labels,
    clock) and the informer cache are what they were, a cached control-plane
    decision is still cached, and a handle that the controller holds
    afterwards has an open error channel provided this was so before: the
    controller never keeps a handle whose channel it has closed. *)
Theorem Sync_keeps_the_controller_consistent `{Environment} `{APIServer} `{Reporting}
    (credIssuer : error + option v1alpha1.ImpersonationProxySpec) (w : world) :
  let w' := snd (Sync credIssuer w) in
  configuration (ctrl w') = configuration (ctrl w)
  /\ informer w' = informer w
  /\ (forall b, hasControlPlaneNodes (ctrl w) = Some b -> hasControlPlaneNodes (ctrl w') = Some b)
  /\ (channelsOpen w -> channelsOpen w').
Proof.
  destruct (respected_Sync credIssuer w) as (Hconfiguration & Hinformer & Hflag & Hopen & _).
  done.
Qed.

(** ** A pass that does not want the impersonator *)

(** X9: a pass that does not want the impersonator only takes away.  When
    the specification loads and, with the cached control-plane decision,
    asks for no impersonator, every call of the pass is a delete or the
    closing of a server channel: nothing is created or updated and no
    server is started, also when the pass fails half way.  When the pass
    succeeds, the controller holds no server handle and no signing
    credential, and the strategy is an error strategy with the reason
    Disabled and no frontend. *)
Theorem disabled_pass_only_removes `{Environment} `{APIServer}
    (impersonationProxy : option v1alpha1.ImpersonationProxySpec)
    (config : v1alpha1.ImpersonationProxySpec) (b : bool) (w : world) :
  loadImpersonationProxyConfiguration impersonationProxy = inr config ->
  hasControlPlaneNodes (ctrl w) = Some b ->
  shouldHaveImpersonator b config = false ->
  (exists calls,
     events (snd (doSync impersonationProxy w)) = events w ++ calls
     /\ Forall isRemoval calls)
  /\ (forall strategy w',
        doSync impersonationProxy w = (inr strategy, w') ->
        server (ctrl w') = None
        /\ impersonationSigningCertProvider (ctrl w') = None
        /\ v1alpha1.Status strategy = v1alpha1.ErrorStrategyStatus
        /\ v1alpha1.Reason strategy = v1alpha1.DisabledStrategyReason
        /\ v1alpha1.Frontend strategy = None).
Proof.
  intros Hload Hcached Hshould. split.
  - change (grows isRemoval w (snd (doSync impersonationProxy w))).
    assert (Hlog : forall e w, isRemoval e -> grows isRemoval w (log e w))
      by (intros; by apply grows_log).
    assert (Hapi : forall f w, grows isRemoval w (set_apiserver f w))
      by (intros; by apply grows_same).
    assert (Htls : forall content w, grows isRemoval w (set_ctrl (set_tlsServingCert content) w))
      by (intros; by apply grows_same).
    assert (Hsign : forall content w, grows isRemoval w (set_ctrl (set_signingCert content) w))
      by (intros; by apply grows_same).
    unfold doSync. rewrite Hload, bind_gets, Hcached, bind_ret.
    unfold shouldHaveLoadBalancer, shouldHaveClusterIPService, shouldHaveTLSSecret.
    rewrite Hshould. cbn [andb].
    apply (bind_respects (grows isRemoval)); [apply grows_ensureImpersonatorIsStopped|intros ? w1 _].
    apply (bind_respects (grows isRemoval)); [|intros ? w2 _].
    { by apply (frame_ensureLoadBalancerIsStopped (grows isRemoval) isRemoval). }
    apply (bind_respects (grows isRemoval)); [|intros ? w3 _].
    { by apply (frame_ensureClusterIPServiceIsStopped (grows isRemoval) isRemoval). }
    rewrite bind_catch, respected_findDesiredTLSCertificateName.
    destruct (fst (findDesiredTLSCertificateName config w3)) as [err|nameInfo].
    { by apply grows_same. }
    apply (bind_respects (grows isRemoval)); [|intros impersonationCA w4 _].
    { apply (bind_respects (grows isRemoval)); [|reflexivity].
      by apply (frame_ensureTLSSecretIsRemoved (grows isRemoval) isRemoval). }
    rewrite bind_gets.
    destruct (doSyncResult _ _ _ _ _) as [err|result]; [reflexivity|].
    apply (bind_respects (grows isRemoval)); [|reflexivity].
    by apply (frame_loadSignerCA (grows isRemoval)).
  - intros strategy w' Hrun.
    apply doSync_inv in Hrun
      as (config' & b' & w0 & w1 & w2 & w3 & nameInfo & impersonationCA & w4
          & Hload' & Hflag & Hw0 & Hserver & Hlb & Hcip & Hname & Hsecrets & Hresult & Hsigner).
    assert (config' = config) as -> by congruence.
    destruct Hw0 as [->|(Hnone & _)]; [|congruence].
    assert (b' = b) as -> by congruence.
    destruct (loadImpersonationProxyConfiguration_valid _ _ Hload) as [Hmode _].
    destruct (doSyncResult_success _ _ _ _ _ _ Hmode Hresult) as (Hdisabled & _).
    destruct (Hdisabled Hshould) as (Hstatus & Hreason & Hfrontend).
    split_and!; try done.
    + rewrite (serverKept_after_server_step _ _ _ _ _ _ _ _ _ _ Hlb Hcip Hsecrets Hsigner).
      rewrite Hshould in Hserver. by apply ensureImpersonatorIsStopped_inr in Hserver.
    + apply loadSignerCA_inr in Hsigner as (_ & Hcleared & _). apply Hcleared.
      by rewrite Hstatus.
Qed.

Lemma disabled_pass_only_removes_witness :
  let w := Ref.crashedServer in
  let config := Ref.specOf v1alpha1.ImpersonationProxyModeDisabled
                           v1alpha1.ImpersonationProxyServiceTypeLoadBalancer in
  @loadImpersonationProxyConfiguration Ref.environment (Some config) = inr config
  /\ hasControlPlaneNodes (ctrl w) = Some false
  /\ shouldHaveImpersonator false config = false
  /\ exists calls,
       events (snd (@doSync Ref.environment Ref.store (Some config) w)) = events w ++ calls
       /\ Forall isRemoval calls.
Proof.
  intros w config.
  assert (Hload : @loadImpersonationProxyConfiguration Ref.environment (Some config) = inr config)
    by (vm_compute; reflexivity).
  split; [exact Hload|]. split; [reflexivity|]. split; [reflexivity|].
  exact (proj1 (@disabled_pass_only_removes Ref.environment Ref.store (Some config) config false w
                  Hload eq_refl eq_refl)).
Defined.

(** ** Exposure Services, continued *)

Lemma tornDown_run `{APIServer} (name : string) (w : world) :
  tornDown name w
    ((let* running := serviceExists name in
      if negb running then ret tt
      else
        let* err := catch (ServicesClientDelete name) in
        returnErr (FilterOutNotFound (match err with inl e => Some e | inr _ => None end))) w).
Proof.
  unfold tornDown. rewrite (bind_run _ _ _ _ _ (serviceExists_run _ _)).
  destruct (services (informer w) !! name) as [svc|] eqn:Hcached; cbn [bool_decide negb];
    [|by rewrite bool_decide_eq_false_2 by (by intros [? ?])].
  rewrite bool_decide_eq_true_2 by eauto. cbn [negb].
  rewrite bind_catch. unfold ServicesClientDelete.
  destruct (apiFault (ServicesDelete name)) as [err|]; cbn [fst snd].
  - rewrite returnErr_snd. split_and!; try done.
    unfold FilterOutNotFound. by destruct (IsNotFound (Some err)).
  - destruct (services (apiserver (log (ServicesDelete name) w)) !! name) as [stored|] eqn:Hstored;
      cbn [fst snd FilterOutNotFound IsNotFound returnErr ret]; split_and!; try done.
    cbn in Hstored. by rewrite delete_id.
Qed.

(** X10: tearing down an exposure Service.  [ensureLoadBalancerIsStopped]
    and [ensureClusterIPServiceIsStopped] leave the controller, the cache
    and the Secrets alone.  They make no call when the cache has no such
    Service.  Otherwise they make exactly one delete call for the generated
    name; a not-found answer is taken as success, any other error is
    returned as it is, and when the call did not fail for a reason of its
    own the store holds no Service of that name afterwards, whether or not
    it held one before. *)
Theorem exposure_teardown_tolerates_not_found `{APIServer} (w : world) :
  tornDown (generatedLoadBalancerServiceName (ctrl w)) w (ensureLoadBalancerIsStopped w)
  /\ tornDown (generatedClusterIPServiceName (ctrl w)) w (ensureClusterIPServiceIsStopped w).
Proof. split; apply tornDown_run. Qed.

(** *** The bookkeeping annotation *)

Lemma String_compare_Lt_trans (s1 s2 s3 : string) :
  String.compare s1 s2 = Lt -> String.compare s2 s3 = Lt -> String.compare s1 s3 = Lt.
Proof.
  revert s2 s3. induction s1 as [|c1 s1 IH]; intros [|c2 s2] [|c3 s3]; cbn; try done.
  unfold Ascii.compare.
  destruct (N.compare_spec (N_of_ascii c1) (N_of_ascii c2)) as [H12|H12|H12];
    destruct (N.compare_spec (N_of_ascii c2) (N_of_ascii c3)) as [H23|H23|H23];
    destruct (N.compare_spec (N_of_ascii c1) (N_of_ascii c3)) as [H13|H13|H13];
    try done; try lia; eauto.
Qed.

#[local] Instance string_le_transitive : Transitive string_le.
Proof.
  intros s1 s2 s3. unfold string_le, String.leb.
  destruct (String.compare s1 s2) eqn:H12; [| |done].
  { by apply String.compare_eq_iff in H12 as ->. }
  destruct (String.compare s2 s3) eqn:H23; [| |done].
  { apply String.compare_eq_iff in H23 as <-. by rewrite H12. }
  by rewrite (String_compare_Lt_trans _ _ _ H12 H23).
Qed.

#[local] Instance string_le_total : Total string_le.
Proof. intros s1 s2. apply String.leb_total. Qed.

#[local] Instance string_le_antisymm : AntiSymm eq string_le.
Proof. intros s1 s2. apply String.leb_antisym. Qed.

(** X11: the bookkeeping annotation does not depend on the order in which
    the keys come out of the map.  [createOrUpdateService] collects the
    requested annotation keys by ranging over a map and sorts them before
    it records them.  Whatever order the range loop visits the keys in, the
    recorded list is the same: it is sorted, has no duplicates and holds
    exactly the requested keys.  When there are requested keys, the Service
    that is sent carries their JSON encoding under the bookkeeping key and
    is otherwise the desired Service; when there are none, it is the
    desired Service itself. *)
Theorem bookkeeping_is_independent_of_map_order `{Environment} (desiredService : v1.Service)
    (visited : list string) :
  visited ≡ₚ mapKeys (v1.Annotations (v1.Meta desiredService)) ->
  let recorded := sort_Strings (mapKeys (v1.Annotations (v1.Meta desiredService))) in
  sort_Strings visited = recorded
  /\ Sorted string_le recorded
  /\ NoDup recorded
  /\ (forall k, k ∈ recorded <-> is_Some (v1.Annotations (v1.Meta desiredService) !! k))
  /\ (forall k,
        v1.Annotations (v1.Meta (withBookkeepingAnnotation desiredService)) !! k
        = if decide (k = annotationKeysKey /\ recorded <> [])
          then Some (json_Marshal recorded)
          else v1.Annotations (v1.Meta desiredService) !! k)
  /\ (recorded = [] -> withBookkeepingAnnotation desiredService = desiredService).
Proof.
  intros Hvisited recorded.
  assert (Hperm : recorded ≡ₚ mapKeys (v1.Annotations (v1.Meta desiredService)))
    by apply merge_sort_Permutation.
  assert (Hempty : recorded = [] <-> v1.Annotations (v1.Meta desiredService) = ∅).
  { rewrite <- mapKeys_empty_iff. split.
    - intros Hnil. apply Permutation_nil_r. by rewrite <- Hperm, Hnil.
    - intros Hnil. apply Permutation_nil_r. by rewrite Hperm, Hnil. }
  split_and!.
  - apply (Sorted_unique string_le); [apply Sorted_merge_sort, _..|].
    unfold recorded, sort_Strings. by rewrite !merge_sort_Permutation.
  - apply Sorted_merge_sort, _.
  - rewrite Hperm. unfold mapKeys. apply NoDup_fst_map_to_list.
  - intros k. unfold recorded. by rewrite elem_of_sort_Strings, elem_of_mapKeys.
  - intros k. rewrite lookup_withBookkeepingAnnotation.
    destruct (decide (k = annotationKeysKey /\ _)) as [[Hk Hne]|Hno];
      destruct (decide (_ /\ recorded <> [])) as [[Hk' Hne']|Hno']; try done.
    + exfalso. apply Hno'. split; [done|]. by rewrite Hempty.
    + exfalso. apply Hno. split; [done|]. by rewrite <- Hempty.
  - intros Hnil. unfold withBookkeepingAnnotation.
    apply Hempty, mapKeys_empty_iff in Hnil. by rewrite Hnil.
Qed.

Lemma bookkeeping_is_independent_of_map_order_witness :
  let desiredService := Ref.desiredBC in
  mapKeys (v1.Annotations (v1.Meta desiredService)) = ["c"; "b"]
  /\ ["b"; "c"] ≡ₚ mapKeys (v1.Annotations (v1.Meta desiredService))
  /\ sort_Strings ["b"; "c"] = sort_Strings (mapKeys (v1.Annotations (v1.Meta desiredService))).
Proof.
  intros desiredService.
  assert (Hkeys : mapKeys (v1.Annotations (v1.Meta desiredService)) = ["c"; "b"])
    by (vm_compute; reflexivity).
  assert (Hvisited : ["b"; "c"] ≡ₚ mapKeys (v1.Annotations (v1.Meta desiredService))).
  { rewrite Hkeys. apply Permutation_swap. }
  split; [exact Hkeys|]. split; [exact Hvisited|].
  exact (proj1 (@bookkeeping_is_independent_of_map_order Ref.environment desiredService _ Hvisited)).
Defined.

(** ** CA and TLS Secrets, continued *)

(** X12: the CA that a pass obtains is the CA of the next pass, provided
    the cache was not stale: a CA Secret that the informer cache holds
    before the call is the one the store holds under that name.  When
    [ensureCASecretIsCreated] then returns a CA, whether loaded from the
    cached Secret or newly created and stored, and a created CA loads back
    from its PEM data, the Services and every other Secret of the store
    are untouched, and the same call on the next pass, once the cache has
    caught up with the store, returns the same CA without making any
    call. *)
Theorem ensureCASecretIsCreated_is_stable `{Environment} `{APIServer} (w w' : world) (ca : CA) :
  createdCALoads ->
  (forall caSecret,
     secrets (informer w) !! caSecretName (ctrl w) = Some caSecret ->
     secrets (apiserver w) !! caSecretName (ctrl w) = Some caSecret) ->
  ensureCASecretIsCreated w = (inr ca, w') ->
  ensureCASecretIsCreated (resync w') = (inr ca, resync w')
  /\ services (apiserver w') = services (apiserver w)
  /\ (forall k, k <> caSecretName (ctrl w) -> secrets (apiserver w') !! k = secrets (apiserver w) !! k).
Proof.
  intros Hloads Hfresh Hrun.
  assert (Hsync : secrets (apiserver w) !! caSecretName (ctrl w)
                  = secrets (informer w) !! caSecretName (ctrl w)).
  { destruct (secrets (informer w) !! caSecretName (ctrl w)) as [caSecret|] eqn:Hget.
    - by apply Hfresh.
    - by apply (ensureCASecretIsCreated_absent w w' ca). }
  destruct (ensureCASecretIsCreated_settles _ _ _ Hloads Hrun Hsync)
    as (Hstatic & Hservices & Hothers & caSecret & Hstored & Hload).
  split; [|done].
  apply static_inv in Hstatic as (_ & _ & _ & _ & Hname & _).
  rewrite (ensureCASecretIsCreated_quiet (resync w') caSecret).
  - by rewrite Hload.
  - cbn. by rewrite Hname.
Qed.

Lemma ensureCASecretIsCreated_is_stable_witness :
  let w := Ref.worldOf Ref.controller Ref.emptyCluster in
  let w' := snd (@ensureCASecretIsCreated Ref.environment Ref.store w) in
  @ensureCASecretIsCreated Ref.environment Ref.store w = (inr Ref.theCA, w')
  /\ length (events w') = 1%nat
  /\ @ensureCASecretIsCreated Ref.environment Ref.store (resync w') = (inr Ref.theCA, resync w').
Proof.
  intros w w'.
  assert (Hrun : @ensureCASecretIsCreated Ref.environment Ref.store w = (inr Ref.theCA, w'))
    by (vm_compute; reflexivity).
  assert (Hloads : @createdCALoads Ref.environment).
  { intros ca keyPEM Hnew Hkey. cbn in Hnew, Hkey. injection Hnew as <-. injection Hkey as <-.
    vm_compute. reflexivity. }
  split; [exact Hrun|]. split; [reflexivity|].
  exact (proj1 (@ensureCASecretIsCreated_is_stable Ref.environment Ref.store w w' Ref.theCA
                  Hloads (fun caSecret Hget => Hget) Hrun)).
Defined.

(** X13: the serving certificate comes from a Secret that was checked or
    freshly issued.  When [ensureTLSSecret] returns nil for a name that is
    ready, the serving provider holds the certificate and key of one
    Secret, which [SetCertKeyContent] accepted, and this Secret is either
    the one of the informer cache, which passed the comparison with the
    desired state and made the call a no-op on the cluster, or one that
    this call created under the TLS Secret name from a certificate that the
    CA issued for exactly the selected IPs and hostname, the create being
    the last call made. *)
Theorem ensureTLSSecret_serves_a_checked_certificate `{Environment} `{APIServer}
    (nameInfo : certNameInfo) (ca : CA) (w w' : world) :
  ensureTLSSecret nameInfo ca w = (inr tt, w') ->
  ready nameInfo = true ->
  exists secret,
    tlsServingCertDynamicCertProvider (ctrl w')
    = Some (secretData secret v1.TLSCertKey, secretData secret v1.TLSPrivateKeyKey)
    /\ SetCertKeyContent_error (secretData secret v1.TLSCertKey)
                               (secretData secret v1.TLSPrivateKeyKey) = None
    /\ ((secrets (informer w) !! tlsSecretName (ctrl w) = Some secret
         /\ deleteTLSSecretWhenCertificateDoesNotMatchDesiredState nameInfo ca secret w
            = (inr false, w)
         /\ events w' = events w)
        \/ (exists impersonationCert,
              CA_IssueServerCert ca
                (if negb (String.eqb (selectedHostname nameInfo) "")
                 then [selectedHostname nameInfo] else [])
                (selectedIPs nameInfo) approximatelyOneHundredYears = inr impersonationCert
              /\ certauthority_ToPEM impersonationCert
                 = inr (secretData secret v1.TLSCertKey, secretData secret v1.TLSPrivateKeyKey))
           /\ v1.Name (v1.SecretMeta secret) = tlsSecretName (ctrl w)
           /\ last (events w') = Some (SecretsCreate secret)).
Proof.
  intros Hrun Hready.
  destruct (ensureTLSSecret_inr_ready _ _ _ _ Hrun Hready)
    as (secret & Hprovider & Hset & [Hkept|(w1 & w2 & Hrespected & Hcreate & Hevents)]).
  - exists secret. split; [done|]. split; [done|]. by left.
  - exists secret. split; [done|]. split; [done|]. right.
    apply createNewTLSSecret_inv in Hcreate
      as (impersonationCert & certPEM & keyPEM & Hissue & Hpem & <- & <- & Hname & _ & _ & _ & _ & Hev2).
    destruct Hrespected as (Hconf & _). unfold configuration in Hconf.
    split_and!.
    + by exists impersonationCert.
    + rewrite Hname. congruence.
    + by rewrite Hevents, Hev2, last_snoc.
Qed.

Lemma ensureTLSSecret_serves_a_checked_certificate_witness :
  let w := Ref.withTLSSecret in
  let nameInfo := {| ready := true; selectedIPs := [net.IPv4 x0a x00 x00 x05];
                     selectedHostname := ""; clientEndpoint := "10.0.0.5" |} in
  let w' := snd (@ensureTLSSecret Ref.environment Ref.store nameInfo Ref.theCA w) in
  @ensureTLSSecret Ref.environment Ref.store nameInfo Ref.theCA w = (inr tt, w')
  /\ exists secret,
       tlsServingCertDynamicCertProvider (ctrl w')
       = Some (secretData secret v1.TLSCertKey, secretData secret v1.TLSPrivateKeyKey).
Proof.
  intros w nameInfo w'.
  assert (Hrun : @ensureTLSSecret Ref.environment Ref.store nameInfo Ref.theCA w = (inr tt, w'))
    by (vm_compute; reflexivity).
  split; [exact Hrun|].
  destruct (@ensureTLSSecret_serves_a_checked_certificate Ref.environment Ref.store nameInfo
              Ref.theCA w w' Hrun eq_refl) as (secret & Hprovider & _).
  exists secret. exact Hprovider.
Defined.

(** ** Certificate name resolver, continued *)

(** X14: a name that is ready selects IPs or a hostname, never both and
    never neither, which is what the comment on [certNameInfo] promises.
    [findDesiredTLSCertificateName] reads the cache and changes nothing.
    When it returns a name, a name that is not ready is the zero value, a
    name from an external endpoint is always ready, and a name that is
    ready selects either a non-empty list of IPs and no hostname or a
    non-empty hostname and no IP, provided that an external endpoint, when
    one is set, parses to a non-empty host. *)
Theorem ready_name_selects_one_kind `{Environment} (config : v1alpha1.ImpersonationProxySpec)
    (w : world) (nameInfo : certNameInfo) :
  (v1alpha1.ExternalEndpoint config <> "" ->
   Host (fst (endpointaddr_Parse (v1alpha1.ExternalEndpoint config) 443)) <> "") ->
  fst (findDesiredTLSCertificateName config w) = inr nameInfo ->
  snd (findDesiredTLSCertificateName config w) = w
  /\ (ready nameInfo = false -> nameInfo = certNameInfo_notReady)
  /\ (v1alpha1.ExternalEndpoint config <> "" -> ready nameInfo = true)
  /\ (ready nameInfo = true ->
      (selectedIPs nameInfo <> [] /\ selectedHostname nameInfo = "")
      \/ (selectedIPs nameInfo = [] /\ selectedHostname nameInfo <> "")).
Proof.
  intros Hhost. rewrite findDesiredTLSCertificateName_run. cbn [fst snd]. intros Hname.
  split; [done|]. split; [|split].
  - revert Hname. unfold resolvedName.
    destruct (negb _).
    { intros [= <-]. unfold findTLSCertificateNameFromEndpointConfig. by destruct (ParseIP _). }
    destruct (bool_decide _).
    + unfold nameFromClusterIPService. destruct (_ !! _) as [svc|]; [|by intros [= <-]].
      destruct (negb _); by intros [= <-].
    + unfold nameFromLoadBalancer. destruct (_ !! _) as [lb|]; [|by intros [= <-]].
      destruct (match v1.Ingress lb with [] => true | _ => _ end); [by intros [= <-]|].
      destruct (firstIngressHostname _); [by intros [= <-]|].
      destruct (firstIngressIP _) as [[ip parsedIP]|]; [by intros [= <-]|discriminate].
  - intros Hendpoint. revert Hname. unfold resolvedName.
    destruct (String.eqb_spec (v1alpha1.ExternalEndpoint config) ""); [done|]. cbn [negb].
    intros [= <-]. unfold findTLSCertificateNameFromEndpointConfig. by destruct (ParseIP _).
  - intros Hready. by apply (resolvedName_selectsOneKind config w).
Qed.

Lemma ready_name_selects_one_kind_witness :
  let w := Ref.withLoadBalancer Ref.singleIP in
  let config := Ref.specOf v1alpha1.ImpersonationProxyModeEnabled
                           v1alpha1.ImpersonationProxyServiceTypeLoadBalancer in
  exists nameInfo,
    fst (@findDesiredTLSCertificateName Ref.environment config w) = inr nameInfo
    /\ ready nameInfo = true
    /\ selectedIPs nameInfo <> [] /\ selectedHostname nameInfo = "".
Proof.
  intros w config.
  destruct (fst (@findDesiredTLSCertificateName Ref.environment config w))
    as [err|nameInfo] eqn:Hname; [vm_compute in Hname; discriminate|].
  assert (Hready : ready nameInfo = true).
  { vm_compute in Hname. by injection Hname as <-. }
  assert (Hhostname : selectedHostname nameInfo = "").
  { vm_compute in Hname. by injection Hname as <-. }
  exists nameInfo. split; [reflexivity|]. split; [exact Hready|].
  assert (Hhost : v1alpha1.ExternalEndpoint config <> "" ->
                  Host (fst (@endpointaddr_Parse Ref.environment
                               (v1alpha1.ExternalEndpoint config) 443)) <> "")
    by (intros Hne; exfalso; by apply Hne).
  destruct (@ready_name_selects_one_kind Ref.environment config w nameInfo Hhost Hname)
    as (_ & _ & _ & Hkind).
  destruct (Hkind Hready) as [[Hips _]|[_ Hne]]; [by split|].
  exfalso. by apply Hne.
Defined.

(** X15: the name of a cluster-IP Service.
    [findTLSCertificateNameFromClusterIPService] never fails and changes
    nothing.  The name is ready exactly when the cache holds the Service
    and its cluster IP is set; then the client endpoint is that cluster IP,
    no hostname is selected, and the selected IPs are the parsed entries of
    [ClusterIPs], one for each entry and in their order, or, when that list
    is empty, the parsed cluster IP alone.  An entry that does not parse
    yields the nil IP and not an error. *)
Theorem findTLSCertificateNameFromClusterIPService_never_fails `{Environment} (w : world) :
  exists nameInfo,
    findTLSCertificateNameFromClusterIPService w = (inr nameInfo, w)
    /\ (ready nameInfo = true
        <-> exists clusterIP,
              services (informer w) !! generatedClusterIPServiceName (ctrl w) = Some clusterIP
              /\ v1.ClusterIP (v1.Spec clusterIP) <> "")
    /\ (ready nameInfo = false -> nameInfo = certNameInfo_notReady)
    /\ (forall clusterIP,
          services (informer w) !! generatedClusterIPServiceName (ctrl w) = Some clusterIP ->
          ready nameInfo = true ->
          clientEndpoint nameInfo = v1.ClusterIP (v1.Spec clusterIP)
          /\ selectedHostname nameInfo = ""
          /\ selectedIPs nameInfo
             = map (fun s => default [] (ParseIP s))
                   (match v1.ClusterIPs (v1.Spec clusterIP) with
                    | [] => [v1.ClusterIP (v1.Spec clusterIP)]
                    | ips => ips
                    end)).
Proof.
  rewrite findTLSCertificateNameFromClusterIPService_run. eexists. split; [reflexivity|].
  unfold nameFromClusterIPService.
  destruct (services (informer w) !! generatedClusterIPServiceName (ctrl w)) as [clusterIP|].
  - destruct (String.eqb_spec (v1.ClusterIP (v1.Spec clusterIP)) "") as [Hip|Hip]; cbn [negb].
    + split_and!; try done.
      split; [done|]. intros (clusterIP' & [= <-] & Hne). done.
    + split_and!; try done.
      * split; [|done]. intros _. by exists clusterIP.
      * intros clusterIP' [= <-] _. cbn. split; [done|]. split; [done|].
        by destruct (v1.ClusterIPs (v1.Spec clusterIP)).
  - split_and!; try done. split; [done|]. by intros (clusterIP & ? & _).
Qed.

(** ** Reporting a pass *)

(** X16: the signing credential is loaded only by a pass that reports
    Success.  When the controller holds a signing credential after [Sync]
    ran on a CredentialIssuer, then [doSync] succeeded with the status
    Success, and the credential is the certificate and key of the signer
    Secret that the informer cache held before the pass, which
    [SetCertKeyContent] accepted.  A credential of an earlier pass does not
    survive a pass that fails or reports an error status. *)
Theorem Sync_signs_only_when_ready `{Environment} `{APIServer} `{Reporting}
    (impersonationProxy : option v1alpha1.ImpersonationProxySpec) (w : world)
    (content : bytes * bytes) :
  impersonationSigningCertProvider (ctrl (snd (Sync (inr impersonationProxy) w))) = Some content ->
  exists strategy signingCertSecret,
    fst (doSync impersonationProxy w) = inr strategy
    /\ v1alpha1.Status strategy = v1alpha1.SuccessStrategyStatus
    /\ secrets (informer w) !! impersonationSignerSecretName (ctrl w) = Some signingCertSecret
    /\ content = (secretData signingCertSecret apicerts_CACertificateSecretKey,
                  secretData signingCertSecret apicerts_CACertificatePrivateKeySecretKey)
    /\ SetCertKeyContent_error (fst content) (snd content) = None.
Proof.
  unfold Sync, strategyOfPass. rewrite bind_assoc, bind_catch.
  destruct (doSync impersonationProxy w) as [[err|strategy] w'] eqn:Hrun; cbn [fst snd].
  - rewrite bind_assoc, bind_gets, bind_assoc. unfold clearSignerCA.
    rewrite bind_modify, bind_ret, returnErr_snd. discriminate.
  - rewrite bind_ret, returnErr_snd. intros Hcontent.
    pose proof (respected_doSync impersonationProxy w) as Hpass. rewrite Hrun in Hpass.
    apply doSync_inv in Hrun
      as (config & b & w0 & w1 & w2 & w3 & nameInfo & impersonationCA & w4
          & _ & _ & _ & _ & _ & _ & _ & _ & _ & Hsigner).
    pose proof (respected_loadSignerCA (v1alpha1.Status strategy) w4) as Hlast.
    rewrite Hsigner in Hlast. cbn [snd] in Hpass, Hlast.
    destruct Hpass as (Hconf & Hinf & _). destruct Hlast as (Hconf4 & Hinf4 & _).
    assert (Hname : impersonationSignerSecretName (ctrl w4) = impersonationSignerSecretName (ctrl w)).
    { unfold configuration in Hconf, Hconf4. congruence. }
    apply loadSignerCA_inr in Hsigner as (_ & Hcleared & Hloaded).
    destruct (decide (v1alpha1.Status strategy = v1alpha1.SuccessStrategyStatus)) as [Hstatus|Hstatus].
    + destruct (Hloaded Hstatus) as (signingCertSecret & Hget & Hset & Hprovider).
      exists strategy, signingCertSecret.
      rewrite Hprovider in Hcontent. injection Hcontent as <-.
      rewrite Hname in Hget. split_and!; try done. congruence.
    + rewrite (Hcleared Hstatus) in Hcontent. discriminate.
Qed.

Lemma Sync_signs_only_when_ready_witness :
  let w := Ref.withSigner in
  let content := (Ref.pemEncode [Byte.x53], Ref.pemEncode [Byte.x53]) in
  impersonationSigningCertProvider
    (ctrl (snd (@Sync Ref.environment Ref.store Ref.reporting (inr (Some Ref.specEndpoint)) w)))
  = Some content
  /\ exists strategy,
       fst (@doSync Ref.environment Ref.store (Some Ref.specEndpoint) w) = inr strategy
       /\ v1alpha1.Status strategy = v1alpha1.SuccessStrategyStatus.
Proof.
  intros w content.
  assert (Hprovider :
    impersonationSigningCertProvider
      (ctrl (snd (@Sync Ref.environment Ref.store Ref.reporting (inr (Some Ref.specEndpoint)) w)))
    = Some content) by (vm_compute; reflexivity).
  split; [exact Hprovider|].
  destruct (@Sync_signs_only_when_ready Ref.environment Ref.store Ref.reporting _ w content Hprovider)
    as (strategy & _ & Hrun & Hstatus & _).
  exists strategy. split; [exact Hrun|exact Hstatus].
Defined.

(** X17: [Sync] reports what the pass did.  A failure to read the
    CredentialIssuer is returned, wrapped, before anything is touched.
    Otherwise [Sync] returns nil exactly when [doSync] succeeded and the
    update of the CredentialIssuer status succeeded.  When [doSync] failed,
    the strategy sent to the status update is an error strategy without
    frontend that carries the text of the error, the reason being Pending
    for a conflict or already-exists error and ErrorDuringSetup otherwise,
    and the error that [Sync] returns is an aggregate that starts with the
    error of [doSync]. *)
Theorem Sync_reports_the_pass `{Environment} `{APIServer} `{Reporting}
    (impersonationProxy : option v1alpha1.ImpersonationProxySpec) (w : world) :
  (forall err, Sync (inl err) w
               = (inl (wrapError "could not get CredentialIssuer to update" err), w))
  /\ (fst (Sync (inr impersonationProxy) w) = inr tt
      <-> exists strategy,
            fst (doSync impersonationProxy w) = inr strategy
            /\ issuerconfig_Update strategy = None)
  /\ (forall err,
        fst (doSync impersonationProxy w) = inl err ->
        exists strategy rest,
          fst (strategyOfPass impersonationProxy w) = inr (Some err, strategy)
          /\ v1alpha1.Status strategy = v1alpha1.ErrorStrategyStatus
          /\ v1alpha1.Reason strategy
             = (if IsConflict err || IsAlreadyExists err
                then v1alpha1.PendingStrategyReason
                else v1alpha1.ErrorDuringSetupStrategyReason)
          /\ v1alpha1.Message strategy = errorMessage err
          /\ v1alpha1.LastUpdateTime strategy = clockNow (ctrl w)
          /\ v1alpha1.Frontend strategy = None
          /\ fst (Sync (inr impersonationProxy) w) = inl (aggregate (err :: rest))).
Proof.
  split; [done|].
  pose proof (respected_doSync impersonationProxy w) as (Hconf & _).
  unfold Sync, strategyOfPass. rewrite !bind_assoc, !bind_catch.
  destruct (doSync impersonationProxy w) as [[err|strategy] w'] eqn:Hrun; cbn [fst snd] in *.
  - split.
    + split.
      * rewrite bind_assoc, bind_gets, bind_assoc. unfold clearSignerCA.
        rewrite bind_modify, bind_ret. unfold NewAggregate. cbn.
        by destruct (issuerconfig_Update _).
      * by intros (strategy & ? & _).
    + intros ? [= <-].
      exists (errorStrategy err (clockNow (ctrl w'))),
             (match issuerconfig_Update (errorStrategy err (clockNow (ctrl w'))) with
              | Some updateErr => [updateErr]
              | None => []
              end).
      split_and!; try done.
      cbn. unfold configuration in Hconf. congruence.
  - split; [|done]. rewrite bind_ret. unfold NewAggregate. cbn.
    destruct (issuerconfig_Update strategy) eqn:Hupdate; cbn.
    + split; [done|]. intros (strategy' & [= <-] & ?). congruence.
    + split; [|done]. intros _. by exists strategy.
Qed.

(** ** A pass that reports Success *)

(** X18: Success means that the proxy is in place.  When [doSync] returns
    a strategy with the status Success, the controller holds a server
    handle whose error channel is open and empty, the serving provider
    holds a certificate and key that [SetCertKeyContent] accepted, the
    signing provider holds the data of the signer Secret of the informer
    cache, and the strategy has the reason Listening and a frontend. *)
Theorem success_means_the_proxy_is_in_place `{Environment} `{APIServer}
    (impersonationProxy : option v1alpha1.ImpersonationProxySpec) (w w' : world)
    (strategy : v1alpha1.CredentialIssuerStrategy) :
  doSync impersonationProxy w = (inr strategy, w') ->
  v1alpha1.Status strategy = v1alpha1.SuccessStrategyStatus ->
  (exists h, server (ctrl w') = Some h /\ errorChBuf h = None /\ errorChClosed h = false)
  /\ (exists certPEM keyPEM,
        tlsServingCertDynamicCertProvider (ctrl w') = Some (certPEM, keyPEM)
        /\ SetCertKeyContent_error certPEM keyPEM = None)
  /\ (exists signingCertSecret,
        secrets (informer w) !! impersonationSignerSecretName (ctrl w) = Some signingCertSecret
        /\ impersonationSigningCertProvider (ctrl w')
           = Some (secretData signingCertSecret apicerts_CACertificateSecretKey,
                   secretData signingCertSecret apicerts_CACertificatePrivateKeySecretKey))
  /\ v1alpha1.Reason strategy = v1alpha1.ListeningStrategyReason
  /\ is_Some (v1alpha1.Frontend strategy).
Proof.
  intros Hrun Hstatus.
  pose proof (respected_doSync impersonationProxy w) as Hpass. rewrite Hrun in Hpass.
  apply doSync_inv in Hrun
    as (config & b & w0 & w1 & w2 & w3 & nameInfo & impersonationCA & w4
        & Hload & Hflag & Hw0 & Hserver & Hlb & Hcip & Hname & Hsecrets & Hresult & Hsigner).
  destruct (loadImpersonationProxyConfiguration_valid _ _ Hload) as [Hmode _].
  destruct (doSyncResult_success _ _ _ _ _ _ Hmode Hresult) as (Hdisabled & Hpending & Hready).
  destruct (shouldHaveImpersonator b config) eqn:Hshould.
  2:{ destruct (Hdisabled eq_refl) as (Herror & _). congruence. }
  destruct (ready nameInfo) eqn:Hnameready.
  2:{ destruct (Hpending eq_refl eq_refl) as (Herror & _). congruence. }
  destruct (Hready eq_refl eq_refl) as (ca & -> & _ & Hreason & Hfrontend).
  pose proof (respected_loadSignerCA (v1alpha1.Status strategy) w4) as Hlast.
  rewrite Hsigner in Hlast. cbn [snd] in Hpass, Hlast.
  destruct Hpass as (Hconf & Hinf & _). destruct Hlast as (Hconf4 & Hinf4 & _).
  pose proof (serverKept_after_server_step _ _ _ _ _ _ _ _ _ _ Hlb Hcip Hsecrets Hsigner) as Hkept.
  apply loadSignerCA_inr in Hsigner as (Htlskept & _ & Hloaded).
  split_and!.
  - rewrite Hkept. by apply ensureImpersonatorIsStarted_inr in Hserver.
  - unfold shouldHaveTLSSecret in Hsecrets. rewrite Hshould in Hsecrets.
    apply bind_inr in Hsecrets as (ca' & wa & Hca & Hsecrets).
    apply bind_inr in Hsecrets as ([] & wb & Htls & Hsecrets). injection Hsecrets as _ <-.
    apply ensureTLSSecret_inr_ready in Htls as (secret & Hprovider & Hset & _); [|done].
    rewrite Htlskept. eauto.
  - destruct (Hloaded Hstatus) as (signingCertSecret & Hget & _ & Hprovider).
    exists signingCertSecret. split; [|done].
    unfold configuration in Hconf, Hconf4. rewrite <- Hget. f_equal; congruence.
  - done.
  - by rewrite Hfrontend.
Qed.

Lemma success_means_the_proxy_is_in_place_witness :
  let w := Ref.withSigner in
  let pass := @doSync Ref.environment Ref.store (Some Ref.specEndpoint) w in
  exists strategy,
    pass = (inr strategy, snd pass)
    /\ v1alpha1.Status strategy = v1alpha1.SuccessStrategyStatus
    /\ exists h, server (ctrl (snd pass)) = Some h /\ errorChClosed h = false.
Proof.
  intros w pass.
  destruct (fst pass) as [err|strategy] eqn:Hfst; [vm_compute in Hfst; discriminate|].
  assert (Hrun : pass = (inr strategy, snd pass)).
  { rewrite <- Hfst. by destruct pass. }
  assert (Hstatus : v1alpha1.Status strategy = v1alpha1.SuccessStrategyStatus).
  { vm_compute in Hfst. by injection Hfst as <-. }
  exists strategy. split; [exact Hrun|]. split; [exact Hstatus|].
  destruct (@success_means_the_proxy_is_in_place Ref.environment Ref.store _ _ _ _ Hrun Hstatus)
    as ((h & Hserver & _ & Hopen) & _).
  exists h. split; [exact Hserver|exact Hopen].
Defined.

(** ** The TLS Secret while the name is not ready *)

(** X19: while the name is not ready the TLS Secret is removed and none is
    created.  For a name that is not ready, [ensureTLSSecret] does nothing
    when the cache has no TLS Secret; when the cache has one, whatever it
    holds, the call ends in the world that [ensureTLSSecretIsRemoved] ends
    in, having made exactly the one delete call, and it returns nil exactly
    when the removal returns nil. *)
Theorem ensureTLSSecret_removes_while_not_ready `{Environment} `{APIServer}
    (nameInfo : certNameInfo) (ca : CA) (w : world) :
  ready nameInfo = false ->
  match secrets (informer w) !! tlsSecretName (ctrl w) with
  | None => ensureTLSSecret nameInfo ca w = (inr tt, w)
  | Some secret =>
      snd (ensureTLSSecret nameInfo ca w) = snd (ensureTLSSecretIsRemoved w)
      /\ events (snd (ensureTLSSecret nameInfo ca w))
         = events w ++ [SecretsDelete (tlsSecretName (ctrl w))]
      /\ (fst (ensureTLSSecret nameInfo ca w) = inr tt <-> fst (ensureTLSSecretIsRemoved w) = inr tt)
  end.
Proof.
  intros Hready.
  destruct (secrets (informer w) !! tlsSecretName (ctrl w)) as [secret|] eqn:Hget.
  - pose proof (ensureTLSSecret_by_first_failure w nameInfo ca secret Hget) as Hchain.
    assert (Hfails : exists failure, firstFailingCheck nameInfo ca secret = Some failure).
    { unfold firstFailingCheck, validationChecks. cbn [find snd negb]. rewrite Hready.
      repeat (match goal with |- context [negb ?b] => destruct b end; cbn [negb fmap option_fmap option_map fst];
              eauto). }
    destruct Hfails as (failure & Hfails). rewrite Hfails in Hchain.
    destruct Hchain as (Hevents & _ & Hrun). rewrite Hrun.
    destruct (ensureTLSSecretIsRemoved w) as [[err|[]] w1]; cbn [fst snd] in *.
    + split; [done|]. split; [done|]. split; discriminate.
    + unfold ensureTLSSecretIsCreatedAndLoaded. rewrite Hready. by cbn.
  - unfold ensureTLSSecret. rewrite bind_gets, bind_catch. unfold SecretsListerGet.
    rewrite Hget. cbn [fst snd IsNotFound negb].
    unfold ensureTLSSecretIsCreatedAndLoaded. by rewrite Hready.
Qed.

Lemma ensureTLSSecret_removes_while_not_ready_witness :
  let w := Ref.withTLSSecret in
  ready certNameInfo_notReady = false
  /\ events (snd (@ensureTLSSecret Ref.environment Ref.store certNameInfo_notReady Ref.theCA w))
     = events w ++ [SecretsDelete (tlsSecretName (ctrl w))].
Proof.
  intros w. split; [reflexivity|].
  pose proof (@ensureTLSSecret_removes_while_not_ready Ref.environment Ref.store
                certNameInfo_notReady Ref.theCA w eq_refl) as Hremoves.
  cbn in Hremoves. exact (proj1 (proj2 Hremoves)).
Defined.

(** ** The life of a controller *)

Lemma channelProtocol_snoc (calls : list event) (e : event) :
  channelProtocol (calls ++ [e])
  = match channelProtocol calls with Some s => channelStep s e | None => None end.
Proof. unfold channelProtocol. by rewrite foldl_app. Qed.

Lemma channelStep_call (s : channelState) (e : event) :
  isMutatingCall e = true -> channelStep s e = Some s.
Proof. by destruct e. Qed.

#[local] Instance keepsOrder_preorder : PreOrder keepsOrder.
Proof.
  split; [by intros w Horderly|]. intros w1 w2 w3 H12 H23 Horderly. by apply H23, H12.
Qed.

Lemma keepsOrder_log (e : event) (w : world) : isMutatingCall e = true -> keepsOrder w (log e w).
Proof.
  intros Hcall [Hopen Hprotocol]. split; [done|].
  cbn. by rewrite channelProtocol_snoc, Hprotocol, channelStep_call.
Qed.

Lemma keepsOrder_ensureImpersonatorIsStarted `{Environment} (w : world) :
  keepsOrder w (snd (ensureImpersonatorIsStarted w)).
Proof.
  intros [Hopen Hprotocol]. unfold ensureImpersonatorIsStarted. rewrite bind_gets.
  destruct (server (ctrl w)) as [[buf closed exit]|] eqn:Hserver.
  - pose proof (Hopen _ Hserver) as Hclosed. cbn in Hclosed. subst closed.
    cbn [errorChBuf errorChClosed exitOnStop].
    destruct buf as [runningErr|]; [|split; [done|cbn; by rewrite Hserver]].
    rewrite !bind_modify, bind_catch, returnErr_snd. split; [by intros h [=]|].
    cbn. by rewrite !channelProtocol_snoc, Hprotocol.
  - destruct (impersonatorFunc impersonationProxyPort) as [err|startImpersonatorFunc].
    + split; [done|cbn; by rewrite Hserver].
    + rewrite bind_modify. split; [by intros h [= <-]|].
      cbn. by rewrite channelProtocol_snoc, Hprotocol.
Qed.

Lemma keepsOrder_ensureImpersonatorIsStopped (w : world) :
  keepsOrder w (snd (ensureImpersonatorIsStopped true w)).
Proof.
  intros [Hopen Hprotocol]. unfold ensureImpersonatorIsStopped. rewrite bind_gets.
  destruct (server (ctrl w)) as [h|] eqn:Hserver.
  - rewrite (Hopen _ Hserver), !bind_modify, returnErr_snd. split; [by intros h' [=]|].
    cbn. by rewrite !channelProtocol_snoc, Hprotocol.
  - split; [done|cbn; by rewrite Hserver].
Qed.

Lemma keepsOrder_Sync `{Environment} `{APIServer} `{Reporting}
    (credIssuer : error + option v1alpha1.ImpersonationProxySpec) (w : world) :
  keepsOrder w (snd (Sync credIssuer w)).
Proof.
  apply (frame_Sync keepsOrder (fun e => isMutatingCall e = true)).
  - apply keepsOrder_log.
  - by intros f w0 Horderly.
  - by intros content w0 Horderly.
  - by intros content w0 Horderly.
  - by intros b w0 Horderly.
  - intros w0. apply keepsOrder_ensureImpersonatorIsStarted.
  - intros w0. apply keepsOrder_ensureImpersonatorIsStopped.
  - done.
Qed.

(** X20: a controller uses the channels of its server in order.  In every
    state that a controller built by [NewImpersonatorConfigController] can
    reach by running passes (each with any answers from the cluster and the
    libraries), while the cluster and the cache change on their own and a
    running server may return at any time, the configuration is the one the
    constructor was given, a held handle has an open error channel, and the
    record of calls shows that a server was started only when none was
    running and that each channel was closed at most once and only while
    its server was there; the controller holds a handle exactly when that
    record ends with a running server. *)
Theorem reachable_states_are_orderly
    (namespace credentialIssuerResourceName : string)
    (generatedLoadBalancerServiceName generatedClusterIPServiceName : string)
    (tlsSecretName caSecretName : string) (labels : gmap string string) (clock : Z)
    (impersonationSignerSecretName : string)
    (impersonationSigningCertProvider : option (bytes * bytes)) (w : world) :
  let c0 := NewImpersonatorConfigController namespace credentialIssuerResourceName
              generatedLoadBalancerServiceName generatedClusterIPServiceName
              tlsSecretName caSecretName labels clock
              impersonationSignerSecretName impersonationSigningCertProvider in
  reachable c0 w ->
  configuration (ctrl w) = configuration c0
  /\ channelsOpen w
  /\ channelProtocol (events w)
     = Some (match server (ctrl w) with Some _ => serverRunning | None => noServer end).
Proof.
  intros c0 Hreachable.
  cut (configuration (ctrl w) = configuration c0 /\ orderly w).
  { by intros (? & ? & ?). }
  induction Hreachable as [informer0 apiserver0
                          |environment store reporting credIssuer w Hreachable [IHconf IHorderly]
                          |informer' apiserver' w Hreachable [IHconf IHorderly]
                          |h v w Hreachable [IHconf [IHopen IHprotocol]] Hserver Hbuf].
  - split; [done|]. split; [by intros h [=]|done].
  - split.
    + destruct (respected_Sync credIssuer w) as (Hconf & _). by rewrite Hconf.
    + exact (keepsOrder_Sync credIssuer w IHorderly).
  - done.
  - split; [done|]. split.
    + intros h' [= <-]. cbn. by apply IHopen.
    + change (channelProtocol (events w) = Some serverRunning).
      by rewrite IHprotocol, Hserver.
Qed.

Lemma reachable_states_are_orderly_witness :
  let c0 := NewImpersonatorConfigController "concierge" "credential-issuer"
              "impersonation-proxy-load-balancer" "impersonation-proxy-cluster-ip"
              "impersonation-proxy-tls" "impersonation-proxy-ca"
              {[ "app" := "concierge" ]} 0 "impersonation-proxy-signer" None in
  let w0 := {| ctrl := c0; informer := Ref.emptyCluster; apiserver := Ref.emptyCluster; events := [] |} in
  let w := snd (@Sync Ref.environment Ref.store Ref.reporting (inr (Some Ref.specEndpoint)) w0) in
  reachable c0 w
  /\ is_Some (server (ctrl w))
  /\ channelProtocol (events w) = Some serverRunning.
Proof.
  intros c0 w0 w.
  assert (Hreachable : reachable c0 w).
  { apply reachable_Sync. apply reachable_start. }
  assert (Hserver : is_Some (server (ctrl w))) by (vm_compute; eauto).
  split; [exact Hreachable|]. split; [exact Hserver|].
  destruct (reachable_states_are_orderly _ _ _ _ _ _ _ _ _ _ w Hreachable) as (_ & _ & Hprotocol).
  destruct Hserver as [h Hserver]. rewrite Hserver in Hprotocol. exact Hprotocol.
Defined.

(** ** What a pass reads, and what makes it run *)

(** X21: a pass reads only objects that the informer filters let through.
    The filters that [NewImpersonatorConfigController] installs let through
    the Services of the controller's namespace that bear one of the two
    generated names, and the Secrets of that namespace that bear the name of
    the TLS, the CA or the signer Secret.  [Sync] does not tell two caches
    apart that agree on these objects: it returns the same, and leaves the
    same controller, the same store and the same record of calls.  So every
    object whose change can alter a pass is one whose change triggers a
    pass. *)
Theorem Sync_reads_only_watched_objects `{Environment} `{APIServer} `{Reporting}
    (credIssuer : error + option v1alpha1.ImpersonationProxySpec) (w : world) (cache' : cluster) :
  sameWatched (ctrl w) (informer w) cache' ->
  Sync credIssuer (withInformer cache' w)
  = (fst (Sync credIssuer w), withInformer cache' (snd (Sync credIssuer w)))
  /\ (forall objNamespace objName,
        servicesFilter (ctrl w) objNamespace objName = true
        <-> objNamespace = namespace (ctrl w)
            /\ (objName = generatedLoadBalancerServiceName (ctrl w)
                \/ objName = generatedClusterIPServiceName (ctrl w)))
  /\ (forall objNamespace objName,
        secretsFilter (ctrl w) objNamespace objName = true
        <-> objNamespace = namespace (ctrl w)
            /\ (objName = tlsSecretName (ctrl w)
                \/ objName = caSecretName (ctrl w)
                \/ objName = impersonationSignerSecretName (ctrl w))).
Proof.
  intros Hsame. split; [by apply blind_Sync|]. split.
  - intros objNamespace objName. unfold servicesFilter.
    destruct (String.eqb_spec objNamespace (namespace (ctrl w))) as [->|Hns]; cbn [negb].
    + rewrite orb_true_iff, !String.eqb_eq. split; [by intros Hname|by intros [_ Hname]].
    + split; [discriminate|by intros [Hns' _]].
  - intros objNamespace objName. unfold secretsFilter.
    rewrite andb_true_iff, String.eqb_eq, bool_decide_eq_true, !elem_of_cons, elem_of_nil.
    tauto.
Qed.

Lemma Sync_reads_only_watched_objects_witness :
  let w := Ref.withSigner in
  let cache' := set_secrets (insert "unrelated" Ref.secretFor_10_0_0_5) (informer w) in
  sameWatched (ctrl w) (informer w) cache'
  /\ informer w <> cache'
  /\ fst (@Sync Ref.environment Ref.store Ref.reporting (inr (Some Ref.specEndpoint))
            (withInformer cache' w))
     = fst (@Sync Ref.environment Ref.store Ref.reporting (inr (Some Ref.specEndpoint)) w).
Proof.
  intros w cache'.
  assert (Hsame : sameWatched (ctrl w) (informer w) cache').
  { split; [done|]. intros name Hwatched. cbn.
    destruct (decide (name = "unrelated")) as [->|Hname]; [vm_compute in Hwatched; discriminate|].
    by rewrite lookup_insert_ne. }
  split; [exact Hsame|]. split.
  { intros Heq. apply (f_equal (fun cl => secrets cl !! "unrelated")) in Heq.
    vm_compute in Heq. discriminate. }
  destruct (@Sync_reads_only_watched_objects Ref.environment Ref.store Ref.reporting
              (inr (Some Ref.specEndpoint)) w cache' Hsame) as (Hrun & _).
  by rewrite Hrun.
Defined.

(** ** Passes that fail *)

(** X22: when the name cannot be determined the proxy is left without
    certificates.  When a pass has got past the server and the two Service
    steps and the cache does not yield a name (a load balancer with
    addresses of which none is usable), [doSync] fails with the resolver's
    error in the world the Service steps left, but for the serving
    provider, which is empty; after [Sync] both the serving and the signing
    provider are empty, the server handle is the one the server step left,
    and the error that [Sync] returns starts with the resolver's error. *)
Theorem unresolvable_name_empties_both_providers `{Environment} `{APIServer} `{Reporting}
    (impersonationProxy : option v1alpha1.ImpersonationProxySpec)
    (config : v1alpha1.ImpersonationProxySpec) (b : bool) (w w1 w2 w3 : world) (err : error) :
  loadImpersonationProxyConfiguration impersonationProxy = inr config ->
  hasControlPlaneNodes (ctrl w) = Some b ->
  (if shouldHaveImpersonator b config
   then ensureImpersonatorIsStarted else ensureImpersonatorIsStopped true) w = (inr tt, w1) ->
  (if shouldHaveLoadBalancer b config
   then ensureLoadBalancerIsStarted config else ensureLoadBalancerIsStopped) w1 = (inr tt, w2) ->
  (if shouldHaveClusterIPService b config
   then ensureClusterIPServiceIsStarted config else ensureClusterIPServiceIsStopped) w2
  = (inr tt, w3) ->
  fst (findDesiredTLSCertificateName config w) = inl err ->
  let w' := snd (Sync (inr impersonationProxy) w) in
  doSync impersonationProxy w = (inl err, set_ctrl (set_tlsServingCert None) w3)
  /\ tlsServingCertDynamicCertProvider (ctrl w') = None
  /\ impersonationSigningCertProvider (ctrl w') = None
  /\ server (ctrl w') = server (ctrl w1)
  /\ apiserver w' = apiserver w3
  /\ events w' = events w3
  /\ exists rest, fst (Sync (inr impersonationProxy) w) = inl (aggregate (err :: rest)).
Proof.
  intros Hload Hcached Hserver Hlb Hcip Hname.
  assert (Hrun : doSync impersonationProxy w = (inl err, set_ctrl (set_tlsServingCert None) w3)).
  { unfold doSync. rewrite Hload, bind_gets, Hcached, bind_ret.
    rewrite (bind_run _ _ _ _ _ Hserver), (bind_run _ _ _ _ _ Hlb), (bind_run _ _ _ _ _ Hcip).
    rewrite bind_catch, findDesiredTLSCertificateName_run. cbn [fst snd].
    rewrite findDesiredTLSCertificateName_run in Hname. cbn [fst] in Hname.
    assert (Hsame : resolvedName config w3 = resolvedName config w).
    { pose proof (respected_ensureImpersonatorIsStarted w) as Hstarted.
      pose proof (respected_ensureImpersonatorIsStopped true w) as Hstopped.
      pose proof (respected_ensureLoadBalancerIsStarted config w1) as Hlbstarted.
      pose proof (respected_ensureLoadBalancerIsStopped w1) as Hlbstopped.
      pose proof (respected_ensureClusterIPServiceIsStarted config w2) as Hcipstarted.
      pose proof (respected_ensureClusterIPServiceIsStopped w2) as Hcipstopped.
      assert (H01 : respected w w1)
        by (destruct (shouldHaveImpersonator b config); [by rewrite Hserver in Hstarted
                                                         |by rewrite Hserver in Hstopped]).
      assert (H12 : respected w1 w2)
        by (destruct (shouldHaveLoadBalancer b config); [by rewrite Hlb in Hlbstarted
                                                         |by rewrite Hlb in Hlbstopped]).
      assert (H23 : respected w2 w3)
        by (destruct (shouldHaveClusterIPService b config); [by rewrite Hcip in Hcipstarted
                                                             |by rewrite Hcip in Hcipstopped]).
      assert (H03 : respected w w3) by (etrans; [exact H01|]; etrans; [exact H12|exact H23]).
      destruct H03 as (Hconf & Hinformer & _). unfold configuration in Hconf.
      apply resolvedName_static; congruence. }
    by rewrite Hsame, Hname. }
  intros w'. split; [exact Hrun|].
  assert (Hsync : Sync (inr impersonationProxy) w
                  = (inl (aggregate
                       (err :: match issuerconfig_Update (errorStrategy err (clockNow (ctrl w3))) with
                               | Some updateErr => [updateErr]
                               | None => []
                               end)),
                     set_ctrl (set_signingCert None) (set_ctrl (set_tlsServingCert None) w3))).
  { unfold Sync, strategyOfPass. rewrite bind_assoc, bind_catch, Hrun. cbn [fst snd].
    rewrite bind_assoc, bind_gets, bind_assoc. unfold clearSignerCA.
    rewrite bind_modify, bind_ret. unfold NewAggregate. cbn.
    by destruct (issuerconfig_Update _). }
  unfold w'. rewrite Hsync. cbn.
  split_and!; try done.
  - by apply (serverKept_service_steps config b w1 w2 w3).
  - eauto.
Qed.

Lemma unresolvable_name_empties_both_providers_witness :
  let unusable := [ {| v1.IP := "not-an-ip"; v1.Hostname := "" |} ] in
  let w := set_ctrl (set_hasControlPlaneNodes (Some false)) (Ref.withLoadBalancer unusable) in
  let config := Ref.specOf v1alpha1.ImpersonationProxyModeEnabled
                           v1alpha1.ImpersonationProxyServiceTypeLoadBalancer in
  exists err,
    fst (@findDesiredTLSCertificateName Ref.environment config w) = inl err
    /\ fst (@doSync Ref.environment Ref.store (Some config) w) = inl err
    /\ tlsServingCertDynamicCertProvider
         (ctrl (snd (@Sync Ref.environment Ref.store Ref.reporting (inr (Some config)) w))) = None.
Proof.
  intros unusable w config.
  destruct (fst (@findDesiredTLSCertificateName Ref.environment config w)) as [err|nameInfo] eqn:Hname;
    [|vm_compute in Hname; discriminate].
  exists err. split; [reflexivity|].
  assert (Hload : @loadImpersonationProxyConfiguration Ref.environment (Some config) = inr config)
    by (vm_compute; reflexivity).
  pose (w1 := snd (@ensureImpersonatorIsStarted Ref.environment w)).
  pose (w2 := snd (@ensureLoadBalancerIsStarted Ref.environment Ref.store config w1)).
  pose (w3 := snd (@ensureClusterIPServiceIsStopped Ref.store w2)).
  destruct (@unresolvable_name_empties_both_providers Ref.environment Ref.store Ref.reporting
              (Some config) config false w w1 w2 w3 err Hload eq_refl)
    as (Hrun & Hserving & _); [vm_compute; reflexivity..|exact Hname|].
  split; [by rewrite Hrun|exact Hserving].
Defined.

(** X23: losing a race for a create is reported as Pending.  When the
    impersonator runs and a load balancer is wanted that the cache does not
    hold but the store does, because another replica has just created it,
    the create call fails with an already-exists error, which [doSync]
    returns unwrapped, so that the strategy that goes to the status update
    has the reason Pending and not ErrorDuringSetup; the store is left as
    it was. *)
Theorem racing_create_is_reported_as_pending `{Environment} `{APIServer} `{Reporting}
    (impersonationProxy : option v1alpha1.ImpersonationProxySpec)
    (config : v1alpha1.ImpersonationProxySpec) (b : bool) (w : world) (h : serverHandle)
    (stored : v1.Service) :
  (forall name, IsAlreadyExists (StatusError StatusReasonAlreadyExists name) = true) ->
  (forall svc, apiFault (ServicesCreate svc) = None) ->
  loadImpersonationProxyConfiguration impersonationProxy = inr config ->
  hasControlPlaneNodes (ctrl w) = Some b ->
  shouldHaveLoadBalancer b config = true ->
  server (ctrl w) = Some h -> errorChBuf h = None -> errorChClosed h = false ->
  services (informer w) !! generatedLoadBalancerServiceName (ctrl w) = None ->
  services (apiserver w) !! generatedLoadBalancerServiceName (ctrl w) = Some stored ->
  let alreadyExists := StatusError StatusReasonAlreadyExists (generatedLoadBalancerServiceName (ctrl w)) in
  fst (doSync impersonationProxy w) = inl alreadyExists
  /\ apiserver (snd (doSync impersonationProxy w)) = apiserver w
  /\ exists strategy,
       fst (strategyOfPass impersonationProxy w) = inr (Some alreadyExists, strategy)
       /\ v1alpha1.Status strategy = v1alpha1.ErrorStrategyStatus
       /\ v1alpha1.Reason strategy = v1alpha1.PendingStrategyReason.
Proof.
  intros Hrecognised Hfault Hload Hcached Hshould Hserver Hbuf Hopen Hcache Hstore alreadyExists.
  assert (Himpersonator : shouldHaveImpersonator b config = true).
  { unfold shouldHaveLoadBalancer in Hshould. by apply andb_true_iff in Hshould as [? _]. }
  assert (Hstarted : ensureImpersonatorIsStarted w = (inr tt, w)).
  { unfold ensureImpersonatorIsStarted. by rewrite bind_gets, Hserver, Hbuf, Hopen. }
  assert (Hcreate : ensureLoadBalancerIsStarted config w
                    = (inl alreadyExists,
                       log (ServicesCreate (withBookkeepingAnnotation (desiredLoadBalancer (ctrl w) config))) w)).
  { rewrite ensureLoadBalancerIsStarted_run. unfold createOrUpdateService. cbv zeta.
    rewrite bind_catch.
    destruct (withBookkeepingAnnotation_frame (desiredLoadBalancer (ctrl w) config)) as (Hbook & _ & _).
    unfold ServicesListerGet. rewrite Hbook. cbn [desiredLoadBalancer v1.Meta v1.Name].
    rewrite Hcache. cbn [fst snd IsNotFound]. unfold bind, ServicesClientCreate.
    rewrite Hfault. cbn [log apiserver]. rewrite Hbook. cbn [desiredLoadBalancer v1.Meta v1.Name].
    by rewrite Hstore. }
  assert (Hrun : doSync impersonationProxy w
                 = (inl alreadyExists,
                    log (ServicesCreate (withBookkeepingAnnotation (desiredLoadBalancer (ctrl w) config))) w)).
  { unfold doSync. rewrite Hload, bind_gets, Hcached, bind_ret, Himpersonator, Hshould.
    rewrite (bind_run _ _ _ _ _ Hstarted). unfold bind at 1. by rewrite Hcreate. }
  rewrite Hrun. split; [done|]. split; [done|].
  exists (errorStrategy alreadyExists (clockNow (ctrl w))).
  unfold strategyOfPass. rewrite bind_catch, Hrun. cbn [fst snd].
  split; [done|]. split; [done|].
  cbn. unfold strategyReasonForError, alreadyExists. by rewrite Hrecognised, orb_true_r.
Qed.

Lemma racing_create_is_reported_as_pending_witness :
  let h := {| errorChBuf := None; errorChClosed := false; exitOnStop := None |} in
  let c := set_server (Some h) (set_hasControlPlaneNodes (Some false) Ref.controller) in
  let stored := Ref.loadBalancerWith [] in
  let w := {| ctrl := c; informer := Ref.emptyCluster;
              apiserver := set_services (insert (generatedLoadBalancerServiceName c) stored)
                             Ref.emptyCluster;
              events := [] |} in
  let config := Ref.specOf v1alpha1.ImpersonationProxyModeEnabled
                           v1alpha1.ImpersonationProxyServiceTypeLoadBalancer in
  services (informer w) !! generatedLoadBalancerServiceName (ctrl w) = None
  /\ services (apiserver w) !! generatedLoadBalancerServiceName (ctrl w) = Some stored
  /\ exists strategy,
       fst (@strategyOfPass Ref.environment Ref.store Ref.reporting (Some config) w)
       = inr (Some (StatusError StatusReasonAlreadyExists (generatedLoadBalancerServiceName c)),
              strategy)
       /\ v1alpha1.Reason strategy = v1alpha1.PendingStrategyReason.
Proof.
  intros h c stored w config.
  assert (Hcache : services (informer w) !! generatedLoadBalancerServiceName (ctrl w) = None)
    by reflexivity.
  assert (Hstore : services (apiserver w) !! generatedLoadBalancerServiceName (ctrl w) = Some stored)
    by (vm_compute; reflexivity).
  assert (Hload : @loadImpersonationProxyConfiguration Ref.environment (Some config) = inr config)
    by (vm_compute; reflexivity).
  split; [exact Hcache|]. split; [exact Hstore|].
  destruct (@racing_create_is_reported_as_pending Ref.environment Ref.store Ref.reporting
              (Some config) config false w h stored
              (fun name => eq_refl) (fun svc => eq_refl) Hload eq_refl eq_refl eq_refl eq_refl eq_refl
              Hcache Hstore)
    as (_ & _ & strategy & Hstrategy & _ & Hreason).
  exists strategy. split; [exact Hstrategy|exact Hreason].
Defined.

(** ** Replacing the TLS Secret *)

(** X24: a TLS Secret that does not fit is replaced within the same pass.
    [ensureTLSSecret] does not wait for the informer cache after it has
    deleted a Secret.  When the name is ready, the cached Secret is one
    that the comparison with the desired state does not keep, the store
    holds a TLS Secret and fails no call for reasons of its own, and the CA
    issues a certificate that the serving provider accepts, the call makes
    exactly two calls, the delete and then the create of a Secret with the
    new certificate and key, returns nil, and leaves that Secret in the
    store and its certificate and key in the serving provider. *)
Theorem unfit_secret_is_replaced_in_the_same_pass `{Environment} `{APIServer}
    (nameInfo : certNameInfo) (ca : CA) (w : world) (secretFromInformer stored : v1.Secret)
    (impersonationCert : tls_Certificate) (certPEM keyPEM : bytes) :
  ready nameInfo = true ->
  secrets (informer w) !! tlsSecretName (ctrl w) = Some secretFromInformer ->
  fst (deleteTLSSecretWhenCertificateDoesNotMatchDesiredState nameInfo ca secretFromInformer w)
    <> inr false ->
  secrets (apiserver w) !! tlsSecretName (ctrl w) = Some stored ->
  (forall call, apiFault call = None) ->
  CA_IssueServerCert ca
    (if negb (String.eqb (selectedHostname nameInfo) "") then [selectedHostname nameInfo] else [])
    (selectedIPs nameInfo) approximatelyOneHundredYears = inr impersonationCert ->
  certauthority_ToPEM impersonationCert = inr (certPEM, keyPEM) ->
  SetCertKeyContent_error certPEM keyPEM = None ->
  exists newTLSSecret w',
    ensureTLSSecret nameInfo ca w = (inr tt, w')
    /\ events w' = events w ++ [SecretsDelete (tlsSecretName (ctrl w)); SecretsCreate newTLSSecret]
    /\ secrets (apiserver w') = <[tlsSecretName (ctrl w) := newTLSSecret]> (secrets (apiserver w))
    /\ v1.Name (v1.SecretMeta newTLSSecret) = tlsSecretName (ctrl w)
    /\ v1.SecretType_ newTLSSecret = v1.SecretTypeTLS
    /\ secretData newTLSSecret v1.TLSCertKey = certPEM
    /\ secretData newTLSSecret v1.TLSPrivateKeyKey = keyPEM
    /\ tlsServingCertDynamicCertProvider (ctrl w') = Some (certPEM, keyPEM).
Proof.
  intros Hready Hcache Hunfit Hstore Hfault Hissue Hpem Hset.
  pose proof (ensureTLSSecret_by_first_failure w nameInfo ca secretFromInformer Hcache) as Hchain.
  destruct (firstFailingCheck nameInfo ca secretFromInformer) as [failure|].
  2:{ destruct Hchain as [Hkept _]. by rewrite Hkept in Hunfit. }
  destruct Hchain as (_ & _ & Hrun). rewrite Hrun. clear Hrun.
  rewrite (ensureTLSSecretIsRemoved_found w secretFromInformer Hcache).
  unfold deleteOutcome. rewrite Hfault, Hstore. cbn [fst snd].
  set (w1 := set_ctrl (set_tlsServingCert None) _).
  destruct (createNewTLSSecret ca (selectedIPs nameInfo) (selectedHostname nameInfo) w1)
    as [[err|newTLSSecret] w2] eqn:Hcreate.
  { exfalso. revert Hcreate. unfold createNewTLSSecret. rewrite Hissue, Hpem, bind_gets.
    unfold SecretsClientCreate. rewrite Hfault.
    cbn [log set_ctrl set_apiserver set_secrets apiserver ctrl secrets v1.SecretMeta v1.Name
         set_tlsServingCert tlsSecretName w1].
    by rewrite lookup_delete_eq. }
  pose proof Hcreate as Hcreate0. pose proof Hcreate as Hshape. revert Hshape.
  unfold createNewTLSSecret. rewrite Hissue, Hpem, bind_gets.
  unfold SecretsClientCreate. rewrite Hfault.
  cbn [log set_ctrl set_apiserver set_secrets apiserver ctrl secrets v1.SecretMeta v1.Name
       set_tlsServingCert tlsSecretName w1].
  rewrite lookup_delete_eq. intros [= Hsecret Hw2].
  apply createNewTLSSecret_inv in Hcreate
    as (cert' & certPEM' & keyPEM' & Hissue' & Hpem' & Hcrt & Hkey & Hname & Hctrl & _ & _
        & Hsecrets & Hevents).
  rewrite Hissue in Hissue'. injection Hissue' as <-.
  rewrite Hpem in Hpem'. injection Hpem' as <- <-.
  exists newTLSSecret, (set_ctrl (set_tlsServingCert (Some (certPEM, keyPEM))) w2).
  split_and!.
  - unfold ensureTLSSecretIsCreatedAndLoaded. rewrite Hready. cbn [negb].
    rewrite (bind_run _ _ _ _ _ Hcreate0).
    unfold loadTLSCertFromSecret. by rewrite Hcrt, Hkey, Hset.
  - cbn. rewrite Hevents. cbn. by rewrite <- app_assoc.
  - cbn. rewrite Hsecrets. cbn. by rewrite insert_delete_eq.
  - by rewrite Hname.
  - by rewrite <- Hsecret.
  - done.
  - done.
  - done.
Qed.

Lemma unfit_secret_is_replaced_in_the_same_pass_witness :
  let w := Ref.withTLSSecret in
  let nameInfo := {| ready := true; selectedIPs := [net.IPv4 x0a x00 x00 x06];
                     selectedHostname := ""; clientEndpoint := "10.0.0.6" |} in
  secrets (informer w) !! tlsSecretName (ctrl w) = Some Ref.secretFor_10_0_0_5
  /\ fst (@deleteTLSSecretWhenCertificateDoesNotMatchDesiredState Ref.environment Ref.store
            nameInfo Ref.theCA Ref.secretFor_10_0_0_5 w) <> inr false
  /\ exists newTLSSecret w',
       @ensureTLSSecret Ref.environment Ref.store nameInfo Ref.theCA w = (inr tt, w')
       /\ events w' = events w ++ [SecretsDelete (tlsSecretName (ctrl w)); SecretsCreate newTLSSecret].
Proof.
  intros w nameInfo.
  assert (Hcache : secrets (informer w) !! tlsSecretName (ctrl w) = Some Ref.secretFor_10_0_0_5)
    by (vm_compute; reflexivity).
  assert (Hunfit : fst (@deleteTLSSecretWhenCertificateDoesNotMatchDesiredState Ref.environment
                          Ref.store nameInfo Ref.theCA Ref.secretFor_10_0_0_5 w) <> inr false)
    by (vm_compute; discriminate).
  split; [exact Hcache|]. split; [exact Hunfit|].
  destruct (@CA_IssueServerCert Ref.environment Ref.theCA [] (selectedIPs nameInfo)
              approximatelyOneHundredYears) as [err|impersonationCert] eqn:Hissue;
    [vm_compute in Hissue; discriminate|].
  destruct (@unfit_secret_is_replaced_in_the_same_pass Ref.environment Ref.store nameInfo Ref.theCA w
              Ref.secretFor_10_0_0_5 Ref.secretFor_10_0_0_5 impersonationCert
              (Ref.pemEncode impersonationCert) (Ref.pemEncode impersonationCert)
              eq_refl Hcache Hunfit)
    as (newTLSSecret & w' & Hrun & Hevents & _).
  - vm_compute. reflexivity.
  - intros call. reflexivity.
  - exact Hissue.
  - reflexivity.
  - vm_compute in Hissue. injection Hissue as <-. vm_compute. reflexivity.
  - exists newTLSSecret, w'. split; [exact Hrun|exact Hevents].
Defined.
